(* ===== verification/_CoqProject ===== *)
-Q . S2P
Prelude.v
PyStr.v
Uuid.v
Store.v
StoreFacts.v
Demo.v
Outbox.v
OutboxFacts.v
OutboxLiveness.v
OutboxRelays.v
OutboxRetention.v
Users.v
UsersFacts.v
Authz.v
AuthzFacts.v
AuthRepo.v
Principals.v
Auth.v
Gdpr.v
AuthRepoFacts.v
DemoAuth.v
PrincipalsFacts.v
RefreshFamilies.v
AuthFacts.v
AuthTokens.v
AuthRetention.v
Bootstrap.v
GdprFacts.v
Files.v
FilesFacts.v
Jobs.v
JobsFacts.v
RateLimit.v
RateLimitFacts.v
Json.v
JsonFacts.v
Redaction.v
RedactionFacts.v
Http.v
AuthHttp.v
AuthHttpFacts.v
UsersHttp.v
UsersHttpFacts.v
Calendar.v
CalendarFacts.v
Cursor.v
CursorFacts.v
Listing.v
ListingFacts.v
Export.v
ExportFacts.v
RedisCache.v
RedisCacheFacts.v
Settings.v
SettingsFacts.v
Email.v
EmailFacts.v
Startup.v
StartupFacts.v
Health.v
Lifespan.v
LifespanFacts.v
Schema.v
Migrations.v
MigrationsFacts.v
MigrationsChain.v
Wiring.v
WiringFacts.v
Middleware.v
MiddlewareFacts.v
Logging.v
LoggingFacts.v
ErrorReporting.v
ErrorReportingFacts.v
Telemetry.v
TelemetryFacts.v
S3.v
S3Facts.v
