(* ===== verification/Prelude.v ===== *)
(** * Verification of the FastAPI starter template

    A shallow embedding of the application's own logic (under [src/], package
    root [src/src/]) with the theorems that make it correct.  Python procedures
    are functions in a state-and-exception monad over explicit state; tables are
    finite maps of rows; everything is executable, and every property with a
    hypothesis is evaluated on a concrete input.

    ** The program and how its parts interact

    The service is a set of features around one PostgreSQL schema.  A request
    passes rate limiters and, with a bearer token, the principal cache; a use
    case opens sessions or a transaction on its repository; work that must happen
    after a commit is written to the transactional outbox in the same
    transaction, claimed by a relay, handed to a job queue and run by the handler
    a feature registered, which deduplicates deliveries.

    ** Files

    Foundations.  [Prelude]: JSON values, [Result] ([shared/result.py]),
    exceptions, the monad [M S A := S → outcome A * S], automation.  [PyStr]: the
    string methods in use and [normalization.py].  [Uuid]: [str] and parsing of
    UUIDs.  [Store]: the shared schema as records and maps, its constraints
    ([db_ok]), sessions and transactions ([write_scope]: the session is a copy of
    the committed rows, published on success, dropped on an exception), and the
    class [Env] of what the process cannot compute: clock readings, random
    identifiers and tokens, Argon2, SHA-256, trace carriers.  [StoreFacts]: which
    updates keep the constraints, queries and sorting.  [Demo], [DemoAuth]:
    concrete instances on which the witnesses run.

    Outbox ([features/outbox]).  [Outbox]: the producer's writer and unit of work
    ([SessionSQLModelOutboxAdapter], [SQLModelOutboxUnitOfWork]), the relay's
    repository ([SQLModelOutboxRepository]), the tick ([DispatchPending]),
    retention ([PruneOutbox]), dedup, the re-arm command, settings and cron.
    [OutboxFacts]: the claim query and the refinement of an abstract tick.
    [OutboxRelays]: any interleaving of several relays, with crashes, as a step
    relation.  [OutboxLiveness]: every message is delivered or failed after as
    many ticks as it has attempts left.  [OutboxRetention]: the prune loops end
    and delete exactly what expired; dedup; atomicity of producers.

    Users ([features/users]).  [Users]: both repositories, the account use cases,
    the registrar.  [UsersFacts]: both repositories agree, addresses are
    canonical and unique, account state only moves forward, keyset pages tile the
    table.

    Authorization ([features/authorization]).  [Authz]: the registry, the
    relationship engine, the administrator bootstrap.  [AuthzFacts]: a check
    decides exactly the granted relations over the parent walk, writes have set
    semantics and bump each affected account once.  [Bootstrap]: the bootstrap
    with its real adapters never promotes an account without consent and password.

    Authentication ([features/authentication]).  [AuthRepo]: the four transaction
    objects and the repository.  [Principals]: access tokens, the cache port as a
    class with its laws, the in-process cache, principal resolution.  [Auth]: the
    use cases.  [AuthRepoFacts], [PrincipalsFacts]: runs of the statements, the
    in-process cache implements its port, token round trip.  [RedisCache],
    [RedisCacheFacts]: the Redis-backed cache implements the port too, and a
    session with whatever implements it is served as by a plain map, with misses.
    [RefreshFamilies]: over any
    sequence of requests (a step relation of all operations that touch tokens) a
    token family has one owner and at most one live token, and a replay kills it
    for good.  [AuthFacts], [AuthTokens], [AuthRetention]: rotation, login,
    registration, reset, verification and purge on every branch.

    Erasure, files, jobs.  [Gdpr], [GdprFacts]: the erasure transaction across
    the users and authentication features.  [Files], [FilesFacts]: the storage
    port as a class with its contract, the local adapter that implements it over
    a file system whose calls may fail, and the clean-up proved against the
    contract.  [S3], [S3Facts]: the S3 adapter implements the contract too, and
    any two backends that do answer alike.  [Jobs], [JobsFacts]: the handler registry, the in-process queue,
    the three handlers and the worker's registrations.

    Rate limits, HTTP.  [RateLimit], [RateLimitFacts]: both limiters are
    equivalent to a reference limiter that never forgets, the in-process one while
    its cache holds every key that was tried (a full cache evicts).  [Http]: requests,
    [urlsplit], problem responses.  [AuthHttp], [AuthHttpFacts]: request models,
    error mapping, guards and routes of [/auth]; the limiter is a class with its
    laws ([RateLimiterLaws]), which the in-process limiter discharges; the origin
    guard, the password budget per account, responses that hide accounts.
    [UsersHttp], [UsersHttpFacts]: the platform's authorization dependency, the
    profile and erasure routes, and who can have an account erased, end to end
    through the worker's handler.

    Documents, cursors, listings, exports.  [Json], [JsonFacts]: [json.loads] and
    [json.dumps] on UTF-8 text; what is printed is read back.  [Calendar],
    [CalendarFacts]: [datetime.isoformat] and [fromisoformat].  [Cursor],
    [CursorFacts]: the page cursor's codec, base64 included.  [Listing],
    [ListingFacts]: both administrators' listings from the bearer token to the next
    cursor; following the cursors shows every row once.  [Export], [ExportFacts]:
    the data export, its document and its routes.

    Process.  [Settings], [SettingsFacts]: the flat settings, the projections of
    the features and their validators, as procedures on the list of errors; which
    configurations are accepted.  [Startup], [StartupFacts]: the checks of the
    authentication container and the seeding of an administrator.  [Email],
    [EmailFacts]: the template registry, the adapters, and that the mails of the
    authentication feature are sent.  [Health], [Lifespan], [LifespanFacts]: the
    probes, the start and the finalizer of the web process as a step relation, the
    worker's drain, the administrator's command.  [Wiring], [WiringFacts]: the
    composition roots of the web process, the worker and the commands: when each
    refuses (the worker, which builds no authentication container, less often than
    the other two), and that the web process and the worker end with the same
    handlers, templates and storage.  [Middleware],
    [MiddlewareFacts]: the ASGI layers around the router as wrappers of programs
    that send messages; headers, bounded bodies, request identifiers.

    Logs, failures, telemetry ([app_platform/observability]).  [Redaction],
    [RedactionFacts]: noninterference of the log redaction.  [Logging],
    [LoggingFacts]: records, filters, formatters and the tree of loggers; each line
    is one object that reads back, whatever alphabet and floats the extras hold, and
    each record is written once.
    [ErrorReporting], [ErrorReportingFacts]: an exception no route handles is
    answered whatever the reporter does.  [Telemetry], [TelemetryFacts]: the
    [@traced] decorator changes nothing of the call it wraps, which is why the use
    cases are modelled without it; a scrape of the metrics does not fail.

    Schema ([alembic/versions], [migration_helpers.py], the table models).
    [Schema]: a catalogue of tables, columns, indexes and constraints with rows,
    and what Alembic's operations do to it, in transactions and autocommit blocks.
    [Migrations]: every revision and the metadata of the models.
    [MigrationsFacts], [MigrationsChain]: an upgrade of an empty database builds
    what the models declare, downgrades undo it, password hashes survive, and which
    upgrades can be repeated after a crash.

    ** Conventions, bounds and fuel

    Instants are microseconds in [Z]; [datetime] and [timedelta] arithmetic
    raises [OverflowError] outside Python's range.  Identifiers are 128-bit [N]
    ([uuid_ok]).  Strings are ASCII; where text crosses a codec ([Json], [Cursor],
    [Export], [Logging]) they are the UTF-8 bytes of the text.  Integers the code
    stores or computes are Python's, hence unbounded; the widths of VARCHAR columns
    are part of the catalogue of [Schema] and not of [db_ok].  The [while] loops of
    the retention commands take fuel: [PruneOutbox] and [PurgeExpiredTokens] return
    [None] when it runs out, and [prune_exact] and [purge_tokens_exact] show that
    the number of expired rows (plus the last empty round) is enough.  The JSON
    parser takes the length of its text as fuel, which [loads_ends] shows to be
    enough, and Python's recursion limit as an argument.  The parent walk of an
    authorization check takes fuel; by [check_decides] the length of the chain
    of types is enough when the parent lookups answer with the declared type, and
    [check_can_diverge] shows that otherwise no amount need be.
    Everything else is structurally recursive.

    Exceptions are a type of Python's; [except_exception] catches the subclasses of
    [Exception] only, so that a [SystemExit] passes the handlers the code writes as
    [except Exception].  Where the code sets a deadline ([Health]), a run returns the
    time it took, and the bound is on that time.

    Concurrency is modelled at transaction granularity where the code relies on
    it: relays in [OutboxRelays], row locks in the claim query, probes between the
    steps of the start and the shutdown.  Other theorems speak of requests run one
    after the other.

    ** Parameters

    Argon2, SHA-256, the clock and randomness ([Env]); PyJWT ([Jwt]), cachetools
    ([TTLCache], [AttemptCache]), Redis ([RedisServer], [RedisStore]) with their documented
    behaviour as laws (PyJWT's for the HMAC algorithms only: one shared key says
    nothing about asymmetric ones); the S3 client ([S3Client]) and Starlette's header lists
    ([MutableHeaders]), likewise; the file system ([FsEnv]); Jinja2 and the template
    files; the Sentry SDK ([SentrySdk]) and OpenTelemetry ([Tracer]), likewise;
    printf-style formatting and local time ([PyText]); what closing a resource
    raises and what the dependencies answer a probe ([Dependencies]); whether boto3
    is installed; the offset of the database's session from UTC; FastAPI's
    routing, body parsing and bearer extraction (the fields of [Http.Request] and
    the arguments of an endpoint); which bracketed hosts [ipaddress] accepts.

    ** What modelling showed

    Beside the properties, some theorems show what the code does not guarantee:
    [delivered_row_can_fail], [tick_can_raise], [check_can_diverge],
    [erased_still_served], [failed_effect_is_lost],
    [unreadable_sidecar_hides_blob], [forgot_password_reveals],
    [referer_port_unhandled], [zero_lifetime_raises], [rejection_is_untraced],
    [decode_cursor_outcomes], [export_survives_cleanup], [same_file_name_is_shadowed],
    [reasons_are_bounded], [interrupted_upgrades], [downgrades_undo_upgrades],
    [disabled_storage_is_needed], [unhandled_exceptions_lose_their_id],
    [extras_replace_stable_keys], [registering_again_observes_twice].

    ** Not modelled

    OpenAPI metadata and response documentation (no behaviour depends on it);
    pydantic's parsing of the environment; Starlette's own middleware and the ASGI
    server; arq's worker loop and signal handling; argument parsing of the commands;
    Alembic's offline mode and the resolution of its DSN; the construction of
    clients and engines from settings that the wiring only passes on; the
    session-bound address update of the users repository, whose failed flush leaves
    a session no caller uses again.  These call libraries and keep no state of the
    program's own. *)

From stdpp Require Export base option list gmap sets strings sorting.
From stdpp Require Export ssreflect.
From Stdlib Require Export ZArith Lia.

Declare Scope app_scope.
Delimit Scope app_scope with app.
Open Scope app_scope.

(** ** Python values the whole program shares *)

(** [uuid.UUID]: a 128-bit integer. *)
Abbreviation uuid := N (only parsing).

(** A timezone-aware UTC [datetime], and a [timedelta]: microseconds. *)
Abbreviation time := Z (only parsing).

(** JSON-shaped values, as carried by JSONB columns and job payloads. *)
Inductive json :=
  | JNull
  | JBool (b : bool)
  | JInt (z : Z)
  | JFloat (literal : string)   (* as it was read *)
  | JStr (s : string)
  | JList (l : list json)
  | JObj (o : list (string * json)).

(** A [dict[str, Any]] used as a map. *)
Abbreviation payload := (gmap string json) (only parsing).

(** ** [app_platform/shared/result.py] *)

Inductive Result (T E : Type) :=
  | Ok (value : T)
  | Err (error : E).
Arguments Ok {T E} value.
Arguments Err {T E} error.

Definition is_ok {T E} (result : Result T E) : bool :=
  match result with Ok _ => true | Err _ => false end.

Definition is_err {T E} (result : Result T E) : bool :=
  match result with Ok _ => false | Err _ => true end.

Definition result_map {T E U} (result : Result T E) (f : T → U) : Result U E :=
  match result with Ok v => Ok (f v) | Err e => Err e end.

Definition result_map_err {T E F} (result : Result T E) (f : E → F) : Result T F :=
  match result with Ok v => Ok v | Err e => Err (f e) end.

Definition result_and_then {T E U} (result : Result T E) (f : T → Result U E) : Result U E :=
  match result with Ok v => f v | Err e => Err e end.

(** ** Exceptions *)

(** [HTTPException] and its subclass [ApplicationHTTPException], which carries a
    code and a problem type besides
    ([app_platform/api/error_handlers_app_exception.py]). *)
Record HTTPError := mkHTTPError {
  status_code : Z;
  detail : string;
  application : option (string * string);
  error_headers : list (string * string);
}.

(** The exceptions the modelled code raises or catches.  A constructor carries
    the values the source formats into its message. *)
Inductive exn :=
  | IntegrityError
  | MultipleResultsFound
  | OverflowError
  | NotImplementedError
  | KeyError (key : string)
  | ValueError (what : string)
  | JSONDecodeError
  | UnicodeDecodeError
  | InvalidCursorError (what : string)
  | RecursionError
  | RuntimeError (what : string)
  | UnwrapError (what : string)
  | AssertionError
  | DependencyContainerNotReadyError (what : string)
  | TypeError
  | FileNotFoundError (what : string)
  | TemplateError (reason : string)
  | UnknownTemplateError (template_name : json)
  | TemplateRenderError (template_name : json) (reason : string)
  | UnknownActionError (what : string) (subject : string)
  | UnknownJobError (job_name : string)
  | HandlerAlreadyRegisteredError (job_name : string)
  | ConfigurationError (what : string)
  | OSError (what : string)
  | SystemExit (code : Z)
  | SystemExitMessage (what : string)
  | HTTPException (error : HTTPError)
  | ExternalError (what : string).

(** [except Exception] lets [SystemExit] pass. *)
Definition is_exception (e : exn) : bool :=
  match e with SystemExit _ | SystemExitMessage _ => false | _ => true end.

(** ** A state and exception monad *)

Inductive outcome (A : Type) :=
  | Ret (a : A)
  | Raise (e : exn).
Arguments Ret {A} a.
Arguments Raise {A} e.

(** The functions of [result.py] that raise; [repr] writes the other branch's value. *)
Section unwrap.
Context {T E : Type}.
Local Open Scope string_scope.

Definition unwrap (result : Result T E) : outcome T :=
  match result with Ok v => Ret v | Err _ => Raise (UnwrapError "called unwrap on Err") end.

Definition unwrap_err (result : Result T E) : outcome E :=
  match result with Err e => Ret e | Ok _ => Raise (UnwrapError "called unwrap_err on Ok") end.

Definition expect (repr : E → string) (result : Result T E) (message : string) : outcome T :=
  match result with Ok v => Ret v | Err e => Raise (UnwrapError (message +:+ ": " +:+ repr e)) end.

Definition expect_err (repr : T → string) (result : Result T E) (message : string) : outcome E :=
  match result with Err e => Ret e | Ok v => Raise (UnwrapError (message +:+ ": " +:+ repr v)) end.

Definition expect_ok (result : Result T E) : outcome T :=
  match result with Ok v => Ret v | Err _ => Raise AssertionError end.

(** Behind the tests for the branch they do not raise. *)
Lemma unwrap_guarded (result : Result T E) :
  (is_ok result = true ↔ ∃ v, unwrap result = Ret v) ∧ (is_err result = true ↔ ∃ e, unwrap_err result = Ret e).
Proof. destruct result; cbn; split; split; first [done | intros _; by eexists | by intros [? [=]]]. Qed.
End unwrap.

(** A Python procedure that works on a mutable state [S]: it either returns or
    raises, and what it did to the state stays in both cases. *)
Definition M (S A : Type) : Type := S → outcome A * S.

Global Instance M_ret {S} : MRet (M S) := λ A a s, (Ret a, s).
Global Instance M_bind {S} : MBind (M S) := λ A B f m s,
  match m s with
  | (Ret a, s') => f a s'
  | (Raise e, s') => (Raise e, s')
  end.

Section monad.
Context {S : Type}.

Definition raise {A} (e : exn) : M S A := λ s, (Raise e, s).
Definition gets {A} (f : S → A) : M S A := λ s, (Ret (f s), s).
Definition modify (f : S → S) : M S unit := λ s, (Ret tt, f s).
Definition lift {A} (r : outcome A) : M S A := λ s, (r, s).

(** [try: body except e: handler e] *)
Definition try_except {A} (body : M S A) (handler : exn → M S A) : M S A := λ s,
  match body s with
  | (Ret a, s') => (Ret a, s')
  | (Raise e, s') => handler e s'
  end.

(** [try: body except Exception as e: handler e] *)
Definition except_exception {A} (body : M S A) (handler : exn → M S A) : M S A :=
  try_except body (λ e, if is_exception e then handler e else raise e).

(** [for x in l: body x] *)
Fixpoint for_each {A} (l : list A) (body : A → M S unit) : M S unit :=
  match l with
  | [] => mret tt
  | x :: l => body x ;; for_each l body
  end.

Definition when (b : bool) (body : M S unit) : M S unit :=
  if b then body else mret tt.

(** What a run returns, and the state it leaves. *)
Definition result_of {A} (m : M S A) (s : S) : outcome A := (m s).1.
Definition state_of {A} (m : M S A) (s : S) : S := (m s).2.
End monad.

(** Runs of a procedure on one half of a compound state. *)
Definition on_fst {S T A} (m : M S A) : M (S * T) A := λ st,
  let '(r, s') := m st.1 in (r, (s', st.2)).
Definition on_snd {S T A} (m : M T A) : M (S * T) A := λ st,
  let '(r, t') := m st.2 in (r, (st.1, t')).

(** ** Automation *)

Create HintDb app.
Create Rewrite HintDb app.

Lemma run_ret {S A} (a : A) (s : S) : (mret a : M S A) s = (Ret a, s).
Proof. reflexivity. Qed.

Lemma run_bind {S A B} (m : M S A) (f : A → M S B) (s : S) :
  (m ≫= f) s = match m s with
               | (Ret a, s') => f a s'
               | (Raise e, s') => (Raise e, s')
               end.
Proof. reflexivity. Qed.

Lemma run_raise {S A} e (s : S) : (raise e : M S A) s = (Raise e, s).
Proof. reflexivity. Qed.

Lemma run_gets {S A} (f : S → A) (s : S) : gets f s = (Ret (f s), s).
Proof. reflexivity. Qed.

Lemma run_modify {S} (f : S → S) (s : S) : modify f s = (Ret tt, f s).
Proof. reflexivity. Qed.

#[export] Hint Rewrite @run_ret @run_bind @run_raise @run_gets @run_modify : app.

(** Case analysis on the scrutinee of a match in the goal or a hypothesis. *)
Ltac split_match :=
  match goal with
  | |- context [match ?x with _ => _ end] => destruct x eqn:?
  | H : context [match ?x with _ => _ end] |- _ => destruct x eqn:?
  end.

(** Symbolic execution of a procedure: rewrite with the monad's equations and
    simplify the projections of the state. *)
Ltac run := repeat (autorewrite with app; cbn -[N.add Z.add Z.mul Z.sub]).

(** A loop over a concatenation. *)
Lemma for_each_app {S A} (l l' : list A) (f : A → M S unit) s :
  for_each (l ++ l') f s = match for_each l f s with (Ret _, s) => for_each l' f s | (Raise e, s) => (Raise e, s) end.
Proof.
  revert s. induction l as [|a l IH]; intros s; cbn [app for_each]; [done|]. rewrite !run_bind.
  destruct (f a s) as [[b|e] s']; [apply IH|done].
Qed.
