(* ===== verification/PyStr.v ===== *)
(** The [str] methods of Python the program uses, on ASCII strings, and
    [features/authentication/application/normalization.py]. *)

From Stdlib Require Import Ascii String.
From S2P Require Import Prelude.
Open Scope string_scope.

(** ** [str] methods of the standard library *)

Section chars.
Definition code (c : ascii) : nat := nat_of_ascii c.
Definition between (lo hi : nat) (c : ascii) : bool := (lo <=? code c)%nat && (code c <=? hi)%nat.

Definition is_ascii (c : ascii) : bool := (code c <? 128)%nat.
Definition is_upper : ascii → bool := between 65 90.
Definition is_lower : ascii → bool := between 97 122.
Definition is_digit : ascii → bool := between 48 57.
Definition is_alnum (c : ascii) : bool := is_upper c || is_lower c || is_digit c.
(** Whitespace of [str.isspace]: HT LF VT FF CR, FS GS RS US and the space. *)
Definition is_space (c : ascii) : bool := between 9 13 c || between 28 32 c.

Definition lower_char (c : ascii) : ascii :=
  if is_upper c then ascii_of_nat (code c + 32) else c.
End chars.

Fixpoint str_map (f : ascii → ascii) (s : string) : string :=
  match s with
  | "" => ""
  | String c s => String (f c) (str_map f s)
  end.

Fixpoint str_forall (P : ascii → bool) (s : string) : bool :=
  match s with
  | "" => true
  | String c s => P c && str_forall P s
  end.

Definition str_exists (P : ascii → bool) (s : string) : bool :=
  negb (str_forall (λ c, negb (P c)) s).

Definition lower (s : string) : string := str_map lower_char s.

(** [lstrip] and [rstrip] with the set of stripped characters given by [P]. *)
Fixpoint lstrip_by (P : ascii → bool) (s : string) : string :=
  match s with
  | "" => ""
  | String c s' => if P c then lstrip_by P s' else s
  end.

Fixpoint rstrip_by (P : ascii → bool) (s : string) : string :=
  match s with
  | "" => ""
  | String c s' =>
      match rstrip_by P s' with
      | "" => if P c then "" else String c ""
      | r => String c r
      end
  end.

Definition strip_by (P : ascii → bool) (s : string) : string := rstrip_by P (lstrip_by P s).
Definition strip : string → string := strip_by is_space.

(** [pat in s] for a one-character pattern. *)
Definition contains_char (a : ascii) (s : string) : bool := str_exists (λ c, Ascii.eqb c a) s.

(** [sub in s]. *)
Fixpoint contains (sub s : string) : bool :=
  String.prefix sub s || match s with "" => false | String _ s => contains sub s end.

(** [s.partition(sep)] for a one-character separator. *)
Fixpoint partition_char (sep : ascii) (s : string) : string * bool * string :=
  match s with
  | "" => ("", false, "")
  | String c s' =>
      if Ascii.eqb c sep then ("", true, s')
      else let '(l, found, r) := partition_char sep s' in (String c l, found, r)
  end.

(** [s.replace(pat, '')]: non-overlapping occurrences, left to right; [skip]
    counts the characters of the current occurrence still to be dropped. *)
Fixpoint remove_sub_from (pat : string) (skip : nat) (s : string) : string :=
  match s with
  | "" => ""
  | String c s' =>
      match skip with
      | S k => remove_sub_from pat k s'
      | O => if String.prefix pat s
             then remove_sub_from pat (String.length pat - 1) s'
             else String c (remove_sub_from pat 0 s')
      end
  end.
Definition remove_sub (pat s : string) : string := remove_sub_from pat 0 s.

(** [s.replace(a, b)] for single characters. *)
Definition replace_char (a b : ascii) (s : string) : string :=
  str_map (λ c, if Ascii.eqb c a then b else c) s.

(** ** Lemmas on the primitives *)

Lemma ascii_forall (P : ascii → Prop) :
  (∀ b0 b1 b2 b3 b4 b5 b6 b7, P (Ascii b0 b1 b2 b3 b4 b5 b6 b7)) → ∀ c, P c.
Proof. intros H []. apply H. Qed.

(** Decide a fact about every ASCII character by evaluation. *)
Ltac by_chars := apply ascii_forall; intros [] [] [] [] [] [] [] []; vm_compute; reflexivity.

Lemma lower_char_idemp c : lower_char (lower_char c) = lower_char c.
Proof. revert c. by_chars. Qed.

Lemma lower_char_space c : is_space (lower_char c) = is_space c.
Proof. revert c. by_chars. Qed.

Lemma str_map_idemp f s : (∀ c, f (f c) = f c) → str_map f (str_map f s) = str_map f s.
Proof. intros Hf. induction s as [|c s IH]; simpl; congruence. Qed.

Lemma lower_idemp s : lower (lower s) = lower s.
Proof. apply str_map_idemp, lower_char_idemp. Qed.

(** stdpp makes [String.append] opaque to [simpl]; these are its equations. *)
Lemma app_cons c s t : String c s +:+ t = String c (s +:+ t).
Proof. done. Qed.
Lemma app_nil_string t : "" +:+ t = t.
Proof. done. Qed.
Lemma app_string_nil_r s : s +:+ "" = s.
Proof. induction s as [|c s IH]; [done|]. by rewrite app_cons IH. Qed.
Lemma app_string_assoc (s t u : string) : (s +:+ t) +:+ u = s +:+ (t +:+ u).
Proof. induction s as [|c s IH]; [done|]. by rewrite !app_cons IH. Qed.
Lemma length_app_string s t : String.length (s +:+ t) = (String.length s + String.length t)%nat.
Proof. induction s as [|c s IH]; [done|]. rewrite app_cons /=. by rewrite IH. Qed.

Lemma str_forall_app P s t : str_forall P (s +:+ t) = str_forall P s && str_forall P t.
Proof. induction s as [|c s IH]; simpl; [done|]. rewrite IH. by rewrite andb_assoc. Qed.

Lemma str_forall_impl (P Q : ascii → bool) s :
  (∀ c, P c = true → Q c = true) → str_forall P s = true → str_forall Q s = true.
Proof.
  intros HPQ. induction s as [|c s IH]; simpl; [done|].
  rewrite !andb_true_iff. naive_solver.
Qed.

Lemma eqb_neq_string (a b : string) : a ≠ b → String.eqb a b = false.
Proof. apply String.eqb_neq. Qed.

Section strip.
Context (P : ascii → bool).

Lemma lstrip_map f s :
  (∀ c, P (f c) = P c) → lstrip_by P (str_map f s) = str_map f (lstrip_by P s).
Proof. intros Hf. induction s as [|c s IH]; simpl; [done|]. rewrite Hf. by destruct (P c). Qed.

Lemma rstrip_map f s :
  (∀ c, P (f c) = P c) → rstrip_by P (str_map f s) = str_map f (rstrip_by P s).
Proof.
  intros Hf. induction s as [|c s IH]; simpl; [done|]. rewrite IH.
  destruct (rstrip_by P s); simpl; [|done]. rewrite Hf. by destruct (P c).
Qed.

Lemma strip_map f s :
  (∀ c, P (f c) = P c) → strip_by P (str_map f s) = str_map f (strip_by P s).
Proof. intros Hf. unfold strip_by. by rewrite lstrip_map // rstrip_map. Qed.

(** A string that does not start with a strippable character. *)
Definition solid (s : string) : Prop :=
  match s with "" => True | String c _ => P c = false end.

Lemma lstrip_solid s : solid (lstrip_by P s).
Proof. induction s as [|c s IH]; simpl; [done|]. by destruct (P c) eqn:E. Qed.

Lemma lstrip_id s : solid s → lstrip_by P s = s.
Proof. destruct s as [|c s]; simpl; [done|]. by intros ->. Qed.

Lemma rstrip_solid s : solid s → solid (rstrip_by P s).
Proof.
  destruct s as [|c s]; simpl; [done|]. intros HP.
  destruct (rstrip_by P s); simpl; [|done]. by rewrite HP.
Qed.

Lemma rstrip_idemp s : rstrip_by P (rstrip_by P s) = rstrip_by P s.
Proof.
  induction s as [|c s IH]; simpl; [done|].
  destruct (rstrip_by P s) as [|c' s'] eqn:E.
  - destruct (P c) eqn:HP; simpl; [done|]. by rewrite HP.
  - simpl in *. by rewrite IH.
Qed.

Lemma strip_idemp s : strip_by P (strip_by P s) = strip_by P s.
Proof.
  unfold strip_by. rewrite (lstrip_id (rstrip_by P (lstrip_by P s))).
  - apply rstrip_idemp.
  - apply rstrip_solid, lstrip_solid.
Qed.

Lemma rstrip_none s : str_forall (λ c, negb (P c)) s = true → rstrip_by P s = s.
Proof.
  induction s as [|c s IH]; simpl; [done|]. rewrite andb_true_iff. intros [Hc Hs].
  rewrite IH //. destruct s; [|done]. by destruct (P c).
Qed.

(** Stripping leaves a string without strippable characters alone. *)
Lemma strip_none s : str_forall (λ c, negb (P c)) s = true → strip_by P s = s.
Proof.
  intros Hs. unfold strip_by. rewrite lstrip_id; [by apply rstrip_none|].
  destruct s as [|c s]; simpl in *; [done|]. by destruct (P c).
Qed.
End strip.

(** Removing a pattern whose first character does not occur changes nothing. *)
Lemma remove_sub_absent a pat s :
  str_forall (λ c, negb (Ascii.eqb c a)) s = true → remove_sub (String a pat) s = s.
Proof.
  unfold remove_sub. induction s as [|c s IH]; cbn -[String.prefix]; [done|].
  rewrite andb_true_iff. intros [Hc Hs]. rewrite IH //.
  simpl. destruct (ascii_dec a c) as [->|]; [|done].
  by rewrite Ascii.eqb_refl in Hc.
Qed.

(** ** Normalization ([normalization.py]) *)

Definition normalize_email (email : string) : string := lower (strip email).
Definition normalize_role_name (name : string) : string :=
  replace_char "-" "_" (lower (strip name)).
Definition normalize_permission_name (name : string) : string := lower (strip name).

Definition name_head (c : ascii) : bool := is_lower c.
Definition name_tail (c : ascii) : bool := is_lower c || is_digit c || Ascii.eqb c "_".

(** [ROLE_NAME_PATTERN.fullmatch]: [[a-z][a-z0-9_]*]. *)
Definition is_role_name (value : string) : bool :=
  match value with
  | "" => false
  | String c s => name_head c && str_forall name_tail s
  end.

(** [PERMISSION_NAME_PATTERN.fullmatch]: [[a-z][a-z0-9_]*:[a-z][a-z0-9_:]*].
    The first group cannot contain a colon, so the split is at the first one. *)
Definition is_permission_name (value : string) : bool :=
  let '(resource, found, action) := partition_char ":" value in
  found && is_role_name resource &&
  match action with
  | "" => false
  | String c s => name_head c && str_forall (λ c, name_tail c || Ascii.eqb c ":") s
  end.

Lemma normalize_email_idemp s : normalize_email (normalize_email s) = normalize_email s.
Proof.
  unfold normalize_email, strip, lower. rewrite strip_map; [|apply lower_char_space].
  rewrite strip_idemp. apply lower_idemp.
Qed.

Lemma lower_normalize s : lower (normalize_email s) = normalize_email s.
Proof. apply lower_idemp. Qed.
#[export] Hint Rewrite normalize_email_idemp lower_normalize lower_idemp : app.
