(* ===== verification/Uuid.v ===== *)
(** [uuid.UUID] of the Python standard library as the program uses it: the
    canonical text [str(u)] written into relationship tuples, object keys and
    job payloads, and the parser [UUID(text)] the adapters run on it. *)

From Stdlib Require Import Ascii String.
From S2P Require Import Prelude PyStr.
Open Scope string_scope.
Open Scope N_scope.

(** ** Printing *)

Definition hexdigit (d : N) : ascii :=
  ascii_of_N (if d <? 10 then 48 + d else 87 + d).

(** The [n] low hexadecimal digits of [x], most significant first. *)
Fixpoint hex (n : nat) (x : N) : string :=
  match n with
  | O => ""
  | S n => hex n (x / 16) +:+ String (hexdigit (x mod 16)) ""
  end.

Definition uuid_ok (u : uuid) : Prop := u < 2 ^ 128.

(** [str(u)]: groups of 8, 4, 4, 4 and 12 digits. *)
Definition uuid_str (u : uuid) : string :=
  hex 8 (u / 2 ^ 96) +:+ "-" +:+ hex 4 (u / 2 ^ 80) +:+ "-" +:+ hex 4 (u / 2 ^ 64)
  +:+ "-" +:+ hex 4 (u / 2 ^ 48) +:+ "-" +:+ hex 12 u.

(** ** Parsing *)

Definition digit_value (c : ascii) : option N :=
  if is_digit c then Some (N_of_ascii c - 48)
  else if between 97 102 c then Some (N_of_ascii c - 87)
  else if between 65 70 c then Some (N_of_ascii c - 55)
  else None.

(** The digits of [int(text, 16)]: single underscores are allowed between
    digits; [prev] says whether the previous character was a digit. *)
Fixpoint parse_digits (prev : bool) (acc : N) (s : string) : option N :=
  match s with
  | "" => if prev then Some acc else None
  | String c s =>
      if Ascii.eqb c "_" then (if prev then parse_digits false acc s else None)
      else match digit_value c with
           | Some d => parse_digits true (acc * 16 + d) s
           | None => None
           end
  end.

(** [int(text, 16)]: surrounding whitespace, an optional sign and an optional
    [0x] prefix, which may be followed by one underscore. *)
Definition parse_unsigned (s : string) : option N :=
  match s with
  | String "0" (String c r) =>
      if Ascii.eqb c "x" || Ascii.eqb c "X" then
        match r with
        | String "_" r' => parse_digits false 0 r'
        | _ => parse_digits false 0 r
        end
      else parse_digits false 0 s
  | _ => parse_digits false 0 s
  end.

Definition int16 (s : string) : option Z :=
  match strip s with
  | String "-" r => (λ n, - Z.of_N n)%Z <$> parse_unsigned r
  | String "+" r => Z.of_N <$> parse_unsigned r
  | r => Z.of_N <$> parse_unsigned r
  end.

Definition is_brace (c : ascii) : bool := Ascii.eqb c "{" || Ascii.eqb c "}".

(** [UUID(text)]; [None] is the [ValueError]. *)
Definition uuid_parse (text : string) : option uuid :=
  let h := remove_sub "uuid:" (remove_sub "urn:" text) in
  let h := remove_sub "-" (strip_by is_brace h) in
  if (String.length h =? 32)%nat then
    match int16 h with
    | Some z => if (0 <=? z)%Z && (z <? 2 ^ 128)%Z then Some (Z.to_N z) else None
    | None => None
    end
  else None.

(** ** The round trip *)

Definition is_hex (c : ascii) : bool := is_digit c || between 97 102 c.
Definition is_hexdash (c : ascii) : bool := is_hex c || Ascii.eqb c "-".

(** A fact about the sixteen digits, by evaluation. *)
Lemma below_16 (P : N → Prop) :
  Forall P [0;1;2;3;4;5;6;7;8;9;10;11;12;13;14;15] → ∀ d, d < 16 → P d.
Proof.
  rewrite Forall_forall. intros H d Hd. apply H. 
  assert (d = 0 ∨ d = 1 ∨ d = 2 ∨ d = 3 ∨ d = 4 ∨ d = 5 ∨ d = 6 ∨ d = 7 ∨ d = 8 ∨
    d = 9 ∨ d = 10 ∨ d = 11 ∨ d = 12 ∨ d = 13 ∨ d = 14 ∨ d = 15) as Hd' by lia.
  repeat destruct Hd' as [->|Hd']; subst; set_solver.
Qed.

Lemma hexdigit_hex d : d < 16 → is_hex (hexdigit d) = true.
Proof. revert d. apply below_16. repeat constructor. Qed.

Lemma hexdigit_value d : d < 16 → digit_value (hexdigit d) = Some d.
Proof. revert d. apply below_16. repeat constructor. Qed.

Lemma hex_is_hex n x : str_forall is_hex (hex n x) = true.
Proof.
  revert x. induction n as [|n IH]; intros x; [done|].
  cbn [hex]. rewrite str_forall_app IH. cbn [str_forall andb].
  rewrite hexdigit_hex //. apply N.mod_lt. lia.
Qed.

Lemma hex_length n x : String.length (hex n x) = n.
Proof.
  revert x. induction n as [|n IH]; intros x; [done|].
  cbn [hex]. rewrite length_app_string IH. simpl. lia.
Qed.

Lemma is_hex_not_underscore c : is_hex c = true → Ascii.eqb c "_" = false.
Proof.
  assert (H : ∀ c, implb (is_hex c) (negb (Ascii.eqb c "_")) = true) by by_chars.
  specialize (H c). intros Hc. rewrite Hc in H. by destruct (Ascii.eqb c "_").
Qed.

Lemma digit_value_is_hex c : is_hex c = true → is_Some (digit_value c).
Proof. unfold is_hex, digit_value. destruct (is_digit c), (between 97 102 c); naive_solver. Qed.

Lemma parse_digits_app b acc s t :
  str_forall is_hex s = true → s ≠ "" →
  parse_digits b acc (s +:+ t) =
    match parse_digits b acc s with Some a => parse_digits true a t | None => None end.
Proof.
  revert b acc. induction s as [|c s IH]; intros b acc Hs Hne; [done|].
  cbn [str_forall] in Hs. apply andb_true_iff in Hs as [Hc Hs].
  destruct (digit_value_is_hex c Hc) as [d Hd].
  change (String c s +:+ t) with (String c (s +:+ t)). cbn [parse_digits].
  rewrite is_hex_not_underscore // Hd.
  destruct s as [|c' s'] eqn:Es; [reflexivity|]. by apply IH.
Qed.

Lemma parse_hex n x acc b :
  n ≠ O → parse_digits b acc (hex n x) = Some (acc * 16 ^ N.of_nat n + x mod 16 ^ N.of_nat n).
Proof.
  revert x acc b. induction n as [|n IH]; intros x acc b Hn; [done|].
  assert (Hmod : x mod 16 < 16) by (apply N.mod_lt; lia).
  pose proof (hexdigit_hex _ Hmod) as Hhex. pose proof (hexdigit_value _ Hmod) as Hval.
  cbn [hex]. destruct n as [|n].
  - change (hex 0 (x / 16) +:+ String (hexdigit (x mod 16)) "") with (String (hexdigit (x mod 16)) "").
    cbn [parse_digits]. rewrite is_hex_not_underscore // Hval.
    by rewrite (_ : 16 ^ N.of_nat 1 = 16).
  - rewrite parse_digits_app; [|apply hex_is_hex|].
    2: { intros E. apply (f_equal String.length) in E. by rewrite hex_length in E. }
    rewrite IH //. cbn [parse_digits]. rewrite is_hex_not_underscore // Hval. f_equal.
    rewrite (Nat2N.inj_succ (S n)) N.pow_succ_r'.
    rewrite (N.Div0.mod_mul_r x 16). lia.
Qed.

(** The thirty-two digits of [str(u)] without the dashes. *)
Lemma hex_app a b x : hex a (x / 16 ^ N.of_nat b) +:+ hex b x = hex (a + b) x.
Proof.
  revert a x. induction b as [|b IH]; intros a x.
  - change (16 ^ N.of_nat 0) with 1. rewrite N.div_1_r Nat.add_0_r. apply app_string_nil_r.
  - rewrite Nat.add_succ_r. cbn [hex]. rewrite -(IH a (x / 16)).
    by rewrite Nat2N.inj_succ N.pow_succ_r' -N.Div0.div_div app_string_assoc.
Qed.

Lemma remove_dash_app s t : str_forall is_hex s = true →
  remove_sub "-" (s +:+ t) = s +:+ remove_sub "-" t.
Proof.
  unfold remove_sub. induction s as [|c s IH]; [done|].
  change (String c s +:+ t) with (String c (s +:+ t)). cbn [str_forall remove_sub_from]. rewrite andb_true_iff. intros [Hc Hs].
  rewrite IH //. 
  rewrite app_cons. cbn [String.prefix]. destruct (ascii_dec "-" c) as [<-|]; [by vm_compute in Hc|]. done.
Qed.

Lemma remove_dash_hex n x t : remove_sub "-" (hex n x +:+ t) = hex n x +:+ remove_sub "-" t.
Proof. apply remove_dash_app, hex_is_hex. Qed.

Lemma remove_dash_dash t : remove_sub "-" ("-" +:+ t) = remove_sub "-" t.
Proof. rewrite app_cons app_nil_string. unfold remove_sub. by destruct t. Qed.

Lemma uuid_str_digits u : remove_sub "-" (uuid_str u) = hex 32 u.
Proof.
  unfold uuid_str.
  rewrite -(app_string_nil_r (hex 12 u)).
  do 4 (rewrite remove_dash_hex remove_dash_dash). rewrite remove_dash_hex.
  change (remove_sub "-" "") with "". rewrite app_string_nil_r.
  rewrite (hex_app 4 12). rewrite (hex_app 4 16) (hex_app 4 20). by rewrite (hex_app 8 24).
Qed.

Lemma uuid_str_chars u : str_forall is_hexdash (uuid_str u) = true.
Proof.
  assert (H : ∀ n x, str_forall is_hexdash (hex n x) = true).
  { intros n x. eapply str_forall_impl; [|apply hex_is_hex]. intros c. unfold is_hexdash. by intros ->. }
  unfold uuid_str. by do 4 (rewrite str_forall_app H; rewrite str_forall_app); rewrite H.
Qed.

(** A character test that no hexadecimal digit and no dash passes. *)
Lemma uuid_str_avoids (P : ascii → bool) u :
  (∀ c, implb (is_hexdash c) (negb (P c)) = true) →
  str_forall (λ c, negb (P c)) (uuid_str u) = true.
Proof.
  intros H. eapply str_forall_impl; [|apply uuid_str_chars].
  intros c Hc. specialize (H c). by rewrite Hc in H.
Qed.

Lemma hex_avoids (P : ascii → bool) n x :
  (∀ c, implb (is_hex c) (negb (P c)) = true) →
  str_forall (λ c, negb (P c)) (hex n x) = true.
Proof.
  intros H. eapply str_forall_impl; [|apply hex_is_hex].
  intros c Hc. specialize (H c). by rewrite Hc in H.
Qed.

(** No sign and no [0x] prefix in a string of digits. *)
Lemma int16_hex s :
  str_forall is_hex s = true → int16 s = Z.of_N <$> parse_digits false 0 s.
Proof.
  intros Hs. unfold int16, strip. rewrite strip_none.
  2: { eapply str_forall_impl; [|exact Hs]. intros c Hc.
       assert (H : ∀ c, implb (is_hex c) (negb (is_space c)) = true) by by_chars.
       specialize (H c). by rewrite Hc in H. }
  destruct s as [|c s]; [done|]. cbn [str_forall] in Hs. apply andb_true_iff in Hs as [Hc Hs].
  assert (Hu : parse_unsigned (String c s) = parse_digits false 0 (String c s)).
  { destruct s as [|c' s]; [by destruct c as [[] [] [] [] [] [] [] []]|].
    cbn [str_forall] in Hs. apply andb_true_iff in Hs as [Hc' Hs].
    assert (Hx : Ascii.eqb c' "x" || Ascii.eqb c' "X" = false).
    { assert (H : ∀ c, implb (is_hex c) (negb (Ascii.eqb c "x" || Ascii.eqb c "X")) = true) by by_chars.
      specialize (H c'). rewrite Hc' in H. by destruct (Ascii.eqb c' "x" || Ascii.eqb c' "X"). }
    unfold parse_unsigned. rewrite Hx. by destruct c as [[] [] [] [] [] [] [] []]. }
  rewrite -Hu. clear Hu Hs. by destruct c as [[] [] [] [] [] [] [] []].
Qed.

Lemma uuid_parse_str u : uuid_ok u → uuid_parse (uuid_str u) = Some u.
Proof.
  intros Hu. unfold uuid_parse.
  rewrite (remove_sub_absent "u" "rn:"); [|apply uuid_str_avoids; by_chars].
  rewrite (remove_sub_absent "u" "uid:"); [|apply uuid_str_avoids; by_chars].
  rewrite strip_none; [|apply uuid_str_avoids; by_chars].
  rewrite uuid_str_digits hex_length. cbn [Nat.eqb].
  rewrite int16_hex; [|apply hex_is_hex]. rewrite parse_hex //.
  change (16 ^ N.of_nat 32) with (2 ^ 128). rewrite N.mod_small //.
  cbn [fmap option_fmap option_map]. rewrite N.add_0_l. unfold uuid_ok in Hu.
  rewrite (proj2 (Z.leb_le _ _)); [|lia]. rewrite (proj2 (Z.ltb_lt _ _)); [|lia].
  by rewrite N2Z.id.
Qed.

Lemma uuid_str_inj u v : uuid_ok u → uuid_ok v → uuid_str u = uuid_str v → u = v.
Proof.
  intros Hu Hv E. apply (f_equal uuid_parse) in E.
  rewrite !uuid_parse_str in E; [congruence..].
Qed.

Lemma uuid_parse_ok s u : uuid_parse s = Some u → uuid_ok u.
Proof.
  unfold uuid_parse, uuid_ok. intros H. repeat split_match; simplify_eq.
  apply andb_true_iff in Heqb0 as [?%Z.leb_le ?%Z.ltb_lt]. lia.
Qed.
#[export] Hint Resolve uuid_parse_ok : app.
