(* ===== verification/Store.v ===== *)
(** The PostgreSQL schema the features share, its constraints, and the session
    and unit-of-work discipline of SQLModel: rows as records, tables as finite
    maps on the primary key, staged writes that a commit publishes and a
    rollback drops.  The clock, random identifiers, password hashing and
    digests are parameters ([Env]). *)

From S2P Require Import Prelude PyStr Uuid.
Open Scope Z_scope.

(** ** The environment *)

(** What the process draws from the outside: the [n]-th reading of the UTC
    clock, the [n]-th random UUID, the [n]-th opaque token, Argon2 with its
    [n]-th salt, SHA-256, [repr] of an exception, and the W3C trace carrier that
    is active at the [n]-th clock reading. *)
Class Env := {
  now_at : nat → time;
  uuid4_at : nat → uuid;
  token_at : nat → string;
  argon2_hash : nat → string → string;
  argon2_verify : string → string → bool;
  sha256_hex : string → string;
  exc_repr : exn → string;
  trace_carrier_at : nat → payload;
}.

(** [uuid4] draws distinct identifiers. *)
Class UuidsDistinct `{Env} : Prop := uuid4_inj :: Inj (=) (=) uuid4_at.

(** None of the identifiers still to be drawn is a key of the table. *)
Definition fresh_from `{Env} {R} (n : nat) (m : gmap uuid R) : Prop :=
  ∀ k, (n ≤ k)%nat → m !! uuid4_at k = None.

(** ** Tables *)

Record UserRow := mkUserRow {
  user_email : string;
  user_is_active : bool;
  user_is_verified : bool;
  user_is_erased : bool;
  user_authz_version : Z;
  user_created_at : time;
  user_updated_at : time;
  user_last_login_at : option time;
}.

Record CredentialRow := mkCredentialRow {
  cred_user_id : uuid;
  cred_algorithm : string;
  cred_hash : string;
  cred_last_changed_at : time;
  cred_created_at : time;
}.

Record RefreshRow := mkRefreshRow {
  rt_user_id : uuid;
  rt_token_hash : string;
  rt_family_id : uuid;
  rt_expires_at : time;
  rt_revoked_at : option time;
  rt_replaced_by : option uuid;
  rt_created_at : time;
  rt_created_ip : option string;
  rt_user_agent : option string;
}.

Record InternalRow := mkInternalRow {
  it_user_id : option uuid;
  it_purpose : string;
  it_token_hash : string;
  it_expires_at : time;
  it_used_at : option time;
  it_created_at : time;
  it_created_ip : option string;
}.

Record AuditRow := mkAuditRow {
  ae_user_id : option uuid;
  ae_event_type : string;
  ae_ip_address : option string;
  ae_user_agent : option string;
  ae_metadata : payload;
  ae_created_at : time;
}.

(** [features/authorization/application/types.py:Relationship]. *)
Record Relationship := mkRelationship {
  resource_type : string;
  resource_id : string;
  relation : string;
  subject_type : string;
  subject_id : string;
}.

(** A row of [relationships]. *)
Record RelationshipRow := mkRelationshipRow {
  rel_tuple : Relationship;
  rel_created_at : time;
}.

Inductive OutboxStatus := Pending | Delivered | Failed.

Record OutboxRow := mkOutboxRow {
  ob_job_name : string;
  ob_payload : payload;
  ob_trace_context : payload;
  ob_available_at : time;
  ob_status : OutboxStatus;
  ob_attempts : Z;
  ob_last_error : option string;
  ob_locked_at : option time;
  ob_locked_by : option string;
  ob_created_at : time;
  ob_delivered_at : option time;
  ob_failed_at : option time;
}.

Global Instance Relationship_eq_dec : EqDecision Relationship.
Proof. solve_decision. Defined.
Global Instance OutboxStatus_eq_dec : EqDecision OutboxStatus.
Proof. solve_decision. Defined.

Record Db := mkDb {
  users : gmap uuid UserRow;
  credentials : gmap uuid CredentialRow;
  refresh_tokens : gmap uuid RefreshRow;
  internal_tokens : gmap uuid InternalRow;
  audit_events : gmap uuid AuditRow;
  relationships : gmap uuid RelationshipRow;
  outbox_messages : gmap uuid OutboxRow;
  processed_messages : gmap uuid time;
}.

Definition empty_db : Db := mkDb ∅ ∅ ∅ ∅ ∅ ∅ ∅ ∅.

(** *** Updates of one table *)

Section updates.
Implicit Types d : Db.
Definition set_users f d := mkDb (f (users d)) (credentials d) (refresh_tokens d)
  (internal_tokens d) (audit_events d) (relationships d) (outbox_messages d) (processed_messages d).
Definition set_credentials f d := mkDb (users d) (f (credentials d)) (refresh_tokens d)
  (internal_tokens d) (audit_events d) (relationships d) (outbox_messages d) (processed_messages d).
Definition set_refresh_tokens f d := mkDb (users d) (credentials d) (f (refresh_tokens d))
  (internal_tokens d) (audit_events d) (relationships d) (outbox_messages d) (processed_messages d).
Definition set_internal_tokens f d := mkDb (users d) (credentials d) (refresh_tokens d)
  (f (internal_tokens d)) (audit_events d) (relationships d) (outbox_messages d) (processed_messages d).
Definition set_audit_events f d := mkDb (users d) (credentials d) (refresh_tokens d)
  (internal_tokens d) (f (audit_events d)) (relationships d) (outbox_messages d) (processed_messages d).
Definition set_relationships f d := mkDb (users d) (credentials d) (refresh_tokens d)
  (internal_tokens d) (audit_events d) (f (relationships d)) (outbox_messages d) (processed_messages d).
Definition set_outbox f d := mkDb (users d) (credentials d) (refresh_tokens d)
  (internal_tokens d) (audit_events d) (relationships d) (f (outbox_messages d)) (processed_messages d).
Definition set_processed f d := mkDb (users d) (credentials d) (refresh_tokens d)
  (internal_tokens d) (audit_events d) (relationships d) (outbox_messages d) (f (processed_messages d)).
End updates.

(** ** Constraints *)

(** A column (or tuple of columns) is unique. *)
Definition uniq_on {R K} `{EqDecision K} (f : R → K) (m : gmap uuid R) : Prop :=
  NoDup ((f ∘ snd) <$> map_to_list m).

(** A foreign key into [target]; a NULL key is not checked. *)
Definition fk_on {R T} (f : R → option uuid) (m : gmap uuid R) (target : gmap uuid T) : Prop :=
  map_Forall (λ _ r, match f r with Some k => is_Some (target !! k) | None => True end) m.

Definition db_ok (d : Db) : Prop :=
  uniq_on user_email (users d) ∧
  map_Forall (λ _ u, 1 <= user_authz_version u) (users d) ∧
  uniq_on (λ c, (cred_user_id c, cred_algorithm c)) (credentials d) ∧
  fk_on (Some ∘ cred_user_id) (credentials d) (users d) ∧
  uniq_on rt_token_hash (refresh_tokens d) ∧
  fk_on (Some ∘ rt_user_id) (refresh_tokens d) (users d) ∧
  fk_on rt_replaced_by (refresh_tokens d) (refresh_tokens d) ∧
  uniq_on it_token_hash (internal_tokens d) ∧
  fk_on it_user_id (internal_tokens d) (users d) ∧
  fk_on ae_user_id (audit_events d) (users d) ∧
  uniq_on rel_tuple (relationships d).

Global Instance fk_on_dec {R T} (f : R → option uuid) m (target : gmap uuid T) : Decision (fk_on f m target).
Proof.
  unfold fk_on. apply map_Forall_dec. intros i r. destruct (f r); apply _.
Defined.
Global Instance db_ok_dec d : Decision (db_ok d).
Proof. unfold db_ok, uniq_on. apply _. Defined.

(** ** The process state *)

(** Calls into instrumented services, newest last in time, newest first in the
    list: Argon2 verifications, counter increments and e-mails handed to the
    transport. *)
Inductive event :=
  | EvPasswordVerify
  | EvMetric (name result : string)
  | EvEmail (to template_name : string) (context : json).

Record World := mkWorld {
  w_db : Db;            (* committed rows *)
  w_session : Db;       (* what the open session sees, staged writes included *)
  w_clock : nat;        (* clock readings so far *)
  w_uuids : nat;        (* UUIDs drawn so far *)
  w_tokens : nat;       (* opaque tokens drawn so far *)
  w_salts : nat;        (* password salts drawn so far *)
  w_trace : list event; (* newest first *)
  w_row_locks : gset uuid; (* outbox rows another open transaction holds locked *)
}.

Section world.
Implicit Types w : World.
Definition set_db d w := mkWorld d (w_session w) (w_clock w) (w_uuids w) (w_tokens w)
  (w_salts w) (w_trace w) (w_row_locks w).
Definition set_session d w := mkWorld (w_db w) d (w_clock w) (w_uuids w) (w_tokens w)
  (w_salts w) (w_trace w) (w_row_locks w).
Definition tick w := mkWorld (w_db w) (w_session w) (S (w_clock w)) (w_uuids w) (w_tokens w)
  (w_salts w) (w_trace w) (w_row_locks w).
Definition bump_uuids w := mkWorld (w_db w) (w_session w) (w_clock w) (S (w_uuids w)) (w_tokens w)
  (w_salts w) (w_trace w) (w_row_locks w).
Definition bump_tokens w := mkWorld (w_db w) (w_session w) (w_clock w) (w_uuids w) (S (w_tokens w))
  (w_salts w) (w_trace w) (w_row_locks w).
Definition bump_salts w := mkWorld (w_db w) (w_session w) (w_clock w) (w_uuids w) (w_tokens w)
  (S (w_salts w)) (w_trace w) (w_row_locks w).
Definition log_event e w := mkWorld (w_db w) (w_session w) (w_clock w) (w_uuids w) (w_tokens w)
  (w_salts w) (e :: w_trace w) (w_row_locks w).
End world.

Definition init_world : World := mkWorld empty_db empty_db 0 0 0 0 [] ∅.

Abbreviation IO := (M World).

Section effects.
Context `{Env}.

Definition utc_now : IO time := λ w, (Ret (now_at (w_clock w)), tick w).
Definition uuid4 : IO uuid := λ w, (Ret (uuid4_at (w_uuids w)), bump_uuids w).
Definition token_urlsafe : IO string := λ w, (Ret (token_at (w_tokens w)), bump_tokens w).
Definition metric (name result : string) : IO unit := modify (log_event (EvMetric name result)).
End effects.

(** ** [datetime] arithmetic *)

Definition second : time := 1000000.
Definition day : time := 86400 * second.

(** [timedelta.min] and [timedelta.max]; [datetime.min] and [datetime.max]. *)
Definition timedelta_ok (d : time) : bool := (- (999999999 * day) <=? d) && (d <? 1000000000 * day).
Definition datetime_ok (t : time) : bool :=
  (-62135596800 * second <=? t) && (t <? 253402300800 * second).

Definition timedelta {S} (d : time) : M S time :=
  if timedelta_ok d then mret d else raise OverflowError.
(** [datetime + timedelta]; [datetime - timedelta] adds the opposite. *)
Definition datetime_add {S} (t d : time) : M S time :=
  if datetime_ok (t + d) then mret (t + d) else raise OverflowError.

(** ** Sessions and units of work *)

(** The rows of the open session. *)
Definition sess {A} (f : Db → A) : IO A := gets (λ w, f (w_session w)).
(** A statement executed on the open session. *)
Definition stage (f : Db → Db) : IO unit := modify (λ w, set_session (f (w_session w)) w).
(** [session.flush()]: the database checks its constraints. *)
Definition flush : IO unit := λ w,
  if decide (db_ok (w_session w)) then (Ret tt, w) else (Raise IntegrityError, w).
(** [session.commit()]. *)
Definition commit : IO unit := flush ;; modify (λ w, set_db (w_session w) w).

(** [with Session(engine) as session: body]: a fresh session on the committed
    rows; the enclosing session, if any, is not affected. *)
Definition with_session {A} (body : IO A) : IO A := λ w,
  let '(r, w') := body (set_session (w_db w) w) in
  (r, set_session (w_session w) w').

(** The write scope of every repository: [try: yield; commit] with a rollback
    on any exception.  A rollback drops the staged writes. *)
Definition write_scope {A} (body : IO A) : IO A :=
  with_session (a ← body; commit ;; mret a).

(** [session.begin_nested()]: on an [IntegrityError] the staged writes of [body]
    are dropped and [handler] runs in the enclosing transaction. *)
Definition savepoint {A} (body : IO A) (handler : IO A) : IO A := λ w,
  match body w with
  | (Raise IntegrityError, w') => handler (set_session (w_session w) w')
  | r => r
  end.

(** [session.add(Row(id=i, ...))]: a duplicate primary key is an
    [IntegrityError] at the next flush. *)
Definition add_row {R} (get : Db → gmap uuid R) (set : (gmap uuid R → gmap uuid R) → Db → Db)
    (i : uuid) (r : R) : IO unit := λ w,
  match get (w_session w) !! i with
  | Some _ => (Raise IntegrityError, w)
  | None => (Ret tt, set_session (set (<[i := r]>) (w_session w)) w)
  end.

(** ** Queries *)

(** [SELECT * FROM t WHERE P], in the engine's own order. *)
Definition select_where {R} (P : uuid → R → bool) (m : gmap uuid R) : list (uuid * R) :=
  filter (λ ir, P ir.1 ir.2 = true) (map_to_list m).

(** [.one_or_none()]. *)
Definition one_or_none {A} (l : list A) : IO (option A) :=
  match l with
  | [] => mret None
  | [x] => mret (Some x)
  | _ => raise MultipleResultsFound
  end.

(** [UPDATE t SET f WHERE P]. *)
Definition update_where {R} (P : uuid → R → bool) (f : R → R) (m : gmap uuid R) : gmap uuid R :=
  map_imap (λ i r, Some (if P i r then f r else r)) m.

(** [DELETE FROM t WHERE P]. *)
Definition delete_where {R} (P : uuid → R → bool) (m : gmap uuid R) : gmap uuid R :=
  map_filter (λ ir, P ir.1 ir.2 = false) _ m.

(** [DELETE FROM refresh_tokens WHERE P] with the foreign key's
    [ON DELETE SET NULL] on [replaced_by_token_id]. *)
Definition delete_refresh_where (P : uuid → RefreshRow → bool) (m : gmap uuid RefreshRow)
    : gmap uuid RefreshRow :=
  let m' := delete_where P m in
  (λ r, mkRefreshRow (rt_user_id r) (rt_token_hash r) (rt_family_id r) (rt_expires_at r)
          (rt_revoked_at r)
          (k ← rt_replaced_by r; if decide (is_Some (m' !! k)) then Some k else None)
          (rt_created_at r) (rt_created_ip r) (rt_user_agent r)) <$> m'.

(** Rows in ascending order of a [(timestamp, id)] key. *)
Definition key_le (a b : time * uuid) : Prop := a.1 < b.1 ∨ (a.1 = b.1 ∧ (a.2 <= b.2)%N).
Definition key_lt (a b : time * uuid) : Prop := a.1 < b.1 ∨ (a.1 = b.1 ∧ (a.2 < b.2)%N).
Global Instance key_le_dec a b : Decision (key_le a b).
Proof. unfold key_le. apply _. Defined.
Global Instance key_lt_dec a b : Decision (key_lt a b).
Proof. unfold key_lt. apply _. Defined.
Definition order_by {R} (k : uuid * R → time * uuid) (l : list (uuid * R)) : list (uuid * R) :=
  merge_sort (λ a b, key_le (k a) (k b)) l.

(** [LIMIT n] with a non-negative [n]. *)
Definition limit {A} (n : Z) (l : list A) : list A := take (Z.to_nat n) l.

(** ** Runs *)

Section runs.
Context `{Env}.
Implicit Types w : World.

Lemma run_utc_now w : utc_now w = (Ret (now_at (w_clock w)), tick w).
Proof. done. Qed.
Lemma run_uuid4 w : uuid4 w = (Ret (uuid4_at (w_uuids w)), bump_uuids w).
Proof. done. Qed.
Lemma run_token_urlsafe w : token_urlsafe w = (Ret (token_at (w_tokens w)), bump_tokens w).
Proof. done. Qed.
Lemma run_metric n r w : metric n r w = (Ret tt, log_event (EvMetric n r) w).
Proof. done. Qed.
Lemma run_sess {A} (f : Db → A) w : sess f w = (Ret (f (w_session w)), w).
Proof. done. Qed.
Lemma run_stage f w : stage f w = (Ret tt, set_session (f (w_session w)) w).
Proof. done. Qed.
Lemma run_flush w : db_ok (w_session w) → flush w = (Ret tt, w).
Proof. intros Hok. unfold flush. by rewrite decide_True. Qed.
Lemma run_commit w : db_ok (w_session w) → commit w = (Ret tt, set_db (w_session w) w).
Proof. intros Hok. unfold commit. by rewrite run_bind run_flush. Qed.
Lemma run_commit_fail w : ¬ db_ok (w_session w) → commit w = (Raise IntegrityError, w).
Proof. intros Hok. unfold commit. rewrite run_bind. unfold flush. by rewrite decide_False. Qed.
Lemma run_add_row {R} (get : Db → gmap uuid R) set i r w :
  get (w_session w) !! i = None →
  add_row get set i r w = (Ret tt, set_session (set (<[i := r]>) (w_session w)) w).
Proof. intros Hi. unfold add_row. by rewrite Hi. Qed.

(** A write scope whose body returns commits the rows the body left. *)
Lemma run_write_scope {A} (body : IO A) w a w' :
  body (set_session (w_db w) w) = (Ret a, w') → db_ok (w_session w') →
  write_scope body w = (Ret a, set_session (w_session w) (set_db (w_session w') w')).
Proof.
  intros Hb Hok. unfold write_scope, with_session. rewrite run_bind Hb run_bind.
  by rewrite run_commit.
Qed.

(** A write scope whose body raises leaves the committed rows to the body. *)
Lemma run_write_scope_raise {A} (body : IO A) w e w' :
  body (set_session (w_db w) w) = (Raise e, w') →
  write_scope body w = (Raise e, set_session (w_session w) w').
Proof. intros Hb. unfold write_scope, with_session. by rewrite run_bind Hb. Qed.

(** A write scope never publishes rows that violate a constraint. *)
Lemma write_scope_ok {A} (body : IO A) w :
  (∀ w, db_ok (w_db w) → db_ok (w_db (body w).2)) →
  db_ok (w_db w) → db_ok (w_db (write_scope body w).2).
Proof.
  intros Hbody Hw. unfold write_scope, with_session. rewrite run_bind.
  specialize (Hbody (set_session (w_db w) w) Hw).
  destruct (body _) as [[a|e] w'] eqn:E; simpl in *; [|done].
  unfold commit. rewrite !run_bind. unfold flush. by case_decide.
Qed.
End runs.

#[export] Hint Rewrite @run_utc_now @run_uuid4 @run_token_urlsafe @run_metric @run_sess @run_stage : app.

(** A single statement in its own transaction. *)
Lemma run_write_stage f (w : World) :
  db_ok (f (w_db w)) → write_scope (stage f) w = (Ret tt, set_db (f (w_db w)) w).
Proof. intros Hok. by erewrite run_write_scope; [|apply run_stage|]. Qed.

(** How a write scope can end: published, or rolled back with an exception. *)
Lemma write_scope_cases {A} (body : IO A) (w : World) :
  (∃ a w1, body (set_session (w_db w) w) = (Ret a, w1) ∧ db_ok (w_session w1) ∧
     write_scope body w = (Ret a, set_session (w_session w) (set_db (w_session w1) w1))) ∨
  (∃ o w1 e, body (set_session (w_db w) w) = (o, w1) ∧
     write_scope body w = (Raise e, set_session (w_session w) w1)).
Proof.
  unfold write_scope, with_session. rewrite run_bind.
  destruct (body _) as [[a|e] w1]; [|right; by eexists _, _, _].
  unfold commit. rewrite !run_bind. unfold flush. case_decide.
  - left. by exists a, w1.
  - right. by eexists _, _, _.
Qed.
