(* ===== verification/StoreFacts.v ===== *)
(** Facts about the relational layer: which table updates keep the schema's
    constraints, what queries return, and the order of sorted result sets. *)

From S2P Require Import Prelude PyStr Uuid Store.
Open Scope Z_scope.

(** ** Lookups through statements *)

Section statements.
Context {R : Type}.
Implicit Types (m : gmap uuid R) (P : uuid → R → bool).

Lemma lookup_update_where P f m i :
  update_where P f m !! i = (λ r, if P i r then f r else r) <$> m !! i.
Proof. unfold update_where. rewrite map_lookup_imap. by destruct (m !! i). Qed.

Lemma lookup_delete_where P m i :
  delete_where P m !! i = r ← m !! i; if P i r then None else Some r.
Proof.
  unfold delete_where. rewrite map_lookup_filter.
  destruct (m !! i) as [r|]; simpl; [|done].
  case_guard as HP; simpl in *; [by rewrite HP|]. by destruct (P i r).
Qed.

Lemma update_where_none P f m :
  (∀ i r, m !! i = Some r → P i r = false) → update_where P f m = m.
Proof.
  intros HP. apply map_eq. intros i. rewrite lookup_update_where.
  destruct (m !! i) as [r|] eqn:E; simpl; [|done]. by rewrite HP.
Qed.

Lemma delete_where_none P m :
  (∀ i r, m !! i = Some r → P i r = false) → delete_where P m = m.
Proof.
  intros HP. apply map_eq. intros i. rewrite lookup_delete_where.
  destruct (m !! i) as [r|] eqn:E; simpl; [|done]. by rewrite HP.
Qed.

Lemma elem_of_select_where P m i r :
  (i, r) ∈ select_where P m ↔ m !! i = Some r ∧ P i r = true.
Proof. unfold select_where. rewrite list_elem_of_filter elem_of_map_to_list /=. naive_solver. Qed.

Lemma NoDup_select_where P m : NoDup (select_where P m).*1.
Proof.
  unfold select_where.
  eapply sublist_NoDup; [apply (NoDup_fst_map_to_list m)|].
  apply fmap_sublist, sublist_filter.
Qed.

Lemma select_where_nil P m :
  select_where P m = [] ↔ ∀ i r, m !! i = Some r → P i r = false.
Proof.
  split.
  - intros E i r Hi. destruct (P i r) eqn:HP; [|done].
    assert (Hin : (i, r) ∈ select_where P m) by by apply elem_of_select_where.
    rewrite E in Hin. by apply not_elem_of_nil in Hin.
  - intros HP. apply elem_of_nil_inv. intros [i r] Hin.
    apply elem_of_select_where in Hin as [Hi Ht]. by rewrite (HP i r Hi) in Ht.
Qed.

(** At most one row of a set with a unique key matches. *)
Lemma select_where_unique P m i r :
  m !! i = Some r → P i r = true →
  (∀ j x, m !! j = Some x → P j x = true → j = i) → select_where P m = [(i, r)].
Proof.
  intros Hi HP Huniq. apply Permutation_singleton_r.
  apply NoDup_Permutation; [eapply NoDup_fmap_1, NoDup_select_where|apply NoDup_singleton|].
  intros [j x]. rewrite elem_of_select_where list_elem_of_singleton.
  split; [|intros [= -> ->]; done].
  intros [Hj Hx]. pose proof (Huniq j x Hj Hx) as ->. by rewrite Hi in Hj; simplify_eq.
Qed.
End statements.

(** ** Unique columns *)

Section uniq.
Context {R K : Type} `{EqDecision K} (f : R → K).
Implicit Types (m : gmap uuid R) (P : uuid → R → bool).

Lemma uniq_on_spec m :
  uniq_on f m ↔ ∀ i j x y, m !! i = Some x → m !! j = Some y → f x = f y → i = j.
Proof.
  unfold uniq_on. split.
  - intros Hnd i j x y Hi Hj Hf.
    apply elem_of_map_to_list in Hi, Hj.
    apply list_elem_of_lookup in Hi as [n Hn]. apply list_elem_of_lookup in Hj as [k Hk].
    assert (n = k) as ->; [|by simplify_eq].
    eapply NoDup_lookup; [exact Hnd| |]; rewrite list_lookup_fmap.
    + by rewrite Hn.
    + rewrite Hk /=. by rewrite Hf.
  - intros Huniq. apply NoDup_fmap_2_strong; [|apply NoDup_map_to_list].
    intros [i x] [j y] Hi Hj Hf. apply elem_of_map_to_list in Hi, Hj. simpl in Hf.
    assert (i = j) as -> by eauto. by simplify_eq.
Qed.

(** Rewriting rows keeps a column unique when it keeps the column. *)
Lemma uniq_on_update P g m :
  (∀ i r, P i r = true → f (g r) = f r) → uniq_on f m → uniq_on f (update_where P g m).
Proof.
  rewrite !uniq_on_spec. intros Hg Huniq i j x y.
  rewrite !lookup_update_where !fmap_Some.
  assert (Hf : ∀ i r, f (if P i r then g r else r) = f r)
    by (intros ? r; destruct (P _ r) eqn:?; eauto).
  intros (x' & Hx & ->) (y' & Hy & ->). rewrite !Hf. eauto.
Qed.

Lemma uniq_on_delete P m : uniq_on f m → uniq_on f (delete_where P m).
Proof.
  rewrite !uniq_on_spec. intros Huniq i j x y. rewrite !lookup_delete_where.
  intros (x' & Hx & ?)%bind_Some (y' & Hy & ?)%bind_Some.
  destruct (P i x'), (P j y'); simplify_eq. eauto.
Qed.

Lemma uniq_on_insert i r m :
  (∀ j x, m !! j = Some x → f x = f r → j = i) →
  uniq_on f m → uniq_on f (<[i := r]> m).
Proof.
  rewrite !uniq_on_spec. intros Hnew Huniq j k x y.
  rewrite !lookup_insert_Some. naive_solver.
Qed.
End uniq.

(** ** Foreign keys *)

Section fk.
Context {R T : Type} (f : R → option uuid).
Implicit Types (m : gmap uuid R) (t : gmap uuid T) (P : uuid → R → bool).

Lemma fk_on_spec m t :
  fk_on f m t ↔ ∀ i r k, m !! i = Some r → f r = Some k → is_Some (t !! k).
Proof.
  unfold fk_on, map_Forall. split.
  - intros H i r k Hi Hk. specialize (H i r Hi). by rewrite Hk in H.
  - intros H i r Hi. destruct (f r) eqn:E; eauto.
Qed.

Lemma fk_on_target m t t' :
  (∀ k, is_Some (t !! k) → is_Some (t' !! k)) → fk_on f m t → fk_on f m t'.
Proof. rewrite !fk_on_spec. naive_solver. Qed.

Lemma fk_on_update P g m t :
  (∀ i r k, P i r = true → f (g r) = Some k → f r = Some k) →
  fk_on f m t → fk_on f (update_where P g m) t.
Proof.
  rewrite !fk_on_spec. intros Hg H i r k. rewrite lookup_update_where fmap_Some.
  intros (r' & Hr & ->). destruct (P i r') eqn:E; eauto.
Qed.

Lemma fk_on_delete P m t : fk_on f m t → fk_on f (delete_where P m) t.
Proof.
  rewrite !fk_on_spec. intros H i r k. rewrite lookup_delete_where.
  intros (r' & Hr & ?)%bind_Some. destruct (P i r'); simplify_eq. eauto.
Qed.

Lemma fk_on_insert i r m t :
  (∀ k, f r = Some k → is_Some (t !! k)) → fk_on f m t → fk_on f (<[i := r]> m) t.
Proof.
  rewrite !fk_on_spec. intros Hr H j x k. rewrite lookup_insert_Some. naive_solver.
Qed.
End fk.

(** Statements on the target that keep its keys. *)
Lemma update_where_is_Some {R} (P : uuid → R → bool) g m k :
  is_Some (m !! k) → is_Some (update_where P g m !! k).
Proof. rewrite lookup_update_where fmap_is_Some. done. Qed.

Lemma insert_is_Some' {R} (m : gmap uuid R) i r k :
  is_Some (m !! k) → is_Some (<[i := r]> m !! k).
Proof. intros. rewrite lookup_insert. case_decide; eauto. Qed.

(** ** The whole schema *)

Section schema.
Implicit Types d : Db.

(** The outbox, its dedup marks and nothing else carry no constraint beyond
    the primary key. *)
Lemma db_ok_outbox f d : db_ok (set_outbox f d) ↔ db_ok d.
Proof. done. Qed.
Lemma db_ok_processed f d : db_ok (set_processed f d) ↔ db_ok d.
Proof. done. Qed.

(** Users may be added or rewritten, never removed. *)
Lemma db_ok_set_users f d :
  db_ok d → uniq_on user_email (f (users d)) →
  map_Forall (λ _ u, 1 <= user_authz_version u) (f (users d)) →
  (∀ k, is_Some (users d !! k) → is_Some (f (users d) !! k)) → db_ok (set_users f d).
Proof.
  intros (_ & _ & ? & Hc & ? & Hr & ? & ? & Hi & Ha & ?) Hu Hv Hk. unfold db_ok. cbn.
  split_and!; try done; eapply fk_on_target; done.
Qed.

Lemma alter_update_where {R} (f : R → R) i (m : gmap uuid R) :
  alter f i m = update_where (λ j _, bool_decide (j = i)) f m.
Proof.
  apply map_eq. intros j. rewrite lookup_update_where lookup_alter.
  destruct (decide (j = i)) as [->|Hne].
  - rewrite decide_True //. destruct (m !! i); [|done]. cbn. by rewrite bool_decide_eq_true_2.
  - rewrite decide_False //. destruct (m !! j); [|done]. cbn. by rewrite bool_decide_eq_false_2.
Qed.

(** Rewriting one user keeps the constraints when its e-mail stays (or is new)
    and its version stays positive. *)
Lemma db_ok_alter_user f i d :
  db_ok d →
  (∀ r, users d !! i = Some r → 1 <= user_authz_version (f r)) →
  (∀ r j x, users d !! i = Some r → users d !! j = Some x → user_email x = user_email (f r) → j = i) →
  db_ok (set_users (alter f i) d).
Proof.
  intros Hok Hv Hu. pose proof Hok as (Huniq & Hver & _).
  apply db_ok_set_users; [done|..].
  - apply uniq_on_spec. intros a b x y. rewrite !lookup_alter_Some.
    rewrite uniq_on_spec in Huniq.
    intros [(-> & r & Hr & ->)|(Ha & Hx)] [(-> & r' & Hr' & ->)|(Hb & Hy)] E; eauto.
    by symmetry; eauto.
  - intros j x. rewrite lookup_alter_Some. intros [(-> & r & Hr & ->)|(_ & Hx)]; [by apply Hv|].
    by apply (Hver j x).
  - intros k Hk. destruct (decide (k = i)) as [->|Hne].
    + destruct Hk as [r Hr]. by rewrite lookup_alter_eq Hr.
    + by rewrite lookup_alter_ne.
Qed.

Lemma db_ok_alter_user_email f i d :
  db_ok d → (∀ r, user_email (f r) = user_email r) →
  (∀ r, user_authz_version r <= user_authz_version (f r)) → db_ok (set_users (alter f i) d).
Proof.
  intros Hok He Hv. pose proof Hok as (Huniq & Hver & _). apply db_ok_alter_user; [done|..].
  - intros r Hr. specialize (Hver i r Hr). cbn in Hver. specialize (Hv r). lia.
  - intros r j x Hr Hx E. rewrite He in E. rewrite uniq_on_spec in Huniq. by eapply Huniq.
Qed.

Lemma db_ok_insert_user i r d :
  db_ok d → users d !! i = None → 1 <= user_authz_version r →
  (∀ j x, users d !! j = Some x → user_email x ≠ user_email r) →
  db_ok (set_users (<[i := r]>) d).
Proof.
  intros Hok Hi Hv Hu. pose proof Hok as (Huniq & Hver & _). apply db_ok_set_users; [done|..].
  - apply uniq_on_insert; [|done]. intros j x Hx E. by destruct (Hu j x Hx).
  - by apply map_Forall_insert_2.
  - intros k Hk. by apply insert_is_Some'.
Qed.

(** A duplicate e-mail is refused. *)
Lemma db_ok_duplicate_email i r j x d :
  users d !! i = None → users d !! j = Some x → user_email x = user_email r →
  ¬ db_ok (set_users (<[i := r]>) d).
Proof.
  intros Hi Hj E (Huniq & _). cbn in Huniq. rewrite uniq_on_spec in Huniq.
  assert (i = j) as ->; [|by rewrite Hj in Hi].
  eapply (Huniq i j r x); [by rewrite lookup_insert_eq| |done].
  rewrite lookup_insert_ne //. intros ->. by rewrite Hj in Hi.
Qed.
End schema.

(** ** Sorted result sets *)

Section sorted.
Context {R : Type} (k : uuid * R → time * uuid).
Implicit Types l : list (uuid * R).

Definition by_key (a b : uuid * R) : Prop := key_le (k a) (k b).

Global Instance by_key_total : Total by_key.
Proof. intros a b. unfold by_key, key_le. lia. Qed.
Global Instance by_key_trans : Transitive by_key.
Proof. intros a b c. unfold by_key, key_le. lia. Qed.

Lemma order_by_perm l : order_by k l ≡ₚ l.
Proof. apply merge_sort_Permutation. Qed.

Lemma order_by_sorted l : StronglySorted by_key (order_by k l).
Proof. apply StronglySorted_merge_sort; apply _. Qed.

Lemma elem_of_order_by l x : x ∈ order_by k l ↔ x ∈ l.
Proof. by rewrite order_by_perm. Qed.

(** The prefix of a sorted list holds the smallest keys. *)
Lemma sorted_prefix_le l n x y :
  StronglySorted by_key l → x ∈ take n l → y ∈ drop n l → by_key x y.
Proof.
  intros Hs Hx Hy. rewrite -(take_drop n l) in Hs.
  apply StronglySorted_app in Hs as (Hs & _ & _). by apply Hs.
Qed.
End sorted.

(** ** Keyset pages *)

Lemma filter_all {A} (P : A → Prop) `{∀ x, Decision (P x)} (l : list A) : Forall P l → filter P l = l.
Proof. induction 1 as [|x l Hx _ IH]; [done|]. by rewrite filter_cons_True // IH. Qed.
Lemma filter_none {A} (P : A → Prop) `{∀ x, Decision (P x)} (l : list A) : Forall (λ x, ¬ P x) l → filter P l = [].
Proof. induction 1 as [|x l Hx _ IH]; [done|]. by rewrite filter_cons_False. Qed.

Section keyset.
Open Scope list_scope.
Context {R : Type} (k : uuid * R → time * uuid) (Hk : ∀ x, (k x).2 = x.1).
Implicit Types (m : gmap uuid R) (l : list (uuid * R)).

(** Keys hold the identifier, so the order is strict on the rows of a table. *)
Lemma by_key_antisym m a b :
  a ∈ map_to_list m → b ∈ map_to_list m → by_key k a b → by_key k b a → a = b.
Proof.
  destruct a as [i r], b as [j x]. rewrite !elem_of_map_to_list. intros Hi Hj H1 H2.
  assert (i = j) as <-.
  { pose proof (Hk (i, r)) as E1. pose proof (Hk (j, x)) as E2. unfold by_key, key_le in *. cbn in *. lia. }
  by rewrite Hi in Hj; simplify_eq.
Qed.

Lemma sorted_filter (P : uuid * R → bool) l :
  StronglySorted (by_key k) l → StronglySorted (by_key k) (filter (λ x, P x = true) l).
Proof.
  induction 1 as [|x l Hl IH Hx]; [constructor|]. rewrite filter_cons. destruct (decide (P x = true)); [|done].
  constructor; [done|]. apply Forall_forall. intros y Hy. apply list_elem_of_filter in Hy as [_ Hy]. by eapply Forall_forall in Hx.
Qed.

(** The rows that satisfy two conditions, by filtering the sorted rows that satisfy
    the first. *)
Lemma order_by_select (P Q : uuid → R → bool) m :
  order_by k (select_where (λ i r, P i r && Q i r) m) = filter (λ x, Q x.1 x.2 = true) (order_by k (select_where P m)).
Proof.
  assert (∀ x, x ∈ select_where (λ i r, P i r && Q i r) m → x ∈ map_to_list m) as Hsub.
  { intros x. unfold select_where. rewrite list_elem_of_filter. tauto. }
  apply (StronglySorted_unique_strong (by_key k)).
  - intros x y Hx Hy. apply elem_of_order_by in Hx. apply list_elem_of_filter in Hy as [_ Hy]. apply elem_of_order_by in Hy.
    unfold select_where in Hx, Hy. apply list_elem_of_filter in Hx as [_ Hx], Hy as [_ Hy]. by apply (by_key_antisym m).
  - apply order_by_sorted.
  - apply (sorted_filter (λ x, Q x.1 x.2)), order_by_sorted.
  - rewrite !order_by_perm. unfold select_where. rewrite list_filter_filter.
    erewrite list_filter_iff; [done|]. intros x. cbn. rewrite andb_true_iff. tauto.
Qed.

Definition rows (P : uuid → R → bool) m : list (uuid * R) := order_by k (select_where P m).

Lemma rows_strict P m pre x post :
  rows P m = pre ++ x :: post → Forall (λ y, key_lt (k y) (k x)) pre ∧ Forall (λ y, key_lt (k x) (k y)) post.
Proof.
  intros E. assert (StronglySorted (by_key k) (pre ++ x :: post)) as Hs by (rewrite -E; apply order_by_sorted).
  assert (NoDup ((pre ++ x :: post).*1)) as Hnd.
  { rewrite -E. unfold rows. rewrite order_by_perm. apply NoDup_select_where. }
  apply StronglySorted_app in Hs as (Hpre & _ & Hpost). apply StronglySorted_cons in Hpost as [Hpost _].
  rewrite fmap_app fmap_cons in Hnd. apply NoDup_app in Hnd as (_ & Hdis & Hnd). apply NoDup_cons in Hnd as [Hnx _].
  assert (∀ y z : uuid * R, by_key k y z → y.1 ≠ z.1 → key_lt (k y) (k z)) as Hlt.
  { intros y z Hle Hne. unfold by_key, key_le, key_lt in *. rewrite !Hk in Hle |- *. lia. }
  rewrite !Forall_forall in Hpost |- *. split; intros y Hy.
  - apply Hlt; [apply Hpre; [done|left]|]. intros Ey. apply (Hdis y.1); [by apply list_elem_of_fmap_2|]. rewrite Ey. left.
  - apply Hlt; [by apply Hpost|]. intros Ey. apply Hnx. rewrite Ey. by apply list_elem_of_fmap_2.
Qed.

Lemma select_true m : select_where (λ _ _, true) m = map_to_list m.
Proof. apply filter_all, Forall_true. done. Qed.

(** The rows behind a row, and the rows before it, by comparing keys. *)
Lemma rows_after P m pre x post :
  rows P m = pre ++ x :: post →
  rows (λ i r, P i r && bool_decide (key_lt (k x) (k (i, r)))) m = post.
Proof.
  intros E. destruct (rows_strict _ _ _ _ _ E) as [Hpre Hpost]. unfold rows in *.
  rewrite order_by_select E filter_app filter_cons. rewrite decide_False.
  2: { destruct x. cbn. rewrite bool_decide_eq_true. unfold key_lt. lia. }
  rewrite filter_none ?filter_all //.
  - eapply Forall_impl; [done|]. intros []. cbn. by rewrite bool_decide_eq_true.
  - eapply Forall_impl; [done|]. intros []. cbn. rewrite bool_decide_eq_true. unfold key_lt. lia.
Qed.
Lemma rows_before P m pre x post :
  rows P m = pre ++ x :: post →
  rows (λ i r, P i r && bool_decide (key_lt (k (i, r)) (k x))) m = pre.
Proof.
  intros E. destruct (rows_strict _ _ _ _ _ E) as [Hpre Hpost]. unfold rows in *.
  rewrite order_by_select E filter_app filter_cons. rewrite decide_False.
  2: { destruct x. cbn. rewrite bool_decide_eq_true. unfold key_lt. lia. }
  rewrite filter_all ?filter_none ?app_nil_r //.
  - eapply Forall_impl; [done|]. intros []. cbn. rewrite bool_decide_eq_true. unfold key_lt. lia.
  - eapply Forall_impl; [done|]. intros []. cbn. by rewrite bool_decide_eq_true.
Qed.
End keyset.
