(* ===== verification/Demo.v ===== *)
(** A concrete environment, on which the properties are exercised: a clock that
    advances one second per reading (for the first million), distinct identifiers and tokens, a toy
    salted hash in place of Argon2 and an injective stand-in for SHA-256. *)

From Stdlib Require Import Ascii String.
From S2P Require Import Prelude PyStr Uuid Store.
Open Scope string_scope.
Open Scope Z_scope.

Definition demo_epoch : time := 1700000000 * second.

Definition demo_verify (h pw : string) : bool := String.prefix (pw +:+ "$") h.

Fixpoint xs (n : nat) : string := match n with O => "" | S n => String "x"%char (xs n) end.

#[global] Instance demo_env : Env := {|
  now_at n := demo_epoch + (Z.of_nat n `min` 1000000) * second;
  uuid4_at n := (N.of_nat n + 1000)%N;
  token_at n := "token-" +:+ xs n;
  argon2_hash salt pw := pw +:+ "$" +:+ xs salt;
  argon2_verify := demo_verify;
  sha256_hex s := "sha256:" +:+ s;
  exc_repr _ := "Exception()";
  trace_carrier_at _ := ∅;
|}.

(** Decide a closed decidable proposition by evaluation. *)
Ltac by_eval := apply (bool_decide_unpack _); vm_compute; exact I.

#[global] Instance demo_uuids_distinct : UuidsDistinct.
Proof. intros a b. cbn. lia. Qed.

(** The identifiers still to be drawn are above [1000 + n]. *)
Lemma demo_fresh {R} n (m : gmap uuid R) :
  map_Forall (λ i _, (i < N.of_nat n + 1000)%N) m → fresh_from n m.
Proof.
  intros Hm k Hk. destruct (m !! uuid4_at k) as [x|] eqn:E; [|done].
  specialize (Hm _ _ E). cbn in Hm. lia.
Defined.
