(* ===== verification/Outbox.v ===== *)
(** The transactional outbox ([features/outbox]): the producer's writer and unit
    of work, the relay's repository, the relay tick, retention, handler dedup,
    the operator's re-arm command, settings and the cron descriptors. *)

From S2P Require Import Prelude PyStr Uuid Store StoreFacts.
Open Scope string_scope.
Open Scope Z_scope.

(** [domain/message.py:OutboxMessage]. *)
Record OutboxMessage := mkOutboxMessage {
  msg_id : uuid;
  msg_job_name : string;
  msg_payload : payload;
  msg_available_at : time;
  msg_status : OutboxStatus;
  msg_attempts : Z;
  msg_last_error : option string;
  msg_locked_at : option time;
  msg_locked_by : option string;
  msg_created_at : time;
  msg_delivered_at : option time;
  msg_trace_context : payload;
}.

Definition outbox_pending (s : OutboxStatus) : bool := bool_decide (s = Pending).

(** ** The producer side *)

Module SessionSQLModelOutboxAdapter.
Section writer.
Context `{Env}.

(** Stage a row on the caller's session.  [available_at] is an instant; a naive
    [datetime] is not a value of [time]. *)
Definition enqueue (job_name : string) (payload : payload) (available_at : option time) : IO unit :=
  carrier ← gets (λ w, trace_carrier_at (w_clock w));
  id ← uuid4;
  default_available_at ← utc_now;
  created_at ← utc_now;
  add_row outbox_messages set_outbox id
    (mkOutboxRow job_name payload carrier (default default_available_at available_at)
       Pending 0 None None None created_at None None).
End writer.
End SessionSQLModelOutboxAdapter.

Module SQLModelOutboxUnitOfWork.
(** [with uow.transaction() as writer: body]. *)
Definition transaction {A} (body : IO A) : IO A := write_scope body.
End SQLModelOutboxUnitOfWork.

(** ** The relay's repository *)

Module SQLModelOutboxRepository.

(** [ORDER BY available_at, id]. *)
Definition claim_key (ir : uuid * OutboxRow) : time * uuid := (ob_available_at ir.2, ir.1).

(** [WHERE status = 'pending' AND available_at <= :now], rows locked by another
    transaction skipped. *)
Definition claimable (locks : gset uuid) (now : time) (i : uuid) (r : OutboxRow) : bool :=
  outbox_pending (ob_status r) && (ob_available_at r <=? now) && bool_decide (i ∉ locks).

(** [UPDATE ... SET locked_at = :now, locked_by = :worker_id]. *)
Definition stamp (now : time) (worker_id : string) (r : OutboxRow) : OutboxRow :=
  mkOutboxRow (ob_job_name r) (ob_payload r) (ob_trace_context r) (ob_available_at r)
    (ob_status r) (ob_attempts r) (ob_last_error r) (Some now) (Some worker_id)
    (ob_created_at r) (ob_delivered_at r) (ob_failed_at r).

Definition to_message (now : time) (worker_id : string) (ir : uuid * OutboxRow) : OutboxMessage :=
  let '(i, r) := ir in
  mkOutboxMessage i (ob_job_name r) (ob_payload r) (ob_available_at r) (ob_status r)
    (ob_attempts r) (ob_last_error r) (Some now) (Some worker_id) (ob_created_at r)
    (ob_delivered_at r) (ob_trace_context r).

(** The rows the claim query returns. *)
Definition claim_rows (locks : gset uuid) (now : time) (batch_size : Z)
    (m : gmap uuid OutboxRow) : list (uuid * OutboxRow) :=
  limit batch_size (order_by claim_key (select_where (claimable locks now) m)).

Definition claim_batch (now : time) (batch_size : Z) (worker_id : string) : IO (list OutboxMessage) :=
  if batch_size <=? 0 then mret [] else
  rows ← write_scope (
    locks ← gets w_row_locks;
    rows ← sess (λ d, claim_rows locks now batch_size (outbox_messages d));
    (if bool_decide (rows = []) then mret [] else
     let claimed_ids := rows.*1 in
     stage (set_outbox (update_where (λ i _, bool_decide (i ∈ claimed_ids)) (stamp now worker_id))) ;;
     mret rows));
  mret (to_message now worker_id <$> rows).

(** One [UPDATE ... WHERE id = :id] in its own transaction. *)
Definition update_row (id : uuid) (f : OutboxRow → OutboxRow) : IO unit :=
  write_scope (stage (set_outbox (update_where (λ i _, bool_decide (i = id)) f))).

Definition set_delivered (delivered_at : time) (r : OutboxRow) : OutboxRow :=
  mkOutboxRow (ob_job_name r) (ob_payload r) (ob_trace_context r) (ob_available_at r)
    Delivered (ob_attempts r) (ob_last_error r) None None
    (ob_created_at r) (Some delivered_at) (ob_failed_at r).
Definition mark_delivered (id : uuid) (delivered_at : time) : IO unit :=
  update_row id (set_delivered delivered_at).

Definition set_retry (attempts : Z) (last_error : string) (available_at : time) (r : OutboxRow) : OutboxRow :=
  mkOutboxRow (ob_job_name r) (ob_payload r) (ob_trace_context r) available_at
    (ob_status r) attempts (Some last_error) None None
    (ob_created_at r) (ob_delivered_at r) (ob_failed_at r).
Definition mark_retry (id : uuid) (attempts : Z) (last_error : string) (available_at : time) : IO unit :=
  update_row id (set_retry attempts last_error available_at).

Definition set_failed (attempts : Z) (last_error : string) (failed_at : time) (r : OutboxRow) : OutboxRow :=
  mkOutboxRow (ob_job_name r) (ob_payload r) (ob_trace_context r) (ob_available_at r)
    Failed attempts (Some last_error) None None
    (ob_created_at r) (ob_delivered_at r) (Some failed_at).
Definition mark_failed (id : uuid) (attempts : Z) (last_error : string) (failed_at : time) : IO unit :=
  update_row id (set_failed attempts last_error failed_at).

(** [DELETE FROM t WHERE id IN (SELECT id ... ORDER BY k LIMIT :limit)]: the rows
    deleted, and how many.  The statement leaves the order of equal timestamps
    open; here it is the order of the ids. *)
Definition oldest {R} (stamp_of : R → option time) (eligible : R → bool) (limit_ : Z)
    (m : gmap uuid R) : list uuid :=
  (limit limit_ (order_by (λ ir, (default 0 (stamp_of ir.2), ir.1)) (select_where (λ _ r, eligible r) m))).*1.

Definition before (t : option time) (cutoff : time) : bool :=
  match t with Some t => t <? cutoff | None => false end.

Definition delivered_before (cutoff : time) (r : OutboxRow) : bool :=
  bool_decide (ob_status r = Delivered) && before (ob_delivered_at r) cutoff.
Definition failed_before (cutoff : time) (r : OutboxRow) : bool :=
  bool_decide (ob_status r = Failed) && before (ob_failed_at r) cutoff.

Definition delete_oldest {R} (get : Db → gmap uuid R) (set : (gmap uuid R → gmap uuid R) → Db → Db)
    (stamp_of : R → option time) (eligible : R → bool) (limit_ : Z) : IO Z :=
  if limit_ <=? 0 then mret 0 else
  write_scope (
    ids ← sess (λ d, oldest stamp_of eligible limit_ (get d));
    stage (set (delete_where (λ i _, bool_decide (i ∈ ids)))) ;;
    mret (Z.of_nat (length ids))).

Definition delete_delivered_before (cutoff : time) (limit_ : Z) : IO Z :=
  delete_oldest outbox_messages set_outbox ob_delivered_at (delivered_before cutoff) limit_.
Definition delete_failed_before (cutoff : time) (limit_ : Z) : IO Z :=
  delete_oldest outbox_messages set_outbox ob_failed_at (failed_before cutoff) limit_.
Definition delete_processed_marks_before (cutoff : time) (limit_ : Z) : IO Z :=
  delete_oldest processed_messages set_processed Some (λ t, t <? cutoff) limit_.

End SQLModelOutboxRepository.

(** ** The relay tick *)

Definition OUTBOX_MESSAGE_ID_KEY : string := "__outbox_message_id".
Definition TRACE_KEY : string := "__trace".

Module DispatchPending.
Export SQLModelOutboxRepository.

Record RelayTickReport := mkReport {
  claimed : Z;
  dispatched : Z;
  retried : Z;
  failed : Z;
}.

(** The use case's configuration; [job_queue.enqueue] is the port it calls. *)
Record Config := mkConfig {
  batch_size : Z;
  max_attempts : Z;
  worker_id : string;
  retry_base : time;
  retry_max : time;
  job_queue_enqueue : string → payload → IO unit;
}.

(** [{**row.payload}] with the reserved keys filled in where absent. *)
Definition dispatched_payload (row : OutboxMessage) : payload :=
  let p := match msg_payload row !! OUTBOX_MESSAGE_ID_KEY with
           | Some _ => msg_payload row
           | None => <[OUTBOX_MESSAGE_ID_KEY := JStr (uuid_str (msg_id row))]> (msg_payload row)
           end in
  if bool_decide (msg_trace_context row ≠ ∅) && bool_decide (p !! TRACE_KEY = None)
  then <[TRACE_KEY := JObj (map_to_list (msg_trace_context row))]> p
  else p.

(** [min(retry_base * 2 ** (next_attempts - 1), retry_max)]. *)
Definition backoff (cfg : Config) (next_attempts : Z) : IO time :=
  d ← timedelta (retry_base cfg * 2 ^ (next_attempts - 1));
  mret (d `min` retry_max cfg).

Section execute.
Context `{Env} (cfg : Config).

(** How one claimed row ended. *)
Inductive verdict := Dispatched | Retried | GaveUp.
Global Instance verdict_eq_dec : EqDecision verdict.
Proof. solve_decision. Defined.

(** The [except Exception as exc] branch. *)
Definition on_failure (now : time) (row : OutboxMessage) (exc : exn) : IO verdict :=
  let next_attempts := msg_attempts row + 1 in
  if max_attempts cfg <=? next_attempts then
    mark_failed (msg_id row) next_attempts (exc_repr exc) now ;;
    metric "outbox_dispatched_total" "failure" ;;
    mret GaveUp
  else
    delay ← backoff cfg next_attempts;
    available_at ← datetime_add now delay;
    mark_retry (msg_id row) next_attempts (exc_repr exc) available_at ;;
    mret Retried.

Definition on_success (now : time) (row : OutboxMessage) : IO verdict :=
  mark_delivered (msg_id row) now ;;
  metric "outbox_dispatched_total" "success" ;;
  mret Dispatched.

(** One iteration of the loop; the [try] covers the enqueue only, and a [SystemExit]
    leaves the loop. *)
Definition dispatch_row (now : time) (row : OutboxMessage) : IO verdict :=
  exc ← except_exception (job_queue_enqueue cfg (msg_job_name row) (dispatched_payload row) ;; mret None)
                         (λ e, mret (Some e));
  match exc with
  | Some exc => on_failure now row exc
  | None => on_success now row
  end.

Definition count (v : verdict) (r : RelayTickReport) : RelayTickReport :=
  match v with
  | Dispatched => mkReport (claimed r) (dispatched r + 1) (retried r) (failed r)
  | Retried => mkReport (claimed r) (dispatched r) (retried r + 1) (failed r)
  | GaveUp => mkReport (claimed r) (dispatched r) (retried r) (failed r + 1)
  end.

Fixpoint dispatch_rows (now : time) (rows : list OutboxMessage) (r : RelayTickReport) : IO RelayTickReport :=
  match rows with
  | [] => mret r
  | row :: rows => v ← dispatch_row now row; dispatch_rows now rows (count v r)
  end.

Definition execute : IO RelayTickReport :=
  now ← utc_now;
  rows ← claim_batch now (batch_size cfg) (worker_id cfg);
  match rows with
  | [] => mret (mkReport 0 0 0 0)
  | _ => dispatch_rows now rows (mkReport (Z.of_nat (length rows)) 0 0 0)
  end.
End execute.
End DispatchPending.

(** ** Retention *)

Module PruneOutbox.
Export SQLModelOutboxRepository.

Record PruneSummary := mkSummary {
  delivered_deleted : Z;
  failed_deleted : Z;
  processed_marks_deleted : Z;
}.

(** [while True: deleted = delete_one_batch(); if deleted <= 0: return total].
    [None] is a loop that has not ended after [fuel] calls. *)
Fixpoint drain (delete_one_batch : IO Z) (fuel : nat) (total : Z) : IO (option Z) :=
  match fuel with
  | O => mret None
  | S fuel =>
      deleted ← delete_one_batch;
      if deleted <=? 0 then mret (Some total)
      else drain delete_one_batch fuel (total + deleted)
  end.

(** The cutoffs are computed before anything is deleted.  [fuel] bounds each of
    the three loops. *)
Definition execute `{Env} (fuel : nat) (retention_delivered_days retention_failed_days : Z)
    (dedup_retention : time) (batch_size : Z) : IO (option PruneSummary) :=
  now ← utc_now;
  rd ← timedelta (retention_delivered_days * day);
  delivered_cutoff ← datetime_add now (- rd);
  rf ← timedelta (retention_failed_days * day);
  failed_cutoff ← datetime_add now (- rf);
  rp ← timedelta dedup_retention;
  processed_cutoff ← datetime_add now (- rp);
  d ← drain (delete_delivered_before delivered_cutoff batch_size) fuel 0;
  match d with None => mret None | Some d =>
  f ← drain (delete_failed_before failed_cutoff batch_size) fuel 0;
  match f with None => mret None | Some f =>
  p ← drain (delete_processed_marks_before processed_cutoff batch_size) fuel 0;
  mret (mkSummary d f <$> p)
  end end.
End PruneOutbox.

(** ** Handler-side dedup and the operator's re-arm *)

(** [composition/handler_dedupe.py:build_handler_dedupe]. *)
Definition dedupe `{Env} (message_id : string) : IO bool :=
  match uuid_parse message_id with
  | None => mret true
  | Some row_id =>
      with_session (
        processed_at ← utc_now;
        try_except (add_row processed_messages set_processed row_id processed_at ;; commit ;; mret true)
          (λ e, match e with IntegrityError => mret false | e => raise e end))
  end.

Definition rearm (now : time) (r : OutboxRow) : OutboxRow :=
  mkOutboxRow (ob_job_name r) (ob_payload r) (ob_trace_context r) now
    Pending 0 None None None (ob_created_at r) (ob_delivered_at r) (ob_failed_at r).

(** [management.py:retry_failed]; [now()] is the database's clock. *)
Definition retry_failed `{Env} : IO Z :=
  write_scope (
    now ← utc_now;
    n ← sess (λ d, length (select_where (λ _ r, bool_decide (ob_status r = Failed)) (outbox_messages d)));
    stage (set_outbox (update_where (λ _ r, bool_decide (ob_status r = Failed)) (rearm now))) ;;
    mret (Z.of_nat n)).

(** ** Settings and cron descriptors *)

(** Durations are kept in microseconds where the source has float seconds. *)
Record OutboxSettings := mkOutboxSettings {
  enabled : bool;
  relay_interval : time;
  claim_batch_size : Z;
  outbox_max_attempts : Z;
  outbox_retry_base : time;
  outbox_retry_max : time;
  outbox_worker_id : string;
  retention_delivered_days : Z;
  retention_failed_days : Z;
  prune_batch_size : Z;
}.

(** The keyword arguments of [from_app_settings]; an [AppSettings] fills them all. *)
Record OutboxKwargs := mkOutboxKwargs {
  kw_enabled : option bool;
  kw_relay_interval : option time;
  kw_claim_batch_size : option Z;
  kw_max_attempts : option Z;
  kw_retry_base : option time;
  kw_retry_max : option time;
  kw_worker_id : option string;
  kw_retention_delivered_days : option Z;
  kw_retention_failed_days : option Z;
  kw_prune_batch_size : option Z;
}.

(** [worker_id or _default_worker_id()]. *)
Definition or_default (s : option string) (d : string) : string :=
  match s with
  | Some s => if String.eqb s "" then d else s
  | None => d
  end.

Definition from_app_settings (default_worker_id : string) (app : option OutboxKwargs)
    (kwargs : OutboxKwargs) : Result OutboxSettings exn :=
  let k := default kwargs app in
  match kw_enabled k with
  | None => Err (ValueError "OutboxSettings: 'enabled' is required")
  | Some enabled => Ok {|
      enabled := enabled;
      relay_interval := default (5 * second) (kw_relay_interval k);
      claim_batch_size := default 100 (kw_claim_batch_size k);
      outbox_max_attempts := default 8 (kw_max_attempts k);
      outbox_retry_base := default (30 * second) (kw_retry_base k);
      outbox_retry_max := default (900 * second) (kw_retry_max k);
      outbox_worker_id := or_default (kw_worker_id k) default_worker_id;
      retention_delivered_days := default 7 (kw_retention_delivered_days k);
      retention_failed_days := default 30 (kw_retention_failed_days k);
      prune_batch_size := default 1000 (kw_prune_batch_size k);
    |}
  end.

Definition dedup_retention (s : OutboxSettings) : time := 2 * outbox_retry_max s.

(** [if cond: errors.append(msg)]. *)
Definition error_if (cond : bool) (msg : string) : list string := if cond then [msg] else [].

Definition validate_outbox (s : OutboxSettings) : list string :=
  concat [
    error_if (relay_interval s <=? 0) "APP_OUTBOX_RELAY_INTERVAL_SECONDS must be > 0";
    error_if (claim_batch_size s <=? 0) "APP_OUTBOX_CLAIM_BATCH_SIZE must be > 0";
    error_if (outbox_max_attempts s <=? 0) "APP_OUTBOX_MAX_ATTEMPTS must be > 0";
    error_if (outbox_retry_base s <=? 0) "APP_OUTBOX_RETRY_BASE_SECONDS must be > 0";
    error_if (outbox_retry_max s <=? 0) "APP_OUTBOX_RETRY_MAX_SECONDS must be > 0";
    error_if (outbox_retry_max s <? outbox_retry_base s)
      "APP_OUTBOX_RETRY_MAX_SECONDS must be >= APP_OUTBOX_RETRY_BASE_SECONDS";
    error_if (retention_delivered_days s <=? 0) "APP_OUTBOX_RETENTION_DELIVERED_DAYS must be > 0";
    error_if (retention_failed_days s <=? 0) "APP_OUTBOX_RETENTION_FAILED_DAYS must be > 0";
    error_if (prune_batch_size s <=? 0) "APP_OUTBOX_PRUNE_BATCH_SIZE must be > 0"].

Definition validate_outbox_production (s : OutboxSettings) : list string :=
  error_if (negb (enabled s)) "APP_OUTBOX_ENABLED must be true in production".

(** [composition/container.py:build_outbox_container]: the dispatch use case. *)
Definition dispatch_config (s : OutboxSettings) (enqueue : string → payload → IO unit)
    : DispatchPending.Config :=
  DispatchPending.mkConfig (claim_batch_size s) (outbox_max_attempts s) (outbox_worker_id s)
    (outbox_retry_base s) (outbox_retry_max s) enqueue.

(** [_DIVISORS_OF_60]. *)
Definition DIVISORS_OF_60 : list Z := [1; 2; 3; 4; 5; 6; 10; 12; 15; 20; 30; 60].

(** [round(x)] of the built-ins for [x / unit], halves to the even neighbour. *)
Definition round_half_even (unit x : Z) : Z :=
  let q := x / unit in
  let r := 2 * (x mod unit) in
  if r <? unit then q else if unit <? r then q + 1 else if Z.even q then q else q + 1.

(** [min(l, key=lambda d: (abs(d - x), -d))]: the first least element. *)
Definition nearer (x a b : Z) : bool :=
  (Z.abs (b - x) <? Z.abs (a - x)) || ((Z.abs (b - x) =? Z.abs (a - x)) && (- b <? - a)).
Definition min_by_distance (x : Z) (l : list Z) (first : Z) : Z :=
  fold_left (λ best d, if nearer x best d then d else best) l first.

Definition snap_to_divisor (interval : time) : Z :=
  let rounded := 1 `max` round_half_even second interval in
  match DIVISORS_OF_60 with
  | [] => rounded
  | d :: l => min_by_distance rounded l d
  end.

(** [background_jobs/application/cron.py:CronSpec]. *)
Record CronSpec := mkCronSpec {
  cron_name : string;
  interval_seconds : Z;
  run_at_startup : bool;
  callable : IO unit;
}.

Definition build_relay_cron_specs `{Env} (fuel : nat) (s : OutboxSettings)
    (enqueue : string → payload → IO unit) : list CronSpec :=
  if negb (enabled s) then [] else
  [ mkCronSpec "outbox-relay" (snap_to_divisor (relay_interval s)) true
      (_ ← DispatchPending.execute (dispatch_config s enqueue); mret tt);
    mkCronSpec "outbox-prune" 3600 false
      (_ ← PruneOutbox.execute fuel (retention_delivered_days s) (retention_failed_days s)
             (dedup_retention s) (prune_batch_size s); mret tt) ].
