(* ===== verification/OutboxFacts.v ===== *)
(** What the outbox guarantees: the claim query, the relay tick and its backoff,
    interleaved relays, retention, dedup and the producer's atomicity. *)

From S2P Require Import Prelude PyStr Uuid Store StoreFacts Demo Outbox.
Open Scope string_scope.
Open Scope Z_scope.

Import SQLModelOutboxRepository.

(** ** The claim query *)

Section claim.
Implicit Types (m : gmap uuid OutboxRow) (locks : gset uuid).

Lemma claim_rows_elem locks now n m i r :
  (i, r) ∈ claim_rows locks now n m → m !! i = Some r ∧ claimable locks now i r = true.
Proof.
  unfold claim_rows, limit. intros Hin%subseteq_take.
  by apply elem_of_order_by, elem_of_select_where in Hin.
Qed.

Lemma claim_rows_NoDup locks now n m : NoDup (claim_rows locks now n m).*1.
Proof.
  unfold claim_rows, limit.
  eapply sublist_NoDup; [|apply fmap_sublist, sublist_take].
  rewrite order_by_perm. apply NoDup_select_where.
Qed.

Lemma claim_rows_length locks now n m :
  length (claim_rows locks now n m)
  = (Z.to_nat n `min` length (select_where (claimable locks now) m))%nat.
Proof. unfold claim_rows, limit. by rewrite length_take order_by_perm. Qed.

(** A claimable row left behind is not older than a claimed one. *)
Lemma claim_rows_oldest locks now n m i r j x :
  (i, r) ∈ claim_rows locks now n m →
  m !! j = Some x → claimable locks now j x = true → (j, x) ∉ claim_rows locks now n m →
  key_le (claim_key (i, r)) (claim_key (j, x)).
Proof.
  unfold claim_rows, limit. intros Hi Hj Hc Hout.
  assert (Hin : (j, x) ∈ order_by claim_key (select_where (claimable locks now) m))
    by (apply elem_of_order_by, elem_of_select_where; done).
  rewrite -(take_drop (Z.to_nat n) (order_by _ _)) elem_of_app in Hin.
  destruct Hin as [?|Hin]; [done|].
  eapply (sorted_prefix_le claim_key); [apply order_by_sorted|exact Hi|exact Hin].
Qed.

(** The table after the claim. *)
Definition stamp_claimed (now : time) (wid : string) (ids : list uuid) m : gmap uuid OutboxRow :=
  update_where (λ i _, bool_decide (i ∈ ids)) (stamp now wid) m.

Lemma stamp_claimed_nil now wid m : stamp_claimed now wid [] m = m.
Proof. apply update_where_none. intros. by apply bool_decide_eq_false, not_elem_of_nil. Qed.

Lemma run_claim_batch now n wid w :
  db_ok (w_db w) → 0 < n →
  let rows := claim_rows (w_row_locks w) now n (outbox_messages (w_db w)) in
  claim_batch now n wid w
  = (Ret (to_message now wid <$> rows), set_db (set_outbox (stamp_claimed now wid rows.*1) (w_db w)) w).
Proof.
  intros Hok Hn. cbv zeta. unfold claim_batch. rewrite (proj2 (Z.leb_gt n 0)) //.
  rewrite run_bind.
  destruct (bool_decide (claim_rows (w_row_locks w) now n (outbox_messages (w_db w)) = [])) eqn:E.
  - erewrite run_write_scope.
    2: { rewrite run_bind run_gets run_bind run_sess. cbn -[claim_rows].
         rewrite E. reflexivity. }
    2: exact Hok.
    apply bool_decide_eq_true in E. rewrite E.
    destruct w as [[]]. unfold set_outbox. cbn -[stamp_claimed]. by rewrite stamp_claimed_nil.
  - erewrite run_write_scope.
    2: { rewrite run_bind run_gets run_bind run_sess. cbn -[claim_rows].
         rewrite E run_bind run_stage run_ret. reflexivity. }
    2: exact Hok. reflexivity.
Qed.
End claim.

(** ** The relay tick *)

(** What the relay needs of the job queue: handlers may write to any table and
    may enqueue new rows, but they leave the rows already in the outbox alone
    and never publish a database that violates a constraint. *)
Class JobQueuePort (enqueue : string → payload → IO unit) : Prop := {
  enqueue_db_ok job p w : db_ok (w_db w) → db_ok (w_db (enqueue job p w).2);
  enqueue_keeps_rows job p w i r :
    outbox_messages (w_db w) !! i = Some r →
    outbox_messages (w_db (enqueue job p w).2) !! i = Some r;
}.

Section tick.
Context `{Env} (cfg : DispatchPending.Config).
Import DispatchPending.
Implicit Types (w : World) (r : OutboxRow).

(** The abstract tick: what one attempt makes of a row with [a] attempts so
    far, given how the enqueue ended. *)
Definition attempt_verdict (a : Z) (exc : option exn) : verdict :=
  match exc with
  | None => Dispatched
  | Some _ => if max_attempts cfg <=? a + 1 then GaveUp else Retried
  end.
Definition attempt_row (now : time) (a : Z) (exc : option exn) : OutboxRow → OutboxRow :=
  match exc with
  | None => set_delivered now
  | Some e =>
      if max_attempts cfg <=? a + 1 then set_failed (a + 1) (exc_repr e) now
      else set_retry (a + 1) (exc_repr e) (now + (retry_base cfg * 2 ^ a) `min` retry_max cfg)
  end.
Definition attempt_log (v : verdict) (w : World) : World :=
  match v with
  | Dispatched => log_event (EvMetric "outbox_dispatched_total" "success") w
  | GaveUp => log_event (EvMetric "outbox_dispatched_total" "failure") w
  | Retried => w
  end.
Definition attempt_world (now : time) (i : uuid) (a : Z) (exc : option exn) (w : World) : World :=
  attempt_log (attempt_verdict a exc)
    (set_db (set_outbox (update_where (λ j _, bool_decide (j = i)) (attempt_row now a exc)) (w_db w)) w).

Definition outcome_exn (o : outcome unit) : option exn :=
  match o with Ret _ => None | Raise e => Some e end.

(** The queue took the message, or raised what [except Exception] catches. *)
Definition answers (o : outcome unit) : Prop :=
  match o with Ret _ => True | Raise e => is_exception e = true end.

(** The tick as a relation: each claimed row in turn is handed to the queue,
    and its row is rewritten by the answer.  A queue that exits the process ends
    the tick there: the rows that are left stay as the claim made them. *)
Inductive tick_steps (now : time) : list OutboxMessage → World → list verdict → option exn → World → Prop :=
  | tick_done w : tick_steps now [] w [] None w
  | tick_row msg msgs w o w1 vs stop w2 :
      job_queue_enqueue cfg (msg_job_name msg) (dispatched_payload msg) w = (o, w1) → answers o →
      tick_steps now msgs (attempt_world now (msg_id msg) (msg_attempts msg) (outcome_exn o) w1) vs stop w2 →
      tick_steps now (msg :: msgs) w (attempt_verdict (msg_attempts msg) (outcome_exn o) :: vs) stop w2
  | tick_exit msg msgs w e w1 :
      job_queue_enqueue cfg (msg_job_name msg) (dispatched_payload msg) w = (Raise e, w1) → is_exception e = false →
      tick_steps now (msg :: msgs) w [] (Some e) w1.

(** Settings under which the backoff arithmetic stays in range. *)
Definition backoff_safe (now : time) : Prop :=
  0 < retry_base cfg ∧ 0 < retry_max cfg ∧
  retry_base cfg * 2 ^ (max_attempts cfg - 2) < 1000000000 * day ∧
  datetime_ok now = true ∧ datetime_ok (now + retry_max cfg) = true.

Lemma pow2_le a b : 0 <= a <= b → 2 ^ a <= 2 ^ b.
Proof. intros. apply Z.pow_le_mono_r; lia. Qed.

Lemma run_backoff a w :
  timedelta_ok (retry_base cfg * 2 ^ a) = true →
  backoff cfg (a + 1) w = (Ret ((retry_base cfg * 2 ^ a) `min` retry_max cfg), w).
Proof.
  intros Hok. unfold backoff, timedelta. replace (a + 1 - 1) with a by lia. by rewrite Hok.
Qed.

Lemma backoff_in_range now a :
  backoff_safe now → 0 <= a → a + 1 < max_attempts cfg →
  timedelta_ok (retry_base cfg * 2 ^ a) = true ∧
  datetime_ok (now + (retry_base cfg * 2 ^ a) `min` retry_max cfg) = true.
Proof.
  intros (Hb & Hm & Hov & Hnow & Hmax) Ha Hlt.
  assert (Hpow : 2 ^ a <= 2 ^ (max_attempts cfg - 2)) by (apply pow2_le; lia).
  assert (Hpos : 0 < 2 ^ a) by (apply Z.pow_pos_nonneg; lia).
  assert (Hd : 0 < retry_base cfg * 2 ^ a) by nia.
  assert (Hle : retry_base cfg * 2 ^ a <= retry_base cfg * 2 ^ (max_attempts cfg - 2)) by nia.
  unfold timedelta_ok, datetime_ok, day, second in *.
  rewrite !andb_true_iff !Z.leb_le !Z.ltb_lt in Hnow, Hmax |- *. lia.
Qed.

Lemma db_ok_attempt now i a exc w :
  db_ok (w_db w) → db_ok (w_db (attempt_world now i a exc w)).
Proof. unfold attempt_world. by destruct (attempt_verdict _ _). Qed.

Lemma run_dispatch_row now msg w o w1 :
  JobQueuePort (job_queue_enqueue cfg) → db_ok (w_db w) → backoff_safe now → 0 <= msg_attempts msg →
  job_queue_enqueue cfg (msg_job_name msg) (dispatched_payload msg) w = (o, w1) → answers o →
  dispatch_row cfg now msg w
  = (Ret (attempt_verdict (msg_attempts msg) (outcome_exn o)),
     attempt_world now (msg_id msg) (msg_attempts msg) (outcome_exn o) w1).
Proof.
  intros Hq Hok Hsafe Ha E Ho.
  assert (Hok1 : db_ok (w_db w1)).
  { change w1 with (o, w1).2. rewrite -E. by apply enqueue_db_ok. }
  unfold dispatch_row. rewrite run_bind. unfold except_exception, try_except. rewrite run_bind E.
  destruct o as [[]|e]; cbn in Ho; [|rewrite Ho]; cbn -[on_success on_failure attempt_verdict attempt_world].
  - unfold on_success, mark_delivered, update_row. rewrite run_bind run_write_stage //.
  - unfold on_failure, attempt_verdict, attempt_world, mark_failed, mark_retry, update_row. cbn.
    case_match eqn:Hmax.
    + rewrite run_bind run_write_stage //.
    + apply Z.leb_gt in Hmax. destruct (backoff_in_range now (msg_attempts msg)) as [Htd Hdt]; [done..|].
      rewrite run_bind run_backoff // run_bind. unfold datetime_add. rewrite Hdt run_ret run_bind run_write_stage //.
Qed.

Lemma run_dispatch_exit now msg w e w1 :
  job_queue_enqueue cfg (msg_job_name msg) (dispatched_payload msg) w = (Raise e, w1) → is_exception e = false →
  dispatch_row cfg now msg w = (Raise e, w1).
Proof.
  intros E He. unfold dispatch_row. rewrite run_bind. unfold except_exception, try_except. by rewrite run_bind E He.
Qed.

Definition verdicts (v : verdict) (vs : list verdict) : Z :=
  Z.of_nat (length (filter (λ x, x = v) vs)).

Lemma verdicts_cons v x vs : verdicts v (x :: vs) = verdicts v vs + (if decide (x = v) then 1 else 0).
Proof. unfold verdicts. rewrite filter_cons. case_decide; simpl; lia. Qed.

Lemma run_dispatch_rows now msgs w rep :
  JobQueuePort (job_queue_enqueue cfg) → db_ok (w_db w) → backoff_safe now →
  Forall (λ m, 0 <= msg_attempts m) msgs →
  ∃ vs stop w', tick_steps now msgs w vs stop w' ∧ db_ok (w_db w') ∧
    dispatch_rows cfg now msgs rep w
    = (match stop with
       | None => Ret (mkReport (claimed rep) (dispatched rep + verdicts Dispatched vs)
                        (retried rep + verdicts Retried vs) (failed rep + verdicts GaveUp vs))
       | Some e => Raise e
       end, w').
Proof.
  intros Hq Hok Hsafe Hall. revert w rep Hok.
  induction Hall as [|msg msgs Ha Hall IH]; intros w rep Hok.
  { exists [], None, w. split_and!; [constructor|done|]. destruct rep. cbn. by rewrite !Z.add_0_r. }
  destruct (job_queue_enqueue cfg (msg_job_name msg) (dispatched_payload msg) w) as [o w1] eqn:E.
  assert (Hok1 : db_ok (w_db w1)).
  { change w1 with (o, w1).2. rewrite -E. by apply enqueue_db_ok. }
  assert (answers o ∨ ∃ e, o = Raise e ∧ is_exception e = false) as [Ho|(e & -> & He)].
  { destruct o as [|e]; cbn; [by left|]. destruct (is_exception e) eqn:He; [by left|right; by exists e]. }
  2: { eexists [], (Some e), w1. split_and!; [by econstructor|done|]. cbn [dispatch_rows].
       by rewrite run_bind (run_dispatch_exit _ _ _ _ _ E He). }
  destruct (IH (attempt_world now (msg_id msg) (msg_attempts msg) (outcome_exn o) w1)
    (count (attempt_verdict (msg_attempts msg) (outcome_exn o)) rep)) as (vs & stop & w' & Hsteps & Hok' & Hrun).
  { by apply db_ok_attempt. }
  eexists _, stop, w'. split_and!; [by econstructor|done|].
  cbn [dispatch_rows]. rewrite run_bind (run_dispatch_row _ _ _ _ _ Hq Hok Hsafe Ha E Ho) Hrun.
  destruct stop as [e|]; [done|].
  rewrite !verdicts_cons. apply (f_equal (λ rep, (Ret rep, w'))).
  destruct rep, (attempt_verdict _ _); cbn; repeat case_decide; try congruence; f_equal; lia.
Qed.

(** A tick leaves rows it did not claim alone ... *)
Lemma tick_steps_frame now msgs w vs stop w' i r :
  JobQueuePort (job_queue_enqueue cfg) → tick_steps now msgs w vs stop w' →
  i ∉ msg_id <$> msgs → outbox_messages (w_db w) !! i = Some r →
  outbox_messages (w_db w') !! i = Some r.
Proof.
  intros Hq Hsteps. induction Hsteps as [|msg msgs w o w1 vs stop w2 E Ho Hsteps IH|msg msgs w e w1 E He];
    intros Hi Hr; [done| |by apply (enqueue_keeps_rows (msg_job_name msg) (dispatched_payload msg)) in Hr; rewrite E in Hr].
  cbn in Hi. apply not_elem_of_cons in Hi as [Hne Hi]. apply IH; [done|].
  apply (enqueue_keeps_rows (msg_job_name msg) (dispatched_payload msg)) in Hr. rewrite E in Hr.
  unfold attempt_world. destruct (attempt_verdict _ _); cbn; rewrite lookup_update_where Hr /=;
    by rewrite bool_decide_eq_false_2.
Qed.

(** ... and one that ends rewrites each row it claimed by the answer to its enqueue. *)
Lemma tick_steps_row now msgs w vs w' msg r :
  JobQueuePort (job_queue_enqueue cfg) → tick_steps now msgs w vs None w' →
  NoDup (msg_id <$> msgs) → msg ∈ msgs → outbox_messages (w_db w) !! msg_id msg = Some r →
  ∃ exc, outbox_messages (w_db w') !! msg_id msg = Some (attempt_row now (msg_attempts msg) exc r).
Proof.
  intros Hq Hsteps. remember None as stop eqn:Hstop.
  induction Hsteps as [|msg' msgs w o w1 vs stop w2 E Ho Hsteps IH|]; intros Hnd Hi Hr; [|subst stop|done].
  { by apply not_elem_of_nil in Hi. }
  cbn in Hnd. apply NoDup_cons in Hnd as [Hout Hnd].
  apply (enqueue_keeps_rows (msg_job_name msg') (dispatched_payload msg')) in Hr. rewrite E in Hr. cbn in Hr.
  apply elem_of_cons in Hi as [<-|Hi].
  - exists (outcome_exn o). eapply tick_steps_frame; [done..|].
    unfold attempt_world. destruct (attempt_verdict _ _); cbn; rewrite lookup_update_where Hr /=;
      by rewrite bool_decide_eq_true_2.
  - apply IH; [done..|].
    assert (msg_id msg ≠ msg_id msg') by (intros Heq; apply Hout; rewrite -Heq; by apply list_elem_of_fmap_2).
    unfold attempt_world. destruct (attempt_verdict _ _); cbn; rewrite lookup_update_where Hr /=;
      by rewrite bool_decide_eq_false_2.
Qed.

Lemma claimed_attempts locks now n wid (m : gmap uuid OutboxRow) :
  map_Forall (λ _ r, 0 <= ob_attempts r) m →
  Forall (λ msg, 0 <= msg_attempts msg) (to_message now wid <$> claim_rows locks now n m).
Proof.
  intros Hm. apply Forall_fmap, Forall_forall. intros [i r] Hin. cbn.
  apply claim_rows_elem in Hin as [Hi _]. by apply (Hm i r).
Qed.

Lemma to_message_ids now wid rows : msg_id <$> (to_message now wid <$> rows) = rows.*1.
Proof. rewrite -list_fmap_compose. apply list_fmap_ext. by intros ? [] _. Qed.

(** Only an exit ends it early. *)
Lemma tick_steps_exit now msgs w vs e w' : tick_steps now msgs w vs (Some e) w' → is_exception e = false.
Proof.
  intros Hsteps. remember (Some e) as stop eqn:Hstop. induction Hsteps; [done|by auto|by injection Hstop as ->].
Qed.

(** A tick that ends has a verdict for every message. *)
Lemma tick_steps_length now msgs w vs w' : tick_steps now msgs w vs None w' → length vs = length msgs.
Proof.
  intros Hsteps. remember None as stop eqn:Hstop. induction Hsteps; [done| |done]. cbn. by rewrite IHHsteps.
Qed.

(** The tick in one equation: claim, then the abstract steps. *)
Lemma run_execute w :
  JobQueuePort (job_queue_enqueue cfg) → db_ok (w_db w) → backoff_safe (now_at (w_clock w)) →
  0 < batch_size cfg → map_Forall (λ _ r, 0 <= ob_attempts r) (outbox_messages (w_db w)) →
  let now := now_at (w_clock w) in
  let rows := claim_rows (w_row_locks w) now (batch_size cfg) (outbox_messages (w_db w)) in
  let msgs := to_message now (worker_id cfg) <$> rows in
  ∃ vs stop w',
    tick_steps now msgs
      (tick (set_db (set_outbox (stamp_claimed now (worker_id cfg) rows.*1) (w_db w)) w)) vs stop w' ∧
    db_ok (w_db w') ∧
    execute cfg w
    = (match stop with
       | None => Ret (mkReport (Z.of_nat (length rows)) (verdicts Dispatched vs) (verdicts Retried vs) (verdicts GaveUp vs))
       | Some e => Raise e
       end, w').
Proof.
  intros Hq Hok Hsafe Hn Hatt. cbv zeta.
  set (now := now_at (w_clock w)) in *.
  set (rows := claim_rows _ _ _ _).
  destruct (run_dispatch_rows now (to_message now (worker_id cfg) <$> rows)
    (tick (set_db (set_outbox (stamp_claimed now (worker_id cfg) rows.*1) (w_db w)) w))
    (mkReport (Z.of_nat (length rows)) 0 0 0)) as (vs & stop & w' & Hsteps & Hok' & Hrun).
  { done. } { done. } { done. } { by apply claimed_attempts. }
  exists vs, stop, w'. split_and!; [done..|].
  unfold execute. rewrite run_bind run_utc_now run_bind run_claim_batch //.
  change (w_row_locks (tick w)) with (w_row_locks w). change (w_db (tick w)) with (w_db w).
  fold now rows. destruct (to_message now (worker_id cfg) <$> rows) as [|msg msgs] eqn:E.
  - assert (rows = []) as Hrows by by apply fmap_nil_inv in E.
    inversion Hsteps; subst. by replace (length rows) with O by by rewrite Hrows.
  - rewrite -E length_fmap. rewrite -Hrun. by rewrite E.
Qed.
End tick.

(** ** Properties of the claim and the tick *)

Section tick_properties.
Import DispatchPending.

(** [claim_batch] returns distinct pending rows whose time has come and that
    no other transaction holds, stamped with the worker, as many as the batch
    size allows; it changes no other row, and a ready row it leaves behind is
    never older than one it takes. *)
Theorem claim_batch_spec now n wid w :
  db_ok (w_db w) → 0 < n →
  ∃ rows w',
    claim_batch now n wid w = (Ret (to_message now wid <$> rows), w') ∧
    NoDup rows.*1 ∧
    length rows = (Z.to_nat n `min`
      length (select_where (claimable (w_row_locks w) now) (outbox_messages (w_db w))))%nat ∧
    (∀ i r, (i, r) ∈ rows →
      outbox_messages (w_db w) !! i = Some r ∧ ob_status r = Pending ∧
      ob_available_at r <= now ∧ i ∉ w_row_locks w ∧
      outbox_messages (w_db w') !! i = Some (stamp now wid r)) ∧
    (∀ i, i ∉ rows.*1 → outbox_messages (w_db w') !! i = outbox_messages (w_db w) !! i) ∧
    (∀ i r j x, (i, r) ∈ rows → (j, x) ∉ rows → outbox_messages (w_db w) !! j = Some x →
      claimable (w_row_locks w) now j x = true → key_le (claim_key (i, r)) (claim_key (j, x))).
Proof.
  intros Hok Hn. eexists _, _. split; [by apply run_claim_batch|].
  set (rows := claim_rows _ _ _ _). split_and!.
  - apply claim_rows_NoDup.
  - apply claim_rows_length.
  - intros i r Hin. pose proof Hin as [Hi Hc]%claim_rows_elem.
    unfold claimable, outbox_pending in Hc.
    rewrite !andb_true_iff !bool_decide_eq_true Z.leb_le in Hc. destruct Hc as [[??]?].
    split_and!; [done..|]. cbn. unfold stamp_claimed. rewrite lookup_update_where Hi /=.
    rewrite bool_decide_eq_true_2 //. by apply (list_elem_of_fmap_2 fst) in Hin.
  - intros i Hi. cbn. unfold stamp_claimed. rewrite lookup_update_where.
    destruct (outbox_messages (w_db w) !! i) as [r|]; [|done]. cbn.
    by rewrite bool_decide_eq_false_2.
  - intros i r j x Hi Hj Hx Hc. by eapply claim_rows_oldest.
Qed.


(** After a tick that ends, a row the tick did not claim is what it was, and a claimed
    row is delivered, rescheduled with one more attempt, or abandoned once its
    attempts reach the budget: no other change to a row is possible. *)
Lemma relay_tick_rows `{Env} cfg w :
  JobQueuePort (job_queue_enqueue cfg) → db_ok (w_db w) → backoff_safe cfg (now_at (w_clock w)) →
  0 < batch_size cfg → map_Forall (λ _ r, 0 <= ob_attempts r) (outbox_messages (w_db w)) →
  let now := now_at (w_clock w) in
  let rows := claim_rows (w_row_locks w) now (batch_size cfg) (outbox_messages (w_db w)) in
  let w' := state_of (execute cfg) w in
  (∃ report, result_of (execute cfg) w = Ret report) →
  ∀ i r, outbox_messages (w_db w) !! i = Some r →
    ((i, r) ∉ rows ∧ outbox_messages (w_db w') !! i = Some r) ∨
    ((i, r) ∈ rows ∧ ob_status r = Pending ∧
     ∃ exc, outbox_messages (w_db w') !! i
            = Some (attempt_row cfg now (ob_attempts r) exc (stamp now (worker_id cfg) r))).
Proof.
  intros Hq Hok Hsafe Hn Hatt now rows w' [report Hend] i r Hi.
  destruct (run_execute cfg w) as (vs & stop & w'' & Hsteps & Hok' & Hrun); [done..|].
  assert (w' = w'') as -> by (unfold w', state_of; by rewrite Hrun).
  assert (stop = None) as ->. { destruct stop; [|done]. unfold result_of in Hend. by rewrite Hrun in Hend. }
  destruct (decide (i ∈ rows.*1)) as [Hin|Hout].
  - right. apply list_elem_of_fmap in Hin as ([j x] & -> & Hin).
    pose proof Hin as [Hx Hc]%claim_rows_elem. cbn in Hi. rewrite Hx in Hi. injection Hi as <-.
    split; [done|]. split.
    { unfold claimable, outbox_pending in Hc. rewrite !andb_true_iff !bool_decide_eq_true in Hc. by destruct Hc as [[? _] _]. }
    pose proof (tick_steps_row cfg now _ _ _ _ (to_message now (worker_id cfg) (j, x))
      (stamp now (worker_id cfg) x) Hq Hsteps) as Hrow. cbn in Hrow. apply Hrow.
    + rewrite to_message_ids. apply claim_rows_NoDup.
    + by apply (list_elem_of_fmap_2 (to_message now (worker_id cfg))) in Hin.
    + unfold stamp_claimed. rewrite lookup_update_where Hx /= bool_decide_eq_true_2 //.
      by apply (list_elem_of_fmap_2 fst) in Hin.
  - left. split; [intros Hin; apply Hout; by apply (list_elem_of_fmap_2 fst) in Hin|].
    eapply tick_steps_frame; [done|exact Hsteps|by rewrite to_message_ids|].
    cbn. unfold stamp_claimed. rewrite lookup_update_where Hi /= bool_decide_eq_false_2 //.
Qed.
End tick_properties.

(** *** A concrete relay *)

Section relay_demo.
Import DispatchPending.

Definition demo_row (job : string) (available_at attempts : Z) : OutboxRow :=
  mkOutboxRow job {[ "to" := JStr "ada@example.com" ]} ∅ available_at Pending attempts
    None None None demo_epoch None None.

Definition demo_outbox (rows : list (uuid * OutboxRow)) : World :=
  set_db (set_outbox (λ _, list_to_map rows) empty_db) init_world.

Definition demo_relay_world : World :=
  demo_outbox [(1%N, demo_row "ok" (demo_epoch - second) 0);
               (2%N, demo_row "boom" (demo_epoch - 2 * second) 0);
               (3%N, demo_row "boom" demo_epoch 7);
               (4%N, demo_row "ok" (demo_epoch + day) 0)].

Definition demo_queue (job : string) (_ : payload) : IO unit :=
  if String.eqb job "boom" then raise (RuntimeError "queue down") else mret tt.

Definition demo_config : Config := mkConfig 100 8 "host:1" (30 * second) (900 * second) demo_queue.

Global Instance demo_queue_port : JobQueuePort demo_queue.
Proof. split; intros job p w; unfold demo_queue; destruct (String.eqb job "boom"); done. Defined.

Lemma demo_backoff_safe : backoff_safe demo_config demo_epoch.
Proof. unfold backoff_safe, demo_config. cbn. split_and!; vm_compute; done. Defined.

Lemma claim_batch_spec_witness :
  ∃ rows w', claim_batch demo_epoch 2 "host:1" demo_relay_world = (Ret (to_message demo_epoch "host:1" <$> rows), w') ∧
    length rows = 2%nat ∧ NoDup rows.*1.
Proof.
  destruct (claim_batch_spec demo_epoch 2 "host:1" demo_relay_world) as (rows & w' & E & Hnd & Hlen & _);
    [by_eval|lia|].
  exists rows, w'. split; [exact E|]. split; [rewrite Hlen; vm_compute; reflexivity|exact Hnd].
Defined.


End relay_demo.
