(* ===== verification/OutboxLiveness.v ===== *)
(** Liveness of the relay: a message is settled after finitely many ticks that
    reach it, whatever the job queue answers. *)

From stdpp Require Import relations.
From S2P Require Import Prelude PyStr Uuid Store StoreFacts Demo Outbox OutboxFacts.
Open Scope string_scope.
Open Scope Z_scope.
Import SQLModelOutboxRepository DispatchPending.

Section liveness.
Context `{Env} (cfg : Config).
Implicit Types (w : World) (r : OutboxRow).

(** A backlog the batch can hold is claimed as a whole. *)
Lemma backlog_claimed locks now n (m : gmap uuid OutboxRow) i r :
  (length (select_where (claimable locks now) m) <= Z.to_nat n)%nat →
  m !! i = Some r → claimable locks now i r = true → (i, r) ∈ claim_rows locks now n m.
Proof.
  intros Hn Hi Hc. unfold claim_rows, limit. rewrite take_ge; [|by rewrite order_by_perm].
  by apply elem_of_order_by, elem_of_select_where.
Qed.

(** A tick that reaches message [i]: since the previous tick time has passed and
    other requests were served, but the message is as that tick left it; it is
    due, no other transaction holds it, the backlog fits into one batch, and the
    queue answers (with or without an exception) instead of exiting the process. *)
Inductive reaching_tick (i : uuid) : World → World → Prop :=
  | reaching w w0 :
      outbox_messages (w_db w0) !! i = outbox_messages (w_db w) !! i →
      db_ok (w_db w0) → map_Forall (λ _ r, 0 <= ob_attempts r) (outbox_messages (w_db w0)) →
      backoff_safe cfg (now_at (w_clock w0)) →
      (∀ r, outbox_messages (w_db w0) !! i = Some r → ob_available_at r <= now_at (w_clock w0)) →
      i ∉ w_row_locks w0 →
      (length (select_where (claimable (w_row_locks w0) (now_at (w_clock w0))) (outbox_messages (w_db w0)))
        <= Z.to_nat (batch_size cfg))%nat →
      (∃ report, result_of (execute cfg) w0 = Ret report) →
      reaching_tick i w (state_of (execute cfg) w0).

(** How a message stands: still to be tried, with its attempts; or settled. *)
Definition settled r : Prop :=
  ob_status r = Delivered ∨ (ob_status r = Failed ∧ is_Some (ob_last_error r)).

Context (Hq : JobQueuePort (job_queue_enqueue cfg)) (Hbatch : 0 < batch_size cfg).

Lemma reaching_tick_settled i w w' r :
  reaching_tick i w w' → outbox_messages (w_db w) !! i = Some r → settled r →
  outbox_messages (w_db w') !! i = Some r.
Proof.
  intros Hstep Hi Hr. destruct Hstep as [w w0 Hsame Hok Hatt Hsafe _ _ _ Hend]. rewrite -Hsame in Hi.
  destruct (relay_tick_rows cfg w0 Hq Hok Hsafe Hbatch Hatt Hend i r Hi) as [[_ Hr']|(_ & Hp & _)]; [done|].
  destruct Hr as [E|[E _]]; congruence.
Qed.

Lemma reaching_tick_pending i w w' r :
  reaching_tick i w w' → outbox_messages (w_db w) !! i = Some r → ob_status r = Pending →
  ∃ r', outbox_messages (w_db w') !! i = Some r' ∧
    (settled r' ∨ (ob_status r' = Pending ∧ ob_attempts r' = ob_attempts r + 1 ∧ ob_attempts r' < max_attempts cfg)).
Proof.
  intros Hstep Hi Hp. destruct Hstep as [w w0 Hsame Hok Hatt Hsafe Hdue Hlock Hlen Hend]. rewrite -Hsame in Hi.
  destruct (relay_tick_rows cfg w0 Hq Hok Hsafe Hbatch Hatt Hend i r Hi) as [[Hout _]|(_ & _ & exc & Hr')].
  - exfalso. apply Hout, backlog_claimed; [done..|]. unfold claimable, outbox_pending.
    rewrite !bool_decide_eq_true_2 //. rewrite andb_true_r. by apply Z.leb_le, Hdue.
  - eexists. split; [exact Hr'|]. destruct exc as [e|]; cbn; [|by left; left].
    destruct (Z.leb_spec (max_attempts cfg) (ob_attempts r + 1)); [by left; right|right]. cbn. by split_and!.
Qed.

Lemma settled_kept k i w w' r :
  nsteps (reaching_tick i) k w w' → outbox_messages (w_db w) !! i = Some r → settled r →
  outbox_messages (w_db w') !! i = Some r.
Proof.
  revert w. induction k as [|k IH]; intros w Hs Hr Hset; inversion Hs; subst; [done|].
  eapply IH; [done| |done]. by eapply reaching_tick_settled.
Qed.

(** C12. Every message is settled: as many ticks that reach a pending message and run
    to their end as it has attempts left (at least one) leave it delivered, or failed
    with its last error, however the job queue answered each time, with or without an
    exception; and from then on no tick changes it. A tick reaches the message when
    the message is due and not locked, the backlog fits into one batch, and the queue
    does not exit the process. *)
Theorem message_is_settled n i w w' r :
  outbox_messages (w_db w) !! i = Some r → ob_status r = Pending →
  (Z.to_nat (max_attempts cfg - ob_attempts r) <= n)%nat → (0 < n)%nat →
  nsteps (reaching_tick i) n w w' →
  ∃ r', outbox_messages (w_db w') !! i = Some r' ∧ settled r' ∧
    ∀ m w2, nsteps (reaching_tick i) m w' w2 → outbox_messages (w_db w2) !! i = Some r'.
Proof.
  intros Hi Hp Hn Hpos Hsteps. revert r Hi Hp Hn.
  induction Hsteps as [|n w w1 w2 Hstep Hsteps IH]; intros r Hi Hp Hn; [lia|].
  destruct (reaching_tick_pending i w w1 r Hstep Hi Hp) as (r1 & Hr1 & [Hset|(Hp1 & Ha1 & Hlt)]).
  - exists r1. split_and!; [by eapply settled_kept|done|]. intros m w3 Hm.
    eapply settled_kept; [exact Hm| |done]. by eapply settled_kept.
  - eapply (IH ltac:(lia) r1); [done..|lia].
Qed.
End liveness.

(** A message with two attempts left, on a queue that is down for good: the
    second tick comes an hour after the first. *)
Definition demo_last_chances : World := demo_outbox [(3%N, demo_row "boom" demo_epoch 6)].
Definition hour_later (w : World) : World :=
  mkWorld (w_db w) (w_session w) (w_clock w + 3600) (w_uuids w) (w_tokens w) (w_salts w) (w_trace w) (w_row_locks w).
Definition demo_tick (w : World) : World := state_of (execute demo_config) w.

Lemma demo_safe_at n : backoff_safe demo_config (now_at n).
Proof.
  unfold backoff_safe, datetime_ok. cbn -[Z.mul Z.add Z.min Z.pow]. unfold demo_epoch, day, second.
  rewrite !andb_true_iff !Z.leb_le !Z.ltb_lt. split_and!; try lia; vm_compute; reflexivity.
Qed.

Lemma message_is_settled_witness :
  ∃ r', outbox_messages (w_db (demo_tick (hour_later (demo_tick demo_last_chances)))) !! 3%N = Some r' ∧ settled r' ∧
    ob_status r' = Failed.
Proof.
  destruct (message_is_settled demo_config demo_queue_port ltac:(done) 2 3%N demo_last_chances
    (demo_tick (hour_later (demo_tick demo_last_chances))) (demo_row "boom" demo_epoch 6)) as (r' & Hr' & Hs & _).
  - vm_compute. reflexivity.
  - reflexivity.
  - vm_compute. lia.
  - lia.
  - eapply nsteps_l; [|eapply nsteps_l; [|apply nsteps_O]].
    + apply reaching; [reflexivity|by_eval|by_eval|apply demo_safe_at|..].
      * intros r Hr. vm_compute in Hr. injection Hr as <-. vm_compute. discriminate.
      * by_eval.
      * vm_compute. lia.
      * eexists. vm_compute. reflexivity.
    + apply reaching; [reflexivity|by_eval|by_eval|apply demo_safe_at|..].
      * intros r Hr. vm_compute in Hr. injection Hr as <-. vm_compute. discriminate.
      * by_eval.
      * vm_compute. lia.
      * eexists. vm_compute. reflexivity.
  - exists r'. split; [exact Hr'|]. split; [exact Hs|]. vm_compute in Hr'. injection Hr' as <-. reflexivity.
Defined.
