(* ===== verification/OutboxRelays.v ===== *)
(** Several relays on one outbox: claims, enqueues and settlements of any number
    of workers, interleaved at transaction granularity, with crashes.  What
    every interleaving keeps, and what it does not. *)

From stdpp Require Import relations.
From S2P Require Import Prelude PyStr Uuid Store StoreFacts Demo Outbox OutboxFacts.
Open Scope string_scope.
Open Scope list_scope.
Open Scope Z_scope.

Import SQLModelOutboxRepository DispatchPending.

(** A message a worker took and has not settled yet: not yet handed to the
    queue, or handed over with the queue's answer. *)
Inductive flight :=
  | InHand (now : time) (msg : OutboxMessage)
  | Answered (now : time) (msg : OutboxMessage) (exc : option exn).

Section relays.
Context `{Env} (cfg : Config).
Implicit Types (w : World) (fl : list flight).

(** The settlement of one message: the code after the [try]. *)
Definition settle (now : time) (msg : OutboxMessage) (exc : option exn) : IO verdict :=
  match exc with
  | Some e => on_failure cfg now msg e
  | None => on_success now msg
  end.

Inductive relay_step : World * list flight → World * list flight → Prop :=
  | step_claim w fl now n wid msgs w' :
      claim_batch now n wid w = (Ret msgs, w') →
      relay_step (w, fl) (w', fl ++ (InHand now <$> msgs))
  | step_enqueue w fl fl' now msg o w' :
      job_queue_enqueue cfg (msg_job_name msg) (dispatched_payload msg) w = (o, w') → answers o →
      relay_step (w, fl ++ InHand now msg :: fl') (w', fl ++ Answered now msg (outcome_exn o) :: fl')
  | step_exit w fl fl' now msg e w' :
      job_queue_enqueue cfg (msg_job_name msg) (dispatched_payload msg) w = (Raise e, w') → is_exception e = false →
      relay_step (w, fl ++ InHand now msg :: fl') (w', fl ++ fl')
  | step_settle w fl fl' now msg exc o w' :
      settle now msg exc w = (o, w') →
      relay_step (w, fl ++ Answered now msg exc :: fl') (w', fl ++ fl')
  | step_crash w fl fl' f :
      relay_step (w, fl ++ f :: fl') (w, fl ++ fl').

(** What stays true of a row, whoever writes it. *)
Definition row_evolves (r r' : OutboxRow) : Prop :=
  ob_job_name r' = ob_job_name r ∧ ob_payload r' = ob_payload r ∧
  ob_trace_context r' = ob_trace_context r ∧ ob_created_at r' = ob_created_at r ∧
  (ob_status r ≠ Pending → ob_status r' ≠ Pending) ∧
  (is_Some (ob_delivered_at r) → is_Some (ob_delivered_at r')).

Definition table_evolves (d d' : Db) : Prop :=
  ∀ i r, outbox_messages d !! i = Some r →
    ∃ r', outbox_messages d' !! i = Some r' ∧ row_evolves r r'.

Global Instance row_evolves_preorder : PreOrder row_evolves.
Proof.
  split; [by intros r; unfold row_evolves|].
  intros x y z (?&?&?&?&?&?) (?&?&?&?&?&?). unfold row_evolves. split_and!; (congruence || eauto).
Qed.

Global Instance table_evolves_preorder : PreOrder table_evolves.
Proof.
  split.
  - intros d i r Hi. by exists r.
  - intros d d' d'' H1 H2 i r Hi. destruct (H1 i r Hi) as (r' & Hi' & Hr').
    destruct (H2 i r' Hi') as (r'' & Hi'' & Hr''). exists r''. split; [done|by etrans].
Qed.

Lemma update_evolves P f d :
  (∀ r, row_evolves r (f r)) → table_evolves d (set_outbox (update_where P f) d).
Proof.
  intros Hf i r Hi. cbn. rewrite lookup_update_where Hi /=. eexists. split; [done|].
  case_match; [apply Hf|done].
Qed.

(** A write transaction whose statement lets the table evolve. *)
Lemma write_stage_evolves P f w o w' :
  (∀ r, row_evolves r (f r)) →
  write_scope (stage (set_outbox (update_where P f))) w = (o, w') → table_evolves (w_db w) (w_db w').
Proof.
  intros Hf E. destruct (write_scope_cases (stage (set_outbox (update_where P f))) w)
    as [(? & w1 & [= <- <-] & _ & E')|(? & w1 & e & [= <- <-] & E')];
    rewrite E in E'; injection E' as -> ->; [by apply update_evolves|done].
Qed.

Lemma set_delivered_evolves t r : row_evolves r (set_delivered t r).
Proof. unfold row_evolves. cbn. split_and!; eauto. Qed.
Lemma set_retry_evolves a e t r : row_evolves r (set_retry a e t r).
Proof. unfold row_evolves. cbn. split_and!; eauto. Qed.
Lemma set_failed_evolves a e t r : row_evolves r (set_failed a e t r).
Proof. unfold row_evolves. cbn. split_and!; eauto. Qed.
Lemma stamp_evolves t wid r : row_evolves r (stamp t wid r).
Proof. unfold row_evolves. cbn. split_and!; eauto. Qed.

(** An update of one row, and what follows it if that leaves the rows alone. *)
Lemma update_row_evolves {A} id f (k : IO A) w o w' :
  (∀ r, row_evolves r (f r)) → (∀ w, w_db (k w).2 = w_db w) →
  (update_row id f ;; k) w = (o, w') → table_evolves (w_db w) (w_db w').
Proof.
  intros Hf Hk. rewrite run_bind. unfold update_row.
  destruct (write_scope _ w) as [[]w0] eqn:E; apply write_stage_evolves in E; [|done| |done].
  - intros E'. specialize (Hk w0). rewrite E' in Hk. cbn in Hk. by rewrite Hk.
  - by intros [= <- <-].
Qed.

Lemma settle_evolves now msg exc w o w' :
  settle now msg exc w = (o, w') → table_evolves (w_db w) (w_db w').
Proof.
  destruct exc as [e|]; cbn.
  - unfold on_failure. case_match.
    + by apply update_row_evolves; [apply set_failed_evolves|].
    + unfold backoff, timedelta, datetime_add. rewrite !run_bind.
      destruct (timedelta_ok _); [|by intros [= <- <-]]. rewrite !run_ret run_bind.
      destruct (datetime_ok _); [|by intros [= <- <-]].
      by apply update_row_evolves; [apply set_retry_evolves|].
  - by apply update_row_evolves; [apply set_delivered_evolves|].
Qed.

Lemma claim_evolves now n wid w o w' :
  claim_batch now n wid w = (o, w') → table_evolves (w_db w) (w_db w').
Proof.
  unfold claim_batch. case_match; [by intros [= <- <-]|].
  rewrite run_bind. match goal with |- context [write_scope ?b w] => set (body := b) end.
  assert (Hb : table_evolves (w_db w) (w_session (body (set_session (w_db w) w)).2) ∧
               w_db (body (set_session (w_db w) w)).2 = w_db w).
  { unfold body. rewrite run_bind run_gets run_bind run_sess. case_match; [done|].
    rewrite run_bind run_stage run_ret. split; [apply update_evolves, stamp_evolves|done]. }
  destruct (write_scope_cases body w) as [(a & w1 & Eb & _ & ->)|(o' & w1 & e & Eb & ->)];
    rewrite Eb in Hb; intros [= <- <-]; cbn; [apply Hb|by rewrite (proj2 Hb)].
Qed.

Lemma enqueue_evolves job p w o w' :
  JobQueuePort (job_queue_enqueue cfg) → job_queue_enqueue cfg job p w = (o, w') → table_evolves (w_db w) (w_db w').
Proof. intros Hq E i r Hi. exists r. split; [|done]. apply (enqueue_keeps_rows job p) in Hi. by rewrite E in Hi. Qed.

Lemma relay_step_evolves s s' :
  JobQueuePort (job_queue_enqueue cfg) → relay_step s s' → table_evolves (w_db s.1) (w_db s'.1).
Proof.
  intros Hq Hstep. destruct Hstep; cbn.
  - by eapply claim_evolves.
  - by eapply enqueue_evolves.
  - by eapply enqueue_evolves.
  - by eapply settle_evolves.
  - done.
Qed.

(** C13. However many relays interleave their claims, enqueues, settlements, exits and
    crashes, a message keeps its job name, payload, trace context and creation time, a
    row that left [pending] never becomes pending again, and a delivery timestamp is
    never erased. *)
Theorem relays_keep_messages s s' :
  JobQueuePort (job_queue_enqueue cfg) → rtc relay_step s s' → table_evolves (w_db s.1) (w_db s'.1).
Proof.
  intros Hq Hsteps. induction Hsteps as [s|s1 s2 s3 Hstep _ IH]; [done|].
  etrans; [by eapply relay_step_evolves|done].
Qed.
End relays.

(** *** Two relays on one row *)

Section two_relays.
(** A queue that takes one message and is down afterwards. *)
Definition flaky_queue (_ : string) (_ : payload) : IO unit := λ w,
  match w_trace w with
  | [] => (Ret tt, w)
  | _ => (Raise (RuntimeError "queue down"), w)
  end.
Definition flaky_config : Config :=
  mkConfig 100 1 "host:1" (30 * second) (900 * second) flaky_queue.

Global Instance flaky_queue_port : JobQueuePort flaky_queue.
Proof. split; intros job p w; unfold flaky_queue; by destruct (w_trace w). Defined.

Definition one_row : World := demo_outbox [(1%N, demo_row "send_email" demo_epoch 0)].
Definition status_of (w : World) (i : uuid) : option OutboxStatus :=
  ob_status <$> outbox_messages (w_db w) !! i.

(** The claim's row locks end with the claim transaction and the claim query
    does not look at [locked_at], so a second relay can claim a row that is
    still in flight: it is then handed to the queue twice, and its delivered
    row can end up failed. *)
Theorem delivered_row_can_fail :
  ∃ w1 fl w2,
    rtc (relay_step flaky_config) (one_row, []) (w1, fl) ∧
    status_of w1 1%N = Some Delivered ∧
    rtc (relay_step flaky_config) (w1, fl) (w2, []) ∧
    status_of w2 1%N = Some Failed.
Proof.
  eexists _, _, _. split; [|split; [|split]].
  - eapply rtc_l; [eapply (step_claim _ _ _ demo_epoch 10 "host:1"); vm_compute; reflexivity|].
    eapply rtc_l; [eapply (step_claim _ _ _ demo_epoch 10 "host:2"); vm_compute; reflexivity|].
    eapply rtc_l; [eapply (step_enqueue _ _ []); [vm_compute; reflexivity|done]|].
    eapply rtc_l; [eapply (step_settle _ _ []); vm_compute; reflexivity|].
    apply rtc_refl.
  - vm_compute. reflexivity.
  - eapply rtc_l; [eapply (step_enqueue _ _ []); [vm_compute; reflexivity|done]|].
    eapply rtc_l; [eapply (step_settle _ _ []); vm_compute; reflexivity|].
    apply rtc_refl.
  - vm_compute. reflexivity.
Qed.

Lemma relays_keep_messages_witness :
  let w' := state_of (claim_batch demo_epoch 10 "host:1") one_row in
  table_evolves (w_db one_row) (w_db w').
Proof.
  cbv zeta. apply (relays_keep_messages flaky_config (one_row, [])
    (state_of (claim_batch demo_epoch 10 "host:1") one_row,
     InHand demo_epoch <$> [to_message demo_epoch "host:1" (1%N, demo_row "send_email" demo_epoch 0)])).
  - apply flaky_queue_port.
  - apply rtc_once. eapply (step_claim flaky_config one_row [] demo_epoch 10 "host:1"
      [to_message demo_epoch "host:1" (1%N, demo_row "send_email" demo_epoch 0)]).
    vm_compute. reflexivity.
Defined.
End two_relays.
