(* ===== verification/OutboxRetention.v ===== *)
(** Retention and bookkeeping of the outbox: the prune loops end and delete what
    has expired and nothing else, marks are recorded once, producers publish
    their rows with their own writes, failed rows are re-armed, and the relay
    interval is snapped to a divisor of sixty. *)

From S2P Require Import Prelude PyStr Uuid Store StoreFacts Demo Outbox OutboxFacts.
Open Scope string_scope.
Open Scope list_scope.
Open Scope Z_scope.

Import SQLModelOutboxRepository PruneOutbox.

(** ** The drain loop *)

Section drain.
Context {R : Type} (get : Db → gmap uuid R) (set : (gmap uuid R → gmap uuid R) → Db → Db).
Context (get_set : ∀ f d, get (set f d) = f (get d)).
Context (set_set : ∀ f g d, set f (set g d) = set (λ m, f (g m)) d).
Context (set_ext : ∀ f g d, f (get d) = g (get d) → set f d = set g d).
Context (set_ok : ∀ f d, db_ok d → db_ok (set f d)).
Context (stamp_of : R → option time) (eligible : R → bool) (limit_ : Z).
Context (limit_pos : 0 < limit_).

Definition expired (m : gmap uuid R) : list (uuid * R) := select_where (λ _ r, eligible r) m.
Definition keep (m : gmap uuid R) : gmap uuid R := delete_where (λ _ r, eligible r) m.
Definition batch (m : gmap uuid R) : list uuid := oldest stamp_of eligible limit_ m.
Definition drop_batch (m : gmap uuid R) : gmap uuid R :=
  delete_where (λ i _, bool_decide (i ∈ batch m)) m.

Lemma batch_length m : length (batch m) = (Z.to_nat limit_ `min` length (expired m))%nat.
Proof. unfold batch, oldest, limit. by rewrite length_fmap length_take order_by_perm. Qed.

Lemma batch_expired m i : i ∈ batch m → ∃ r, m !! i = Some r ∧ eligible r = true.
Proof.
  unfold batch, oldest, limit. intros ([j r] & -> & Hin)%list_elem_of_fmap.
  apply subseteq_take, elem_of_order_by, elem_of_select_where in Hin. by exists r.
Qed.

(** The rows still expired after a batch are those the batch's query skipped. *)
Lemma expired_drop_batch m :
  length (expired (drop_batch m)) = (length (expired m) - length (batch m))%nat.
Proof.
  unfold drop_batch, batch, oldest, limit. set (n := Z.to_nat limit_).
  set (k := λ ir : uuid * R, _). set (l := order_by k (select_where (λ _ r, eligible r) m)).
  assert (Hl : l ≡ₚ expired m) by apply order_by_perm.
  assert (Hnd : NoDup l.*1) by (rewrite Hl; apply NoDup_select_where).
  rewrite -(take_drop n l) fmap_app NoDup_app in Hnd. destruct Hnd as (_ & Hdisj & Hnd).
  transitivity (length (drop n l)).
  2: { by rewrite length_drop length_fmap length_take Hl; lia. }
  apply Permutation_length, NoDup_Permutation.
  { eapply NoDup_fmap_1, NoDup_select_where. } { by eapply NoDup_fmap_1. }
  intros [i r]. unfold expired. rewrite elem_of_select_where lookup_delete_where.
  assert (Hin : (i, r) ∈ l ↔ m !! i = Some r ∧ eligible r = true)
    by by rewrite Hl /expired elem_of_select_where.
  rewrite -{1}(take_drop n l) elem_of_app in Hin. split.
  - intros [(r' & Hr & Hout)%bind_Some He]. case_bool_decide as Hi; simplify_eq.
    destruct (proj2 Hin (conj Hr He)) as [Ht|Hd]; [|done].
    by apply (list_elem_of_fmap_2 fst) in Ht.
  - intros Hd. destruct (proj1 Hin (or_intror Hd)) as [Hr He]. rewrite Hr /=.
    split; [|done]. rewrite bool_decide_eq_false_2 // => Ht.
    apply (Hdisj i Ht). by apply (list_elem_of_fmap_2 fst) in Hd.
Qed.

Lemma keep_drop_batch m : keep (drop_batch m) = keep m.
Proof.
  apply map_eq. intros i. unfold keep, drop_batch. rewrite !lookup_delete_where.
  destruct (m !! i) as [r|] eqn:E; [|done]. cbn. case_bool_decide as Hi; [|done].
  apply batch_expired in Hi as (r' & Hr & He). cbn. simplify_eq. by rewrite He.
Qed.

Lemma run_delete_oldest w :
  db_ok (w_db w) →
  delete_oldest get set stamp_of eligible limit_ w
  = (Ret (Z.of_nat (length (batch (get (w_db w))))), set_db (set drop_batch (w_db w)) w).
Proof.
  intros Hok. unfold delete_oldest. rewrite (proj2 (Z.leb_gt _ _)) //.
  erewrite run_write_scope.
  2: { rewrite run_bind run_sess run_bind run_stage run_ret. reflexivity. }
  2: by apply set_ok.
  by rewrite (set_ext drop_batch (delete_where (λ i _, bool_decide (i ∈ batch (get (w_db w)))))).
Qed.

(** Enough calls empty the set of expired rows, and count them. *)
Lemma run_drain fuel total w :
  db_ok (w_db w) → (length (expired (get (w_db w))) < fuel)%nat →
  drain (delete_oldest get set stamp_of eligible limit_) fuel total w
  = (Ret (Some (total + Z.of_nat (length (expired (get (w_db w)))))), set_db (set keep (w_db w)) w).
Proof.
  revert total w. induction fuel as [|fuel IH]; intros total w Hok Hfuel; [lia|].
  cbn [drain]. rewrite run_bind run_delete_oldest //.
  pose proof (batch_length (get (w_db w))) as Hlen.
  pose proof (expired_drop_batch (get (w_db w))) as Hexp.
  case_match eqn:E.
  - apply Z.leb_le in E.
    assert (Hnone : length (expired (get (w_db w))) = O) by lia.
    rewrite Hnone run_ret Z.add_0_r. rewrite (set_ext drop_batch keep); [done|].
    apply nil_length_inv in Hnone. pose proof (proj1 (select_where_nil _ _) Hnone) as Hnil.
    unfold keep, drop_batch. rewrite (delete_where_none (λ _ r, eligible r)) //.
    apply delete_where_none. intros i r _. apply bool_decide_eq_false_2.
    intros (r' & Hr & He)%batch_expired. by rewrite (Hnil i r' Hr) in He.
  - apply Z.leb_gt in E. rewrite IH; cbn; rewrite ?get_set; [|by apply set_ok|lia].
    rewrite set_set (set_ext (λ m, keep (drop_batch m)) keep); [|apply keep_drop_batch].
    rewrite Hexp. do 3 f_equal. lia.
Qed.
End drain.

Lemma run_drain_outbox stamp_of eligible n fuel total w :
  0 < n → db_ok (w_db w) → (length (expired eligible (outbox_messages (w_db w))) < fuel)%nat →
  drain (delete_oldest outbox_messages set_outbox stamp_of eligible n) fuel total w
  = (Ret (Some (total + Z.of_nat (length (expired eligible (outbox_messages (w_db w)))))),
     set_db (set_outbox (keep eligible) (w_db w)) w).
Proof. intros. apply run_drain; try done. intros f g [] E. unfold set_outbox. cbn in *. by rewrite E. Qed.

Lemma run_drain_processed stamp_of eligible n fuel total w :
  0 < n → db_ok (w_db w) → (length (expired eligible (processed_messages (w_db w))) < fuel)%nat →
  drain (delete_oldest processed_messages set_processed stamp_of eligible n) fuel total w
  = (Ret (Some (total + Z.of_nat (length (expired eligible (processed_messages (w_db w)))))),
     set_db (set_processed (keep eligible) (w_db w)) w).
Proof. intros. apply run_drain; try done. intros f g [] E. unfold set_processed. cbn in *. by rewrite E. Qed.

Lemma select_where_size {R} (P : uuid → R → bool) m : (length (select_where P m) ≤ size m)%nat.
Proof. unfold select_where. rewrite -length_map_to_list. apply length_filter. Qed.

Lemma expired_keep_other {R} (e e' : R → bool) m :
  (∀ r, e r = true → e' r = false) → expired e (keep e' m) ≡ₚ expired e m.
Proof.
  intros Hdisj. apply NoDup_Permutation; [eapply NoDup_fmap_1, NoDup_select_where..|].
  intros [i r]. unfold expired, keep. rewrite !elem_of_select_where lookup_delete_where.
  split.
  - intros [(r' & Hr & Hk)%bind_Some He]. destruct (e' r'); by simplify_eq.
  - intros [Hr He]. by rewrite Hr /= (Hdisj r He).
Qed.

(** What the retention policy calls expired at [now]. *)
Definition outbox_expired (delivered_cutoff failed_cutoff : time) (r : OutboxRow) : bool :=
  delivered_before delivered_cutoff r || failed_before failed_cutoff r.

Definition prune_db (delivered_cutoff failed_cutoff processed_cutoff : time) (d : Db) : Db :=
  set_processed (keep (λ t, t <? processed_cutoff))
    (set_outbox (keep (outbox_expired delivered_cutoff failed_cutoff)) d).

Section prune.
Context `{Env}.

Lemma keep_keep (dc fc : time) m :
  keep (failed_before fc) (keep (delivered_before dc) m) = keep (outbox_expired dc fc) m.
Proof.
  apply map_eq. intros i. unfold keep. rewrite !lookup_delete_where.
  destruct (m !! i) as [r|]; [|done]. cbn. unfold outbox_expired.
  destruct (delivered_before dc r), (failed_before fc r) eqn:E; cbn; by rewrite ?E.
Qed.

Lemma failed_not_delivered dc fc r : failed_before fc r = true → delivered_before dc r = false.
Proof.
  unfold failed_before, delivered_before. rewrite andb_true_iff bool_decide_eq_true.
  intros [-> _]. done.
Qed.

(** Whatever the batch size, a prune tick ends, deletes exactly the delivered
    rows, failed rows and dedup marks older than their retention windows, keeps
    every other row, and reports how many of each it deleted. *)
Theorem prune_exact fuel rd rf dr n w :
  let now := now_at (w_clock w) in
  let d := w_db w in
  db_ok d → 0 < n →
  timedelta_ok (rd * day) = true → timedelta_ok (rf * day) = true → timedelta_ok dr = true →
  datetime_ok (now - rd * day) = true → datetime_ok (now - rf * day) = true → datetime_ok (now - dr) = true →
  (size (outbox_messages d) + size (processed_messages d) < fuel)%nat →
  PruneOutbox.execute fuel rd rf dr n w
  = (Ret (Some (mkSummary
       (Z.of_nat (length (expired (delivered_before (now - rd * day)) (outbox_messages d))))
       (Z.of_nat (length (expired (failed_before (now - rf * day)) (outbox_messages d))))
       (Z.of_nat (length (expired (λ t, t <? now - dr) (processed_messages d)))))),
     tick (set_db (prune_db (now - rd * day) (now - rf * day) (now - dr) d) w)).
Proof.
  intros now d Hok Hn H1 H2 H3 H4 H5 H6 Hfuel. unfold PruneOutbox.execute, timedelta, datetime_add.
  rewrite run_bind run_utc_now. fold now. rewrite run_bind H1 run_ret run_bind Z.add_opp_r H4 run_ret.
  rewrite run_bind H2 run_ret run_bind Z.add_opp_r H5 run_ret.
  rewrite run_bind H3 run_ret run_bind Z.add_opp_r H6 run_ret.
  rewrite run_bind. unfold delete_delivered_before.
  rewrite run_drain_outbox //.
  2: { eapply Nat.le_lt_trans; [apply select_where_size|]. change (w_db (tick w)) with d. lia. }
  cbn [w_db tick]. fold d. rewrite run_bind. unfold delete_failed_before.
  assert (Hfail : length (expired (failed_before (now - rf * day))
      (keep (delivered_before (now - rd * day)) (outbox_messages d)))
    = length (expired (failed_before (now - rf * day)) (outbox_messages d))).
  { by rewrite expired_keep_other; [|apply failed_not_delivered]. }
  rewrite run_drain_outbox //.
  2: { change (length (expired (failed_before (now - rf * day)%Z)
         (keep (delivered_before (now - rd * day)%Z) (outbox_messages d))) < fuel)%nat.
       rewrite Hfail. eapply Nat.le_lt_trans; [apply select_where_size|lia]. }
  cbn -[drain expired]. rewrite run_bind. unfold delete_processed_marks_before.
  rewrite run_drain_processed //.
  2: { change (length (expired (λ t, (t <? now - dr)%Z) (processed_messages d)) < fuel)%nat.
       eapply Nat.le_lt_trans; [apply select_where_size|lia]. }
  assert (Hdb : set_outbox (keep (failed_before (now - rf * day)))
      (set_outbox (keep (delivered_before (now - rd * day))) d)
    = set_outbox (keep (outbox_expired (now - rd * day) (now - rf * day))) d).
  { unfold set_outbox. cbn -[keep]. by rewrite keep_keep. }
  unfold prune_db. rewrite -Hdb -Hfail. reflexivity.
Qed.
End prune.

Definition demo_terminal (st : OutboxStatus) (t : time) : OutboxRow :=
  mkOutboxRow "send_email" ∅ ∅ t st 1 None None None t (Some t) (Some t).

Definition demo_prune_world : World :=
  set_db (set_processed (λ _, {[ 9%N := demo_epoch - day ]})
    (set_outbox (λ _, list_to_map
      [(1%N, demo_terminal Delivered (demo_epoch - 8 * day));
       (2%N, demo_terminal Failed (demo_epoch - 8 * day));
       (3%N, demo_terminal Delivered (demo_epoch - 9 * day))]) empty_db)) init_world.

Lemma prune_exact_witness :
  PruneOutbox.execute 5 7 30 (1800 * second) 1 demo_prune_world
  = (Ret (Some (mkSummary 2 0 1)),
     tick (set_db (prune_db (demo_epoch - 7 * day) (demo_epoch - 30 * day) (demo_epoch - 1800 * second)
             (w_db demo_prune_world)) demo_prune_world)).
Proof.
  etrans; [apply (prune_exact 5 7 30 (1800 * second) 1 demo_prune_world);
    [by_eval|lia|vm_compute; reflexivity..|vm_compute; lia]|vm_compute; reflexivity].
Defined.

(** ** Dedup marks *)

Section dedupe.
Context `{Env}.

Lemma run_dedupe i w :
  uuid_ok i → db_ok (w_db w) →
  dedupe (uuid_str i) w =
    match processed_messages (w_db w) !! i with
    | Some _ => (Ret false, tick w)
    | None => (Ret true, tick (set_db (set_processed (<[i := now_at (w_clock w)]>) (w_db w)) w))
    end.
Proof.
  intros Hi Hok. unfold dedupe. rewrite uuid_parse_str //. unfold with_session.
  rewrite run_bind run_utc_now. unfold try_except. rewrite run_bind.
  destruct (processed_messages (w_db w) !! i) as [t|] eqn:E.
  - unfold add_row. cbn. rewrite E. done.
  - rewrite run_add_row //. rewrite run_bind run_commit //.
Qed.

(** [dedupe] on each of a sequence of deliveries. *)
Fixpoint dedupe_all (ids : list string) : IO (list bool) :=
  match ids with
  | [] => mret []
  | i :: ids => b ← dedupe i; bs ← dedupe_all ids; mret (b :: bs)
  end.

(** How often the deliveries of [i] were told to run the side effect. *)
Definition runs_of (i : uuid) (ids : list uuid) (bs : list bool) : nat :=
  length (filter (λ p, p = (i, true)) (zip ids bs)).

(** However often and in whatever order the relay redelivers a set of
    messages, the side effect of a message not seen before is allowed exactly
    once, and that of a message already marked not at all. *)
Theorem dedupe_exactly_once ids w :
  db_ok (w_db w) → Forall uuid_ok ids →
  ∃ bs w', dedupe_all (uuid_str <$> ids) w = (Ret bs, w') ∧ length bs = length ids ∧
    ∀ i, runs_of i ids bs =
      if decide (i ∈ ids ∧ processed_messages (w_db w) !! i = None) then 1%nat else 0%nat.
Proof.
  intros Hok Hids. revert w Hok. induction Hids as [|j ids Hj Hids IH]; intros w Hok.
  { exists [], w. split_and!; [done..|]. intros i. case_decide as Hi; [|done].
    destruct Hi as [Hi _]. by apply not_elem_of_nil in Hi. }
  cbn [fmap list_fmap dedupe_all]. setoid_rewrite run_bind. rewrite run_dedupe //.
  unfold runs_of in *. destruct (processed_messages (w_db w) !! j) as [t|] eqn:E.
  - destruct (IH (tick w)) as (bs & w' & Hrun & Hlen & Hcount); [done|].
    setoid_rewrite run_bind. rewrite Hrun. exists (false :: bs), w'.
    split_and!; [done|by cbn; rewrite Hlen|]. intros i. cbn [zip zip_with].
    rewrite filter_cons_False; [|by intros [=]]. rewrite Hcount. cbn [w_db tick].
    apply decide_ext. rewrite elem_of_cons. naive_solver.
  - destruct (IH (tick (set_db (set_processed (<[j := now_at (w_clock w)]>) (w_db w)) w)))
      as (bs & w' & Hrun & Hlen & Hcount); [done|].
    setoid_rewrite run_bind. rewrite Hrun. exists (true :: bs), w'.
    split_and!; [done|by cbn; rewrite Hlen|]. intros i. cbn [zip zip_with].
    rewrite filter_cons. cbn in Hcount. specialize (Hcount i).
    destruct (decide (i = j)) as [->|Hne].
    + rewrite decide_True // /= Hcount decide_False; [|by rewrite lookup_insert_eq => -[_]].
      rewrite decide_True //. split; [left|done].
    + rewrite decide_False; [|by intros [= ->]]. rewrite Hcount.
      apply decide_ext. rewrite lookup_insert_ne // elem_of_cons. naive_solver.
Qed.
End dedupe.

Lemma dedupe_exactly_once_witness :
  ∃ bs w', dedupe_all (uuid_str <$> [7%N; 8%N; 7%N]) init_world = (Ret bs, w') ∧
    runs_of 7%N [7%N; 8%N; 7%N] bs = 1%nat.
Proof.
  destruct (dedupe_exactly_once [7%N; 8%N; 7%N] init_world) as (bs & w' & E & _ & Hc);
    [by_eval|repeat constructor|].
  exists bs, w'. split; [exact E|]. rewrite Hc. vm_compute. reflexivity.
Defined.

(** ** Producers *)

Section producers.
Context `{Env}.
Import SQLModelOutboxUnitOfWork SessionSQLModelOutboxAdapter.

Definition fresh_row (job : string) (p : payload) (at_ : option time) (w : World) : OutboxRow :=
  mkOutboxRow job p (trace_carrier_at (w_clock w)) (default (now_at (w_clock w)) at_)
    Pending 0 None None None (now_at (S (w_clock w))) None None.

(** A producer's business writes and its outbox row are published together
    or not at all: either the transaction raises and the committed rows are
    untouched, or everything the body staged is committed with exactly one
    new pending row, which a relay can claim from its [available_at] on. *)
Theorem producer_atomic {A} (body : IO A) job p at_ w :
  (∀ w, w_db (body w).2 = w_db w) →
  let '(o, w') := transaction (a ← body; enqueue job p at_ ;; mret a) w in
  let '(o1, w1) := body (set_session (w_db w) w) in
  (is_Some (outcome_exn (match o with Ret _ => Ret tt | Raise e => Raise e end)) ∧ w_db w' = w_db w) ∨
  (o = o1 ∧
   let r := fresh_row job p at_ w1 in
   let i := uuid4_at (w_uuids w1) in
   outbox_messages (w_session w1) !! i = None ∧
   w_db w' = set_outbox (<[i := r]>) (w_session w1) ∧
   ∀ now locks, i ∉ locks → claimable locks now i r = (ob_available_at r <=? now)).
Proof.
  intros Hbody. destruct (transaction _ w) as [o w'] eqn:E.
  specialize (Hbody (set_session (w_db w) w)).
  destruct (body _) as [o1 w1] eqn:Eb. cbn in Hbody. revert E. unfold transaction.
  match goal with |- write_scope ?b w = _ → _ => set (b' := b) end.
  assert (Hb : b' (set_session (w_db w) w) = match o1 with
    | Ret a => match outbox_messages (w_session w1) !! uuid4_at (w_uuids w1) with
               | Some _ => (Raise IntegrityError, tick (tick (bump_uuids w1)))
               | None => (Ret a, set_session (set_outbox (<[uuid4_at (w_uuids w1) := fresh_row job p at_ w1]>)
                            (w_session w1)) (tick (tick (bump_uuids w1))))
               end
    | Raise e => (Raise e, w1) end).
  { unfold b'. rewrite run_bind Eb. destruct o1; [|done]. unfold enqueue, add_row.
    rewrite !run_bind run_gets !run_bind run_uuid4 !run_bind run_utc_now !run_bind run_utc_now.
    cbn. by destruct (_ !! _). }
  destruct (write_scope_cases b' w) as [(a & w2 & E2 & _ & ->)|(o2 & w2 & e & E2 & ->)];
    rewrite Hb in E2; intros [= <- <-].
  - right. destruct o1 as [a1|]; [|done]. destruct (_ !! _) eqn:Hfresh in E2; [done|].
    injection E2 as -> <-. split_and!; [done..|]. intros now locks Hi. unfold claimable. cbn.
    by rewrite (bool_decide_eq_true_2 (_ ∉ _)) // andb_true_r.
  - left. split; [done|]. destruct o1 as [a1|]; [destruct (_ !! _) in E2|];
      injection E2 as _ <-; done.
Qed.
End producers.

Lemma producer_atomic_witness :
  w_db (state_of (SQLModelOutboxUnitOfWork.transaction
    (_ ← mret tt; SessionSQLModelOutboxAdapter.enqueue "send_email" ∅ None ;; mret tt)) init_world)
  = set_outbox (<[1000%N := fresh_row "send_email" ∅ None init_world]>) empty_db.
Proof.
  destruct (producer_atomic (mret tt) "send_email" ∅ None init_world) as [[[e He] _]|(_ & _ & Hdb & _)];
    [reflexivity|vm_compute in He; discriminate|exact Hdb].
Defined.

(** ** Re-arming failed rows *)

(** [retry_failed] gives every failed row a fresh retry budget and makes it
    claimable at once, reports how many there were, and changes no other row. *)
Theorem retry_failed_spec `{Env} w :
  db_ok (w_db w) →
  let now := now_at (w_clock w) in
  ∃ w', retry_failed w
    = (Ret (Z.of_nat (length (select_where (λ _ r, bool_decide (ob_status r = Failed)) (outbox_messages (w_db w))))), w') ∧
  ∀ i r, outbox_messages (w_db w) !! i = Some r →
    ∃ r', outbox_messages (w_db w') !! i = Some r' ∧
      (ob_status r ≠ Failed → r' = r) ∧
      (ob_status r = Failed →
        claimable ∅ now i r' = true ∧ ob_attempts r' = 0 ∧ ob_payload r' = ob_payload r ∧ ob_job_name r' = ob_job_name r).
Proof.
  intros Hok now. unfold retry_failed. eexists. split.
  { erewrite run_write_scope.
    2: { rewrite run_bind run_utc_now run_bind run_sess run_bind run_stage run_ret. reflexivity. }
    2: exact Hok. reflexivity. }
  intros i r Hi. cbn. rewrite lookup_update_where Hi /=. eexists. split; [done|].
  case_bool_decide as Hs; [|done]. split; [done|]. intros _. split_and!; [|done..].
  unfold claimable. cbn. rewrite Z.leb_refl. by rewrite bool_decide_eq_true_2; [|apply not_elem_of_empty].
Qed.

Lemma retry_failed_spec_witness :
  ∃ w', retry_failed demo_prune_world = (Ret 1, w').
Proof.
  destruct (retry_failed_spec demo_prune_world) as (w' & E & _); [by_eval|].
  exists w'. rewrite E. vm_compute. reflexivity.
Defined.

(** ** Backoff *)

Section backoff.
Import DispatchPending.

(** The delay before attempt [n + 1] starts at the base, doubles with each
    attempt until it reaches the maximum and never exceeds it; the product
    overflows [timedelta], and raises, exactly when it passes 999999999 days,
    whatever the maximum is. *)
Theorem backoff_bounds cfg n w :
  0 < retry_base cfg <= retry_max cfg → 1 <= n →
  (retry_base cfg * 2 ^ (n - 1) < 1000000000 * day →
   ∃ d, backoff cfg n w = (Ret d, w) ∧ retry_base cfg <= d <= retry_max cfg ∧
     (retry_base cfg * 2 ^ (n - 1) <= retry_max cfg → d = retry_base cfg * 2 ^ (n - 1)) ∧
     (retry_max cfg <= retry_base cfg * 2 ^ (n - 1) → d = retry_max cfg)) ∧
  (1000000000 * day <= retry_base cfg * 2 ^ (n - 1) → backoff cfg n w = (Raise OverflowError, w)).
Proof.
  intros Hb Hn. unfold backoff, timedelta.
  assert (Hpow : 1 <= 2 ^ (n - 1)) by (change 1 with (2 ^ 0) at 1; apply pow2_le; lia).
  assert (Hge : retry_base cfg <= retry_base cfg * 2 ^ (n - 1)) by nia.
  split; intros Hov.
  - rewrite (_ : timedelta_ok _ = true).
    2: { unfold timedelta_ok, day, second in *. rewrite andb_true_iff Z.leb_le Z.ltb_lt. lia. }
    eexists. split; [reflexivity|]. lia.
  - rewrite (_ : timedelta_ok _ = false) //.
    unfold timedelta_ok, day, second in *. rewrite andb_false_iff Z.ltb_ge. lia.
Qed.

Lemma backoff_bounds_witness : backoff demo_config 9 init_world = (Ret (900 * second), init_world).
Proof.
  destruct (backoff_bounds demo_config 9 init_world) as [Hret _]; [cbn; unfold second; lia|lia|].
  destruct Hret as (d & E & _ & _ & Hmax); [vm_compute; reflexivity|].
  rewrite E Hmax; [reflexivity|vm_compute; discriminate].
Defined.

(** Under settings the validator accepts, a row that is retried often enough
    makes the tick itself raise [OverflowError], and the rows claimed after
    it are not handed over. *)
Theorem tick_can_raise :
  ∃ (s : OutboxSettings) (w : World),
    validate_outbox s = [] ∧
    result_of (execute (dispatch_config s demo_queue)) w = Raise OverflowError ∧
    length (claim_rows (w_row_locks w) demo_epoch (claim_batch_size s) (outbox_messages (w_db w))) = 2%nat ∧
    outbox_messages (w_db (state_of (execute (dispatch_config s demo_queue)) w)) !! 2%N
    = Some (stamp demo_epoch (outbox_worker_id s) (demo_row "ok" demo_epoch 0)).
Proof.
  exists (mkOutboxSettings true (5 * second) 100 64 (30 * second) (900 * second) "host:1" 7 30 1000),
    (demo_outbox [(1%N, demo_row "boom" (demo_epoch - second) 42); (2%N, demo_row "ok" demo_epoch 0)]).
  vm_compute. done.
Qed.
End backoff.

(** ** Snapping the relay interval *)

Section snap.
(** [a] is at least as good as [b]: nearer to [x], or as near and not smaller. *)
Definition at_least_as_near (x a b : Z) : Prop :=
  Z.abs (a - x) < Z.abs (b - x) ∨ (Z.abs (a - x) = Z.abs (b - x) ∧ b <= a).

Lemma nearer_spec x a b : nearer x a b = false ↔ at_least_as_near x a b.
Proof.
  unfold nearer, at_least_as_near. rewrite orb_false_iff andb_false_iff Z.ltb_ge Z.eqb_neq Z.ltb_ge. lia.
Qed.

Lemma min_by_distance_spec x l d :
  min_by_distance x l d ∈ d :: l ∧ Forall (at_least_as_near x (min_by_distance x l d)) (d :: l).
Proof.
  revert d. induction l as [|e l IH]; intros d; cbn.
  { split; [left|]. constructor; [|done]. right. lia. }
  set (b := if nearer x d e then e else d). fold (min_by_distance x l b).
  destruct (IH b) as [Hin Hall]. apply Forall_cons in Hall as [Hb Hall].
  assert (at_least_as_near x b d ∧ at_least_as_near x b e) as [Hd He].
  { unfold b. destruct (nearer x d e) eqn:E.
    - assert (¬ at_least_as_near x d e) by (rewrite -nearer_spec; congruence).
      unfold at_least_as_near in *. lia.
    - apply nearer_spec in E. split; [right; lia|done]. }
  assert (b = d ∨ b = e) as Hcase by (unfold b; destruct (nearer x d e); auto).
  split.
  - apply elem_of_cons in Hin as [Hin|Hin]; [|by do 2 right].
    destruct Hcase as [Hc|Hc]; rewrite Hin Hc; [left|right; left].
  - apply Forall_cons; split; [unfold at_least_as_near in *; lia|].
    apply Forall_cons; split; [unfold at_least_as_near in *; lia|done].
Qed.

(** The relay's interval is a divisor of sixty, no divisor of sixty is
    nearer to the configured interval rounded to whole seconds (at least one),
    and of two equally near divisors the larger is taken. *)
Theorem snap_to_divisor_nearest interval :
  let x := 1 `max` round_half_even second interval in
  let d := snap_to_divisor interval in
  0 < d ∧ (d | 60) ∧ ∀ e, 0 < e → (e | 60) → at_least_as_near x d e.
Proof.
  intros x d.
  assert (Hdiv : ∀ e, 0 < e → (e | 60) → e ∈ DIVISORS_OF_60).
  { intros e Hpos He. assert (Hle : e <= 60) by (apply Z.divide_pos_le; [lia|done]).
    assert (Hq : 60 / e * e = 60).
    { destruct He as [q Hq]. rewrite Hq Z.div_mul; lia. }
    assert (Hall : ∀ n, (n ≤ 60)%nat → 60 / Z.of_nat n * Z.of_nat n = 60 → Z.of_nat n ∈ DIVISORS_OF_60).
    { intros n Hn. do 61 (destruct n as [|n]; [intros Hq'; first [by_eval|vm_compute in Hq'; discriminate]|]). lia. }
    rewrite -(Z2Nat.id e); [|lia]. apply Hall; [lia|]. by rewrite Z2Nat.id; [|lia]. }
  unfold d, snap_to_divisor, DIVISORS_OF_60. fold x.
  match goal with |- context [min_by_distance x ?l ?f] => destruct (min_by_distance_spec x l f) as [Hin Hall] end.
  assert (Hgood : Forall (λ d, 0 < d ∧ (d | 60)) DIVISORS_OF_60).
  { repeat (constructor; [split; [lia|by apply Z.mod_divide]|]). constructor. }
  rewrite Forall_forall in Hgood. apply Hgood in Hin as [Hpos Hd]. split_and!; [done..|].
  intros e He0 He. rewrite Forall_forall in Hall. by apply Hall, Hdiv.
Qed.
End snap.
