(* ===== verification/Users.v ===== *)
(** The users feature ([features/users]): the user entity, the engine-owning and
    the session-bound repository, the authorization version, the registrar and
    the account use cases. *)

From S2P Require Import Prelude PyStr Uuid Store StoreFacts Outbox.
Open Scope string_scope.
Open Scope Z_scope.

(** [domain/user.py:User]. *)
Record User := mkUser {
  u_id : uuid;
  u_email : string;
  u_is_active : bool;
  u_is_verified : bool;
  u_is_erased : bool;
  u_authz_version : Z;
  u_created_at : time;
  u_updated_at : time;
  u_last_login_at : option time;
}.

(** [application/errors.py]. *)
Inductive UserError := UserNotFoundError | UserAlreadyExistsError.

(** [_to_domain]; timestamps are aware, so [_ensure_utc] is the identity. *)
Definition to_domain (ir : uuid * UserRow) : User :=
  let '(i, r) := ir in
  mkUser i (user_email r) (user_is_active r) (user_is_verified r) (user_is_erased r)
    (user_authz_version r) (user_created_at r) (user_updated_at r) (user_last_login_at r).

(** ** Assignments to a row *)

Definition set_verified (now : time) (r : UserRow) : UserRow :=
  mkUserRow (user_email r) (user_is_active r) true (user_is_erased r) (user_authz_version r)
    (user_created_at r) now (user_last_login_at r).
Definition bump_version (now : time) (r : UserRow) : UserRow :=
  mkUserRow (user_email r) (user_is_active r) (user_is_verified r) (user_is_erased r)
    (user_authz_version r + 1) (user_created_at r) now (user_last_login_at r).
Definition set_email (email : string) (now : time) (r : UserRow) : UserRow :=
  mkUserRow email (user_is_active r) (user_is_verified r) (user_is_erased r)
    (user_authz_version r) (user_created_at r) now (user_last_login_at r).
Definition set_activity (is_active : bool) (now : time) (r : UserRow) : UserRow :=
  mkUserRow (user_email r) is_active (user_is_verified r) (user_is_erased r)
    (user_authz_version r + 1) (user_created_at r) now (user_last_login_at r).
Definition set_last_login (when : time) (r : UserRow) : UserRow :=
  mkUserRow (user_email r) (user_is_active r) (user_is_verified r) (user_is_erased r)
    (user_authz_version r) (user_created_at r) when (Some when).

Definition erased_email (i : uuid) : string := "erased+" +:+ uuid_str i +:+ "@erased.invalid".
(** [_apply_erasure_scrub]. *)
Definition apply_erasure_scrub (i : uuid) (now : time) (r : UserRow) : UserRow :=
  mkUserRow (erased_email i) false (user_is_verified r) true
    (user_authz_version r + 1) (user_created_at r) now None.

(** [UserTable(email=email)]: the column defaults. *)
Definition new_user (email : string) (created_at updated_at : time) : UserRow :=
  mkUserRow email true false false 1 created_at updated_at None.

(** [session.add(row)] of a loaded row after assignments to it. *)
Definition save_user (i : uuid) (f : UserRow → UserRow) : IO unit :=
  stage (set_users (alter f i)).

Definition get_user (user_id : uuid) : IO (option UserRow) := sess (λ d, users d !! user_id).

(** The keyset page query; [limit] is applied last. *)
Definition user_key (ir : uuid * UserRow) : time * uuid := (user_created_at ir.2, ir.1).
Definition after_cursor (cursor : option (time * uuid)) (ir : uuid * UserRow) : bool :=
  match cursor with
  | None => true
  | Some c => bool_decide (key_lt c (user_key ir))
  end.
Definition user_page (cursor : option (time * uuid)) (limit_ : Z) (m : gmap uuid UserRow) : list (uuid * UserRow) :=
  limit limit_ (order_by user_key (select_where (λ i r, after_cursor cursor (i, r)) m)).

(** ** [SessionSQLModelUserRepository] *)

Module SessionUsers.
Section session.
Context `{Env}.

Definition get_by_id (user_id : uuid) : IO (option User) :=
  row ← get_user user_id;
  mret (match row with
        | Some r => if user_is_erased r then None else Some (to_domain (user_id, r))
        | None => None
        end).

Definition get_by_email (email : string) : IO (option User) :=
  rows ← sess (λ d, select_where
    (λ _ r, String.eqb (user_email r) (lower email) && negb (user_is_erased r)) (users d));
  mret (to_domain <$> head rows).

(** The insert runs in a savepoint, so a violation drops it alone. *)
Definition create (email : string) : IO (Result User UserError) :=
  savepoint
    (id ← uuid4;
     created_at ← utc_now;
     updated_at ← utc_now;
     let row := new_user (lower email) created_at updated_at in
     add_row users set_users id row ;;
     flush ;;
     mret (Ok (to_domain (id, row))))
    (mret (Err UserAlreadyExistsError)).

Definition list_paginated (cursor : option (time * uuid)) (limit_ : Z) : IO (list User) :=
  sess (λ d, to_domain <$> user_page cursor limit_ (users d)).

Definition mark_verified (user_id : uuid) : IO unit :=
  row ← get_user user_id;
  match row with
  | None => mret tt
  | Some r => if user_is_verified r then mret tt
              else now ← utc_now; save_user user_id (set_verified now)
  end.

Definition bump_authz_version (user_id : uuid) : IO unit :=
  row ← get_user user_id;
  match row with
  | None => mret tt
  | Some _ => now ← utc_now; save_user user_id (bump_version now)
  end.

Definition set_active (user_id : uuid) (is_active : bool) : IO unit :=
  row ← get_user user_id;
  match row with
  | None => mret tt
  | Some _ => now ← utc_now; save_user user_id (set_activity is_active now)
  end.

Definition update_last_login (user_id : uuid) (when : time) : IO unit :=
  row ← get_user user_id;
  match row with
  | None => mret tt
  | Some _ => save_user user_id (set_last_login when)
  end.

Definition get_raw_by_id (user_id : uuid) : IO (option User) :=
  row ← get_user user_id;
  mret ((λ r, to_domain (user_id, r)) <$> row).

(** With a session-backed writer both repositories stage on its session. *)
Definition set_active_atomically_with (user_id : uuid) (is_active : bool) : IO unit :=
  set_active user_id is_active.

Definition scrub_for_erasure_atomically_with (user_id : uuid) : IO bool :=
  row ← get_user user_id;
  match row with
  | None => mret false
  | Some r => if user_is_erased r then mret false
              else now ← utc_now;
                   save_user user_id (apply_erasure_scrub user_id now) ;;
                   mret true
  end.
End session.
End SessionUsers.

(** ** [SQLModelUserRepository] *)

Module EngineUsers.
Section engine.
Context `{Env}.

Definition get_by_id (user_id : uuid) : IO (option User) := with_session (SessionUsers.get_by_id user_id).
Definition get_by_email (email : string) : IO (option User) := with_session (SessionUsers.get_by_email email).
Definition get_raw_by_id (user_id : uuid) : IO (option User) := with_session (SessionUsers.get_raw_by_id user_id).
Definition list_paginated (cursor : option (time * uuid)) (limit_ : Z) : IO (list User) :=
  with_session (SessionUsers.list_paginated cursor limit_).

Definition already_exists {A} (e : exn) : IO (Result A UserError) :=
  match e with
  | IntegrityError => mret (Err UserAlreadyExistsError)
  | e => raise e
  end.

Definition create (email : string) : IO (Result User UserError) :=
  with_session (
    id ← uuid4;
    created_at ← utc_now;
    updated_at ← utc_now;
    let row := new_user (lower email) created_at updated_at in
    try_except (add_row users set_users id row ;; commit ;; mret (Ok (to_domain (id, row))))
      already_exists).

(** A lookup, then the assignments and a commit when there is a row to change. *)
Definition mark_verified (user_id : uuid) : IO unit :=
  with_session (
    row ← get_user user_id;
    match row with
    | None => mret tt
    | Some r => if user_is_verified r then mret tt
                else now ← utc_now; save_user user_id (set_verified now) ;; commit
    end).

Definition bump_authz_version (user_id : uuid) : IO unit :=
  with_session (
    row ← get_user user_id;
    match row with
    | None => mret tt
    | Some _ => now ← utc_now; save_user user_id (bump_version now) ;; commit
    end).

Definition update_email (user_id : uuid) (new_email : string) : IO (Result User UserError) :=
  let normalized := normalize_email new_email in
  with_session (
    row ← get_user user_id;
    match row with
    | None => mret (Err UserNotFoundError)
    | Some r =>
        now ← utc_now;
        save_user user_id (set_email normalized now) ;;
        try_except (commit ;; mret (Ok (to_domain (user_id, set_email normalized now r))))
          already_exists
    end).

Definition set_active (user_id : uuid) (is_active : bool) : IO unit :=
  with_session (
    row ← get_user user_id;
    match row with
    | None => mret tt
    | Some _ => now ← utc_now; save_user user_id (set_activity is_active now) ;; commit
    end).

Definition update_last_login (user_id : uuid) (when : time) : IO unit :=
  with_session (
    row ← get_user user_id;
    match row with
    | None => mret tt
    | Some _ => save_user user_id (set_last_login when) ;; commit
    end).

(** On a session-backed writer the row is staged on the writer's session. *)
Definition set_active_atomically_with (user_id : uuid) (is_active : bool) : IO unit :=
  SessionUsers.set_active user_id is_active.
Definition scrub_for_erasure_atomically_with (user_id : uuid) : IO bool :=
  SessionUsers.scrub_for_erasure_atomically_with user_id.
End engine.
End EngineUsers.

(** ** [adapters/outbound/authz_version/sqlmodel.py] *)

Section authz_version.
Context `{Env}.

(** [_bump_one]; a missing user is silent. *)
Definition bump_one (user_id : uuid) : IO unit := SessionUsers.bump_authz_version user_id.
(** [_read_one]. *)
Definition read_one (user_id : uuid) : IO Z :=
  row ← get_user user_id;
  mret (match row with Some r => user_authz_version r | None => 0 end).

(** [SQLModelUserAuthzVersionAdapter]. *)
Definition authz_bump (user_id : uuid) : IO unit := write_scope (bump_one user_id).
Definition bump_in_session (user_id : uuid) : IO unit := bump_one user_id.
Definition read_version (user_id : uuid) : IO Z := with_session (read_one user_id).
End authz_version.

(** ** [adapters/outbound/user_registrar/sqlmodel.py] *)

Section registrar.
Context `{Env} (set_initial_password : uuid → string → IO unit).

Definition register_or_lookup (email password : string) : IO uuid :=
  let normalized := normalize_email email in
  existing ← EngineUsers.get_by_email normalized;
  match existing with
  | Some u => mret (u_id u)
  | None =>
      result ← EngineUsers.create normalized;
      match result with
      | Ok created => set_initial_password (u_id created) password ;; mret (u_id created)
      | Err UserAlreadyExistsError =>
          racer ← EngineUsers.get_by_email normalized;
          match racer with
          | Some u => mret (u_id u)
          | None => raise (RuntimeError "User registration failed")
          end
      | Err _ => raise (RuntimeError "User registration failed")
      end
  end.

Definition lookup_by_email (email : string) : IO (option uuid) :=
  existing ← EngineUsers.get_by_email (normalize_email email);
  mret (u_id <$> existing).
End registrar.

(** ** Use cases *)

Module RegisterUser.
Definition execute `{Env} (email : string) : IO (Result User UserError) :=
  EngineUsers.create (normalize_email email).
End RegisterUser.

Definition found (u : option User) : Result User UserError :=
  match u with Some u => Ok u | None => Err UserNotFoundError end.

Module GetUserByEmail.
Definition execute `{Env} (email : string) : IO (Result User UserError) :=
  user ← EngineUsers.get_by_email (normalize_email email);
  mret (found user).
End GetUserByEmail.

Module GetUserById.
Definition execute `{Env} (user_id : uuid) : IO (Result User UserError) :=
  user ← EngineUsers.get_by_id user_id;
  mret (found user).
End GetUserById.

Module ListUsers.
Definition bounded_limit (limit_ : Z) : Z := 1 `max` (limit_ `min` 500).
Definition execute `{Env} (cursor : option (time * uuid)) (limit_ : Z) : IO (Result (list User) UserError) :=
  l ← EngineUsers.list_paginated cursor (bounded_limit limit_);
  mret (Ok l).
End ListUsers.

Module UpdateProfile.
Definition execute `{Env} (user_id : uuid) (email : option string) : IO (Result User UserError) :=
  existing ← EngineUsers.get_by_id user_id;
  match existing with
  | None => mret (Err UserNotFoundError)
  | Some u =>
      match email with
      | None => mret (Ok u)
      | Some email =>
          let normalized := normalize_email email in
          if String.eqb normalized (u_email u) then mret (Ok u)
          else EngineUsers.update_email user_id normalized
      end
  end.
End UpdateProfile.

Definition DELETE_USER_ASSETS_JOB : string := "delete_user_assets".
Definition user_payload (user_id : uuid) : payload := {[ "user_id" := JStr (uuid_str user_id) ]}.

Module DeactivateUser.
(** The collaborators are optional: [revoke_all_refresh_tokens], which may also
    work on the process's principal cache [C], and whether an outbox unit of work
    is wired. *)
Definition execute `{Env} {C : Type} (revoke_all_refresh_tokens : option (uuid → M (World * C) unit)) (outbox_uow : bool)
    (user_id : uuid) : M (World * C) (Result unit UserError) :=
  existing ← on_fst (EngineUsers.get_by_id user_id);
  match existing with
  | None => mret (Err UserNotFoundError)
  | Some _ =>
      match revoke_all_refresh_tokens with
      | Some revoke => revoke user_id
      | None => mret tt
      end ;;
      on_fst (
        if outbox_uow then
          SQLModelOutboxUnitOfWork.transaction (
            EngineUsers.set_active_atomically_with user_id false ;;
            SessionSQLModelOutboxAdapter.enqueue DELETE_USER_ASSETS_JOB (user_payload user_id) None)
        else EngineUsers.set_active user_id false) ;;
      mret (Ok tt)
  end.
End DeactivateUser.
