(* ===== verification/UsersFacts.v ===== *)
(** What the users feature guarantees: both repositories agree, e-mails are
    canonical and unique, account state only moves forward, erased accounts are
    invisible, and keyset pages tile the table. *)

From stdpp Require Import relations.
From S2P Require Import Prelude PyStr Uuid Store StoreFacts Demo Outbox Users.
Open Scope string_scope.
Open Scope list_scope.
Open Scope Z_scope.

(** ** Runs of the repositories *)

Section runs.
Context `{Env}.
Implicit Types w : World.

Lemma run_get_user i w : get_user i w = (Ret (users (w_session w) !! i), w).
Proof. done. Qed.

Lemma run_save_user i f w : save_user i f w = (Ret tt, set_session (set_users (alter f i) (w_session w)) w).
Proof. done. Qed.

(** A read in its own session. *)
Lemma run_with_session_read {A} (body : IO A) (f : Db → A) w :
  (∀ w, body w = (Ret (f (w_session w)), w)) → with_session body w = (Ret (f (w_db w)), w).
Proof. intros Hb. unfold with_session. rewrite Hb. by destruct w. Qed.

Definition find_user (i : uuid) (d : Db) : option User :=
  match users d !! i with
  | Some r => if user_is_erased r then None else Some (to_domain (i, r))
  | None => None
  end.

Lemma run_session_get_by_id i w : SessionUsers.get_by_id i w = (Ret (find_user i (w_session w)), w).
Proof. done. Qed.
Lemma run_get_by_id i w : EngineUsers.get_by_id i w = (Ret (find_user i (w_db w)), w).
Proof. apply (run_with_session_read _ (find_user i)). apply run_session_get_by_id. Qed.

Definition email_matches (email : string) (_ : uuid) (r : UserRow) : bool :=
  String.eqb (user_email r) (lower email) && negb (user_is_erased r).
Definition find_email (email : string) (d : Db) : option User :=
  to_domain <$> head (select_where (email_matches email) (users d)).

Lemma run_session_get_by_email e w : SessionUsers.get_by_email e w = (Ret (find_email e (w_session w)), w).
Proof. done. Qed.
Lemma run_get_by_email e w : EngineUsers.get_by_email e w = (Ret (find_email e (w_db w)), w).
Proof. apply (run_with_session_read _ (find_email e)). apply run_session_get_by_email. Qed.

Lemma run_list_paginated c n w :
  EngineUsers.list_paginated c n w = (Ret (to_domain <$> user_page c n (users (w_db w))), w).
Proof. by apply (run_with_session_read _ (λ d, to_domain <$> user_page c n (users d))). Qed.

Lemma find_email_spec e d u :
  db_ok d →
  find_email e d = Some u ↔
  ∃ i r, users d !! i = Some r ∧ user_email r = lower e ∧ user_is_erased r = false ∧ u = to_domain (i, r).
Proof.
  intros (Huniq & _). rewrite uniq_on_spec in Huniq. unfold find_email.
  assert (Hm : ∀ i r, email_matches e i r = true ↔ user_email r = lower e ∧ user_is_erased r = false).
  { intros i r. unfold email_matches. rewrite andb_true_iff String.eqb_eq negb_true_iff. done. }
  split.
  - rewrite fmap_Some. intros ([i r] & Hh & ->). apply head_Some_elem_of, elem_of_select_where in Hh as [Hi Hp].
    exists i, r. by apply Hm in Hp as [??].
  - intros (i & r & Hi & He & Hne & ->).
    rewrite (select_where_unique _ _ i r) //; [by apply Hm|].
    intros j x Hx Hp. apply Hm in Hp as [Hex _]. eapply Huniq; [done..|by rewrite Hex].
Qed.

Lemma find_email_none e d :
  db_ok d → find_email e d = None →
  ∀ i r, users d !! i = Some r → user_is_erased r = false → user_email r ≠ lower e.
Proof.
  intros Hok Hn i r Hi Her He.
  assert (Hs : find_email e d = Some (to_domain (i, r))).
  { apply find_email_spec; [done|]. by exists i, r. }
  by rewrite Hn in Hs.
Qed.

(** [create] when the e-mail is new, and when it is taken. *)
Definition created_user (email : string) w : uuid * UserRow :=
  (uuid4_at (w_uuids w), new_user (lower email) (now_at (w_clock w)) (now_at (S (w_clock w)))).
Definition after_create w : World := tick (tick (bump_uuids w)).

Definition email_taken (email : string) (d : Db) : Prop :=
  ∃ i r, users d !! i = Some r ∧ user_email r = lower email.

Lemma email_taken_dec email d : email_taken email d ∨ ¬ email_taken email d.
Proof.
  destruct (select_where (λ _ r, String.eqb (user_email r) (lower email)) (users d)) as [|[i r] l] eqn:E.
  - right. intros (i & r & Hi & He). apply select_where_nil with (i := i) (r := r) in E; [|done].
    by rewrite He String.eqb_refl in E.
  - left. exists i, r. assert (Hin : (i, r) ∈ select_where (λ _ r, String.eqb (user_email r) (lower email)) (users d))
      by (rewrite E; left). by apply elem_of_select_where in Hin as [? ?%String.eqb_eq].
Qed.

Lemma db_ok_create email w :
  db_ok (w_session w) → users (w_session w) !! uuid4_at (w_uuids w) = None →
  ¬ email_taken email (w_session w) →
  db_ok (set_users (<[(created_user email w).1 := (created_user email w).2]>) (w_session w)).
Proof.
  intros Hok Hfresh Hnew. apply db_ok_insert_user; [done..|cbn; lia|].
  intros j x Hx E. apply Hnew. by exists j, x.
Qed.

Lemma run_session_create email w :
  db_ok (w_session w) →
  SessionUsers.create email w =
    let '(i, r) := created_user email w in
    let w' := after_create w in
    if decide (users (w_session w) !! i = None ∧ db_ok (set_users (<[i := r]>) (w_session w)))
    then (Ret (Ok (to_domain (i, r))), set_session (set_users (<[i := r]>) (w_session w)) w')
    else (Ret (Err UserAlreadyExistsError), w').
Proof.
  intros Hok. unfold SessionUsers.create, savepoint. cbv zeta.
  rewrite run_bind run_uuid4 run_bind run_utc_now run_bind run_utc_now run_bind.
  unfold add_row. cbn -[decide db_ok]. destruct (users (w_session w) !! _) as [x|] eqn:E.
  - case_decide as Hd; [by destruct Hd|]. by destruct w.
  - rewrite run_bind. unfold flush. cbn -[decide db_ok].
    case_decide as Hd; case_decide as Hd'; [done|by destruct Hd'|by destruct Hd'|by destruct w].
Qed.
End runs.

(** ** Engine-owning and session-bound repositories agree *)

Section agree.
Context `{Env}.
Implicit Types w : World.

(** Run both sides of an agreement from a fresh session on the committed rows. *)
Ltac agree :=
  unfold write_scope, with_session; rewrite ?run_bind;
  repeat first [rewrite run_get_user | rewrite run_bind | rewrite run_ret | rewrite run_utc_now
               | rewrite run_save_user].

Lemma commit_unchanged w : db_ok (w_db w) → commit (set_session (w_db w) w) = (Ret tt, set_session (w_db w) w).
Proof. intros Hok. by rewrite run_commit. Qed.

Lemma bump_agrees i w :
  db_ok (w_db w) → EngineUsers.bump_authz_version i w = write_scope (SessionUsers.bump_authz_version i) w.
Proof.
  intros Hok. unfold EngineUsers.bump_authz_version, SessionUsers.bump_authz_version. agree.
  destruct (users _ !! i); agree; [|by rewrite commit_unchanged]. by destruct (commit _) as [[[]|]].
Qed.

Lemma set_active_agrees i b w :
  db_ok (w_db w) → EngineUsers.set_active i b w = write_scope (SessionUsers.set_active i b) w.
Proof.
  intros Hok. unfold EngineUsers.set_active, SessionUsers.set_active. agree.
  destruct (users _ !! i); agree; [|by rewrite commit_unchanged]. by destruct (commit _) as [[[]|]].
Qed.

Lemma update_last_login_agrees i t w :
  db_ok (w_db w) → EngineUsers.update_last_login i t w = write_scope (SessionUsers.update_last_login i t) w.
Proof.
  intros Hok. unfold EngineUsers.update_last_login, SessionUsers.update_last_login. agree.
  destruct (users _ !! i); agree; [|by rewrite commit_unchanged]. by destruct (commit _) as [[[]|]].
Qed.

Lemma mark_verified_agrees i w :
  db_ok (w_db w) → EngineUsers.mark_verified i w = write_scope (SessionUsers.mark_verified i) w.
Proof.
  intros Hok. unfold EngineUsers.mark_verified, SessionUsers.mark_verified. agree.
  destruct (users _ !! i) as [r|]; [destruct (user_is_verified r)|]; agree;
    [by rewrite commit_unchanged|by destruct (commit _) as [[[]|]]|by rewrite commit_unchanged].
Qed.

Lemma create_agrees email w :
  db_ok (w_db w) → EngineUsers.create email w = write_scope (SessionUsers.create email) w.
Proof.
  intros Hok. unfold write_scope, with_session. rewrite run_bind run_session_create //.
  unfold EngineUsers.create, with_session.
  rewrite run_bind run_uuid4 run_bind run_utc_now run_bind run_utc_now.
  unfold try_except. rewrite run_bind. unfold add_row. cbn -[decide db_ok commit].
  destruct (users (w_db w) !! _) as [x|] eqn:E.
  - case_decide as Hd; [by destruct Hd|]. rewrite run_bind run_commit //.
  - rewrite run_bind. case_decide as Hd.
    + rewrite run_bind !run_commit //; apply Hd.
    + rewrite run_commit_fail; [|by intros Hok'; apply Hd]. rewrite run_bind run_commit //.
Qed.

(** The engine-owning repository refines the session-bound one: each write
    operation does to the committed rows, and returns, exactly what the
    session-bound operation does inside a unit of work of its own. *)
Theorem engine_refines_session w :
  db_ok (w_db w) →
  (∀ e, EngineUsers.create e w = write_scope (SessionUsers.create e) w) ∧
  (∀ i, EngineUsers.mark_verified i w = write_scope (SessionUsers.mark_verified i) w) ∧
  (∀ i, EngineUsers.bump_authz_version i w = write_scope (SessionUsers.bump_authz_version i) w) ∧
  (∀ i b, EngineUsers.set_active i b w = write_scope (SessionUsers.set_active i b) w) ∧
  (∀ i t, EngineUsers.update_last_login i t w = write_scope (SessionUsers.update_last_login i t) w).
Proof.
  intros Hok. split_and!; intros; [by apply create_agrees|by apply mark_verified_agrees|by apply bump_agrees|
    by apply set_active_agrees|by apply update_last_login_agrees].
Qed.

(** Registering an address that no account uses creates an active, unverified
    account that every spelling of the address finds again; registering a
    spelling of an address in use is refused and changes no row. *)
Theorem create_roundtrip email w :
  db_ok (w_db w) → users (w_db w) !! uuid4_at (w_uuids w) = None →
  let '(o, w') := EngineUsers.create email w in
  (¬ email_taken email (w_db w) →
    ∃ u, o = Ret (Ok u) ∧ u_is_active u = true ∧ u_is_verified u = false ∧ u_authz_version u = 1 ∧
      ∀ spelling, lower spelling = lower email →
        EngineUsers.get_by_email spelling w' = (Ret (Some u), w') ∧
        EngineUsers.get_by_id (u_id u) w' = (Ret (Some u), w')) ∧
  (email_taken email (w_db w) → o = Ret (Err UserAlreadyExistsError) ∧ w_db w' = w_db w).
Proof.
  intros Hok Hfresh. rewrite create_agrees //. unfold write_scope, with_session.
  rewrite run_bind run_session_create //. cbn -[decide db_ok commit]. case_decide as Hd.
  - destruct Hd as [_ Hd]. rewrite run_bind run_commit //. cbn -[db_ok]. split.
    + intros _. eexists. split_and!; [done..|]. intros spelling Hs.
      rewrite run_get_by_email run_get_by_id. cbn -[db_ok find_email]. split.
      * do 2 f_equal. apply find_email_spec; [done|].
        eexists (uuid4_at (w_uuids w)), _. split; [apply lookup_insert_eq|]. split; [by cbn|done].
      * do 2 f_equal. unfold find_user. cbn. rewrite lookup_insert_eq. reflexivity.
    + intros (j & x & Hx & E). exfalso. eapply (db_ok_duplicate_email _ _ j x); [exact Hfresh|exact Hx| |exact Hd]. done.
  - rewrite run_bind run_commit //. cbn -[db_ok]. split; [|done].
    intros Hnew. exfalso. apply Hd. split; [done|].
    by apply (db_ok_create email (set_session (w_db w) w)).
Qed.
End agree.

Lemma engine_refines_session_witness :
  EngineUsers.create "Ada@Example.com" init_world = write_scope (SessionUsers.create "Ada@Example.com") init_world.
Proof. apply (engine_refines_session init_world). by_eval. Defined.

Lemma create_roundtrip_witness :
  let '(o, w') := EngineUsers.create "Ada@Example.com" init_world in
  ∃ u, o = Ret (Ok u) ∧ EngineUsers.get_by_email "ADA@example.com" w' = (Ret (Some u), w').
Proof.
  pose proof (create_roundtrip "Ada@Example.com" init_world) as Hrt.
  destruct (EngineUsers.create "Ada@Example.com" init_world) as [o w'].
  destruct Hrt as [Hnew _]; [by_eval|reflexivity|].
  destruct Hnew as (u & Ho & _ & _ & _ & Hget).
  { intros (i & r & Hi & _). vm_compute in Hi. discriminate. }
  exists u. split; [exact Ho|]. apply (Hget "ADA@example.com"). vm_compute. reflexivity.
Defined.

(** ** Keyset pagination *)

Section pages.
Context `{Env}.

(** A client that follows the cursor of the last row until a page is empty. *)
Fixpoint walk_pages (fuel : nat) (cursor : option (time * uuid)) (limit_ : Z) : IO (option (list User)) :=
  match fuel with
  | O => mret None
  | S fuel =>
      page ← ListUsers.execute cursor limit_;
      match page with
      | Err _ => mret None
      | Ok page =>
          match last page with
          | None => mret (Some [])
          | Some u =>
              rest ← walk_pages fuel (Some (u_created_at u, u_id u)) limit_;
              mret (app page <$> rest)
          end
      end
  end.

Definition all_users (m : gmap uuid UserRow) : list (uuid * UserRow) := order_by user_key (map_to_list m).

(** The rows after the [k]-th row of the sorted table. *)
Lemma page_after (m : gmap uuid UserRow) pre ir post :
  all_users m = pre ++ ir :: post →
  order_by user_key (select_where (λ i r, after_cursor (Some (user_key ir)) (i, r)) m) = post.
Proof.
  intros E. apply (rows_after user_key (λ _, eq_refl) (λ _ _, true) m pre). unfold rows. by rewrite select_true.
Qed.

Lemma user_page_at m pre post n :
  all_users m = pre ++ post →
  user_page (user_key <$> last pre) n m = take (Z.to_nat n) post.
Proof.
  intros E. unfold user_page, limit. f_equal. destruct (last pre) as [ir|] eqn:Hl; cbn [fmap option_fmap option_map].
  - apply last_Some in Hl as [l ->]. apply (page_after m l). rewrite E. by rewrite -app_assoc.
  - apply last_None in Hl as ->. rewrite (select_true m). by rewrite app_nil_l in E.
Qed.

Lemma run_walk_pages fuel limit_ pre post w :
  all_users (users (w_db w)) = pre ++ post → (length post < fuel)%nat →
  walk_pages fuel (user_key <$> last pre) limit_ w = (Ret (Some (to_domain <$> post)), w).
Proof.
  revert pre post. induction fuel as [|fuel IH]; intros pre post E Hfuel; [lia|].
  cbn [walk_pages]. rewrite run_bind. unfold ListUsers.execute. rewrite run_bind run_list_paginated run_ret.
  rewrite (user_page_at _ pre post) // fmap_last.
  assert (Hn : (1 <= Z.to_nat (ListUsers.bounded_limit limit_))%nat) by (unfold ListUsers.bounded_limit; lia).
  set (n := Z.to_nat _) in *.
  destruct (last (take n post)) as [ir|] eqn:Hl; cbn [fmap option_fmap option_map].
  - rewrite run_bind.
    assert (Hc : Some (u_created_at (to_domain ir), u_id (to_domain ir)) = user_key <$> last (pre ++ take n post)).
    { rewrite last_app Hl. by destruct ir. }
    rewrite Hc (IH (pre ++ take n post) (drop n post)).
    + rewrite run_ret. cbn [fmap option_fmap option_map]. by rewrite -fmap_app take_drop.
    + by rewrite -app_assoc take_drop.
    + rewrite length_drop. destruct post as [|x post]; [by rewrite take_nil in Hl|]. cbn in *. lia.
  - apply last_None in Hl. destruct post as [|x post]; [done|]. destruct n; [lia|done].
Qed.

(** Whatever page size a client asks for, following the cursors from the
    first page visits every account exactly once, in creation order, and ends. *)
Theorem pages_tile_the_table fuel limit_ w :
  (size (users (w_db w)) < fuel)%nat →
  walk_pages fuel None limit_ w = (Ret (Some (to_domain <$> all_users (users (w_db w)))), w) ∧
  all_users (users (w_db w)) ≡ₚ map_to_list (users (w_db w)) ∧
  StronglySorted (by_key user_key) (all_users (users (w_db w))).
Proof.
  intros Hfuel. split_and!; [|apply order_by_perm|apply order_by_sorted].
  apply (run_walk_pages fuel limit_ [] (all_users (users (w_db w)))); [done|].
  unfold all_users. by rewrite order_by_perm length_map_to_list.
Qed.
End pages.

Definition demo_users : World :=
  state_of (_ ← EngineUsers.create "ada@example.com"; _ ← EngineUsers.create "bob@example.com";
            _ ← EngineUsers.create "cyd@example.com"; mret tt) init_world.

Lemma pages_tile_the_table_witness :
  ∃ l, walk_pages 4 None 1 demo_users = (Ret (Some l), demo_users) ∧ length l = 3%nat.
Proof.
  destruct (pages_tile_the_table 4 1 demo_users) as [E _]; [vm_compute; lia|].
  exists (to_domain <$> all_users (users (w_db demo_users))). split; [exact E|]. vm_compute. reflexivity.
Defined.

(** ** Accounts only move forward *)

Section evolution.
Context `{Env}.
Implicit Types (w : World) (d : Db).

Definition emails_lower d : Prop := map_Forall (λ _ r, lower (user_email r) = user_email r) (users d).

(** What every write to an account respects. *)
Definition account_moves (r r' : UserRow) : Prop :=
  user_created_at r' = user_created_at r ∧
  user_authz_version r <= user_authz_version r' ∧
  (user_is_erased r = true → user_is_erased r' = true) ∧
  (user_is_verified r = true → user_is_verified r' = true) ∧
  ((user_is_active r, user_is_erased r) ≠ (user_is_active r', user_is_erased r') →
   user_authz_version r < user_authz_version r').

Definition users_evolve d d' : Prop :=
  (∀ i r, users d !! i = Some r → ∃ r', users d' !! i = Some r' ∧ account_moves r r') ∧
  (emails_lower d → emails_lower d').

Global Instance account_moves_preorder : PreOrder account_moves.
Proof.
  split; [intros r; unfold account_moves; split_and!; auto; [lia|done]|].
  intros x y z (?&?&?&?&Hxy) (?&?&?&?&Hyz). unfold account_moves. split_and!; auto; [congruence|lia|].
  intros Hne. destruct (decide ((user_is_active x, user_is_erased x) = (user_is_active y, user_is_erased y))) as [E|E].
  - rewrite E in Hne. specialize (Hyz Hne). lia.
  - specialize (Hxy E). lia.
Qed.

Global Instance users_evolve_preorder : PreOrder users_evolve.
Proof.
  split.
  - intros d. split; [|done]. intros i r Hi. by exists r.
  - intros d d' d'' [H1 H1'] [H2 H2']. split; [|auto]. intros i r Hi.
    destruct (H1 i r Hi) as (r' & Hi' & Hr'). destruct (H2 i r' Hi') as (r'' & Hi'' & Hr'').
    exists r''. split; [done|by etrans].
Qed.

Lemma evolve_alter i f d :
  (∀ r, users d !! i = Some r → account_moves r (f r)) →
  (∀ r, users d !! i = Some r → lower (user_email r) = user_email r → lower (user_email (f r)) = user_email (f r)) →
  users_evolve d (set_users (alter f i) d).
Proof.
  intros Hf He. split.
  - intros j r Hj. cbn. destruct (decide (j = i)) as [->|Hne].
    + exists (f r). rewrite lookup_alter_eq Hj. split; [done|]. by apply Hf.
    + exists r. by rewrite lookup_alter_ne.
  - intros Hl j r. cbn. rewrite lookup_alter_Some. intros [(-> & x & Hx & ->)|[_ Hr]].
    + apply He; [done|]. by eapply Hl.
    + by eapply Hl.
Qed.

Lemma evolve_insert i r d :
  users d !! i = None → lower (user_email r) = user_email r →
  users_evolve d (set_users (<[i := r]>) d).
Proof.
  intros Hi He. split.
  - intros j x Hj. exists x. cbn. rewrite lookup_insert_ne; [done|]. intros ->. by rewrite Hi in Hj.
  - intros Hl. by apply map_Forall_insert_2.
Qed.

(** Statements that stage user writes and leave the committed rows alone. *)
Definition stages_users {A} (body : IO A) : Prop := ∀ w,
  w_db (body w).2 = w_db w ∧ (db_ok (w_session w) → users_evolve (w_session w) (w_session (body w).2)).

Lemma write_scope_evolves {A} (body : IO A) w :
  stages_users body → db_ok (w_db w) → users_evolve (w_db w) (w_db (write_scope body w).2).
Proof.
  intros Hb Hok. destruct (Hb (set_session (w_db w) w)) as [Hdb Hev]. specialize (Hev Hok).
  destruct (write_scope_cases body w) as [(a & w1 & E & _ & ->)|(o & w1 & e & E & ->)];
    rewrite E in Hdb, Hev; cbn in *; [done|by rewrite Hdb].
Qed.
End evolution.

(** ** Erased addresses *)

Lemma str_map_app f s t : str_map f (s +:+ t) = str_map f s +:+ str_map f t.
Proof. induction s as [|c s IH]; [done|]. rewrite app_cons. cbn [str_map]. by rewrite IH -app_cons. Qed.

Lemma lower_id s : str_forall (λ c, negb (is_upper c)) s = true → lower s = s.
Proof.
  unfold lower. induction s as [|c s IH]; cbn [str_forall str_map]; [done|].
  rewrite andb_true_iff. intros [Hc Hs]. rewrite IH //. unfold lower_char. by destruct (is_upper c).
Qed.

Lemma lower_uuid_str i : lower (uuid_str i) = uuid_str i.
Proof. apply lower_id, uuid_str_avoids. by_chars. Qed.

Lemma lower_erased_email i : lower (erased_email i) = erased_email i.
Proof.
  unfold erased_email, lower. rewrite (str_map_app _ "erased+") (str_map_app _ (uuid_str i)).
  change (str_map lower_char (uuid_str i)) with (lower (uuid_str i)). by rewrite lower_uuid_str.
Qed.

Section stages.
Context `{Env}.
Implicit Types w : World.

Lemma moves_same r r' :
  user_created_at r' = user_created_at r → user_is_active r' = user_is_active r →
  user_is_erased r' = user_is_erased r → (user_is_verified r = true → user_is_verified r' = true) →
  user_authz_version r <= user_authz_version r' → account_moves r r'.
Proof. intros H1 H2 H3 H4 H5. unfold account_moves. rewrite H1 H2 H3. split_and!; auto. done. Qed.

Lemma stages_session_get {A} i (k : option UserRow → IO A) :
  (∀ w, w_db (k (users (w_session w) !! i) w).2 = w_db w ∧
        (db_ok (w_session w) → users_evolve (w_session w) (w_session (k (users (w_session w) !! i) w).2))) →
  stages_users (get_user i ≫= k).
Proof. intros Hk w. rewrite run_bind run_get_user. apply Hk. Qed.

Lemma stages_create email : stages_users (SessionUsers.create email).
Proof.
  intros w. unfold SessionUsers.create, savepoint.
  rewrite run_bind run_uuid4 run_bind run_utc_now run_bind run_utc_now run_bind.
  unfold add_row. cbn -[decide db_ok users_evolve]. destruct (users (w_session w) !! _) as [x|] eqn:E; [done|].
  rewrite run_bind. unfold flush. cbn -[decide db_ok users_evolve]. case_decide; [|done].
  split; [done|]. intros _. apply evolve_insert; [done|apply lower_idemp].
Qed.

Lemma stages_mark_verified i : stages_users (SessionUsers.mark_verified i).
Proof.
  apply stages_session_get. intros w. destruct (users _ !! i) as [r|] eqn:E; [|done].
  destruct (user_is_verified r); [done|]. split; [done|]. intros _. apply evolve_alter; [|done].
  intros r' _. apply moves_same; done.
Qed.

Lemma stages_bump i : stages_users (SessionUsers.bump_authz_version i).
Proof.
  apply stages_session_get. intros w. destruct (users _ !! i) as [r|] eqn:E; [|done].
  split; [done|]. intros _. apply evolve_alter; [|done]. intros r' _. apply moves_same; try done. cbn. lia.
Qed.

Lemma stages_set_active i b : stages_users (SessionUsers.set_active i b).
Proof.
  apply stages_session_get. intros w. destruct (users _ !! i) as [r|] eqn:E; [|done].
  split; [done|]. intros _. apply evolve_alter; [|done]. intros r' _. unfold account_moves. cbn.
  split_and!; auto; lia.
Qed.

Lemma stages_update_last_login i t : stages_users (SessionUsers.update_last_login i t).
Proof.
  apply stages_session_get. intros w. destruct (users _ !! i) as [r|] eqn:E; [|done].
  split; [done|]. intros _. apply evolve_alter; [|done]. intros r' _. by apply moves_same.
Qed.

Lemma stages_scrub i : stages_users (SessionUsers.scrub_for_erasure_atomically_with i).
Proof.
  apply stages_session_get. intros w. destruct (users _ !! i) as [r|] eqn:E; [|done].
  destruct (user_is_erased r); [done|]. split; [done|]. intros _. apply evolve_alter.
  - intros r' _. unfold account_moves. cbn. split_and!; auto; lia.
  - intros r' _ _. apply lower_erased_email.
Qed.

Lemma update_email_evolves i e w :
  db_ok (w_db w) →
  users_evolve (w_db w) (w_db (EngineUsers.update_email i e w).2) ∧ db_ok (w_db (EngineUsers.update_email i e w).2).
Proof.
  intros Hok. unfold EngineUsers.update_email, with_session. rewrite run_bind run_get_user.
  cbn [w_session set_session]. destruct (users (w_db w) !! i) as [r|] eqn:E; [|done].
  rewrite run_bind run_utc_now run_bind run_save_user. unfold try_except. rewrite run_bind.
  destruct (decide (db_ok (set_users (alter (set_email (normalize_email e) (now_at (w_clock w))) i) (w_db w)))) as [Hd|Hd].
  - rewrite run_commit //. split; [|done]. apply evolve_alter.
    + intros r' _. by apply moves_same.
    + intros r' _ _. apply lower_normalize.
  - rewrite run_commit_fail //.
Qed.

(** The writes to the accounts table, each in a transaction of its own, and the
    passage of time between them. *)
Inductive user_step : World → World → Prop :=
  | step_create e w : user_step w (state_of (EngineUsers.create e) w)
  | step_verify i w : user_step w (state_of (EngineUsers.mark_verified i) w)
  | step_bump i w : user_step w (state_of (EngineUsers.bump_authz_version i) w)
  | step_email i e w : user_step w (state_of (EngineUsers.update_email i e) w)
  | step_active i b w : user_step w (state_of (EngineUsers.set_active i b) w)
  | step_login i t w : user_step w (state_of (EngineUsers.update_last_login i t) w)
  | step_deactivate i w :
      user_step w (state_of (write_scope (EngineUsers.set_active_atomically_with i false)) w)
  | step_erase i w :
      user_step w (state_of (write_scope (EngineUsers.scrub_for_erasure_atomically_with i)) w)
  | step_time w : user_step w (tick w).

Lemma user_step_evolves w w' :
  user_step w w' → db_ok (w_db w) → users_evolve (w_db w) (w_db w') ∧ db_ok (w_db w').
Proof.
  intros Hstep Hok. assert (Hws : ∀ A (body : IO A), stages_users body →
    users_evolve (w_db w) (w_db (write_scope body w).2) ∧ db_ok (w_db (write_scope body w).2)).
  { intros A body Hb. split; [by apply write_scope_evolves|].
    apply write_scope_ok; [|done]. intros w1 Hok1. by destruct (Hb w1) as [-> _]. }
  destruct Hstep; unfold state_of;
    rewrite ?create_agrees ?mark_verified_agrees ?bump_agrees ?set_active_agrees ?update_last_login_agrees //.
  - apply Hws, stages_create.
  - apply Hws, stages_mark_verified.
  - apply Hws, stages_bump.
  - by apply update_email_evolves.
  - apply Hws, stages_set_active.
  - apply Hws, stages_update_last_login.
  - apply Hws, stages_set_active.
  - apply Hws, stages_scrub.
Qed.

(** C38. Over any sequence of repository writes, no account disappears, creation
    times never change, erasure and verification are never undone, the
    authorization version never decreases and strictly increases whenever an
    account is activated, deactivated or erased, and stored addresses stay
    lower-case (so that the unique index makes them unique in any spelling). *)
Theorem accounts_only_move_forward w w' :
  db_ok (w_db w) → rtc user_step w w' → users_evolve (w_db w) (w_db w') ∧ db_ok (w_db w').
Proof.
  intros Hok Hsteps. induction Hsteps as [w|w1 w2 w3 Hstep _ IH]; [done|].
  apply user_step_evolves in Hstep as [Hev Hok2]; [|done].
  destruct (IH Hok2) as [Hev' Hok3]. split; [by etrans|done].
Qed.

(** After erasure an account is found neither by id nor by any address, the
    address it had can be registered again, and its stored row is inactive,
    carries only the placeholder address and has a higher version. *)
Theorem erased_is_invisible i r w :
  db_ok (w_db w) → users (w_db w) !! i = Some r → user_is_erased r = false →
  (∀ j x, users (w_db w) !! j = Some x → user_email x = erased_email i → j = i) →
  let w' := state_of (write_scope (EngineUsers.scrub_for_erasure_atomically_with i)) w in
  result_of (write_scope (EngineUsers.scrub_for_erasure_atomically_with i)) w = Ret true ∧
  users (w_db w') !! i = Some (apply_erasure_scrub i (now_at (w_clock w)) r) ∧
  find_user i (w_db w') = None ∧
  (∀ e u, find_email e (w_db w') = Some u → u_id u ≠ i) ∧
  (user_email r ≠ erased_email i → lower (user_email r) = user_email r → ¬ email_taken (user_email r) (w_db w')).
Proof.
  intros Hok Hi Her Huniq w'. unfold w', result_of, state_of, EngineUsers.scrub_for_erasure_atomically_with.
  set (f := apply_erasure_scrub i (now_at (w_clock w))).
  assert (Hok' : db_ok (set_users (alter f i) (w_db w))).
  { apply db_ok_alter_user; [done|..].
    - intros r' Hr'. pose proof Hok as (_ & Hver & _). specialize (Hver i r' Hr'). cbn in *. lia.
    - intros r' j x _ Hj E. by eapply Huniq. }
  erewrite run_write_scope.
  2: { unfold SessionUsers.scrub_for_erasure_atomically_with. rewrite run_bind run_get_user.
       cbn [w_session set_session]. rewrite Hi Her run_bind run_utc_now run_bind run_save_user. reflexivity. }
  2: exact Hok'.
  cbn -[db_ok find_user find_email email_taken]. split_and!; [done|..].
  - by rewrite lookup_alter_eq Hi.
  - unfold find_user. cbn. by rewrite lookup_alter_eq Hi.
  - intros e u. rewrite find_email_spec //. intros (j & x & Hj & _ & Hne & ->). cbn. intros ->.
    cbn in Hj. rewrite lookup_alter_eq Hi in Hj. by injection Hj as <-.
  - intros Hnp Hl (j & x & Hj & E). cbn in Hj. rewrite Hl in E.
    apply lookup_alter_Some in Hj as [(-> & x' & Hx & ->)|[Hne Hj]]; [done|].
    pose proof Hok as (Hu & _). rewrite uniq_on_spec in Hu. by apply Hne, (Hu i j r x).
Qed.
End stages.

Lemma accounts_only_move_forward_witness :
  let w' := state_of (EngineUsers.set_active 1000%N false) demo_users in
  users_evolve (w_db demo_users) (w_db w') ∧ db_ok (w_db w').
Proof.
  apply (accounts_only_move_forward demo_users); [by_eval|]. apply rtc_once, step_active.
Defined.

Lemma erased_is_invisible_witness :
  let w' := state_of (write_scope (EngineUsers.scrub_for_erasure_atomically_with 1001%N)) demo_users in
  find_user 1001%N (w_db w') = None ∧ ¬ email_taken "bob@example.com" (w_db w').
Proof.
  destruct (users (w_db demo_users) !! 1001%N) as [r|] eqn:E; [|vm_compute in E; discriminate].
  assert (Hr : user_email r = "bob@example.com") by (vm_compute in E; injection E as <-; reflexivity).
  destruct (erased_is_invisible 1001%N r demo_users) as (_ & _ & Hid & _ & Hfree).
  - by_eval.
  - exact E.
  - vm_compute in E. injection E as <-. reflexivity.
  - intros j x Hj He. exfalso.
    assert (Hall : map_Forall (λ _ x, user_email x ≠ erased_email 1001%N) (users (w_db demo_users))) by by_eval.
    exact (Hall j x Hj He).
  - split; [exact Hid|]. rewrite Hr in Hfree. apply Hfree; vm_compute; [discriminate|reflexivity].
Defined.
