(* ===== verification/Authz.v ===== *)
(** The authorization feature ([features/authorization]): the registry of
    resource types, the relationship engine on the [relationships] table and the
    system-administrator bootstrap. *)

From S2P Require Import Prelude PyStr Uuid Store StoreFacts Users.
Open Scope string_scope.
Open Scope Z_scope.

(** ** [application/registry.py] *)

Record LeafEntry := mkLeafEntry {
  actions : gmap string (gset string);
  hierarchy : gmap string (gset string);
}.

(** [parent_of] is the lookup a feature supplies for its own resources. *)
Record ParentEntry := mkParentEntry {
  entry_parent_of : string → option (string * string);
  inherits_from : string;
}.

Record AuthorizationRegistry := mkRegistry {
  leaves : gmap string LeafEntry;
  parents : gmap string ParentEntry;
  sealed : bool;
}.

Definition empty_registry : AuthorizationRegistry := mkRegistry ∅ ∅ false.

Section registration.
Implicit Types r : AuthorizationRegistry.

Definition guard_unsealed : M AuthorizationRegistry unit := λ r,
  if sealed r then (Raise (RuntimeError "AuthorizationRegistry is sealed"), r) else (Ret tt, r).
Definition guard_unique (resource_type : string) : M AuthorizationRegistry unit := λ r,
  if bool_decide (is_Some (leaves r !! resource_type)) || bool_decide (is_Some (parents r !! resource_type))
  then (Raise (ValueError resource_type), r) else (Ret tt, r).

Definition register_resource_type (resource_type : string) (acts hier : gmap string (gset string))
    : M AuthorizationRegistry unit :=
  guard_unsealed ;;
  guard_unique resource_type ;;
  modify (λ r, mkRegistry (<[resource_type := mkLeafEntry acts hier]> (leaves r)) (parents r) (sealed r)).

Definition register_parent (resource_type : string) (parent_of : string → option (string * string))
    (inherits : string) : M AuthorizationRegistry unit :=
  guard_unsealed ;;
  guard_unique resource_type ;;
  modify (λ r, mkRegistry (leaves r) (<[resource_type := mkParentEntry parent_of inherits]> (parents r)) (sealed r)).

Definition seal : M AuthorizationRegistry unit :=
  modify (λ r, mkRegistry (leaves r) (parents r) true).
End registration.

Section registry_reads.
Context (r : AuthorizationRegistry).

Definition has_stored_relations (resource_type : string) : bool :=
  bool_decide (is_Some (leaves r !! resource_type)).

Definition parent_of (resource_type resource_id : string) : option (string * string) :=
  match parents r !! resource_type with
  | None => None
  | Some entry => entry_parent_of entry resource_id
  end.

Definition registered_resource_types : gset string := dom (leaves r) ∪ dom (parents r).

(** The [while current not in self._leaves] loop; [None]: not ended within [fuel]. *)
Fixpoint nearest_leaf_loop (resource_type : string) (fuel : nat) (seen : gset string) (current : string)
    : option (outcome string) :=
  if has_stored_relations current then Some (Ret current) else
  if bool_decide (current ∈ seen) then Some (Raise (UnknownActionError "cycle" resource_type)) else
  match parents r !! current with
  | None => Some (Raise (UnknownActionError "resource_type" resource_type))
  | Some parent =>
      match fuel with
      | O => None
      | S fuel => nearest_leaf_loop resource_type fuel ({[ current ]} ∪ seen) (inherits_from parent)
      end
  end.

(** One iteration per inherited type is enough ([nearest_leaf_total]). *)
Definition nearest_leaf_type (resource_type : string) : outcome string :=
  match nearest_leaf_loop resource_type (S (size (parents r))) ∅ resource_type with
  | Some o => o
  | None => Raise (RuntimeError "nearest_leaf_type: out of fuel")
  end.

(** [_resolve_leaf]. *)
Definition resolve_leaf (resource_type : string) : outcome LeafEntry :=
  match nearest_leaf_type resource_type with
  | Raise e => Raise e
  | Ret leaf => match leaves r !! leaf with
                | Some entry => Ret entry
                | None => Raise (KeyError leaf)
                end
  end.

Definition relations_for (resource_type action : string) : outcome (gset string) :=
  match resolve_leaf resource_type with
  | Raise e => Raise e
  | Ret leaf => match actions leaf !! action with
                | Some relations => Ret relations
                | None => Raise (UnknownActionError "action" resource_type)
                end
  end.

(** [for relation in relations: expanded.update(members)]. *)
Fixpoint expand_loop (resource_type : string) (leaf : LeafEntry) (relations : list string)
    (expanded : gset string) : outcome (gset string) :=
  match relations with
  | [] => Ret expanded
  | rel :: relations =>
      match hierarchy leaf !! rel with
      | None => Raise (UnknownActionError "relation" resource_type)
      | Some members => expand_loop resource_type leaf relations (expanded ∪ members)
      end
  end.
Definition expand_relations (resource_type : string) (relations : gset string) : outcome (gset string) :=
  match resolve_leaf resource_type with
  | Raise e => Raise e
  | Ret leaf => expand_loop resource_type leaf (elements relations) ∅
  end.
End registry_reads.

(** ** [adapters/outbound/sqlmodel/adapter.py] *)

Definition LOOKUP_DEFAULT_LIMIT : Z := 100.
Definition LOOKUP_MAX_LIMIT : Z := 1000.

(** [_user_subject_ids]. *)
Definition user_subject_ids (tuples : list Relationship) : gset uuid :=
  foldr (λ t out,
    if String.eqb (subject_type t) "user" then
      match uuid_parse (subject_id t) with
      | Some u => {[ u ]} ∪ out
      | None => out
      end
    else out) ∅ tuples.

(** The session strategy of the two adapters. *)
Record Scopes := mkScopes {
  session_scope : ∀ {A}, IO A → IO A;
  write_session_scope : ∀ {A}, IO A → IO A;
}.
(** [SQLModelAuthorizationAdapter] and [SessionSQLModelAuthorizationAdapter]. *)
Definition engine_scopes : Scopes := mkScopes (@with_session) (@write_scope).
Definition borrowed_scopes : Scopes := mkScopes (λ _ body, body) (λ _ body, body).

(** A computation of the registry inside a procedure. *)
Definition lift_outcome {S A} (o : outcome A) : M S A := λ s, (o, s).

(** Keep the first occurrence of each value. *)
Fixpoint dedup {A} `{EqDecision A} (seen l : list A) : list A :=
  match l with
  | [] => []
  | x :: l => if bool_decide (x ∈ seen) then dedup seen l else x :: dedup (x :: seen) l
  end.

Section engine.
Context `{Env} (r : AuthorizationRegistry) (sc : Scopes).
(** The collation behind [ORDER BY resource_id]. *)
Context (collate : string → string → Prop) `{!∀ a b, Decision (collate a b)}.

(** The parent walk of [check]; [None]: not ended within [fuel]. *)
Fixpoint walk_parents (fuel : nat) (walked_type walked_id : string) : option (option (string * string)) :=
  if has_stored_relations r walked_type then Some (Some (walked_type, walked_id)) else
  match parent_of r walked_type walked_id with
  | None => Some None
  | Some (parent_type, parent_id) =>
      match fuel with
      | O => None
      | S fuel => walk_parents fuel parent_type parent_id
      end
  end.

Definition matches_user (relations : gset string) (rtype : string) (user_id : uuid) (row : RelationshipRow) : bool :=
  let t := rel_tuple row in
  String.eqb (resource_type t) rtype && bool_decide (relation t ∈ relations) &&
  String.eqb (subject_type t) "user" && String.eqb (subject_id t) (uuid_str user_id).

(** [_exists_relation]; [LIMIT 1] leaves at most one row. *)
Definition exists_relation (rtype rid : string) (relations : gset string) (user_id : uuid) : IO bool :=
  rows ← sess (λ d, limit 1 (select_where (λ _ row,
    matches_user relations rtype user_id row && String.eqb (resource_id (rel_tuple row)) rid) (relationships d)));
  row ← one_or_none rows;
  mret (bool_decide (is_Some (fst <$> row))).

(** [check]; the walk is not guarded against cyclic parents, so the result is
    [None] when it has not ended within [fuel] steps. *)
Definition check (fuel : nat) (user_id : uuid) (action rtype rid : string) : IO (option bool) :=
  required ← lift_outcome (relations_for r rtype action);
  match walk_parents fuel rtype rid with
  | None => mret None
  | Some None => mret (Some false)
  | Some (Some (walked_type, walked_id)) =>
      expanded ← lift_outcome (expand_relations r walked_type required);
      b ← session_scope sc (exists_relation walked_type walked_id expanded user_id);
      mret (Some b)
  end.

Definition capped (limit_ : Z) : Z := 1 `max` (limit_ `min` LOOKUP_MAX_LIMIT).

Definition lookup_resources (user_id : uuid) (action rtype : string) (limit_ : Z) : IO (list string) :=
  required ← lift_outcome (relations_for r rtype action);
  stored_type ← lift_outcome (nearest_leaf_type r rtype);
  expanded ← lift_outcome (expand_relations r stored_type required);
  rows ← session_scope sc (sess (λ d, limit (capped limit_)
    (merge_sort collate ((λ ir, resource_id (rel_tuple ir.2)) <$>
      select_where (λ _ row, matches_user expanded stored_type user_id row) (relationships d)))));
  mret (dedup [] rows).

Definition lookup_subjects (rtype rid rel : string) (limit_ : option Z) : IO (list uuid) :=
  let capped_limit := match limit_ with None => LOOKUP_MAX_LIMIT | Some l => capped l end in
  expanded ← lift_outcome (expand_relations r rtype {[ rel ]});
  rows ← session_scope sc (sess (λ d, limit capped_limit ((λ ir, subject_id (rel_tuple ir.2)) <$>
    select_where (λ _ row, let t := rel_tuple row in
      String.eqb (resource_type t) rtype && String.eqb (resource_id t) rid &&
      bool_decide (relation t ∈ expanded) && String.eqb (subject_type t) "user") (relationships d))));
  mret (dedup [] (omap uuid_parse rows)).

Definition same_tuple (t : Relationship) (_ : uuid) (row : RelationshipRow) : bool :=
  bool_decide (rel_tuple row = t).

(** [_bump_affected_users]; [bump_in_session] is the users feature's adapter. *)
Definition bump_affected_users (tuples : list Relationship) : IO unit :=
  for_each (elements (user_subject_ids tuples)) bump_in_session.

(** Insert one tuple unless it is there; autoflush makes staged rows visible. *)
Definition write_one (t : Relationship) : IO unit :=
  rows ← sess (λ d, limit 1 (select_where (same_tuple t) (relationships d)));
  existing ← one_or_none rows;
  match existing with
  | Some _ => mret tt
  | None =>
      id ← uuid4;
      created_at ← utc_now;
      add_row relationships set_relationships id (mkRelationshipRow t created_at)
  end.

Definition write_relationships (tuples : list Relationship) : IO unit :=
  if bool_decide (tuples = []) then mret tt else
  write_session_scope sc (
    for_each tuples write_one ;;
    flush ;;
    bump_affected_users tuples).

Definition delete_relationships (tuples : list Relationship) : IO unit :=
  if bool_decide (tuples = []) then mret tt else
  write_session_scope sc (
    for_each tuples (λ t, stage (set_relationships (delete_where (same_tuple t)))) ;;
    bump_affected_users tuples).
End engine.

(** ** [composition/container.py]: the only resource type the feature registers *)

Definition system_actions : gmap string (gset string) :=
  {[ "manage_users" := {[ "admin" ]}; "read_audit" := {[ "admin" ]} ]}.
Definition system_hierarchy : gmap string (gset string) := {[ "admin" := {[ "admin" ]} ]}.
Definition system_registry : AuthorizationRegistry :=
  state_of (register_resource_type "system" system_actions system_hierarchy) empty_registry.

(** ** [application/use_cases/bootstrap_system_admin.py] *)

Inductive BootstrapError :=
  | BootstrapRefusedExistingUserError (user_id : uuid) (email : string)
  | BootstrapPasswordMismatchError (user_id : uuid).

Module BootstrapSystemAdmin.
Section bootstrap.
Context `{Env} {C : Type}.
(** The outbound ports: the registrar's credential writer, the credential
    verifier, the audit log and the principal cache. *)
Context (set_initial_password : uuid → string → IO unit).
Context (verify : uuid → string → IO bool).
Context (audit_record : string → uuid → payload → IO unit).
Context (invalidate_user : uuid → M C unit).
Context (promote_existing : bool).

Definition admin_tuple (user_id : uuid) : Relationship :=
  mkRelationship "system" "main" "admin" "user" (uuid_str user_id).

Definition audit_metadata (subevent : string) : payload :=
  {[ "actor" := JStr "system"; "reason" := JStr "bootstrap_on_startup"; "subevent" := JStr subevent ]}.

(** [_grant_and_invalidate]: an exception of the invalidation is swallowed. *)
Definition grant_and_invalidate (user_id : uuid) : M (World * C) unit :=
  on_fst (write_relationships engine_scopes [admin_tuple user_id]) ;;
  except_exception (on_snd (invalidate_user user_id)) (λ _, mret tt).

(** The [system] type is a leaf, so the check walks no parent. *)
Definition execute (email password : string) : M (World * C) (Result uuid BootstrapError) :=
  existing_id ← on_fst (lookup_by_email email);
  match existing_id with
  | None =>
      user_id ← on_fst (register_or_lookup set_initial_password email password);
      grant_and_invalidate user_id ;;
      on_fst (audit_record "authz.system_admin_bootstrapped" user_id (audit_metadata "created")) ;;
      mret (Ok user_id)
  | Some existing_id =>
      allowed ← on_fst (check system_registry engine_scopes 0 existing_id "manage_users" "system" "main");
      if bool_decide (allowed = Some true) then mret (Ok existing_id) else
      if negb promote_existing then mret (Err (BootstrapRefusedExistingUserError existing_id email)) else
      verified ← on_fst (verify existing_id password);
      if negb verified then mret (Err (BootstrapPasswordMismatchError existing_id)) else
      grant_and_invalidate existing_id ;;
      on_fst (audit_record "authz.system_admin_bootstrapped" existing_id (audit_metadata "promoted_existing")) ;;
      mret (Ok existing_id)
  end.
End bootstrap.
End BootstrapSystemAdmin.
