(* ===== verification/AuthzFacts.v ===== *)
(** What the authorization feature guarantees: the registry resolves types as
    its chains say, checks decide exactly the granted relations, writes have set
    semantics and bump each affected user once. *)

From stdpp Require Import relations.
From S2P Require Import Prelude PyStr Uuid Store StoreFacts Demo Users UsersFacts Authz.
Open Scope string_scope.
Open Scope Z_scope.

(** ** Resolution of resource types *)

Section resolution.
Context (r : AuthorizationRegistry).

(** The chain of [inherits_from] from a type to a leaf, with its length. *)
Inductive resolves : nat → string → string → Prop :=
  | resolves_leaf t : is_Some (leaves r !! t) → resolves 0 t t
  | resolves_parent n t e u :
      leaves r !! t = None → parents r !! t = Some e → resolves n (inherits_from e) u →
      resolves (S n) t u.

Lemma resolves_det n t u : resolves n t u → ∀ m v, resolves m t v → n = m ∧ u = v.
Proof.
  induction 1 as [t Hl|n t e u Hl He Hr IH]; intros m v Hm; inversion Hm; subst.
  - done.
  - rewrite H in Hl. by destruct Hl.
  - match goal with Hs : is_Some _ |- _ => rewrite Hl in Hs; by destruct Hs end.
  - match goal with He' : parents r !! t = Some ?e' |- _ => rewrite He in He'; injection He' as -> end.
    match goal with Hr' : resolves ?k _ v |- _ => destruct (IH k v Hr') as [-> ->] end. done.
Qed.

Lemma resolves_is_leaf n t u : resolves n t u → is_Some (leaves r !! u).
Proof. by induction 1. Qed.

Lemma loop_sound rt fuel seen t u :
  nearest_leaf_loop r rt fuel seen t = Some (Ret u) → ∃ n, resolves n t u.
Proof.
  revert seen t. induction fuel as [|fuel IH]; intros seen t; cbn;
    unfold has_stored_relations; case_bool_decide as Hl;
    try (intros [= <-]; exists O; by constructor); (case_bool_decide; [done|]);
    (destruct (parents r !! t) as [e|] eqn:He; [|done]); [done|].
  intros [n Hn]%IH. exists (S n). econstructor; [|done..].
  by apply eq_None_not_Some.
Qed.

(** Types already seen are strictly further from the leaf. *)
Definition behind (seen : gset string) (t : string) : Prop :=
  ∀ s, s ∈ seen → ∀ m u, resolves m s u → ∃ n, (n < m)%nat ∧ resolves n t u.

Lemma loop_complete rt fuel seen t n u :
  behind seen t → resolves n t u → (n <= fuel)%nat → nearest_leaf_loop r rt fuel seen t = Some (Ret u).
Proof.
  revert seen t n. induction fuel as [|fuel IH]; intros seen t n Hb Hr Hfuel;
    (destruct Hr as [t Hl|n t e u Hl He Hr];
     [cbn; unfold has_stored_relations; rewrite bool_decide_eq_true_2 //|]); [lia|].
  cbn. unfold has_stored_relations.
  rewrite bool_decide_eq_false_2; [|by rewrite Hl => -[]].
  assert (Hmine : resolves (S n) t u) by by econstructor.
  rewrite bool_decide_eq_false_2.
  2: { intros Hin. destruct (Hb t Hin _ _ Hmine) as (k & Hk & Hk').
       destruct (resolves_det _ _ _ Hmine _ _ Hk'). lia. }
  rewrite He. eapply IH; [|exact Hr|lia].
  intros s Hs m v Hv. apply elem_of_union in Hs as [->%elem_of_singleton|Hs].
  - destruct (resolves_det _ _ _ Hmine _ _ Hv) as [<- <-]. exists n. split; [lia|done].
  - destruct (Hb s Hs m v Hv) as (k & Hk & Hk').
    destruct (resolves_det _ _ _ Hmine _ _ Hk') as [<- <-]. exists n. split; [lia|done].
Qed.

(** The loop ends: every iteration adds an inherited type to [seen]. *)
Lemma loop_total rt fuel seen t :
  seen ⊆ dom (parents r) → (size (parents r) < fuel + size seen)%nat →
  is_Some (nearest_leaf_loop r rt fuel seen t).
Proof.
  revert seen t. induction fuel as [|fuel IH]; intros seen t Hsub Hfuel.
  - exfalso. apply subseteq_size in Hsub. rewrite size_dom in Hsub. lia.
  - cbn. case_match; [done|]. case_bool_decide as Hin; [done|].
    destruct (parents r !! t) as [e|] eqn:He; [|done]. apply IH.
    + apply union_subseteq. split; [|done]. apply singleton_subseteq_l, elem_of_dom. by exists e.
    + rewrite size_union; [|set_solver]. rewrite size_singleton. lia.
Qed.

Lemma nearest_leaf_ret t u : nearest_leaf_type r t = Ret u ↔ ∃ n, resolves n t u.
Proof.
  unfold nearest_leaf_type.
  destruct (loop_total t (S (size (parents r))) ∅ t) as [o Ho]; [set_solver|rewrite size_empty; lia|].
  rewrite Ho. split.
  - intros ->. by eapply loop_sound.
  - intros [n Hn].
    assert (Hc : nearest_leaf_loop r t (n `max` S (size (parents r))) ∅ t = Some (Ret u)).
    { eapply loop_complete; [intros s Hs; set_solver|done|lia]. }
    assert (Hmono : ∀ k seen s o, nearest_leaf_loop r t k seen s = Some o →
      ∀ k', (k <= k')%nat → nearest_leaf_loop r t k' seen s = Some o).
    { clear. induction k as [|k IH]; intros seen s o Hk k' Hle; destruct k'; try lia; try done; cbn in *;
        repeat case_match; try done; eauto. apply (IH _ _ _ Hk). lia. }
    apply (Hmono _ _ _ _) with (k' := (n `max` S (size (parents r)))%nat) in Ho; [|lia].
    rewrite Hc in Ho. by injection Ho as <-.
Qed.

(** Resolving a resource type always ends: it returns the leaf at the end of
    the type's [inherits_from] chain when there is one, which is then a
    registered leaf, and raises [UnknownActionError] when the chain is cyclic
    or breaks off. *)
Theorem nearest_leaf_spec t :
  (∀ u, nearest_leaf_type r t = Ret u ↔ ∃ n, resolves n t u) ∧
  (∀ u, nearest_leaf_type r t = Ret u → is_Some (leaves r !! u)) ∧
  ((¬ ∃ n u, resolves n t u) → ∃ what, nearest_leaf_type r t = Raise (UnknownActionError what t)).
Proof.
  split_and!.
  - intros u. apply nearest_leaf_ret.
  - intros u [n Hn]%nearest_leaf_ret. by eapply resolves_is_leaf.
  - intros Hno. destruct (nearest_leaf_type r t) as [u|e] eqn:E.
    { exfalso. apply Hno. apply nearest_leaf_ret in E as [n Hn]. by exists n, u. }
    unfold nearest_leaf_type in E.
    destruct (loop_total t (S (size (parents r))) ∅ t) as [o Ho]; [set_solver|rewrite size_empty; lia|].
    rewrite Ho in E. subst o. clear Hno.
    assert (Herr : ∀ k seen s e, nearest_leaf_loop r t k seen s = Some (Raise e) →
      ∃ what, e = UnknownActionError what t).
    { clear. induction k as [|k IH]; intros seen s e; cbn; repeat case_match; intros; simplify_eq; eauto. }
    destruct (Herr _ _ _ _ Ho) as [what ->]. by exists what.
Qed.
End resolution.

(** ** Registration *)

Section registration.
Implicit Types r : AuthorizationRegistry.

Inductive registry_step : AuthorizationRegistry → AuthorizationRegistry → Prop :=
  | step_leaf t a h r : registry_step r (state_of (register_resource_type t a h) r)
  | step_parent t p i r : registry_step r (state_of (register_parent t p i) r)
  | step_seal r : registry_step r (state_of seal r).

Definition registry_wf r : Prop := dom (leaves r) ## dom (parents r).
Definition registry_extends r r' : Prop :=
  leaves r ⊆ leaves r' ∧ parents r ⊆ parents r' ∧ (sealed r = true → r' = r).

Global Instance registry_extends_preorder : PreOrder registry_extends.
Proof.
  split; [by intros r; unfold registry_extends|].
  intros x y z (Hl & Hp & Hs) (Hl' & Hp' & Hs'). unfold registry_extends.
  split_and!; [by etrans|by etrans|]. intros H. specialize (Hs H) as ->. auto.
Qed.

Lemma guards_cases t r :
  (sealed r = true ∧ (guard_unsealed ;; guard_unique t) r = (Raise (RuntimeError "AuthorizationRegistry is sealed"), r)) ∨
  (sealed r = false ∧ t ∈ registered_resource_types r ∧
   (guard_unsealed ;; guard_unique t) r = (Raise (ValueError t), r)) ∨
  (sealed r = false ∧ t ∉ registered_resource_types r ∧ (guard_unsealed ;; guard_unique t) r = (Ret tt, r)).
Proof.
  unfold registered_resource_types. rewrite !elem_of_union !elem_of_dom !run_bind. unfold guard_unsealed, guard_unique.
  destruct (sealed r); [by left|right]. repeat case_bool_decide; cbn; tauto.
Qed.

(** Both registrations, as one case analysis on their guards. *)
Lemma run_register (f : AuthorizationRegistry → AuthorizationRegistry) t r :
  (guard_unsealed ;; guard_unique t ;; modify f) r
  = match (guard_unsealed ;; guard_unique t) r with
    | (Ret _, _) => (Ret tt, f r)
    | (Raise e, _) => (Raise e, r)
    end.
Proof.
  rewrite !run_bind. unfold guard_unsealed. destruct (sealed r); [done|].
  rewrite !run_bind. unfold guard_unique. by destruct (_ || _).
Qed.

Lemma registry_step_ok r r' : registry_step r r' → registry_wf r → registry_wf r' ∧ registry_extends r r'.
Proof.
  assert (Hfresh : ∀ t, t ∉ registered_resource_types r → leaves r !! t = None ∧ parents r !! t = None).
  { intros t. unfold registered_resource_types. rewrite not_elem_of_union !not_elem_of_dom. done. }
  intros Hstep Hwf. unfold registry_wf, registry_extends. destruct Hstep as [t a h r|t p i r|r]; unfold state_of.
  - unfold register_resource_type. rewrite run_register.
    destruct (guards_cases t r) as [[_ ->]|[(_ & _ & ->)|(Hs & Ht & ->)]]; [done..|].
    apply Hfresh in Ht as [H1 H2]. cbn. rewrite Hs dom_insert_L. split_and!; [|by apply insert_subseteq|done|done].
    apply not_elem_of_dom in H2. set_solver.
  - unfold register_parent. rewrite run_register.
    destruct (guards_cases t r) as [[_ ->]|[(_ & _ & ->)|(Hs & Ht & ->)]]; [done..|].
    apply Hfresh in Ht as [H1 H2]. cbn. rewrite Hs dom_insert_L. split_and!; [|done|by apply insert_subseteq|done].
    apply not_elem_of_dom in H1. set_solver.
  - cbn. split_and!; [done..|]. intros E. destruct r. cbn in *. by rewrite E.
Qed.

(** Over any sequence of registrations and seals, no resource type is both a
    leaf and inherited, an entry once registered never changes, and a sealed
    registry never changes at all. *)
Theorem registry_only_grows r r' :
  registry_wf r → rtc registry_step r r' → registry_wf r' ∧ registry_extends r r'.
Proof.
  intros Hwf Hsteps. induction Hsteps as [r|r1 r2 r3 Hstep _ IH]; [done|].
  destruct (registry_step_ok _ _ Hstep Hwf) as [Hwf2 Hext].
  destruct (IH Hwf2) as [Hwf3 Hext']. split; [done|by etrans].
Qed.
End registration.

Lemma registry_only_grows_witness :
  registry_wf system_registry ∧ registry_extends empty_registry system_registry.
Proof.
  apply (registry_only_grows empty_registry).
  - unfold registry_wf. vm_compute. by intros x Hx.
  - apply rtc_once, (step_leaf "system" system_actions system_hierarchy).
Defined.

(** ** Checks *)

Section check.
Context `{Env} (r : AuthorizationRegistry).

(** Parent lookups answer with the type they were registered to inherit from. *)
Definition conforming : Prop := ∀ t e i p,
  parents r !! t = Some e → entry_parent_of e i = Some p → p.1 = inherits_from e.

(** The resource a child resolves to, through its parents. *)
Inductive reaches : string * string → string * string → Prop :=
  | reaches_leaf t i : is_Some (leaves r !! t) → reaches (t, i) (t, i)
  | reaches_parent t i e p q :
      leaves r !! t = None → parents r !! t = Some e → entry_parent_of e i = Some p → reaches p q →
      reaches (t, i) q.

Lemma walk_spec fuel n t i u :
  conforming → resolves r n t u → (n <= fuel)%nat →
  ∃ o, walk_parents r fuel t i = Some o ∧
    (∀ q, o = Some q ↔ reaches (t, i) q) ∧ (∀ q, o = Some q → q.1 = u).
Proof.
  intros Hconf Hr. revert fuel i. induction Hr as [t Hl|n t e u Hl He Hr IH]; intros fuel i Hfuel.
  - exists (Some (t, i)). destruct fuel; cbn; unfold has_stored_relations; rewrite bool_decide_eq_true_2 //;
      (split_and!; [done| |by intros q [= <-]]); intros q; (split; [intros [= <-]; by constructor|]);
      (intros Hq; inversion Hq; subst; [done|]); by match goal with Hn : leaves r !! t = None |- _ => rewrite Hn in Hl; destruct Hl end.
  - destruct fuel as [|fuel]; [lia|]. cbn. unfold has_stored_relations.
    rewrite bool_decide_eq_false_2; [|by rewrite Hl => -[]]. unfold parent_of. rewrite He.
    destruct (entry_parent_of e i) as [[pt pi]|] eqn:Hp.
    + assert (pt = inherits_from e) as -> by exact (Hconf t e i (pt, pi) He Hp).
      destruct (IH fuel pi) as (o & Ho & Hspec & Htype); [lia|]. exists o. split_and!; [done| |done].
      intros q. rewrite Hspec. split; [intros Hq; by eapply reaches_parent|].
      intros Hq. inversion Hq; subst; [match goal with Hs : is_Some _ |- _ => rewrite Hl in Hs; by destruct Hs end|].
      by simplify_eq.
    + exists None. split_and!; [done| |done]. intros q. split; [done|]. intros Hq. exfalso.
      inversion Hq; subst; [match goal with Hs : is_Some _ |- _ => rewrite Hl in Hs; by destruct Hs end|].
      by simplify_eq.
Qed.

Lemma expand_loop_spec rt leaf rels acc :
  (∀ q, q ∈ rels → is_Some (hierarchy leaf !! q)) →
  ∃ exp, expand_loop rt leaf rels acc = Ret exp ∧
    ∀ x, x ∈ exp ↔ x ∈ acc ∨ ∃ q ms, q ∈ rels ∧ hierarchy leaf !! q = Some ms ∧ x ∈ ms.
Proof.
  revert acc. induction rels as [|q rels IH]; intros acc Hall.
  - exists acc. split; [done|]. intros x. split; [by left|]. intros [?|(q & ms & Hq & _)]; [done|].
    by apply not_elem_of_nil in Hq.
  - cbn. destruct (Hall q) as [ms Hms]; [left|]. rewrite Hms.
    destruct (IH (acc ∪ ms)) as (exp & Hexp & Hspec); [intros q' Hq'; apply Hall; by right|].
    exists exp. split; [done|]. intros x. rewrite Hspec elem_of_union. setoid_rewrite elem_of_cons. naive_solver.
Qed.

Lemma resolve_leaf_ret n t u e :
  resolves r n t u → leaves r !! u = Some e → resolve_leaf r t = Ret e.
Proof.
  intros Hr He. unfold resolve_leaf.
  assert (Hn : nearest_leaf_type r t = Ret u) by (apply nearest_leaf_ret; by exists n). by rewrite Hn He.
Qed.

Lemma expand_relations_spec n t u e (req : gset string) :
  resolves r n t u → leaves r !! u = Some e → (∀ q, q ∈ req → is_Some (hierarchy e !! q)) →
  ∃ exp, expand_relations r t req = Ret exp ∧
    ∀ x, x ∈ exp ↔ ∃ q ms, q ∈ req ∧ hierarchy e !! q = Some ms ∧ x ∈ ms.
Proof.
  intros Hr He Hall. unfold expand_relations. rewrite (resolve_leaf_ret _ _ _ _ Hr He).
  destruct (expand_loop_spec t e (elements req) ∅) as (exp & -> & Hspec).
  { intros q. rewrite elem_of_elements. auto. }
  exists exp. split; [done|]. intros x. rewrite Hspec. setoid_rewrite elem_of_elements. set_solver.
Qed.

(** The user holds one of [relations] on the resource. *)
Definition holds (d : Db) (user_id : uuid) (relations : gset string) (u j : string) : Prop :=
  ∃ k row rel, relationships d !! k = Some row ∧ rel ∈ relations ∧
    rel_tuple row = mkRelationship u j rel "user" (uuid_str user_id).

Lemma matches_user_spec relations u user_id row :
  matches_user relations u user_id row = true ↔
  ∃ j rel, rel ∈ relations ∧ rel_tuple row = mkRelationship u j rel "user" (uuid_str user_id).
Proof.
  unfold matches_user. destruct row as [[rt rid rel st sid] t]. cbn.
  rewrite !andb_true_iff !String.eqb_eq bool_decide_eq_true. split; [intros [[[-> ?] ->] ->]; eauto|].
  intros (j & rel' & ? & [= -> -> -> -> ->]). done.
Qed.

Definition relation_found (u j : string) (relations : gset string) (user_id : uuid) (d : Db) : bool :=
  bool_decide (is_Some (head (select_where (λ _ row,
    matches_user relations u user_id row && String.eqb (resource_id (rel_tuple row)) j) (relationships d)))).

Lemma run_exists_relation u j relations user_id w :
  exists_relation u j relations user_id w = (Ret (relation_found u j relations user_id (w_session w)), w).
Proof.
  unfold exists_relation, relation_found. rewrite run_bind run_sess. unfold limit. cbn [Z.to_nat Pos.to_nat].
  by destruct (select_where _ _) as [|x [|y l]].
Qed.

Lemma exists_relation_spec u j relations user_id d :
  relation_found u j relations user_id d = true ↔ holds d user_id relations u j.
Proof.
  unfold relation_found. rewrite bool_decide_eq_true. split.
  - intros [[k row] Hh]. apply head_Some_elem_of, elem_of_select_where in Hh as [Hk Hm].
    apply andb_true_iff in Hm as [Hm Hj%String.eqb_eq]. apply matches_user_spec in Hm as (j' & rel & Hrel & E).
    rewrite E in Hj. cbn in Hj. subst j'. by exists k, row, rel.
  - intros (k & row & rel & Hk & Hrel & E). apply head_is_Some. intros Hnil.
    pose proof (proj1 (select_where_nil _ _) Hnil k row Hk) as Hf. cbn in Hf.
    assert (Hm : matches_user relations u user_id row = true) by (apply matches_user_spec; by exists j, rel).
    by rewrite Hm E /= String.eqb_refl in Hf.
Qed.
End check.

Section decisions.
Context `{Env} (r : AuthorizationRegistry).
Context (collate : string → string → Prop) `{!∀ a b, Decision (collate a b)}.

(** C19. On a registered action, where every registered parent lookup answers with the
    declared parent type, every relation the action requires is in the leaf type's
    hierarchy and the fuel covers the inherited types, a check ends after at most one
    step per inherited type and is positive exactly when the resource's ancestor of
    the leaf type exists and the user holds, on it, a relation that satisfies the
    action through the hierarchy; the check writes nothing. A parent lookup that
    answers another type can make a check run forever ([check_can_diverge]). *)
Theorem check_decides n t u e action (req : gset string) user_id i fuel w :
  conforming r → resolves r n t u → leaves r !! u = Some e → actions e !! action = Some req →
  (∀ q, q ∈ req → is_Some (hierarchy e !! q)) → (n <= fuel)%nat →
  ∃ b, check r engine_scopes fuel user_id action t i w = (Ret (Some b), w) ∧
    (b = true ↔ ∃ j k row rel q ms,
       reaches r (t, i) (u, j) ∧ relationships (w_db w) !! k = Some row ∧
       rel_tuple row = mkRelationship u j rel "user" (uuid_str user_id) ∧
       q ∈ req ∧ hierarchy e !! q = Some ms ∧ rel ∈ ms).
Proof.
  intros Hconf Hr He Ha Hall Hfuel. unfold check, lift_outcome. rewrite run_bind.
  unfold relations_for. rewrite (resolve_leaf_ret r _ _ _ _ Hr He) Ha.
  destruct (walk_spec r fuel n t i u Hconf Hr Hfuel) as (o & -> & Hspec & Htype).
  destruct o as [[u' j]|].
  - assert (u' = u) as -> by exact (Htype _ eq_refl).
    assert (Hru : resolves r 0 u u) by (constructor; by exists e).
    destruct (expand_relations_spec r 0 u u e req Hru He Hall) as (exp & -> & Hexp).
    rewrite !run_bind. cbn [session_scope engine_scopes].
    rewrite (run_with_session_read _ (relation_found u j exp user_id)); [|apply run_exists_relation].
    eexists. split; [reflexivity|]. rewrite exists_relation_spec. unfold holds. split.
    + intros (k & row & rel & Hk & Hrel & E). apply Hexp in Hrel as (q & ms & Hq & Hms & Hrel).
      exists j, k, row, rel, q, ms. split_and!; [by apply Hspec|done..].
    + intros (j' & k & row & rel & q & ms & Hreach & Hk & E & Hq & Hms & Hrel).
      apply Hspec in Hreach as [= <-]. exists k, row, rel. split_and!; [done| |done]. apply Hexp. by exists q, ms.
  - exists false. split; [done|]. split; [done|]. intros (j & k & row & rel & q & ms & Hreach & _).
    apply Hspec in Hreach. done.
Qed.

(** A parent lookup that answers with a type it was not registered to inherit
    from can send a check round a cycle: unlike the resolution of types, the
    walk over resources keeps no record of what it has seen and never ends. *)
Theorem check_can_diverge :
  ∃ r', rtc registry_step empty_registry r' ∧
    relations_for r' "folder" "read" = Ret {[ "reader" ]} ∧
    ∀ fuel user_id w, check r' engine_scopes fuel user_id "read" "folder" "a" w = (Ret None, w).
Proof.
  set (acts := {[ "read" := {[ "reader" ]} ]} : gmap string (gset string)).
  set (hier := {[ "reader" := {[ "reader" ]} ]} : gmap string (gset string)).
  set (next := λ i, Some ("folder", if String.eqb i "a" then "b" else "a")).
  set (r1 := state_of (register_resource_type "board" acts hier) empty_registry).
  set (r2 := state_of (register_parent "folder" next "board") r1).
  assert (Hrel : relations_for r2 "folder" "read" = Ret {[ "reader" ]}) by (vm_compute; reflexivity).
  exists r2. split_and!; [|done|].
  - eapply rtc_l; [apply (step_leaf "board" acts hier)|]. apply rtc_once, (step_parent "folder" next "board").
  - intros fuel user_id w.
    assert (Hwalk : ∀ i, walk_parents r2 fuel "folder" i = None).
    { induction fuel as [|fuel IH]; intros i.
      - change (walk_parents r2 0 "folder" i) with (match next i with None => Some None | Some (_, _) => @None (option (string * string)) end). done.
      - change (walk_parents r2 (S fuel) "folder" i)
          with (match next i with None => Some None | Some (pt, pi) => walk_parents r2 fuel pt pi end). apply IH. }
    unfold check, lift_outcome. rewrite run_bind Hrel Hwalk. done.
Qed.

(** ** Lookups *)

Lemma elem_of_dedup {A} `{EqDecision A} (seen l : list A) x : x ∈ dedup seen l ↔ x ∈ l ∧ x ∉ seen.
Proof.
  revert seen. induction l as [|y l IH]; intros seen; cbn; [set_solver|].
  case_bool_decide as Hy.
  - rewrite IH elem_of_cons. naive_solver.
  - rewrite !elem_of_cons IH not_elem_of_cons. destruct (decide (x = y)); naive_solver.
Qed.

Lemma NoDup_dedup {A} `{EqDecision A} (seen l : list A) : NoDup (dedup seen l).
Proof.
  revert seen. induction l as [|y l IH]; intros seen; cbn; [constructor|].
  case_bool_decide; [done|]. constructor; [|done]. rewrite elem_of_dedup. set_solver.
Qed.

Lemma length_dedup {A} `{EqDecision A} (seen l : list A) : (length (dedup seen l) ≤ length l)%nat.
Proof.
  revert seen. induction l as [|y l IH]; intros seen; cbn; [lia|].
  case_bool_decide; [pose proof (IH seen)|cbn; pose proof (IH (y :: seen))]; lia.
Qed.

Definition matching (exp : gset string) u user_id (d : Db) : list string :=
  (λ ir, resource_id (rel_tuple ir.2)) <$> select_where (λ _ row, matches_user exp u user_id row) (relationships d).

Lemma elem_of_matching exp u user_id d j : j ∈ matching exp u user_id d ↔ holds d user_id exp u j.
Proof.
  unfold matching. rewrite list_elem_of_fmap. split.
  - intros ([k row] & -> & Hin). apply elem_of_select_where in Hin as [Hk Hm].
    apply matches_user_spec in Hm as (j & rel & Hrel & E). exists k, row, rel. cbn. rewrite E. done.
  - intros (k & row & rel & Hk & Hrel & E). exists (k, row). cbn. rewrite E. split; [done|].
    apply elem_of_select_where. split; [done|]. apply matches_user_spec. by exists j, rel.
Qed.

(** [lookup_resources] returns distinct ids, at most the (clamped) limit and
    never more than a thousand, each of a resource on which the user holds a
    relation satisfying the action; when no more tuples match than the limit it
    returns all of them, so it agrees with [check] on the leaf type. *)
Theorem lookup_resources_spec n t u e action (req : gset string) user_id limit_ w :
  resolves r n t u → leaves r !! u = Some e → actions e !! action = Some req →
  (∀ q, q ∈ req → is_Some (hierarchy e !! q)) →
  ∃ ids exp, lookup_resources r engine_scopes collate user_id action t limit_ w = (Ret ids, w) ∧
    (∀ x, x ∈ exp ↔ ∃ q ms, q ∈ req ∧ hierarchy e !! q = Some ms ∧ x ∈ ms) ∧
    NoDup ids ∧ Z.of_nat (length ids) <= capped limit_ <= LOOKUP_MAX_LIMIT ∧
    (∀ j, j ∈ ids → holds (w_db w) user_id exp u j) ∧
    (Z.of_nat (length (matching exp u user_id (w_db w))) <= capped limit_ →
     ∀ j, holds (w_db w) user_id exp u j → j ∈ ids).
Proof.
  intros Hr He Ha Hall. unfold lookup_resources, lift_outcome. rewrite run_bind.
  unfold relations_for. rewrite (resolve_leaf_ret r _ _ _ _ Hr He) Ha.
  assert (Hn : nearest_leaf_type r t = Ret u) by (apply nearest_leaf_ret; by exists n).
  rewrite run_bind Hn.
  assert (Hru : resolves r 0 u u) by (constructor; by exists e).
  destruct (expand_relations_spec r 0 u u e req Hru He Hall) as (exp & -> & Hexp).
  rewrite !run_bind. cbn [session_scope engine_scopes].
  rewrite (run_with_session_read _ (λ d, limit (capped limit_) (merge_sort collate (matching exp u user_id d)))); [|done].
  eexists _, exp. split; [reflexivity|]. split; [done|].
  set (l := merge_sort collate (matching exp u user_id (w_db w))).
  assert (Hl : l ≡ₚ matching exp u user_id (w_db w)) by apply merge_sort_Permutation.
  unfold limit. split_and!.
  - apply NoDup_dedup.
  - pose proof (length_dedup [] (take (Z.to_nat (capped limit_)) l)) as Hd.
    rewrite length_take in Hd. unfold capped, LOOKUP_MAX_LIMIT in *. lia.
  - unfold capped, LOOKUP_MAX_LIMIT. lia.
  - intros j. rewrite elem_of_dedup. intros [Hin%subseteq_take _]. rewrite Hl elem_of_matching in Hin. done.
  - intros Hlen j Hj. apply elem_of_dedup. split; [|apply not_elem_of_nil].
    rewrite take_ge; [by rewrite Hl elem_of_matching|]. rewrite Hl. lia.
Qed.
End decisions.

(** ** Writes *)

Section writes.
Context `{Env, !UuidsDistinct}.
Implicit Types (w : World) (d : Db) (t : Relationship).

Definition stored_in (m : gmap uuid RelationshipRow) t : Prop := ∃ k row, m !! k = Some row ∧ rel_tuple row = t.
Definition stored d t : Prop := stored_in (relationships d) t.
Definition version_of d (i : uuid) : option Z := user_authz_version <$> users d !! i.

Lemma same_tuple_spec t k row : same_tuple t k row = true ↔ rel_tuple row = t.
Proof. unfold same_tuple. by rewrite bool_decide_eq_true. Qed.

Lemma select_same_nil t m : select_where (same_tuple t) m = [] ↔ ¬ stored_in m t.
Proof.
  rewrite select_where_nil. split.
  - intros Hn (k & row & Hk & Ht). specialize (Hn k row Hk).
    rewrite (proj2 (same_tuple_spec t k row) Ht) in Hn. done.
  - intros Hn k row Hk. destruct (same_tuple t k row) eqn:E; [|done].
    exfalso. apply Hn. exists k, row. split; [done|]. by apply same_tuple_spec in E.
Qed.

(** One insert: skipped when the tuple is there. *)
Lemma run_write_one t w :
  fresh_from (w_uuids w) (relationships (w_session w)) →
  (stored (w_session w) t ∧ write_one t w = (Ret tt, w)) ∨
  (¬ stored (w_session w) t ∧
   write_one t w = (Ret tt, set_session (set_relationships (<[uuid4_at (w_uuids w) :=
     mkRelationshipRow t (now_at (w_clock w))]>) (w_session w)) (tick (bump_uuids w)))).
Proof.
  intros Hfresh. unfold write_one, limit. rewrite run_bind run_sess. change (Z.to_nat 1) with 1%nat.
  destruct (select_where (same_tuple t) (relationships (w_session w))) as [|[k row] l] eqn:E.
  - right. apply select_same_nil in E. split; [done|].
    rewrite run_bind. cbn [take one_or_none]. rewrite run_ret run_bind run_uuid4 run_bind run_utc_now.
    by rewrite run_add_row; [|apply Hfresh].
  - left. split; [|done]. exists k, row.
    assert (Hin : (k, row) ∈ select_where (same_tuple t) (relationships (w_session w))) by (rewrite E; left).
    by apply elem_of_select_where in Hin as [Hk Ht%same_tuple_spec].
Qed.

Lemma run_write_all ts w :
  fresh_from (w_uuids w) (relationships (w_session w)) → uniq_on rel_tuple (relationships (w_session w)) →
  ∃ w' m', for_each ts write_one w = (Ret tt, w') ∧ w_db w' = w_db w ∧
    w_session w' = set_relationships (λ _, m') (w_session w) ∧ relationships (w_session w) ⊆ m' ∧
    uniq_on rel_tuple m' ∧ (∀ t, stored_in m' t ↔ stored (w_session w) t ∨ t ∈ ts).
Proof.
  revert w. induction ts as [|t ts IH]; intros w Hfresh Huniq.
  - exists w, (relationships (w_session w)). split_and!; try done.
    + by destruct w as [? []].
    + intros t. unfold stored. split; [by left|]. intros [?|Ht]; [done|]. by apply not_elem_of_nil in Ht.
  - cbn [for_each]. rewrite run_bind. destruct (run_write_one t w Hfresh) as [[Hst ->]|[Hst ->]].
    + destruct (IH w) as (w' & m' & -> & Hdb & Hs & Hsub & Hu & Hspec); [done..|].
      exists w', m'. split_and!; try done. intros t'. rewrite Hspec elem_of_cons.
      split; [naive_solver|]. intros [?|[->|?]]; auto.
    + match goal with |- context [for_each ts write_one ?w1] => destruct (IH w1) as (w' & m' & -> & Hdb & Hs & Hsub & Hu & Hspec) end.
      { intros k Hk. cbn in *. rewrite lookup_insert_ne; [apply Hfresh; lia|]. intros E%uuid4_inj. lia. }
      { cbn. apply uniq_on_insert; [|done]. intros j x Hj Hx. exfalso. apply Hst. by exists j, x. }
      exists w', m'. split_and!; try done.
      * etrans; [|exact Hsub]. cbn. apply insert_subseteq, Hfresh. lia.
      * intros t'. rewrite Hspec elem_of_cons. unfold stored, stored_in. cbn. split.
        -- intros [(k & row & Hk & Ht)|?]; [|auto]. apply lookup_insert_Some in Hk as [[_ <-]|[_ Hk]]; [by right; left|].
           left. by exists k, row.
        -- intros [(k & row & Hk & Ht)|[->|?]]; [| |auto].
           ++ left. exists k, row. split; [|done]. rewrite lookup_insert_ne; [done|]. intros <-. by rewrite Hfresh in Hk.
           ++ left. eexists (uuid4_at (w_uuids w)), _. split; [apply lookup_insert_eq|done].
Qed.

(** The bumps: one per user in the list. *)
Lemma run_bump_all l w :
  NoDup l →
  ∃ w' us, for_each l bump_in_session w = (Ret tt, w') ∧ w_db w' = w_db w ∧
    w_session w' = set_users (λ _, us) (w_session w) ∧
    ∀ i, (i ∉ l → us !! i = users (w_session w) !! i) ∧
         (i ∈ l → ∃ now, us !! i = bump_version now <$> users (w_session w) !! i).
Proof.
  revert w. induction l as [|j l IH]; intros w Hnd.
  - exists w, (users (w_session w)). split_and!; try done; [by destruct w as [? []]|].
    intros i. split; [done|]. intros Hi. by apply not_elem_of_nil in Hi.
  - apply NoDup_cons in Hnd as [Hj Hnd]. cbn [for_each]. rewrite run_bind.
    unfold bump_in_session at 1, bump_one, SessionUsers.bump_authz_version. rewrite run_bind run_get_user.
    destruct (users (w_session w) !! j) as [x|] eqn:E.
    + rewrite run_bind run_utc_now run_save_user.
      match goal with |- context [for_each l bump_in_session ?w1] => destruct (IH w1) as (w' & us & -> & Hdb & Hs & Hspec) end; [done|].
      exists w', us. split_and!; try done.
      intros i. destruct (Hspec i) as [Hout Hin]. cbn in Hout, Hin. rewrite not_elem_of_cons elem_of_cons.
      split; [intros [Hne Hi]; by rewrite Hout // lookup_alter_ne|]. intros [->|Hi].
      * exists (now_at (w_clock w)). by rewrite Hout // lookup_alter_eq E.
      * destruct (Hin Hi) as [now Hnow]. exists now. rewrite Hnow lookup_alter_ne //. by intros ->.
    + rewrite run_ret. destruct (IH w) as (w' & us & -> & Hdb & Hs & Hspec); [done|].
      exists w', us. split_and!; try done. intros i. destruct (Hspec i) as [Hout Hin].
      rewrite not_elem_of_cons elem_of_cons. split; [by intros [_ ?]; auto|]. intros [->|Hi]; [|auto].
      exists 0. by rewrite Hout // E.
Qed.

Lemma db_ok_bumped d us :
  db_ok d →
  (∀ i, us !! i = users d !! i ∨ ∃ now, us !! i = bump_version now <$> users d !! i) →
  db_ok (set_users (λ _, us) d).
Proof.
  intros Hok Hus. pose proof Hok as (Huniq & Hver & _). rewrite uniq_on_spec in Huniq.
  assert (Hrow : ∀ i x, us !! i = Some x → ∃ y, users d !! i = Some y ∧ user_email y = user_email x ∧
    user_authz_version y <= user_authz_version x).
  { intros i x Hx. destruct (Hus i) as [E|[now E]]; rewrite E in Hx.
    - exists x. split_and!; [done..|lia].
    - apply fmap_Some in Hx as (y & Hy & ->). exists y. cbn. split_and!; [done..|lia]. }
  apply db_ok_set_users; [done|..].
  - apply uniq_on_spec. intros i j x y Hx Hy E.
    destruct (Hrow i x Hx) as (x' & ? & ? & _), (Hrow j y Hy) as (y' & ? & ? & _).
    eapply Huniq; [done..|congruence].
  - intros i x Hx. destruct (Hrow i x Hx) as (y & Hy & _ & Hle). specialize (Hver i y Hy). cbn in Hver. lia.
  - intros k Hk. destruct (Hus k) as [->|[now ->]]; [done|]. by rewrite fmap_is_Some.
Qed.

Lemma db_ok_relationships d m :
  db_ok d → uniq_on rel_tuple m → db_ok (set_relationships (λ _, m) d).
Proof. intros (?&?&?&?&?&?&?&?&?&?&_) Hm. unfold db_ok. cbn. by split_and!. Qed.

(** Versions after the bumps of a call. *)
Definition bumped (ts : list Relationship) d d' : Prop := ∀ i,
  version_of d' i = (if decide (i ∈ user_subject_ids ts) then (λ v, v + 1) <$> version_of d i else version_of d i).

Lemma run_write_relationships ts w :
  db_ok (w_db w) → fresh_from (w_uuids w) (relationships (w_db w)) → ts ≠ [] →
  ∃ w', write_relationships engine_scopes ts w = (Ret tt, w') ∧ db_ok (w_db w') ∧
    relationships (w_db w) ⊆ relationships (w_db w') ∧
    (∀ t, stored (w_db w') t ↔ stored (w_db w) t ∨ t ∈ ts) ∧
    ((∀ t, t ∈ ts → stored (w_db w) t) → relationships (w_db w') = relationships (w_db w)) ∧
    bumped ts (w_db w) (w_db w').
Proof.
  intros Hok Hfresh Hne. unfold write_relationships. rewrite bool_decide_eq_false_2 //.
  cbn [write_session_scope engine_scopes].
  pose proof Hok as (_&_&_&_&_&_&_&_&_&_&Huniq).
  destruct (run_write_all ts (set_session (w_db w) w)) as (w1 & m' & E1 & Hdb1 & Hs1 & Hsub & Hu & Hspec); [done..|].
  cbn in Hdb1, Hs1, Hsub, Hspec.
  assert (Hok1 : db_ok (w_session w1)) by (rewrite Hs1; by apply db_ok_relationships).
  destruct (run_bump_all (elements (user_subject_ids ts)) w1) as (w2 & us & E2 & Hdb2 & Hs2 & Hus); [apply NoDup_elements|].
  assert (Hok2 : db_ok (w_session w2)).
  { rewrite Hs2. apply db_ok_bumped; [done|]. intros i. destruct (Hus i) as [Hout Hin].
    destruct (decide (i ∈ elements (user_subject_ids ts))); [right|left]; auto. }
  erewrite run_write_scope.
  2: { rewrite run_bind E1 run_bind run_flush //. }
  2: exact Hok2.
  eexists. split; [done|]. cbn -[db_ok]. rewrite Hs2 Hs1. cbn -[db_ok].
  split_and!.
  - by rewrite Hs2 Hs1 in Hok2.
  - done.
  - intros t. rewrite -Hspec. done.
  - intros Hall. apply map_eq. intros k. destruct (relationships (w_db w) !! k) as [row|] eqn:Hk.
    + by apply lookup_weaken with (m2 := m') in Hk.
    + destruct (m' !! k) as [row|] eqn:Hk'; [|done]. exfalso.
      assert (Hst : stored (w_db w) (rel_tuple row)).
      { assert (Hst : stored_in m' (rel_tuple row)) by by exists k, row. apply Hspec in Hst as [?|?]; auto. }
      destruct Hst as (k0 & row0 & Hk0 & Hr0). rewrite uniq_on_spec in Hu.
      assert (k0 = k) as ->; [|by rewrite Hk in Hk0].
      eapply Hu; [by eapply lookup_weaken|done|done].
  - intros i. unfold version_of. cbn. destruct (Hus i) as [Hout Hin]. rewrite elem_of_elements Hs1 /= in Hin.
    rewrite elem_of_elements Hs1 /= in Hout. case_decide as Hi.
    + destruct (Hin Hi) as [now ->]. by destruct (users (w_db w) !! i).
    + by rewrite Hout.
Qed.

(** Writing a batch of tuples makes exactly those tuples true in addition to
    the stored ones, keeps every stored row, is idempotent (a repeated tuple adds
    no row), and increments the authorization version of each distinct existing
    user among the subjects by exactly one, all in one transaction. *)
Theorem write_relationships_spec ts w :
  db_ok (w_db w) → fresh_from (w_uuids w) (relationships (w_db w)) → ts ≠ [] →
  ∃ w', write_relationships engine_scopes ts w = (Ret tt, w') ∧ db_ok (w_db w') ∧
    relationships (w_db w) ⊆ relationships (w_db w') ∧
    (∀ t, stored (w_db w') t ↔ stored (w_db w) t ∨ t ∈ ts) ∧
    ((∀ t, t ∈ ts → stored (w_db w) t) → relationships (w_db w') = relationships (w_db w)) ∧
    bumped ts (w_db w) (w_db w').
Proof. apply run_write_relationships. Qed.

Lemma run_delete_all ts w :
  ∃ w' m', for_each ts (λ t, stage (set_relationships (delete_where (same_tuple t)))) w = (Ret tt, w') ∧
    w_db w' = w_db w ∧ w_session w' = set_relationships (λ _, m') (w_session w) ∧
    ∀ k row, m' !! k = Some row ↔ relationships (w_session w) !! k = Some row ∧ rel_tuple row ∉ ts.
Proof.
  revert w. induction ts as [|t ts IH]; intros w.
  - exists w, (relationships (w_session w)). split_and!; try done; [by destruct w as [? []]|].
    intros k row. split; [|by intros [? _]]. intros Hk. split; [done|apply not_elem_of_nil].
  - cbn [for_each]. rewrite run_bind run_stage.
    match goal with |- context [for_each ts _ ?w1] => destruct (IH w1) as (w' & m' & -> & Hdb & Hs & Hspec) end.
    exists w', m'. split_and!; try done. intros k row. rewrite Hspec. cbn. rewrite lookup_delete_where not_elem_of_cons.
    destruct (relationships (w_session w) !! k) as [x|]; cbn; [|naive_solver].
    destruct (same_tuple t k x) eqn:E.
    + apply same_tuple_spec in E. naive_solver.
    + assert (rel_tuple x ≠ t) by (rewrite -(same_tuple_spec t k x); congruence). naive_solver.
Qed.

Lemma run_delete_relationships ts w :
  db_ok (w_db w) → ts ≠ [] →
  ∃ w', delete_relationships engine_scopes ts w = (Ret tt, w') ∧ db_ok (w_db w') ∧
    (∀ k row, relationships (w_db w') !! k = Some row ↔ relationships (w_db w) !! k = Some row ∧ rel_tuple row ∉ ts) ∧
    (∀ t, stored (w_db w') t ↔ stored (w_db w) t ∧ t ∉ ts) ∧
    bumped ts (w_db w) (w_db w').
Proof.
  intros Hok Hne. unfold delete_relationships. rewrite bool_decide_eq_false_2 //.
  cbn [write_session_scope engine_scopes].
  destruct (run_delete_all ts (set_session (w_db w) w)) as (w1 & m' & E1 & Hdb1 & Hs1 & Hspec).
  cbn in Hdb1, Hs1, Hspec.
  assert (Hok1 : db_ok (w_session w1)).
  { rewrite Hs1. apply db_ok_relationships; [done|]. pose proof Hok as (_&_&_&_&_&_&_&_&_&_&Huniq).
    rewrite !uniq_on_spec in Huniq |- *. intros i j x y [Hx _]%Hspec [Hy _]%Hspec. eauto. }
  destruct (run_bump_all (elements (user_subject_ids ts)) w1) as (w2 & us & E2 & Hdb2 & Hs2 & Hus); [apply NoDup_elements|].
  assert (Hok2 : db_ok (w_session w2)).
  { rewrite Hs2. apply db_ok_bumped; [done|]. intros i. destruct (Hus i) as [Hout Hin].
    destruct (decide (i ∈ elements (user_subject_ids ts))); [right|left]; auto. }
  erewrite run_write_scope.
  2: { rewrite run_bind E1 //. }
  2: exact Hok2.
  eexists. split; [done|]. cbn -[db_ok]. rewrite Hs2 Hs1. cbn -[db_ok]. split_and!.
  - by rewrite Hs2 Hs1 in Hok2.
  - exact Hspec.
  - intros t. unfold stored, stored_in. cbn. setoid_rewrite Hspec. split.
    + intros (k & row & [Hk Hn] & <-). split; [by exists k, row|done].
    + intros [(k & row & Hk & <-) Hn]. by exists k, row.
  - intros i. unfold version_of. cbn. destruct (Hus i) as [Hout Hin]. rewrite elem_of_elements Hs1 /= in Hin.
    rewrite elem_of_elements Hs1 /= in Hout. case_decide as Hi.
    + destruct (Hin Hi) as [now ->]. by destruct (users (w_db w) !! i).
    + by rewrite Hout.
Qed.

(** The system type: a check is a lookup of the admin tuple. *)
Definition is_admin (i : uuid) (d : Db) : bool := relation_found "system" "main" {[ "admin" ]} i d.

Lemma run_check_system_action action fuel i w :
  relations_for system_registry "system" action = Ret ({[ "admin" ]} : gset string) →
  check system_registry engine_scopes fuel i action "system" "main" w = (Ret (Some (is_admin i (w_db w))), w).
Proof.
  intros Haction. unfold check, lift_outcome. rewrite run_bind Haction.
  replace (walk_parents system_registry fuel "system" "main") with (Some (Some ("system", "main"))) by by destruct fuel.
  rewrite run_bind. change (expand_relations system_registry "system" {[ "admin" ]}) with (Ret ({[ "admin" ]} : gset string)).
  cbn [session_scope engine_scopes]. rewrite ?run_bind.
  by rewrite (run_with_session_read _ (is_admin i)); [|apply run_exists_relation].
Qed.

Lemma run_check_system fuel i w :
  check system_registry engine_scopes fuel i "manage_users" "system" "main" w = (Ret (Some (is_admin i (w_db w))), w).
Proof. by apply run_check_system_action. Qed.

Lemma is_admin_spec i d : is_admin i d = true ↔ stored d (BootstrapSystemAdmin.admin_tuple i).
Proof.
  unfold is_admin. rewrite exists_relation_spec. unfold holds, stored, stored_in. split.
  - intros (k & row & rel & Hk & ->%elem_of_singleton & E). by exists k, row.
  - intros (k & row & Hk & E). exists k, row, "admin". split_and!; [done|set_solver|done].
Qed.

(** Granting the administrator relation makes the very next check of that
    user positive and bumps the user's version; revoking it makes the check
    negative, bumps the version again, and leaves every other user's
    administrator status alone. *)
Theorem grant_revoke_roundtrip i fuel w :
  db_ok (w_db w) → fresh_from (w_uuids w) (relationships (w_db w)) → uuid_ok i →
  let t := BootstrapSystemAdmin.admin_tuple i in
  ∃ w1 w2,
    write_relationships engine_scopes [t] w = (Ret tt, w1) ∧
    check system_registry engine_scopes fuel i "manage_users" "system" "main" w1 = (Ret (Some true), w1) ∧
    version_of (w_db w1) i = (λ v, v + 1) <$> version_of (w_db w) i ∧
    delete_relationships engine_scopes [t] w1 = (Ret tt, w2) ∧
    check system_registry engine_scopes fuel i "manage_users" "system" "main" w2 = (Ret (Some false), w2) ∧
    version_of (w_db w2) i = (λ v, v + 2) <$> version_of (w_db w) i ∧
    ∀ j, j ≠ i → uuid_ok j → is_admin j (w_db w2) = is_admin j (w_db w).
Proof.
  intros Hok Hfresh Hi t.
  destruct (run_write_relationships [t] w) as (w1 & E1 & Hok1 & _ & Hst1 & _ & Hb1); [done..|].
  destruct (run_delete_relationships [t] w1) as (w2 & E2 & Hok2 & _ & Hst2 & Hb2); [done..|].
  assert (Hids : i ∈ user_subject_ids [t]) by (cbn; rewrite uuid_parse_str //; set_solver).
  exists w1, w2. rewrite !run_check_system. split_and!; [done|..|].
  - do 3 f_equal. apply is_admin_spec, Hst1. right. left.
  - specialize (Hb1 i). by rewrite decide_True in Hb1.
  - done.
  - do 3 f_equal. apply not_true_iff_false. rewrite is_admin_spec Hst2. intros [_ Hn]. apply Hn. left.
  - specialize (Hb1 i). specialize (Hb2 i). rewrite !decide_True // in Hb1, Hb2. rewrite Hb2 Hb1.
    destruct (version_of (w_db w) i); cbn; [|done]. f_equal. lia.
  - intros j Hne Hj. apply eq_true_iff_eq. rewrite !is_admin_spec Hst2 Hst1 list_elem_of_singleton.
    assert (Htt : BootstrapSystemAdmin.admin_tuple j ≠ t).
    { intros E. apply Hne, uuid_str_inj; [done..|]. exact (f_equal subject_id E). }
    tauto.
Qed.
End writes.

(** *** Concrete instances *)

Section demo_authz.
Definition demo_board : AuthorizationRegistry :=
  state_of (register_resource_type "board"
              {[ "read" := {[ "reader" ]} ]}
              {[ "reader" := {[ "reader"; "owner" ]}; "owner" := {[ "owner" ]} ]} ;;
            register_parent "card" (λ i, if String.eqb i "c1" then Some ("board", "b1") else None) "board")
    empty_registry.

Definition demo_grant : Relationship := mkRelationship "board" "b1" "owner" "user" (uuid_str 7%N).
Definition demo_granted : World := state_of (write_relationships engine_scopes [demo_grant]) init_world.

Definition demo_leaf : LeafEntry :=
  mkLeafEntry {[ "read" := {[ "reader" ]} ]} {[ "reader" := {[ "reader"; "owner" ]}; "owner" := {[ "owner" ]} ]}.

Lemma demo_conforming : conforming demo_board.
Proof.
  intros t e i p Ht Hp.
  assert (Hall : parents demo_board = {[ "card" := mkParentEntry (λ i, if String.eqb i "c1" then Some ("board", "b1") else None) "board" ]})
    by (vm_compute; reflexivity).
  rewrite Hall in Ht. apply lookup_singleton_Some in Ht as [_ <-]. cbn in *.
  destruct (String.eqb i "c1"); [|discriminate]. by injection Hp as <-.
Defined.

Lemma demo_card_resolves : resolves demo_board 1 "card" "board".
Proof.
  eapply resolves_parent; [vm_compute; reflexivity..|]. apply resolves_leaf. vm_compute. by eexists.
Defined.

Lemma demo_reader_ok (q : string) :
  q ∈ ({[ "reader" ]} : gset string) → is_Some (hierarchy demo_leaf !! q).
Proof. intros ->%elem_of_singleton. vm_compute. by eexists. Defined.

Lemma check_decides_witness :
  ∃ b, check demo_board engine_scopes 1 7%N "read" "card" "c1" demo_granted = (Ret (Some b), demo_granted) ∧ b = true.
Proof.
  destruct (check_decides demo_board 1 "card" "board" demo_leaf "read" {[ "reader" ]} 7%N "c1" 1 demo_granted)
    as (b & E & Hb); [exact demo_conforming|exact demo_card_resolves|vm_compute; reflexivity..|exact demo_reader_ok|lia|].
  exists b. split; [exact E|]. revert E. vm_compute. congruence.
Defined.

Lemma lookup_resources_spec_witness :
  ∃ ids, lookup_resources demo_board engine_scopes (λ a b, True) 7%N "read" "card" 10 demo_granted = (Ret ids, demo_granted) ∧
    NoDup ids.
Proof.
  destruct (lookup_resources_spec demo_board (λ a b, True) 1 "card" "board" demo_leaf "read" {[ "reader" ]} 7%N 10 demo_granted)
    as (ids & exp & E & _ & Hnd & _); [exact demo_card_resolves|vm_compute; reflexivity..|exact demo_reader_ok|].
  exists ids. split; [exact E|exact Hnd].
Defined.

Lemma write_relationships_spec_witness :
  ∃ w', write_relationships engine_scopes [demo_grant; demo_grant] demo_users = (Ret tt, w') ∧
    relationships (w_db demo_users) ⊆ relationships (w_db w').
Proof.
  destruct (write_relationships_spec [demo_grant; demo_grant] demo_users) as (w' & E & _ & Hsub & _);
    [by_eval|apply demo_fresh; by_eval|discriminate|].
  exists w'. split; [exact E|exact Hsub].
Defined.

Lemma grant_revoke_roundtrip_witness :
  ∃ w1 w2, write_relationships engine_scopes [BootstrapSystemAdmin.admin_tuple 1000%N] demo_users = (Ret tt, w1) ∧
    check system_registry engine_scopes 0 1000%N "manage_users" "system" "main" w1 = (Ret (Some true), w1) ∧
    delete_relationships engine_scopes [BootstrapSystemAdmin.admin_tuple 1000%N] w1 = (Ret tt, w2) ∧
    version_of (w_db w2) 1000%N = Some 3.
Proof.
  destruct (grant_revoke_roundtrip 1000%N 0 demo_users) as (w1 & w2 & E1 & Hc & _ & E2 & _ & Hv & _);
    [by_eval|apply demo_fresh; by_eval|vm_compute; reflexivity|].
  exists w1, w2. split; [exact E1|]. split; [exact Hc|]. split; [exact E2|].
  rewrite Hv. vm_compute. reflexivity.
Defined.
End demo_authz.
