(* ===== verification/AuthRepo.v ===== *)
(** Persistence of the authentication feature
    ([features/authentication/adapters/outbound/persistence/sqlmodel]): refresh
    tokens, single-use internal tokens, credentials and the audit log, through
    the session-bound transaction objects and the engine-owning repository.  An
    entity ([domain/models.py]) is a row with its id. *)

From S2P Require Import Prelude PyStr Uuid Store StoreFacts Outbox Users.
Open Scope string_scope.
Open Scope Z_scope.

Definition RefreshToken : Type := uuid * RefreshRow.
Definition InternalToken : Type := uuid * InternalRow.
Definition Credential : Type := uuid * CredentialRow.
Definition AuditEvent : Type := uuid * AuditRow.

(** ** Assignments to a row *)

(** [token.revoked_at = token.revoked_at or now]. *)
Definition set_revoked (now : time) (r : RefreshRow) : RefreshRow :=
  mkRefreshRow (rt_user_id r) (rt_token_hash r) (rt_family_id r) (rt_expires_at r)
    (match rt_revoked_at r with Some t => Some t | None => Some now end)
    (rt_replaced_by r) (rt_created_at r) (rt_created_ip r) (rt_user_agent r).
Definition set_replaced_by (k : option uuid) (r : RefreshRow) : RefreshRow :=
  mkRefreshRow (rt_user_id r) (rt_token_hash r) (rt_family_id r) (rt_expires_at r)
    (rt_revoked_at r) k (rt_created_at r) (rt_created_ip r) (rt_user_agent r).
(** [token.used_at = token.used_at or now]. *)
Definition set_used (now : time) (r : InternalRow) : InternalRow :=
  mkInternalRow (it_user_id r) (it_purpose r) (it_token_hash r) (it_expires_at r)
    (match it_used_at r with Some t => Some t | None => Some now end)
    (it_created_at r) (it_created_ip r).
Definition set_hash (hash : string) (now : time) (r : CredentialRow) : CredentialRow :=
  mkCredentialRow (cred_user_id r) (cred_algorithm r) hash now (cred_created_at r).

(** ** Queries *)

Definition by_token_hash (h : string) (_ : uuid) (r : RefreshRow) : bool := String.eqb (rt_token_hash r) h.
Definition in_family (f : uuid) (_ : uuid) (r : RefreshRow) : bool := bool_decide (rt_family_id r = f).
Definition live_of_user (u : uuid) (_ : uuid) (r : RefreshRow) : bool :=
  bool_decide (rt_user_id r = u) && bool_decide (rt_revoked_at r = None).
Definition by_internal (h purpose : string) (_ : uuid) (r : InternalRow) : bool :=
  String.eqb (it_token_hash r) h && String.eqb (it_purpose r) purpose.
Definition unused_of_user (u : uuid) (purpose : string) (_ : uuid) (r : InternalRow) : bool :=
  bool_decide (it_user_id r = Some u) && String.eqb (it_purpose r) purpose && bool_decide (it_used_at r = None).
Definition by_credential (u : uuid) (algorithm : string) (_ : uuid) (r : CredentialRow) : bool :=
  bool_decide (cred_user_id r = u) && String.eqb (cred_algorithm r) algorithm.

Section statements.
Context `{Env}.

(** The statements that several transaction objects and the repository share. *)

Definition find_refresh (token_hash : string) : IO (option RefreshToken) :=
  rows ← sess (λ d, select_where (by_token_hash token_hash) (refresh_tokens d));
  one_or_none rows.

Definition insert_refresh (user_id : uuid) (token_hash : string) (family_id : uuid) (expires_at : time)
    (created_ip user_agent : option string) : IO RefreshToken :=
  rows ← sess (λ d, limit 1 ((rt_user_id ∘ snd) <$> select_where (in_family family_id) (refresh_tokens d)));
  existing_user_id ← one_or_none rows;
  if bool_decide (is_Some existing_user_id ∧ existing_user_id ≠ Some user_id)
  then raise (ValueError "refresh token family belongs to a different user")
  else
    id ← uuid4;
    created_at ← utc_now;
    let row := mkRefreshRow user_id token_hash family_id expires_at None None created_at created_ip user_agent in
    add_row refresh_tokens set_refresh_tokens id row ;;
    flush ;;
    mret (id, row).

Definition revoke_one (token_id : uuid) (replaced_by_token_id : option uuid) : IO unit :=
  token ← sess (λ d, refresh_tokens d !! token_id);
  match token with
  | None => mret tt
  | Some r =>
      now ← match rt_revoked_at r with Some t => mret t | None => utc_now end;
      stage (set_refresh_tokens (alter (set_replaced_by replaced_by_token_id ∘ set_revoked now) token_id))
  end.

Definition revoke_family (family_id : uuid) : IO unit :=
  now ← utc_now;
  stage (set_refresh_tokens (update_where (in_family family_id) (set_revoked now))).

Definition revoke_user_tokens (user_id : uuid) : IO unit :=
  now ← utc_now;
  stage (set_refresh_tokens (update_where (live_of_user user_id) (set_revoked now))).

Definition find_internal (token_hash purpose : string) : IO (option InternalToken) :=
  rows ← sess (λ d, select_where (by_internal token_hash purpose) (internal_tokens d));
  one_or_none rows.

Definition mark_used (token_id : uuid) : IO unit :=
  token ← sess (λ d, internal_tokens d !! token_id);
  match token with
  | None => mret tt
  | Some r =>
      now ← match it_used_at r with Some t => mret t | None => utc_now end;
      stage (set_internal_tokens (alter (set_used now) token_id))
  end.

Definition insert_internal (user_id : option uuid) (purpose token_hash : string) (expires_at : time)
    (created_ip : option string) : IO InternalToken :=
  id ← uuid4;
  created_at ← utc_now;
  let row := mkInternalRow user_id purpose token_hash expires_at None created_at created_ip in
  add_row internal_tokens set_internal_tokens id row ;;
  flush ;;
  mret (id, row).

Definition find_credential (user_id : uuid) (algorithm : string) : IO (option Credential) :=
  rows ← sess (λ d, select_where (by_credential user_id algorithm) (credentials d));
  one_or_none rows.

Definition put_credential (user_id : uuid) (algorithm hash : string) : IO Credential :=
  row ← find_credential user_id algorithm;
  now ← utc_now;
  match row with
  | None =>
      id ← uuid4;
      let row := mkCredentialRow user_id algorithm hash now now in
      add_row credentials set_credentials id row ;;
      flush ;;
      mret (id, row)
  | Some (id, r) =>
      stage (set_credentials (alter (set_hash hash now) id)) ;;
      flush ;;
      mret (id, set_hash hash now r)
  end.

(** [metadata or {}]: an absent mapping is stored as an empty one. *)
Definition add_audit (event_type : string) (user_id : option uuid) (ip_address user_agent : option string)
    (metadata : payload) : IO unit :=
  id ← uuid4;
  created_at ← utc_now;
  add_row audit_events set_audit_events id
    (mkAuditRow user_id event_type ip_address user_agent metadata created_at).
End statements.

(** ** Transaction objects: every statement is staged on the bound session *)

Module RefreshTokenTx.
Definition get_refresh_token_for_update `{Env} : string → IO (option RefreshToken) := find_refresh.
Definition create_refresh_token `{Env} := insert_refresh.
Definition revoke_refresh_token `{Env} := revoke_one.
Definition revoke_refresh_family `{Env} := revoke_family.
Definition record_audit_event `{Env} := add_audit.
End RefreshTokenTx.

Module InternalTokenTx.
Definition get_internal_token_for_update `{Env} : string → string → IO (option InternalToken) := find_internal.
Definition mark_internal_token_used `{Env} := mark_used.
Definition revoke_user_refresh_tokens `{Env} := revoke_user_tokens.
Definition upsert_credential `{Env} := put_credential.
(** The user rows are reached through the session-bound users repository. *)
Definition mark_user_verified `{Env} : uuid → IO unit := SessionUsers.mark_verified.
Definition bump_user_authz_version `{Env} : uuid → IO unit := SessionUsers.bump_authz_version.
Definition record_audit_event `{Env} := add_audit.
End InternalTokenTx.

Module RegisterUserTx.
Definition create_user `{Env} : string → IO (Result User UserError) := SessionUsers.create.
Definition upsert_credential `{Env} := put_credential.
Definition record_audit_event `{Env} := add_audit.
End RegisterUserTx.

Module IssueTokenTx.
Definition create_internal_token `{Env} := insert_internal.
Definition invalidate_unused_tokens_for `{Env} (user_id : uuid) (purpose : string) : IO Z :=
  now ← utc_now;
  rows ← sess (λ d, select_where (unused_of_user user_id purpose) (internal_tokens d));
  stage (set_internal_tokens (update_where (unused_of_user user_id purpose) (set_used now))) ;;
  mret (Z.of_nat (length rows)).
Definition record_audit_event `{Env} := add_audit.
(** [tx.outbox.enqueue]. *)
Definition outbox_enqueue `{Env} := SessionSQLModelOutboxAdapter.enqueue.
End IssueTokenTx.

(** ** [SQLModelAuthRepository] *)

Module AuthRepository.
Section repository.
Context `{Env}.

(** The four transaction scopes commit on a normal exit, an early [return] in
    the body included, and roll back on an exception. *)
Definition refresh_token_transaction {A} (body : IO A) : IO A := write_scope body.
Definition internal_token_transaction {A} (body : IO A) : IO A := write_scope body.
Definition register_user_transaction {A} (body : IO A) : IO A := write_scope body.
Definition issue_internal_token_transaction {A} (body : IO A) : IO A :=
  SQLModelOutboxUnitOfWork.transaction body.

Definition create_refresh_token (user_id : uuid) (token_hash : string) (family_id : uuid) (expires_at : time)
    (created_ip user_agent : option string) : IO RefreshToken :=
  write_scope (insert_refresh user_id token_hash family_id expires_at created_ip user_agent).
Definition get_refresh_token_by_hash (token_hash : string) : IO (option RefreshToken) :=
  with_session (find_refresh token_hash).
Definition revoke_refresh_token (token_id : uuid) (replaced_by : option uuid) : IO unit :=
  write_scope (revoke_one token_id replaced_by).
Definition revoke_refresh_family (family_id : uuid) : IO unit := write_scope (revoke_family family_id).
Definition revoke_user_refresh_tokens (user_id : uuid) : IO unit := write_scope (revoke_user_tokens user_id).
Definition create_internal_token (user_id : option uuid) (purpose token_hash : string) (expires_at : time)
    (created_ip : option string) : IO InternalToken :=
  write_scope (insert_internal user_id purpose token_hash expires_at created_ip).
Definition get_internal_token (token_hash purpose : string) : IO (option InternalToken) :=
  with_session (find_internal token_hash purpose).
Definition mark_internal_token_used (token_id : uuid) : IO unit := write_scope (mark_used token_id).
Definition record_audit_event (event_type : string) (user_id : option uuid) (ip user_agent : option string)
    (metadata : payload) : IO unit :=
  write_scope (add_audit event_type user_id ip user_agent metadata).
Definition get_credential_for_user (user_id : uuid) : IO (option Credential) :=
  with_session (find_credential user_id "argon2").
Definition upsert_credential (user_id : uuid) (algorithm hash : string) : IO Credential :=
  write_scope (put_credential user_id algorithm hash).

(** *** Retention *)

Definition PURGE_BATCH : Z := 10000.

Definition refresh_expired (cutoff : time) (_ : uuid) (r : RefreshRow) : bool :=
  (rt_expires_at r <? cutoff) || match rt_revoked_at r with Some t => t <? cutoff | None => false end.
Definition internal_expired (cutoff : time) (_ : uuid) (r : InternalRow) : bool :=
  match it_used_at r with Some t => t <? cutoff | None => false end || (it_expires_at r <? cutoff).

Definition chosen {R} (l : list (uuid * R)) (i : uuid) (_ : R) : bool := bool_decide (i ∈ l.*1).

(** One batch in its own transaction; its row count. *)
Definition delete_refresh_batch (cutoff : time) : IO Z :=
  write_scope (
    rows ← sess (λ d, limit PURGE_BATCH (select_where (refresh_expired cutoff) (refresh_tokens d)));
    stage (set_refresh_tokens (delete_refresh_where (chosen rows))) ;;
    mret (Z.of_nat (length rows))).
Definition delete_internal_batch (cutoff : time) : IO Z :=
  write_scope (
    rows ← sess (λ d, limit PURGE_BATCH (select_where (internal_expired cutoff) (internal_tokens d)));
    stage (set_internal_tokens (delete_where (chosen rows))) ;;
    mret (Z.of_nat (length rows))).

(** [while True]; [None]: not ended within [fuel] batches. *)
Fixpoint delete_loop (batch : IO Z) (fuel : nat) (total : Z) : IO (option Z) :=
  match fuel with
  | O => mret None
  | S fuel =>
      deleted ← batch;
      if deleted <=? 0 then mret (Some total) else delete_loop batch fuel (total + deleted)
  end.
Definition delete_expired_refresh_tokens (fuel : nat) (cutoff : time) : IO (option Z) :=
  delete_loop (delete_refresh_batch cutoff) fuel 0.
Definition delete_expired_internal_tokens (fuel : nat) (cutoff : time) : IO (option Z) :=
  delete_loop (delete_internal_batch cutoff) fuel 0.

(** *** Audit log *)

Definition audit_key (ir : uuid * AuditRow) : time * uuid := (ae_created_at ir.2, ir.1).
Definition audit_matches (user_id : option uuid) (event_type : option string) (since : option time)
    (before : option (time * uuid)) (i : uuid) (r : AuditRow) : bool :=
  match user_id with Some u => bool_decide (ae_user_id r = Some u) | None => true end &&
  match event_type with Some t => String.eqb (ae_event_type r) t | None => true end &&
  match since with Some t => t <=? ae_created_at r | None => true end &&
  match before with Some c => bool_decide (key_lt (audit_key (i, r)) c) | None => true end.

(** Newest first. *)
Definition list_audit_events (user_id : option uuid) (event_type : option string) (since : option time)
    (before : option (time * uuid)) (limit_ : Z) : IO (list AuditEvent) :=
  with_session (sess (λ d, limit limit_ (reverse (order_by audit_key
    (select_where (audit_matches user_id event_type since before) (audit_events d)))))).
End repository.
End AuthRepository.
