(* ===== verification/Principals.v ===== *)
(** Access tokens and the principal cache of the authentication feature
    ([application/jwt_tokens.py], [application/cache.py],
    [application/use_cases/auth/resolve_principal.py]).  PyJWT and the TTL cache
    of cachetools are parameters with their documented behaviour as laws. *)

From S2P Require Import Prelude PyStr Uuid Store StoreFacts Users.
Open Scope string_scope.
Open Scope Z_scope.

(** [application/errors.py]. *)
Inductive AuthError :=
  | DuplicateEmailError
  | InvalidCredentialsError
  | InvalidTokenError
  | StaleTokenError
  | InactiveUserError
  | EmailNotVerifiedError
  | PermissionDeniedError
  | TokenAlreadyUsedError
  | NotFoundError (message : string)
  | ConflictError (message : string)
  | AuthConfigurationError (message : string)
  | RateLimitExceededError (retry_after_seconds : Z)
  | OtherAuthError (message : string).

(** [app_platform/shared/principal.py]. *)
Record Principal := mkPrincipal {
  p_user_id : uuid;
  p_email : string;
  p_is_active : bool;
  p_is_verified : bool;
  p_authz_version : Z;
}.
Global Instance Principal_eq_dec : EqDecision Principal.
Proof. solve_decision. Defined.

(** [_principal_from_user]. *)
Definition principal_from_user (u : User) : Principal :=
  mkPrincipal (u_id u) (u_email u) (u_is_active u) (u_is_verified u) (u_authz_version u).

(** The settings the feature reads ([app_platform/config/settings.py]). *)
Record AuthSettings := mkAuthSettings {
  auth_jwt_algorithm : string;
  auth_jwt_secret_key : option string;
  auth_jwt_issuer : option string;
  auth_jwt_audience : option string;
  auth_jwt_leeway_seconds : Z;
  auth_access_token_expire_minutes : Z;
  auth_refresh_token_expire_days : Z;
  auth_password_reset_token_expire_minutes : Z;
  auth_email_verify_token_expire_minutes : Z;
  auth_require_email_verification : bool;
  auth_return_internal_tokens : bool;
  app_display_name : string;
  app_public_url : string;
}.

(** ** JSON Web Tokens *)

(** The claims the service writes and reads; instants in microseconds. *)
Record Claims := mkClaims {
  c_sub : string;
  c_exp : time;
  c_iat : time;
  c_nbf : time;
  c_jti : string;
  c_authz_version : Z;
  c_iss : option string;
  c_aud : option string;
}.

(** The wire format counts whole seconds. *)
Definition whole_seconds (t : time) : time := t / second * second.
Definition on_the_wire (c : Claims) : Claims :=
  mkClaims (c_sub c) (whole_seconds (c_exp c)) (whole_seconds (c_iat c)) (whole_seconds (c_nbf c))
    (c_jti c) (c_authz_version c) (c_iss c) (c_aud c).

(** What [jwt.decode] is asked to verify. *)
Record JwtCheck := mkJwtCheck {
  jc_now : time;
  jc_leeway : time;
  jc_issuer : option string;
  jc_audience : option string;  (* [None]: [verify_aud] is off *)
}.

(** The registered-claim checks PyJWT documents: [exp], [nbf] and [iat] with the
    leeway, the issuer when one is asked for, the audience likewise. *)
Definition claims_valid (k : JwtCheck) (c : Claims) : Prop :=
  jc_now k - jc_leeway k < c_exp c ∧
  c_nbf c <= jc_now k + jc_leeway k ∧
  c_iat c <= jc_now k + jc_leeway k ∧
  (∀ i, jc_issuer k = Some i → c_iss c = Some i) ∧
  (∀ a, jc_audience k = Some a → c_aud c = Some a).

(** PyJWT: [jwt.encode(claims, key, algorithm)] and
    [jwt.decode(token, key, [algorithm], ...)], [None] for a [PyJWTError]. *)
Class Jwt := {
  jwt_encode : Claims → string → string → string;
  jwt_decode : string → string → string → JwtCheck → option Claims;
}.
(** What one key signs it verifies, when the algorithm is symmetric (an [RS256] pair
    signs with one key and verifies with the other). *)
Definition hmac_algorithms : list string := ["HS256"; "HS384"; "HS512"].
Class JwtLaws `{Jwt} : Prop := {
  decode_encode_jwt c key alg k c' : alg ∈ hmac_algorithms →
    jwt_decode (jwt_encode c key alg) key alg k = Some c' ↔ c' = on_the_wire c ∧ claims_valid k c';
}.

(** [application/types.py:AccessTokenPayload]. *)
Record AccessTokenPayload := mkPayload {
  at_subject : uuid;
  at_authz_version : Z;
  at_expires_at : time;
  at_token_id : string;
}.

Definition JWT_ALGORITHM_WHITELIST : list string := ["HS256"; "RS256"].

Definition minutes (n : Z) : time := n * (60 * second).

Module AccessTokenService.
Section service.
Context `{Env} `{Jwt} (cfg : AuthSettings).

(** [__init__]: the algorithm is checked again. *)
Definition init {S} : M S unit :=
  if bool_decide (auth_jwt_algorithm cfg ∈ JWT_ALGORITHM_WHITELIST) then mret tt
  else raise (ValueError "APP_AUTH_JWT_ALGORITHM").

Definition secret {S} : M S string :=
  match auth_jwt_secret_key cfg with
  | Some "" | None => raise (ConfigurationError "AUTH_JWT_SECRET_KEY is required")
  | Some s => mret s
  end.

(** A setting that is absent or empty is not used. *)
Definition configured (s : option string) : option string :=
  match s with Some "" => None | _ => s end.

Definition issue (subject : uuid) (authz_version : Z) : IO (string * Z) :=
  now ← utc_now;
  expires_delta ← timedelta (minutes (auth_access_token_expire_minutes cfg));
  expires_at ← datetime_add now expires_delta;
  token_id ← uuid4;
  key ← secret;
  let claims := mkClaims (uuid_str subject) expires_at now now (uuid_str token_id) authz_version
                  (configured (auth_jwt_issuer cfg)) (configured (auth_jwt_audience cfg)) in
  mret (jwt_encode claims key (auth_jwt_algorithm cfg), expires_delta / second).

(** PyJWT reads the clock; a claim that does not parse is an invalid token. *)
Definition decode (token : string) : IO (Result AccessTokenPayload AuthError) :=
  key ← secret;
  now ← utc_now;
  mret (match jwt_decode token key (auth_jwt_algorithm cfg)
                (mkJwtCheck now (auth_jwt_leeway_seconds cfg * second)
                   (configured (auth_jwt_issuer cfg)) (configured (auth_jwt_audience cfg))) with
        | None => Err InvalidTokenError
        | Some c =>
            match uuid_parse (c_sub c) with
            | None => Err InvalidTokenError
            | Some subject =>
                if datetime_ok (c_exp c)
                then Ok (mkPayload subject (c_authz_version c) (c_exp c) (c_jti c))
                else Err InvalidTokenError
            end
        end).
End service.
End AccessTokenService.

(** ** The principal cache *)

(** [PrincipalCachePort]: what a cache promises to its clients.  [entries] are
    the principals that may still be served; any of them may be forgotten at any
    time, because entries expire and are evicted. *)
Class PrincipalCachePort (C : Type) := {
  cache_ok : C → Prop;
  entries : C → gmap string Principal;
  cache_get : string → M C (option Principal);
  cache_set : string → Principal → M C unit;
  cache_pop : string → M C unit;
  invalidate_user : uuid → M C unit;
  cache_get_spec k c : cache_ok c →
    ∃ o c', cache_get k c = (Ret o, c') ∧ cache_ok c' ∧ entries c' ⊆ entries c ∧
      (∀ p, o = Some p → entries c !! k = Some p);
  cache_set_spec k p c : cache_ok c → uuid_ok (p_user_id p) →
    ∃ c', cache_set k p c = (Ret tt, c') ∧ cache_ok c' ∧ entries c' ⊆ <[k := p]> (entries c);
  cache_pop_spec k c : cache_ok c →
    ∃ c', cache_pop k c = (Ret tt, c') ∧ cache_ok c' ∧ entries c' ⊆ delete k (entries c);
  invalidate_user_spec u c : cache_ok c →
    ∃ c', invalidate_user u c = (Ret tt, c') ∧ cache_ok c' ∧ entries c' ⊆ entries c ∧
      (∀ k p, entries c' !! k = Some p → p_user_id p ≠ u);
}.

(** cachetools' [TTLCache] with its internal clock: [ttl_entries] are the items
    that have neither expired nor been evicted. *)
Class TTLCache (T : Type) := {
  ttl_entries : T → gmap string Principal;
  ttl_get : string → T → option Principal * T;
  ttl_set : string → Principal → T → T;
  ttl_pop : string → T → T;
}.
Class TTLCacheLaws (T : Type) `{TTLCache T} : Prop := {
  ttl_get_spec k t : ttl_entries (ttl_get k t).2 ⊆ ttl_entries t ∧
    (∀ p, (ttl_get k t).1 = Some p → ttl_entries t !! k = Some p);
  ttl_set_spec k p t : ttl_entries (ttl_set k p t) ⊆ <[k := p]> (ttl_entries t);
  ttl_pop_spec k t : ttl_entries (ttl_pop k t) ⊆ delete k (ttl_entries t);
}.

Module InProcessPrincipalCache.
Record InProcessPrincipalCache (T : Type) := mkCache {
  cache : T;
  user_index : gmap string (gset string);
}.
Arguments mkCache {T}. Arguments cache {T}. Arguments user_index {T}.

Section in_process.
Context {T : Type} `{TTLCache T}.
Implicit Types c : InProcessPrincipalCache T.

Definition get (token_id : string) : M (InProcessPrincipalCache T) (option Principal) := λ c,
  let '(o, t) := ttl_get token_id (cache c) in (Ret o, mkCache t (user_index c)).

Definition set (token_id : string) (p : Principal) : M (InProcessPrincipalCache T) unit :=
  modify (λ c, mkCache (ttl_set token_id p (cache c))
    (<[uuid_str (p_user_id p) := {[ token_id ]} ∪ default ∅ (user_index c !! uuid_str (p_user_id p))]>
       (user_index c))).

Definition pop (token_id : string) : M (InProcessPrincipalCache T) unit :=
  modify (λ c, mkCache (ttl_pop token_id (cache c)) (user_index c)).

Definition invalidate_user (user_id : uuid) : M (InProcessPrincipalCache T) unit :=
  modify (λ c,
    let token_ids := default ∅ (user_index c !! uuid_str user_id) in
    mkCache (foldr ttl_pop (cache c) (elements token_ids)) (delete (uuid_str user_id) (user_index c))).
End in_process.
End InProcessPrincipalCache.

(** ** [ResolvePrincipalFromAccessToken] *)

Module ResolvePrincipal.
Section resolve.
Context `{Env} `{Jwt} (cfg : AuthSettings) {C : Type} `{PrincipalCachePort C}.

Definition execute (token : string) : M (World * C) (Result Principal AuthError) :=
  decoded ← on_fst (AccessTokenService.decode cfg token);
  match decoded with
  | Err e => mret (Err e)
  | Ok payload =>
      let token_id := at_token_id payload in
      cached ← on_snd (cache_get token_id);
      match cached with
      | Some p => mret (Ok p)
      | None =>
          user ← on_fst (EngineUsers.get_by_id (at_subject payload));
          match user with
          | None => mret (Err InvalidTokenError)
          | Some u =>
              if negb (u_is_active u) then mret (Err InactiveUserError) else
              let principal := principal_from_user u in
              if negb (p_authz_version principal =? at_authz_version payload)
              then on_snd (cache_pop token_id) ;; mret (Err StaleTokenError)
              else on_snd (cache_set token_id principal) ;; mret (Ok principal)
          end
      end
  end.
End resolve.
End ResolvePrincipal.
