(* ===== verification/Auth.v ===== *)
(** The use cases of the authentication feature
    ([features/authentication/application]): registration, login, refresh-token
    rotation, logout, password reset, e-mail verification, retention and the
    adapters other features call. *)

From Stdlib Require Import Ascii.
From S2P Require Import Prelude PyStr Uuid Store StoreFacts Outbox Users AuthRepo Principals.
Open Scope string_scope.
Open Scope Z_scope.

(** ** [application/crypto.py] *)

Definition FIXED_DUMMY_ARGON2_HASH : string :=
  "$argon2id$v=19$m=65536,t=3,p=4$7+JuBWe0Hx8Q5eFgxf9fVQ$ZCoHJmWona5G0bfuPaZxJ/q2Jht4yAxCSvoP0IDkQ4U".

Section crypto.
Context `{Env}.

(** Each hash draws a fresh salt. *)
Definition hash_password (password : string) : IO string := λ w,
  (Ret (argon2_hash (w_salts w) password), bump_salts w).
(** A mismatch is [False], not an exception. *)
Definition verify_password (password_hash password : string) : IO bool := λ w,
  (Ret (argon2_verify password_hash password), log_event EvPasswordVerify w).
Definition generate_opaque_token : IO string := token_urlsafe.
Definition hash_token (token : string) : string := sha256_hex token.
End crypto.

(** [application/types.py]; [token_type] is always ["bearer"]. *)
Record IssuedTokens := mkIssuedTokens {
  access_token : string;
  refresh_token : string;
  expires_in : Z;
}.
Record InternalTokenResult := mkInternalTokenResult {
  itr_token : option string;
  itr_expires_at : option time;
}.

Definition PASSWORD_RESET_PURPOSE : string := "password_reset".
Definition EMAIL_VERIFY_PURPOSE : string := "email_verify".
Definition PASSWORD_RESET_TEMPLATE : string := "authentication/password_reset".
Definition VERIFY_EMAIL_TEMPLATE : string := "authentication/verify_email".
Definition SEND_EMAIL_JOB : string := "send_email".
Definition AUTH_LOGINS_TOTAL : string := "app_auth_logins_total".
Definition AUTH_REFRESH_TOTAL : string := "app_auth_refresh_total".
Definition reason (r : string) : payload := {[ "reason" := JStr r ]}.

(** ** Registration *)

Module RegisterUser.
Definition execute `{Env} (email password : string) (ip_address user_agent : option string)
    : IO (Result User AuthError) :=
  let normalized_email := normalize_email email in
  password_hash ← hash_password password;
  AuthRepository.register_user_transaction (
    create_result ← RegisterUserTx.create_user normalized_email;
    match create_result with
    | Err UserAlreadyExistsError => mret (Err DuplicateEmailError)
    | Err _ => mret (Err (NotFoundError "User not found after registration"))
    | Ok user =>
        RegisterUserTx.upsert_credential (u_id user) "argon2" password_hash ;;
        RegisterUserTx.record_audit_event "auth.user_registered" (Some (u_id user)) ip_address user_agent ∅ ;;
        mret (Ok user)
    end).
End RegisterUser.

(** ** Login *)

Module LoginUser.
Section login.
Context `{Env} `{Jwt} (cfg : AuthSettings).

(** A missing user has no credential; the call is made in both cases. *)
Definition get_credential_for_user (user_id : option uuid) : IO (option Credential) :=
  match user_id with
  | None => mret None
  | Some i => AuthRepository.get_credential_for_user i
  end.

Definition reject (user_id : option uuid) (why : string) (ip_address user_agent : option string) (e : AuthError)
    : IO (Result (IssuedTokens * Principal) AuthError) :=
  AuthRepository.record_audit_event "auth.login_failed" user_id ip_address user_agent (reason why) ;;
  metric AUTH_LOGINS_TOTAL "failure" ;;
  mret (Err e).

Definition execute (email password : string) (ip_address user_agent : option string)
    : IO (Result (IssuedTokens * Principal) AuthError) :=
  user ← EngineUsers.get_by_email (normalize_email email);
  credential ← get_credential_for_user (u_id <$> user);
  let password_hash := match credential with Some (_, c) => cred_hash c | None => FIXED_DUMMY_ARGON2_HASH end in
  password_ok ← verify_password password_hash password;
  match user with
  | None => reject None "invalid_credentials" ip_address user_agent InvalidCredentialsError
  | Some user =>
      if negb password_ok
      then reject (Some (u_id user)) "invalid_credentials" ip_address user_agent InvalidCredentialsError else
      if negb (u_is_active user)
      then reject (Some (u_id user)) "inactive_user" ip_address user_agent InactiveUserError else
      if auth_require_email_verification cfg && negb (u_is_verified user)
      then reject (Some (u_id user)) "email_not_verified" ip_address user_agent EmailNotVerifiedError else
      when ← utc_now;
      EngineUsers.update_last_login (u_id user) when ;;
      let principal := principal_from_user user in
      issued ← AccessTokenService.issue cfg (u_id user) (p_authz_version principal);
      raw_refresh ← generate_opaque_token;
      family_id ← uuid4;
      now ← utc_now;
      lifetime ← timedelta (auth_refresh_token_expire_days cfg * day);
      expires_at ← datetime_add now lifetime;
      AuthRepository.create_refresh_token (u_id user) (hash_token raw_refresh) family_id expires_at ip_address user_agent ;;
      AuthRepository.record_audit_event "auth.login_succeeded" (Some (u_id user)) ip_address user_agent ∅ ;;
      metric AUTH_LOGINS_TOTAL "success" ;;
      mret (Ok (mkIssuedTokens issued.1 raw_refresh issued.2, principal))
  end.
End login.
End LoginUser.

(** ** Refresh-token rotation *)

Module RotateRefreshToken.
Section rotate.
Context `{Env} `{Jwt} (cfg : AuthSettings).

(** The live-token branch.  [self._users] has a session of its own. *)
Definition rotate (record : RefreshToken) (now : time) (ip_address user_agent : option string)
    : IO (Result (IssuedTokens * Principal) AuthError) :=
  let '(token_id, r) := record in
  user ← EngineUsers.get_by_id (rt_user_id r);
  match user with
  | None => mret (Err InvalidCredentialsError)
  | Some user =>
      if negb (u_is_active user) then mret (Err InactiveUserError) else
      let principal := principal_from_user user in
      issued ← AccessTokenService.issue cfg (rt_user_id r) (p_authz_version principal);
      raw_refresh ← generate_opaque_token;
      lifetime ← timedelta (auth_refresh_token_expire_days cfg * day);
      expires_at ← datetime_add now lifetime;
      replacement ← RefreshTokenTx.create_refresh_token (rt_user_id r) (hash_token raw_refresh)
                      (rt_family_id r) expires_at ip_address user_agent;
      RefreshTokenTx.revoke_refresh_token token_id (Some (fst replacement)) ;;
      RefreshTokenTx.record_audit_event "auth.refresh_succeeded" (Some (rt_user_id r)) ip_address user_agent ∅ ;;
      mret (Ok (mkIssuedTokens issued.1 raw_refresh issued.2, principal))
  end.

(** [_execute]. *)
Definition execute_ (token : option string) (ip_address user_agent : option string)
    : IO (Result (IssuedTokens * Principal) AuthError) :=
  match token with
  | None | Some "" => mret (Err InvalidTokenError)
  | Some token =>
      AuthRepository.refresh_token_transaction (
        record ← RefreshTokenTx.get_refresh_token_for_update (hash_token token);
        match record with
        | None => mret (Err InvalidTokenError)
        | Some (token_id, r) =>
            now ← utc_now;
            match rt_revoked_at r with
            | Some _ =>
                RefreshTokenTx.revoke_refresh_family (rt_family_id r) ;;
                RefreshTokenTx.record_audit_event "auth.refresh_reuse_detected" (Some (rt_user_id r))
                  ip_address user_agent {[ "family_id" := JStr (uuid_str (rt_family_id r)) ]} ;;
                mret (Err InvalidTokenError)
            | None =>
                if rt_expires_at r <=? now
                then RefreshTokenTx.revoke_refresh_token token_id None ;; mret (Err InvalidTokenError)
                else rotate (token_id, r) now ip_address user_agent
            end
        end)
  end.

Definition execute (token : option string) (ip_address user_agent : option string)
    : IO (Result (IssuedTokens * Principal) AuthError) :=
  result ← execute_ token ip_address user_agent;
  metric AUTH_REFRESH_TOTAL (if is_ok result then "success" else "failure") ;;
  mret result.
End rotate.
End RotateRefreshToken.

(** ** Logout *)

Module LogoutUser.
Definition execute `{Env} (token : option string) : IO (Result unit AuthError) :=
  match token with
  | None | Some "" => mret (Ok tt)
  | Some token =>
      record ← AuthRepository.get_refresh_token_by_hash (hash_token token);
      match record with
      | Some (token_id, r) =>
          when (bool_decide (rt_revoked_at r = None)) (AuthRepository.revoke_refresh_token token_id None)
      | None => mret tt
      end ;;
      mret (Ok tt)
  end.
End LogoutUser.

(** The optional cache collaborator. *)
Definition invalidate_cached {C} `{PrincipalCachePort C} (wired : bool) (user_id : uuid) : M (World * C) unit :=
  when wired (on_snd (invalidate_user user_id)).

Module LogoutAllSessions.
Definition execute `{Env} {C} `{PrincipalCachePort C} (wired : bool) (user_id : uuid)
    (ip_address user_agent : option string) : M (World * C) (Result unit AuthError) :=
  on_fst (AuthRepository.revoke_user_refresh_tokens user_id) ;;
  invalidate_cached wired user_id ;;
  on_fst (AuthRepository.record_audit_event "auth.logout_all" (Some user_id) ip_address user_agent ∅) ;;
  mret (Ok tt).
End LogoutAllSessions.

(** What [main.py] wires into [DeactivateUser]. *)
Definition revoke_all_refresh_tokens `{Env} {C} `{PrincipalCachePort C} (user_id : uuid) : M (World * C) unit :=
  LogoutAllSessions.execute true user_id None None ;; mret tt.

(** ** Single-use tokens *)

(** [public_url.rstrip('/')]. *)
Definition rstrip_slash (s : string) : string := rstrip_by (λ c, Ascii.eqb c "/"%char) s.

Section issue_internal.
Context `{Env} (cfg : AuthSettings).

(** The transaction that [RequestPasswordReset] and [RequestEmailVerification]
    have in common; they differ in purpose, event, template and link. *)
Definition issue_internal (user : User) (purpose event_type template url_key url : string) (lifetime_minutes : Z)
    (raw_token : string) (expires_at : time) (ip_address : option string) : IO unit :=
  AuthRepository.issue_internal_token_transaction (
    IssueTokenTx.invalidate_unused_tokens_for (u_id user) purpose ;;
    IssueTokenTx.create_internal_token (Some (u_id user)) purpose (hash_token raw_token) expires_at ip_address ;;
    IssueTokenTx.record_audit_event event_type (Some (u_id user)) ip_address None ∅ ;;
    IssueTokenTx.outbox_enqueue SEND_EMAIL_JOB
      (list_to_map [("to", JStr (u_email user)); ("template_name", JStr template);
         ("context", JObj [("app_name", JStr (app_display_name cfg)); ("email", JStr (u_email user));
                           (url_key, JStr url); ("expires_in_minutes", JInt lifetime_minutes)])])
      None).

Definition internal_result (raw_token : string) (expires_at : time) : InternalTokenResult :=
  mkInternalTokenResult (if auth_return_internal_tokens cfg then Some raw_token else None) (Some expires_at).
End issue_internal.

Module RequestPasswordReset.
Definition reset_url (public_url token : string) : string :=
  rstrip_slash public_url +:+ "/auth/password/reset?token=" +:+ token.
Definition execute `{Env} (cfg : AuthSettings) (email : string) (ip_address : option string)
    : IO (Result InternalTokenResult AuthError) :=
  user ← EngineUsers.get_by_email (normalize_email email);
  match user with
  | None =>
      verify_password FIXED_DUMMY_ARGON2_HASH email ;;
      mret (Ok (mkInternalTokenResult None None))
  | Some user =>
      verify_password FIXED_DUMMY_ARGON2_HASH email ;;
      raw_token ← generate_opaque_token;
      now ← utc_now;
      lifetime ← timedelta (minutes (auth_password_reset_token_expire_minutes cfg));
      expires_at ← datetime_add now lifetime;
      issue_internal cfg user PASSWORD_RESET_PURPOSE "auth.password_reset_requested" PASSWORD_RESET_TEMPLATE
        "reset_url" (reset_url (app_public_url cfg) raw_token) (auth_password_reset_token_expire_minutes cfg)
        raw_token expires_at ip_address ;;
      mret (Ok (internal_result cfg raw_token expires_at))
  end.
End RequestPasswordReset.

Module RequestEmailVerification.
Definition verify_url (public_url token : string) : string :=
  rstrip_slash public_url +:+ "/auth/email/verify?token=" +:+ token.
Definition execute `{Env} (cfg : AuthSettings) (user_id : uuid) (ip_address : option string)
    : IO (Result InternalTokenResult AuthError) :=
  user ← EngineUsers.get_by_id user_id;
  match user with
  | None =>
      verify_password FIXED_DUMMY_ARGON2_HASH (uuid_str user_id) ;;
      mret (Err (NotFoundError "User not found"))
  | Some user =>
      verify_password FIXED_DUMMY_ARGON2_HASH (uuid_str user_id) ;;
      raw_token ← generate_opaque_token;
      now ← utc_now;
      lifetime ← timedelta (minutes (auth_email_verify_token_expire_minutes cfg));
      expires_at ← datetime_add now lifetime;
      issue_internal cfg user EMAIL_VERIFY_PURPOSE "auth.email_verify_requested" VERIFY_EMAIL_TEMPLATE
        "verify_url" (verify_url (app_public_url cfg) raw_token) (auth_email_verify_token_expire_minutes cfg)
        raw_token expires_at ip_address ;;
      mret (Ok (internal_result cfg raw_token expires_at))
  end.
End RequestEmailVerification.

(** The guards both confirmations share: the clock is read only when there is a
    record. *)
Section consume.
Context `{Env}.
Definition consume (token purpose : string) (apply : uuid → uuid → IO unit) : IO (Result uuid AuthError) :=
  AuthRepository.internal_token_transaction (
    record ← InternalTokenTx.get_internal_token_for_update (hash_token token) purpose;
    match record with
    | None => mret (Err InvalidTokenError)
    | Some (token_id, r) =>
        now ← utc_now;
        if it_expires_at r <=? now then mret (Err InvalidTokenError) else
        match it_used_at r, it_user_id r with
        | Some _, _ => mret (Err TokenAlreadyUsedError)
        | None, None => mret (Err InvalidTokenError)
        | None, Some user_id => apply token_id user_id ;; mret (Ok user_id)
        end
    end).
End consume.

(** [if error ... return Err(error)], then the cache. *)
Definition after_consume {C} `{PrincipalCachePort C} (wired : bool) (r : Result uuid AuthError)
    : M (World * C) (Result unit AuthError) :=
  match r with
  | Err e => mret (Err e)
  | Ok user_id => invalidate_cached wired user_id ;; mret (Ok tt)
  end.

Module ConfirmPasswordReset.
Definition apply_reset `{Env} (new_hash : string) (token_id user_id : uuid) : IO unit :=
  InternalTokenTx.upsert_credential user_id "argon2" new_hash ;;
  InternalTokenTx.bump_user_authz_version user_id ;;
  InternalTokenTx.mark_internal_token_used token_id ;;
  InternalTokenTx.revoke_user_refresh_tokens user_id ;;
  InternalTokenTx.record_audit_event "auth.password_reset_completed" (Some user_id) None None ∅.
Definition execute `{Env} {C} `{PrincipalCachePort C} (wired : bool) (token new_password : string)
    : M (World * C) (Result unit AuthError) :=
  new_hash ← on_fst (hash_password new_password);
  r ← on_fst (consume token PASSWORD_RESET_PURPOSE (apply_reset new_hash));
  after_consume wired r.
End ConfirmPasswordReset.

Module ConfirmEmailVerification.
Definition apply_verification `{Env} (token_id user_id : uuid) : IO unit :=
  InternalTokenTx.mark_user_verified user_id ;;
  InternalTokenTx.mark_internal_token_used token_id ;;
  InternalTokenTx.record_audit_event "auth.email_verified" (Some user_id) None None ∅.
Definition execute `{Env} {C} `{PrincipalCachePort C} (wired : bool) (token : string)
    : M (World * C) (Result unit AuthError) :=
  r ← on_fst (consume token EMAIL_VERIFY_PURPOSE apply_verification);
  after_consume wired r.
End ConfirmEmailVerification.

(** ** Retention and administration *)

Module PurgeExpiredTokens.
Record PurgeReport := mkPurgeReport {
  refresh_tokens_deleted : Z;
  internal_tokens_deleted : Z;
}.
(** [None]: a loop did not end within [fuel] batches. *)
Definition execute `{Env} (fuel : nat) (retention_days : Z) : IO (option PurgeReport) :=
  now ← utc_now;
  retention ← timedelta (retention_days * day);
  cutoff ← datetime_add now (- retention);
  refresh ← AuthRepository.delete_expired_refresh_tokens fuel cutoff;
  internal ← AuthRepository.delete_expired_internal_tokens fuel cutoff;
  mret (a ← refresh; b ← internal; Some (mkPurgeReport a b)).
End PurgeExpiredTokens.

Module ListAuditEvents.
Definition execute `{Env} (user_id : option uuid) (event_type : option string) (since : option time)
    (before : option (time * uuid)) (limit_ : Z) : IO (Result (list AuditEvent) AuthError) :=
  l ← AuthRepository.list_audit_events user_id event_type since before (1 `max` (limit_ `min` 500));
  mret (Ok l).
End ListAuditEvents.

(** ** Adapters of the other features' ports *)

Section adapters.
Context `{Env}.

(** [SQLModelAuditAdapter.record]. *)
Definition audit_record (event_type : string) (user_id : uuid) (metadata : payload) : IO unit :=
  AuthRepository.record_audit_event event_type (Some user_id) None None metadata.

(** [SQLModelCredentialVerifierAdapter.verify]. *)
Definition credential_verify (user_id : uuid) (password : string) : IO bool :=
  credential ← AuthRepository.get_credential_for_user user_id;
  match credential with
  | None => mret false
  | Some (_, c) => verify_password (cred_hash c) password
  end.

(** [SQLModelCredentialWriterAdapter.set_initial_password]. *)
Definition set_initial_password (user_id : uuid) (password : string) : IO unit :=
  hash ← hash_password password;
  AuthRepository.upsert_credential user_id "argon2" hash ;;
  mret tt.
End adapters.
