(* ===== verification/Gdpr.v ===== *)
(** Erasure of an account (GDPR Art. 17): the authentication feature's cleanup
    adapter ([adapters/outbound/auth_artifacts_cleanup/sqlmodel.py]) and the
    users feature's use case ([application/use_cases/erase_user.py]).  The
    writer is session-backed, so every write is staged on the session of the
    outbox unit of work. *)

From S2P Require Import Prelude PyStr Uuid Store StoreFacts Outbox Users AuthRepo.
Open Scope string_scope.
Open Scope Z_scope.

Module SQLModelAuthArtifactsCleanupAdapter.

(** [_PII_METADATA_KEYS], the keys the PostgreSQL statement removes. *)
Definition PII_METADATA_KEYS : list string := ["family_id"; "ip_address"; "user_agent"].

(** [SET ip_address = NULL, user_agent = NULL, metadata = metadata - ... ]. *)
Definition scrub_event (r : AuditRow) : AuditRow :=
  mkAuditRow (ae_user_id r) (ae_event_type r) None None
    (foldl (λ m k, delete k m) (ae_metadata r) PII_METADATA_KEYS) (ae_created_at r).

Definition event_of (user_id : uuid) (_ : uuid) (r : AuditRow) : bool := bool_decide (ae_user_id r = Some user_id).
Definition credential_of_user (user_id : uuid) (_ : uuid) (r : CredentialRow) : bool := bool_decide (cred_user_id r = user_id).
Definition refresh_of_user (user_id : uuid) (_ : uuid) (r : RefreshRow) : bool := bool_decide (rt_user_id r = user_id).
Definition internal_of_user (user_id : uuid) (_ : uuid) (r : InternalRow) : bool := bool_decide (it_user_id r = Some user_id).

Definition scrub_audit_events (user_id : uuid) : IO unit :=
  stage (set_audit_events (update_where (event_of user_id) scrub_event)).

Definition delete_credentials_and_tokens (user_id : uuid) : IO unit :=
  stage (set_credentials (delete_where (credential_of_user user_id))) ;;
  stage (set_refresh_tokens (delete_refresh_where (refresh_of_user user_id))) ;;
  stage (set_internal_tokens (delete_where (internal_of_user user_id))).

Definition record_user_erased_event `{Env} (user_id : uuid) (reason : string) : IO unit :=
  id ← uuid4;
  created_at ← utc_now;
  add_row audit_events set_audit_events id
    (mkAuditRow (Some user_id) "user.erased" None None
       {[ "user_id" := JStr (uuid_str user_id); "reason" := JStr reason ]} created_at).
End SQLModelAuthArtifactsCleanupAdapter.

Module EraseUser.
Import SQLModelAuthArtifactsCleanupAdapter.

Definition execute `{Env} (user_id : uuid) (reason : string) : IO (Result unit UserError) :=
  existing ← EngineUsers.get_raw_by_id user_id;
  match existing with
  | None => mret (Err UserNotFoundError)
  | Some u =>
      if u_is_erased u then mret (Ok tt) else
      SQLModelOutboxUnitOfWork.transaction (
        scrub_audit_events user_id ;;
        delete_credentials_and_tokens user_id ;;
        EngineUsers.scrub_for_erasure_atomically_with user_id ;;
        record_user_erased_event user_id reason ;;
        SessionSQLModelOutboxAdapter.enqueue DELETE_USER_ASSETS_JOB (user_payload user_id) None) ;;
      mret (Ok tt)
  end.
End EraseUser.
