(* ===== verification/AuthRepoFacts.v ===== *)
(** Constraint preservation and runs of the statements of the authentication
    repository. *)

From S2P Require Import Prelude PyStr Uuid Store StoreFacts Outbox Users UsersFacts AuthRepo.
Open Scope string_scope.
Open Scope Z_scope.

(** ** The constraints, table by table *)

Section constraints.
Implicit Types d : Db.

Lemma db_ok_set_refresh f d :
  db_ok d → uniq_on rt_token_hash (f (refresh_tokens d)) →
  fk_on (Some ∘ rt_user_id) (f (refresh_tokens d)) (users d) →
  fk_on rt_replaced_by (f (refresh_tokens d)) (f (refresh_tokens d)) →
  db_ok (set_refresh_tokens f d).
Proof. intros (? & ? & ? & ? & _ & _ & _ & ? & ? & ? & ?) ???. unfold db_ok. cbn. by split_and!. Qed.

Lemma db_ok_set_internal f d :
  db_ok d → uniq_on it_token_hash (f (internal_tokens d)) →
  fk_on it_user_id (f (internal_tokens d)) (users d) → db_ok (set_internal_tokens f d).
Proof. intros (? & ? & ? & ? & ? & ? & ? & _ & _ & ? & ?) ??. unfold db_ok. cbn. by split_and!. Qed.

Lemma db_ok_set_credentials f d :
  db_ok d → uniq_on (λ c, (cred_user_id c, cred_algorithm c)) (f (credentials d)) →
  fk_on (Some ∘ cred_user_id) (f (credentials d)) (users d) → db_ok (set_credentials f d).
Proof. intros (? & ? & _ & _ & ? & ? & ? & ? & ? & ? & ?) ??. unfold db_ok. cbn. by split_and!. Qed.

Lemma db_ok_set_audit f d :
  db_ok d → fk_on ae_user_id (f (audit_events d)) (users d) → db_ok (set_audit_events f d).
Proof. intros (? & ? & ? & ? & ? & ? & ? & ? & ? & _ & ?) ?. unfold db_ok. cbn. by split_and!. Qed.

(** Revocation touches no constrained column. *)
Lemma db_ok_revoke P now d : db_ok d → db_ok (set_refresh_tokens (update_where P (set_revoked now)) d).
Proof.
  intros Hok. pose proof Hok as (_ & _ & _ & _ & Hu & Hfk & Hre & _). apply db_ok_set_refresh; [done|..].
  - by apply uniq_on_update.
  - by apply fk_on_update.
  - apply fk_on_update; [done|]. eapply fk_on_target; [|done]. intros k. apply update_where_is_Some.
Qed.

Lemma db_ok_replace i k now d :
  db_ok d → (∀ j, k = Some j → is_Some (refresh_tokens d !! j)) →
  db_ok (set_refresh_tokens (alter (set_replaced_by k ∘ set_revoked now) i) d).
Proof.
  intros Hok Hk. pose proof Hok as (_ & _ & _ & _ & Hu & Hfk & Hre & _).
  apply db_ok_set_refresh; rewrite ?alter_update_where; [done|..].
  - by apply uniq_on_update.
  - by apply fk_on_update.
  - apply (fk_on_target _ _ (refresh_tokens d)); [intros j; apply update_where_is_Some|].
    rewrite fk_on_spec. intros a r j. rewrite lookup_update_where fmap_Some. intros (r0 & Ha & ->).
    case_bool_decide; cbn; [apply Hk|]. rewrite fk_on_spec in Hre. eauto.
Qed.

Lemma db_ok_insert_refresh i r d :
  db_ok d → refresh_tokens d !! i = None → is_Some (users d !! rt_user_id r) → rt_replaced_by r = None →
  (∀ j x, refresh_tokens d !! j = Some x → rt_token_hash x ≠ rt_token_hash r) →
  db_ok (set_refresh_tokens (<[i := r]>) d).
Proof.
  intros Hok Hi Hu Hr Hh. pose proof Hok as (_ & _ & _ & _ & Huq & Hfk & Hre & _).
  apply db_ok_set_refresh; [done|..].
  - apply uniq_on_insert; [|done]. intros j x Hx E. by destruct (Hh j x Hx).
  - apply fk_on_insert; [|done]. intros k [= <-]. done.
  - apply fk_on_insert; [by rewrite Hr|]. eapply fk_on_target; [|done]. intros k. apply insert_is_Some'.
Qed.

Lemma db_ok_delete_refresh P d : db_ok d → db_ok (set_refresh_tokens (delete_refresh_where P) d).
Proof.
  intros Hok. pose proof Hok as (_ & _ & _ & _ & Huq & Hfk & Hre & _).
  assert (Hl : ∀ i r, delete_refresh_where P (refresh_tokens d) !! i = Some r →
    ∃ r0, refresh_tokens d !! i = Some r0 ∧ rt_token_hash r = rt_token_hash r0 ∧ rt_user_id r = rt_user_id r0 ∧
      ∀ k, rt_replaced_by r = Some k → is_Some (delete_where P (refresh_tokens d) !! k)).
  { intros i r. unfold delete_refresh_where. rewrite lookup_fmap fmap_Some. intros (r0 & Hi & ->).
    rewrite lookup_delete_where in Hi. apply bind_Some in Hi as (r1 & Hi & HP). destruct (P i r1); [done|].
    simplify_eq. exists r0. split_and!; [done..|]. cbn. intros k. rewrite bind_Some.
    intros (k' & _ & Hk). case_decide; by simplify_eq. }
  apply db_ok_set_refresh; [done|..].
  - rewrite uniq_on_spec in Huq. apply uniq_on_spec. intros i j x y Hx Hy E.
    destruct (Hl _ _ Hx) as (x0 & Hx0 & Ex & _), (Hl _ _ Hy) as (y0 & Hy0 & Ey & _).
    apply (Huq i j x0 y0); [done..|congruence].
  - rewrite fk_on_spec in Hfk. apply fk_on_spec. intros i r k Hi [= <-].
    destruct (Hl _ _ Hi) as (r0 & Hr0 & _ & -> & _). by eapply Hfk.
  - apply fk_on_spec. intros i r k Hi Hk. destruct (Hl _ _ Hi) as (_ & _ & _ & _ & H). apply H in Hk.
    unfold delete_refresh_where. by rewrite lookup_fmap fmap_is_Some.
Qed.

Lemma db_ok_use P now d : db_ok d → db_ok (set_internal_tokens (update_where P (set_used now)) d).
Proof.
  intros Hok. pose proof Hok as (_ & _ & _ & _ & _ & _ & _ & Hu & Hfk & _). apply db_ok_set_internal; [done|..].
  - by apply uniq_on_update.
  - by apply fk_on_update.
Qed.

Lemma db_ok_use_one i now d : db_ok d → db_ok (set_internal_tokens (alter (set_used now) i) d).
Proof.
  intros Hok. pose proof Hok as (_ & _ & _ & _ & _ & _ & _ & Hu & Hfk & _).
  apply db_ok_set_internal; rewrite ?alter_update_where; [done|by apply uniq_on_update|by apply fk_on_update].
Qed.

Lemma db_ok_delete_internal P d : db_ok d → db_ok (set_internal_tokens (delete_where P) d).
Proof.
  intros Hok. pose proof Hok as (_ & _ & _ & _ & _ & _ & _ & Hu & Hfk & _). apply db_ok_set_internal; [done|..].
  - by apply uniq_on_delete.
  - by apply fk_on_delete.
Qed.

Lemma db_ok_insert_internal i r d :
  db_ok d → (∀ u, it_user_id r = Some u → is_Some (users d !! u)) →
  (∀ j x, internal_tokens d !! j = Some x → it_token_hash x ≠ it_token_hash r) →
  db_ok (set_internal_tokens (<[i := r]>) d).
Proof.
  intros Hok Hu Hh. pose proof Hok as (_ & _ & _ & _ & _ & _ & _ & Huq & Hfk & _).
  apply db_ok_set_internal; [done|..].
  - apply uniq_on_insert; [|done]. intros j x Hx E. by destruct (Hh j x Hx).
  - by apply fk_on_insert.
Qed.

Lemma db_ok_rehash i h now d : db_ok d → db_ok (set_credentials (alter (set_hash h now) i) d).
Proof.
  intros Hok. pose proof Hok as (_ & _ & Hu & Hfk & _).
  apply db_ok_set_credentials; rewrite ?alter_update_where; [done|..].
  - by apply uniq_on_update.
  - by apply fk_on_update.
Qed.

Lemma db_ok_insert_credential i r d :
  db_ok d → is_Some (users d !! cred_user_id r) →
  (∀ j x, credentials d !! j = Some x → by_credential (cred_user_id r) (cred_algorithm r) j x = false) →
  db_ok (set_credentials (<[i := r]>) d).
Proof.
  intros Hok Hu Hh. pose proof Hok as (_ & _ & Huq & Hfk & _). apply db_ok_set_credentials; [done|..].
  - apply uniq_on_insert; [|done]. intros j x Hx [= E1 E2]. specialize (Hh j x Hx). unfold by_credential in Hh.
    by rewrite E1 E2 bool_decide_eq_true_2 // String.eqb_refl in Hh.
  - apply fk_on_insert; [|done]. intros k [= <-]. done.
Qed.

Lemma db_ok_insert_audit i r d :
  db_ok d → (∀ u, ae_user_id r = Some u → is_Some (users d !! u)) → db_ok (set_audit_events (<[i := r]>) d).
Proof.
  intros Hok Hu. pose proof Hok as (_ & _ & _ & _ & _ & _ & _ & _ & _ & Hfk & _).
  apply db_ok_set_audit; [done|]. by apply fk_on_insert.
Qed.
End constraints.

#[export] Hint Resolve db_ok_revoke db_ok_use db_ok_rehash db_ok_delete_refresh db_ok_delete_internal : app.

(** ** Lookups by a unique column *)

Section lookups.
Implicit Types d : Db.

Definition refresh_with (h : string) d : option RefreshToken :=
  head (select_where (by_token_hash h) (refresh_tokens d)).
Definition internal_with (h p : string) d : option InternalToken :=
  head (select_where (by_internal h p) (internal_tokens d)).
Definition credential_of (u : uuid) d : option Credential :=
  head (select_where (by_credential u "argon2") (credentials d)).

(** Rows selected by a unique column: none, or one. *)
Lemma select_unique {R} (P : uuid → R → bool) (m : gmap uuid R) :
  (∀ i j x y, m !! i = Some x → m !! j = Some y → P i x = true → P j y = true → i = j) →
  (select_where P m = [] ∨ ∃ i r, select_where P m = [(i, r)] ∧ m !! i = Some r ∧ P i r = true).
Proof.
  intros Hu. destruct (select_where P m) as [|[i r] l] eqn:E; [by left|]. right.
  assert (Hin : (i, r) ∈ select_where P m) by (rewrite E; left). apply elem_of_select_where in Hin as [Hi HP].
  rewrite (select_where_unique P m i r) // in E; [|eauto]. simplify_eq. by exists i, r.
Qed.

Lemma head_select_spec {R} (P : uuid → R → bool) (m : gmap uuid R) i r :
  (∀ i j x y, m !! i = Some x → m !! j = Some y → P i x = true → P j y = true → i = j) →
  head (select_where P m) = Some (i, r) ↔ m !! i = Some r ∧ P i r = true.
Proof.
  intros Hu. split.
  - intros Hh. by apply head_Some_elem_of, elem_of_select_where in Hh.
  - intros [Hi HP]. rewrite (select_where_unique P m i r) //; eauto.
Qed.

Lemma head_select_none {R} (P : uuid → R → bool) (m : gmap uuid R) :
  head (select_where P m) = None ↔ ∀ i r, m !! i = Some r → P i r = false.
Proof. rewrite -select_where_nil. by destruct (select_where P m). Qed.

Lemma hash_unique h d : db_ok d → ∀ i j x y, refresh_tokens d !! i = Some x → refresh_tokens d !! j = Some y →
  by_token_hash h i x = true → by_token_hash h j y = true → i = j.
Proof.
  intros (_ & _ & _ & _ & Hu & _) i j x y Hi Hj. unfold by_token_hash. rewrite !String.eqb_eq. intros <- E.
  rewrite uniq_on_spec in Hu. by eapply Hu.
Qed.
Lemma internal_unique h p d : db_ok d → ∀ i j x y, internal_tokens d !! i = Some x → internal_tokens d !! j = Some y →
  by_internal h p i x = true → by_internal h p j y = true → i = j.
Proof.
  intros (_ & _ & _ & _ & _ & _ & _ & Hu & _) i j x y Hi Hj. unfold by_internal.
  rewrite !andb_true_iff !String.eqb_eq. intros [<- _] [E _]. rewrite uniq_on_spec in Hu. by eapply Hu.
Qed.
Lemma credential_unique u a d : db_ok d → ∀ i j x y, credentials d !! i = Some x → credentials d !! j = Some y →
  by_credential u a i x = true → by_credential u a j y = true → i = j.
Proof.
  intros (_ & _ & Hu & _) i j x y Hi Hj. unfold by_credential.
  rewrite !andb_true_iff !bool_decide_eq_true !String.eqb_eq. intros [<- <-] [E1 E2].
  rewrite uniq_on_spec in Hu. eapply Hu; [done..|]. cbn. congruence.
Qed.

Lemma refresh_with_spec h d i r :
  db_ok d → refresh_with h d = Some (i, r) ↔ refresh_tokens d !! i = Some r ∧ rt_token_hash r = h.
Proof.
  intros Hok. unfold refresh_with. rewrite head_select_spec; [|by apply hash_unique].
  unfold by_token_hash. by rewrite String.eqb_eq.
Qed.
Lemma internal_with_spec h p d i r :
  db_ok d → internal_with h p d = Some (i, r) ↔
  internal_tokens d !! i = Some r ∧ it_token_hash r = h ∧ it_purpose r = p.
Proof.
  intros Hok. unfold internal_with. rewrite head_select_spec; [|by apply internal_unique].
  unfold by_internal. by rewrite andb_true_iff !String.eqb_eq.
Qed.
Lemma credential_of_spec u d i r :
  db_ok d → credential_of u d = Some (i, r) ↔
  credentials d !! i = Some r ∧ cred_user_id r = u ∧ cred_algorithm r = "argon2".
Proof.
  intros Hok. unfold credential_of. rewrite head_select_spec; [|by apply credential_unique].
  unfold by_credential. by rewrite andb_true_iff bool_decide_eq_true String.eqb_eq.
Qed.
End lookups.

(** ** Runs of the statements *)

Section runs.
Context `{Env}.
Implicit Types w : World.

Lemma run_one_or_none {A} (l : list A) w : (length l <= 1)%nat → one_or_none l w = (Ret (head l), w).
Proof. destruct l as [|x [|y l]]; cbn; [done..|lia]. Qed.

Lemma run_find {R} (P : uuid → R → bool) (get : Db → gmap uuid R) w :
  (∀ i j x y, get (w_session w) !! i = Some x → get (w_session w) !! j = Some y → P i x = true → P j y = true → i = j) →
  (rows ← sess (λ d, select_where P (get d)); one_or_none rows) w = (Ret (head (select_where P (get (w_session w)))), w).
Proof.
  intros Hu. rewrite run_bind run_sess. apply run_one_or_none.
  destruct (select_unique P (get (w_session w)) Hu) as [->|(i & r & -> & _)]; cbn; lia.
Qed.

Lemma run_find_refresh h w : db_ok (w_session w) → find_refresh h w = (Ret (refresh_with h (w_session w)), w).
Proof. intros Hok. apply (run_find _ refresh_tokens). by apply hash_unique. Qed.
Lemma run_find_internal h p w : db_ok (w_session w) → find_internal h p w = (Ret (internal_with h p (w_session w)), w).
Proof. intros Hok. apply (run_find _ internal_tokens). by apply internal_unique. Qed.
Lemma run_find_credential u w :
  db_ok (w_session w) → find_credential u "argon2" w = (Ret (credential_of u (w_session w)), w).
Proof. intros Hok. apply (run_find _ credentials). by apply credential_unique. Qed.

Lemma run_get_credential u w :
  db_ok (w_db w) → AuthRepository.get_credential_for_user u w = (Ret (credential_of u (w_db w)), w).
Proof.
  intros Hok. unfold AuthRepository.get_credential_for_user, with_session.
  rewrite run_find_credential //. by destruct w.
Qed.
Lemma run_get_refresh_by_hash h w :
  db_ok (w_db w) → AuthRepository.get_refresh_token_by_hash h w = (Ret (refresh_with h (w_db w)), w).
Proof.
  intros Hok. unfold AuthRepository.get_refresh_token_by_hash, with_session.
  rewrite run_find_refresh //. by destruct w.
Qed.

(** The owner check of [create_refresh_token]. *)
Definition family_owned_by (u f : uuid) (d : Db) : Prop :=
  ∀ i r, refresh_tokens d !! i = Some r → rt_family_id r = f → rt_user_id r = u.

Lemma run_insert_refresh u h f e ip ua w :
  db_ok (w_session w) → refresh_tokens (w_session w) !! uuid4_at (w_uuids w) = None →
  is_Some (users (w_session w) !! u) → family_owned_by u f (w_session w) →
  (∀ j x, refresh_tokens (w_session w) !! j = Some x → rt_token_hash x ≠ h) →
  let i := uuid4_at (w_uuids w) in
  let row := mkRefreshRow u h f e None None (now_at (w_clock w)) ip ua in
  let d' := set_refresh_tokens (<[i := row]>) (w_session w) in
  insert_refresh u h f e ip ua w = (Ret (i, row), set_session d' (tick (bump_uuids w))) ∧ db_ok d'.
Proof.
  intros Hok Hi Hu Hf Hh i row d'.
  assert (Hok' : db_ok d') by (by apply db_ok_insert_refresh). split; [|done].
  unfold insert_refresh. rewrite run_bind run_sess run_bind.
  set (l := limit 1 _). assert (Hl : l = [] ∨ l = [u]).
  { unfold l, limit. change (Z.to_nat 1) with 1%nat.
    destruct (select_where (in_family f) (refresh_tokens (w_session w))) as [|[j r] q] eqn:E; [by left|right].
    assert (Hin : (j, r) ∈ select_where (in_family f) (refresh_tokens (w_session w))) by (rewrite E; left).
    apply elem_of_select_where in Hin as [Hj Hp%bool_decide_eq_true]. cbn. by rewrite (Hf j r). }
  rewrite run_one_or_none; [|destruct Hl as [->| ->]; cbn; lia].
  case_bool_decide as Hb; [exfalso; destruct Hl as [El|El]; rewrite El in Hb; cbn in Hb; naive_solver|].
  rewrite run_bind run_uuid4 run_bind run_utc_now run_bind run_add_row //.
  by rewrite run_bind run_flush.
Qed.

Lemma run_revoke_one i k r w :
  refresh_tokens (w_session w) !! i = Some r →
  revoke_one i k w =
    let w' := if rt_revoked_at r then w else tick w in
    (Ret tt, set_session (set_refresh_tokens
       (alter (set_replaced_by k ∘ set_revoked (default (now_at (w_clock w)) (rt_revoked_at r))) i) (w_session w)) w').
Proof.
  intros Hr. unfold revoke_one. rewrite run_bind run_sess Hr run_bind. by destruct (rt_revoked_at r).
Qed.

Lemma run_add_audit e u ip ua m w :
  audit_events (w_session w) !! uuid4_at (w_uuids w) = None →
  add_audit e u ip ua m w =
    (Ret tt, set_session (set_audit_events
       (<[uuid4_at (w_uuids w) := mkAuditRow u e ip ua m (now_at (w_clock w))]>) (w_session w)) (tick (bump_uuids w))).
Proof.
  intros Hi. unfold add_audit. rewrite run_bind run_uuid4 run_bind run_utc_now. by rewrite run_add_row.
Qed.

(** An audit event in a transaction of its own. *)
Lemma run_record_audit e u ip ua m w :
  db_ok (w_db w) → audit_events (w_db w) !! uuid4_at (w_uuids w) = None →
  (∀ i, u = Some i → is_Some (users (w_db w) !! i)) →
  let d' := set_audit_events (<[uuid4_at (w_uuids w) := mkAuditRow u e ip ua m (now_at (w_clock w))]>) (w_db w) in
  AuthRepository.record_audit_event e u ip ua m w = (Ret tt, set_db d' (tick (bump_uuids w))) ∧ db_ok d'.
Proof.
  intros Hok Hi Hu d'. assert (Hok' : db_ok d') by (by apply db_ok_insert_audit). split; [|done].
  unfold AuthRepository.record_audit_event.
  by erewrite run_write_scope; [|by apply run_add_audit|done].
Qed.

Lemma run_put_credential u h w :
  db_ok (w_session w) → credentials (w_session w) !! uuid4_at (w_uuids w) = None →
  is_Some (users (w_session w) !! u) →
  ∃ c w', put_credential u "argon2" h w = (Ret c, w') ∧ db_ok (w_session w') ∧
    w' = set_session (w_session w') (mkWorld (w_db w) (w_session w) (S (w_clock w)) (w_uuids w')
           (w_tokens w) (w_salts w) (w_trace w) (w_row_locks w)) ∧
    (w_uuids w <= w_uuids w')%nat ∧
    w_session w' = set_credentials (λ _, credentials (w_session w')) (w_session w) ∧
    credential_of u (w_session w') = Some c ∧ cred_hash c.2 = h ∧
    (∀ v, v ≠ u → credential_of v (w_session w') = credential_of v (w_session w)).
Proof.
  intros Hok Hi Hu. unfold put_credential. rewrite run_bind run_find_credential // run_bind run_utc_now.
  destruct (credential_of u (w_session w)) as [[i r]|] eqn:E.
  - rewrite run_bind run_stage run_bind.
    set (d' := set_credentials _ _). assert (Hok' : db_ok d') by (by apply db_ok_rehash).
    rewrite run_flush //. eexists (i, _), _. split; [done|]. cbn -[db_ok].
    apply credential_of_spec in E as (Hr & Ec & Ea); [|done].
    split_and!; [done| |lia| |by apply credential_of_spec; [|split_and!; [by rewrite lookup_alter_eq Hr|..]]|done|].
    + by destruct w.
    + done.
    + intros v Hv. apply option_eq. intros [j x]. rewrite !credential_of_spec //. cbn. split.
      * rewrite lookup_alter_Some. intros ([(-> & r' & Hr' & ->)|(Hne & Hx)] & Eu & ?); [|done].
        by simplify_eq.
      * intros (Hx & Eu & ?). split_and!; [|done..]. rewrite lookup_alter_ne //. intros ->. simplify_eq.
  - rewrite run_bind run_uuid4 run_bind run_add_row //.
    set (d' := set_credentials _ _). pose proof (proj1 (head_select_none _ _) E) as Hn.
    assert (Hok' : db_ok d') by (by apply db_ok_insert_credential).
    rewrite run_bind run_flush //. eexists (_, _), _. split; [done|]. cbn -[db_ok].
    split_and!; [done|by destruct w|lia|done|by apply credential_of_spec; [|split_and!; [by rewrite lookup_insert_eq|..]]|done|].
    intros v Hv. apply option_eq. intros [j x]. rewrite !credential_of_spec //. cbn. split.
    + rewrite lookup_insert_Some. intros ([(<- & <-)|(Hne & Hx)] & Eu & ?); [by destruct Hv|done].
    + intros (Hx & Eu & ?). split_and!; [|done..]. rewrite lookup_insert_ne //. intros <-.
      cbn in Hi. by rewrite Hi in Hx.
Qed.
End runs.
