(* ===== verification/DemoAuth.v ===== *)
(** Concrete instances of the authentication feature's parameters, on which its
    properties are exercised: a self-delimiting encoding in place of signed
    tokens, a map that never evicts in place of the TTL cache, and settings. *)

From Stdlib Require Import Ascii.
From S2P Require Import Prelude PyStr Uuid Store Demo Principals.
Open Scope string_scope.
Open Scope Z_scope.

(** ** A stand-in for PyJWT *)

(** Each character is announced by a [1], a [0] ends the field. *)
Fixpoint put_str (s : string) : string :=
  match s with
  | "" => "0"
  | String c s => String "1"%char (String c (put_str s))
  end.
Fixpoint take_str (s : string) : option (string * string) :=
  match s with
  | String "0"%char rest => Some ("", rest)
  | String "1"%char (String c s) =>
      match take_str s with Some (f, rest) => Some (String c f, rest) | None => None end
  | _ => None
  end.
Lemma take_put_str s rest : take_str (put_str s +:+ rest) = Some (s, rest).
Proof. induction s as [|c s IH]; [done|]. cbn [put_str]. rewrite !app_cons. cbn. by rewrite IH. Qed.

Fixpoint pos_bits (p : positive) : string :=
  match p with xH => "" | xO p => String "0"%char (pos_bits p) | xI p => String "1"%char (pos_bits p) end.
Fixpoint bits_pos (s : string) : positive :=
  match s with "" => xH | String "0"%char s => xO (bits_pos s) | String _ s => xI (bits_pos s) end.
Lemma bits_pos_bits p : bits_pos (pos_bits p) = p.
Proof. induction p as [p IH|p IH|]; cbn; congruence. Qed.
Definition z_str (z : Z) : string :=
  match z with Z0 => "" | Zpos p => String "+"%char (pos_bits p) | Zneg p => String "-"%char (pos_bits p) end.
Definition str_z (s : string) : Z :=
  match s with "" => Z0 | String "+"%char s => Zpos (bits_pos s) | String _ s => Zneg (bits_pos s) end.
Lemma str_z_str z : str_z (z_str z) = z.
Proof. destruct z; cbn; by rewrite ?bits_pos_bits. Qed.
Definition opt_str (o : option string) : string := match o with None => "" | Some s => String "S"%char s end.
Definition str_opt (s : string) : option string := match s with "" => None | String _ s => Some s end.
Lemma str_opt_str o : str_opt (opt_str o) = o.
Proof. by destruct o. Qed.

(** The fields of a token. *)
Definition fields (key alg : string) (c : Claims) : list string :=
  [key; alg; c_sub c; z_str (c_exp c); z_str (c_iat c); z_str (c_nbf c); c_jti c; z_str (c_authz_version c);
   opt_str (c_iss c); opt_str (c_aud c)].
Fixpoint put_fields (l : list string) : string :=
  match l with [] => "" | f :: l => put_str f +:+ put_fields l end.
Fixpoint take_fields (n : nat) (s : string) : option (list string) :=
  match n with
  | O => Some []
  | S n => match take_str s with
           | Some (f, rest) => cons f <$> take_fields n rest
           | None => None
           end
  end.
Lemma take_put_fields l : take_fields (length l) (put_fields l) = Some l.
Proof. induction l as [|f l IH]; [done|]. cbn [length take_fields put_fields]. by rewrite take_put_str IH. Qed.

Definition claims_of (l : list string) : option (string * string * Claims) :=
  match l with
  | [key; alg; sub; exp; iat; nbf; jti; v; iss; aud] =>
      Some (key, alg, mkClaims sub (str_z exp) (str_z iat) (str_z nbf) jti (str_z v) (str_opt iss) (str_opt aud))
  | _ => None
  end.
Lemma claims_of_fields key alg c : claims_of (fields key alg c) = Some (key, alg, c).
Proof. destruct c. unfold claims_of, fields. cbn. by rewrite !str_z_str !str_opt_str. Qed.

Definition opt_ok (want have : option string) : bool :=
  match want with None => true | Some _ => bool_decide (have = want) end.
Definition claims_validb (k : JwtCheck) (c : Claims) : bool :=
  (jc_now k - jc_leeway k <? c_exp c) && (c_nbf c <=? jc_now k + jc_leeway k) &&
  (c_iat c <=? jc_now k + jc_leeway k) && opt_ok (jc_issuer k) (c_iss c) && opt_ok (jc_audience k) (c_aud c).
Lemma opt_ok_spec want have : opt_ok want have = true ↔ ∀ i, want = Some i → have = Some i.
Proof. destruct want; cbn; rewrite ?bool_decide_eq_true; naive_solver. Qed.
Lemma claims_validb_spec k c : claims_validb k c = true ↔ claims_valid k c.
Proof.
  unfold claims_validb, claims_valid. rewrite !andb_true_iff Z.ltb_lt !Z.leb_le !opt_ok_spec. naive_solver.
Qed.

#[global] Instance demo_jwt : Jwt := {|
  jwt_encode c key alg := put_fields (fields key alg (on_the_wire c));
  jwt_decode token key alg k :=
    l ← take_fields 10 token;
    '(key', alg', c) ← claims_of l;
    if bool_decide (key' = key) && bool_decide (alg' = alg) && claims_validb k c then Some c else None;
|}.
#[global] Instance demo_jwt_laws : JwtLaws.
Proof.
  constructor. intros c key alg k c' _. cbn [jwt_encode jwt_decode demo_jwt].
  change 10%nat with (length (fields key alg (on_the_wire c))). rewrite take_put_fields. cbn [mbind option_bind].
  rewrite claims_of_fields. cbn [mbind option_bind]. rewrite !bool_decide_eq_true_2 //. cbn [andb].
  rewrite -claims_validb_spec. destruct (claims_validb k (on_the_wire c)) eqn:E; split.
  - intros [= <-]. done.
  - intros [-> _]. done.
  - done.
  - intros [-> E']. by rewrite E in E'.
Qed.

(** ** A cache that never forgets by itself *)

#[global] Instance demo_ttl : TTLCache (gmap string Principal) := {|
  ttl_entries t := t;
  ttl_get k t := (t !! k, t);
  ttl_set k p t := <[k := p]> t;
  ttl_pop k t := delete k t;
|}.
#[global] Instance demo_ttl_laws : TTLCacheLaws (gmap string Principal).
Proof. by constructor. Qed.
Definition demo_cache : InProcessPrincipalCache.InProcessPrincipalCache (gmap string Principal) :=
  InProcessPrincipalCache.mkCache ∅ ∅.

Definition demo_settings : AuthSettings :=
  mkAuthSettings "HS256" (Some "secret") None (Some "app") 10 15 30 30 1440 false true "App" "https://app.example/".
