(* ===== verification/PrincipalsFacts.v ===== *)
(** The in-process cache implements the cache port; access tokens round-trip;
    a request is authenticated from the cache or from the current account. *)

From Stdlib Require Import Ascii.
From S2P Require Import Prelude PyStr Uuid Store StoreFacts Demo Outbox Users UsersFacts Principals DemoAuth.
Open Scope string_scope.
Open Scope list_scope.
Open Scope Z_scope.

(** ** The in-process cache *)

Section in_process.
Context {T : Type} `{TTLCacheLaws T}.
Import InProcessPrincipalCache.
Implicit Types c : InProcessPrincipalCache T.

(** Every cached entry is indexed under its user. *)
Definition indexed c : Prop :=
  ∀ k p, ttl_entries (cache c) !! k = Some p →
    ∃ ks, user_index c !! uuid_str (p_user_id p) = Some ks ∧ k ∈ ks.

Lemma indexed_sub t c : ttl_entries t ⊆ ttl_entries (cache c) → indexed c → indexed (mkCache t (user_index c)).
Proof. intros Hsub Hc k p Hk. apply Hc. by eapply lookup_weaken. Qed.

Lemma pop_all_sub (ks : list string) t :
  ttl_entries (foldr ttl_pop t ks) ⊆ ttl_entries t ∧ (∀ k, k ∈ ks → ttl_entries (foldr ttl_pop t ks) !! k = None).
Proof.
  induction ks as [|k ks [Hsub Hnone]]; cbn; [split; [done|by intros ? ?%elem_of_nil]|].
  pose proof (ttl_pop_spec k (foldr ttl_pop t ks)) as Hp. split.
  - etrans; [done|]. etrans; [apply delete_subseteq|done].
  - intros j [->|Hj]%elem_of_cons.
    + destruct (ttl_entries _ !! k) eqn:E; [|done]. eapply lookup_weaken in E; [|done]. by rewrite lookup_delete_eq in E.
    + destruct (ttl_entries (ttl_pop k _) !! j) eqn:E; [|done]. eapply lookup_weaken in E; [|done].
      apply lookup_delete_Some in E as [_ E]. by rewrite Hnone in E.
Qed.

Lemma indexed_set k p c : indexed c → indexed (state_of (set k p) c).
Proof.
  intros Hc j q Hj. cbn in Hj |- *. eapply lookup_weaken in Hj; [|apply ttl_set_spec].
  apply lookup_insert_Some in Hj as [[<- <-]|[Hne Hj]].
  - rewrite lookup_insert_eq. eexists. split; [done|set_solver].
  - destruct (Hc j q Hj) as (ks & Hks & Hin). destruct (decide (uuid_str (p_user_id q) = uuid_str (p_user_id p))) as [E|Hu].
    + rewrite E lookup_insert_eq. rewrite E in Hks. rewrite Hks. eexists. split; [done|set_solver].
    + rewrite lookup_insert_ne //. by exists ks.
Qed.

Lemma invalidated u c k p :
  indexed c → ttl_entries (cache (state_of (invalidate_user u) c)) !! k = Some p →
  ttl_entries (cache c) !! k = Some p ∧ uuid_str (p_user_id p) ≠ uuid_str u.
Proof.
  intros Hc Hk. cbn in Hk. destruct (pop_all_sub (elements (default ∅ (user_index c !! uuid_str u))) (cache c)) as [Hsub Hnone].
  assert (Hk0 : ttl_entries (cache c) !! k = Some p) by (by eapply lookup_weaken). split; [done|].
  intros E. destruct (Hc k p Hk0) as (ks & Hks & Hin). rewrite -E Hks in Hnone, Hk. cbn in *.
  rewrite Hnone in Hk; [done|]. by apply elem_of_elements.
Qed.

#[global] Program Instance in_process_port : PrincipalCachePort (InProcessPrincipalCache T) := {|
  cache_ok := indexed;
  entries c := ttl_entries (cache c);
  cache_get := get;
  cache_set := set;
  cache_pop := pop;
  Principals.invalidate_user := invalidate_user;
|}.
Next Obligation.
  intros k c Hc. unfold get. pose proof (ttl_get_spec k (cache c)) as [Hsub Hp].
  destruct (ttl_get k (cache c)) as [o t]. eexists _, _. split_and!; [done|by apply indexed_sub|done|done].
Qed.
Next Obligation. intros k p c Hc _. eexists. split_and!; [done|by apply indexed_set|apply ttl_set_spec]. Qed.
Next Obligation.
  intros k c Hc. eexists. split_and!; [done| |apply ttl_pop_spec]. apply indexed_sub; [|done].
  etrans; [apply ttl_pop_spec|apply delete_subseteq].
Qed.
Next Obligation.
  intros u c Hc. eexists. split_and!; [done|..].
  - intros k p Hk. destruct (invalidated u c k p Hc Hk) as [Hk0 Hne]. destruct (Hc k p Hk0) as (ks & Hks & Hin).
    exists ks. split; [|done]. cbn. by rewrite lookup_delete_ne.
  - apply pop_all_sub.
  - intros k p Hk E. destruct (invalidated u c k p Hc Hk) as [_ Hne]. by rewrite E in Hne.
Qed.
End in_process.

(** ** Access tokens *)

Section tokens.
Context `{Env} `{JwtLaws} (cfg : AuthSettings).

Lemma run_secret {S} key (s : S) :
  auth_jwt_secret_key cfg = Some key → key ≠ "" → AccessTokenService.secret cfg s = (Ret key, s).
Proof. intros E Hne. unfold AccessTokenService.secret. rewrite E. by destruct key. Qed.

(** What [issue] puts into a token. *)
Definition issued_claims (subject : uuid) (version : Z) (now : time) (jti : uuid) : Claims :=
  mkClaims (uuid_str subject) (now + minutes (auth_access_token_expire_minutes cfg)) now now (uuid_str jti) version
    (AccessTokenService.configured (auth_jwt_issuer cfg)) (AccessTokenService.configured (auth_jwt_audience cfg)).

Lemma run_issue subject version key w :
  auth_jwt_secret_key cfg = Some key → key ≠ "" →
  timedelta_ok (minutes (auth_access_token_expire_minutes cfg)) = true →
  datetime_ok (now_at (w_clock w) + minutes (auth_access_token_expire_minutes cfg)) = true →
  AccessTokenService.issue cfg subject version w =
    (Ret (jwt_encode (issued_claims subject version (now_at (w_clock w)) (uuid4_at (w_uuids w))) key (auth_jwt_algorithm cfg),
          minutes (auth_access_token_expire_minutes cfg) / second), bump_uuids (tick w)).
Proof.
  intros Hk Hne Ht Hd. unfold AccessTokenService.issue. rewrite run_bind run_utc_now run_bind.
  unfold timedelta. rewrite Ht run_ret run_bind. unfold datetime_add. rewrite Hd run_ret run_bind run_uuid4 run_bind.
  by erewrite run_secret.
Qed.

Lemma whole_seconds_le t : whole_seconds t <= t.
Proof. unfold whole_seconds, second. pose proof (Z.mul_div_le t 1000000). lia. Qed.

Lemma datetime_ok_whole t : datetime_ok t = true → datetime_ok (whole_seconds t) = true.
Proof.
  unfold datetime_ok, whole_seconds, second. rewrite !andb_true_iff !Z.leb_le !Z.ltb_lt. intros [Hlo Hhi].
  pose proof (Z.div_le_mono (-62135596800 * 1000000) t 1000000 ltac:(lia) Hlo) as Hd.
  rewrite Z.div_mul // in Hd. pose proof (Z.mul_div_le t 1000000). lia.
Qed.

(** An access token of a symmetric algorithm is accepted from the moment it is issued until its
    expiry (in whole seconds, plus the configured leeway) and refused from then
    on; it decodes to the subject and the authorization version it was issued
    for, and the announced lifetime is the configured number of minutes. *)
Theorem access_token_roundtrip subject version key w w' :
  auth_jwt_secret_key cfg = Some key → key ≠ "" → auth_jwt_algorithm cfg ∈ hmac_algorithms →
  uuid_ok subject → 0 <= auth_jwt_leeway_seconds cfg →
  timedelta_ok (minutes (auth_access_token_expire_minutes cfg)) = true →
  datetime_ok (now_at (w_clock w) + minutes (auth_access_token_expire_minutes cfg)) = true →
  0 <= auth_access_token_expire_minutes cfg → now_at (w_clock w) <= now_at (w_clock w') →
  let expiry := whole_seconds (now_at (w_clock w) + minutes (auth_access_token_expire_minutes cfg)) in
  ∃ token, AccessTokenService.issue cfg subject version w =
      (Ret (token, auth_access_token_expire_minutes cfg * 60), bump_uuids (tick w)) ∧
    (now_at (w_clock w') - auth_jwt_leeway_seconds cfg * second < expiry →
     AccessTokenService.decode cfg token w' =
       (Ret (Ok (mkPayload subject version expiry (uuid_str (uuid4_at (w_uuids w))))), tick w')) ∧
    (expiry <= now_at (w_clock w') - auth_jwt_leeway_seconds cfg * second →
     AccessTokenService.decode cfg token w' = (Ret (Err InvalidTokenError), tick w')).
Proof.
  intros Hk Hne Halg Hu Hl Ht Hd Hm Hle expiry. set (now := now_at (w_clock w)) in *.
  assert (Hmin : 0 <= minutes (auth_access_token_expire_minutes cfg)) by (unfold minutes, second; lia).
  pose proof (datetime_ok_whole _ Hd) as Hd1.
  assert (Hx : minutes (auth_access_token_expire_minutes cfg) / second = auth_access_token_expire_minutes cfg * 60).
  { unfold minutes. rewrite Z.mul_assoc Z.div_mul //. }
  eexists. split; [by erewrite run_issue, Hx|].
  set (c := issued_claims subject version now (uuid4_at (w_uuids w))).
  set (k := mkJwtCheck (now_at (w_clock w')) (auth_jwt_leeway_seconds cfg * second)
    (AccessTokenService.configured (auth_jwt_issuer cfg)) (AccessTokenService.configured (auth_jwt_audience cfg))).
  assert (Hv : claims_valid k (on_the_wire c) ↔ now_at (w_clock w') - auth_jwt_leeway_seconds cfg * second < expiry).
  { unfold claims_valid, on_the_wire, c, issued_claims. cbn. fold expiry.
    pose proof (whole_seconds_le now). unfold second in *. split; [naive_solver|]. intros ?. split_and!; [done|lia|lia|done|done]. }
  unfold AccessTokenService.decode. split; intros Hc; rewrite run_bind (run_secret key) // run_bind run_utc_now.
  - assert (E : jwt_decode (jwt_encode c key (auth_jwt_algorithm cfg)) key (auth_jwt_algorithm cfg) k = Some (on_the_wire c))
      by (apply decode_encode_jwt; [done|by rewrite Hv]).
    rewrite E. cbn. rewrite uuid_parse_str // Hd1. done.
  - destruct (jwt_decode _ _ _ _) as [c'|] eqn:E; [|done].
    apply decode_encode_jwt in E as [-> E]; [|done]. apply Hv in E. lia.
Qed.
End tokens.

(** ** Resolving a request's principal *)

Section resolve.
Context `{Env} `{Jwt} (cfg : AuthSettings) {C : Type} `{PrincipalCachePort C}.

(** What the account says about a decoded token. *)
Definition account_verdict (p : AccessTokenPayload) (d : Db) : Result Principal AuthError :=
  match find_user (at_subject p) d with
  | None => Err InvalidTokenError
  | Some u =>
      if negb (u_is_active u) then Err InactiveUserError
      else if u_authz_version u =? at_authz_version p then Ok (principal_from_user u) else Err StaleTokenError
  end.

Lemma decoded_subject_ok token p w :
  result_of (AccessTokenService.decode cfg token) w = Ret (Ok p) → uuid_ok (at_subject p).
Proof.
  unfold result_of, AccessTokenService.decode, AccessTokenService.secret. rewrite run_bind.
  destruct (auth_jwt_secret_key cfg) as [[|a k]|]; cbn; [done| |done].
  rewrite run_bind run_utc_now. cbn. intros H'. repeat split_match; simplify_eq; cbn; by eapply uuid_parse_ok.
Qed.

Lemma resolve_cases token p w c :
  cache_ok c → result_of (AccessTokenService.decode cfg token) w = Ret (Ok p) →
  ∃ res c', ResolvePrincipal.execute cfg token (w, c) =
      (Ret res, (state_of (AccessTokenService.decode cfg token) w, c')) ∧ cache_ok c' ∧
    ((∃ q, entries c !! at_token_id p = Some q ∧ res = Ok q ∧ entries c' ⊆ entries c) ∨
     (res = account_verdict p (w_db w) ∧
      match res with
      | Ok q => entries c' ⊆ <[at_token_id p := q]> (entries c)
      | Err StaleTokenError => entries c' ⊆ delete (at_token_id p) (entries c)
      | Err _ => entries c' ⊆ entries c
      end)).
Proof.
  intros Hc Hdec. unfold ResolvePrincipal.execute, result_of, state_of in *. rewrite run_bind. unfold on_fst at 1. cbn.
  assert (Hdb : w_db (AccessTokenService.decode cfg token w).2 = w_db w).
  { unfold AccessTokenService.decode, AccessTokenService.secret. rewrite run_bind.
    by destruct (auth_jwt_secret_key cfg) as [[|a k]|]. }
  pose proof (decoded_subject_ok token p w Hdec) as Hsub0.
  destruct (AccessTokenService.decode cfg token w) as [o w1]. cbn in *. subst o.
  rewrite run_bind. unfold on_snd at 1. cbn. destruct (cache_get_spec (at_token_id p) c Hc) as (o & c1 & -> & Hc1 & Hsub & Ho).
  destruct o as [q|].
  { exists (Ok q), c1. split_and!; [done..|]. left. exists q. split_and!; [by apply Ho|done..]. }
  rewrite run_bind. unfold on_fst at 1. cbn. rewrite run_get_by_id Hdb. unfold account_verdict.
  destruct (find_user (at_subject p) (w_db w)) as [u|] eqn:Eu; [|eexists _, c1; split_and!; [done..|by right]].
  destruct (u_is_active u); cbn [negb]; [|eexists _, c1; split_and!; [done..|by right]]. cbn.
  destruct (u_authz_version u =? at_authz_version p); cbn; rewrite run_bind; unfold on_snd; cbn.
  - assert (Hid : uuid_ok (p_user_id (principal_from_user u))).
    { revert Eu. unfold find_user. intros Eu. repeat split_match; simplify_eq. done. }
    destruct (cache_set_spec (at_token_id p) (principal_from_user u) c1 Hc1 Hid) as (c2 & -> & Hc2 & Hsub2).
    eexists _, c2. split_and!; [done..|]. right. split; [done|]. etrans; [done|]. by apply insert_mono.
  - destruct (cache_pop_spec (at_token_id p) c1 Hc1) as (c2 & -> & Hc2 & Hsub2).
    eexists _, c2. split_and!; [done..|]. right. split; [done|]. etrans; [done|]. by apply delete_mono.
Qed.

(** A request with a decodable token is answered from the cache entry of
    that very token when there is one, and otherwise from the stored account:
    refused when the account is missing or erased, inactive, or at another
    authorization version than the token's; only a principal accepted from the
    account enters the cache, and no row changes. *)
Theorem resolve_decides token p w c :
  cache_ok c → result_of (AccessTokenService.decode cfg token) w = Ret (Ok p) →
  ∃ res c', ResolvePrincipal.execute cfg token (w, c) =
      (Ret res, (state_of (AccessTokenService.decode cfg token) w, c')) ∧ cache_ok c' ∧
    ((∃ q, entries c !! at_token_id p = Some q ∧ res = Ok q ∧ entries c' ⊆ entries c) ∨
     (res = account_verdict p (w_db w) ∧
      match res with
      | Ok q => entries c' ⊆ <[at_token_id p := q]> (entries c)
      | Err StaleTokenError => entries c' ⊆ delete (at_token_id p) (entries c)
      | Err _ => entries c' ⊆ entries c
      end)).
Proof. apply resolve_cases. Qed.
End resolve.

(** ** The properties on concrete inputs *)

Lemma access_token_roundtrip_witness :
  ∃ token, AccessTokenService.issue demo_settings 1000%N 1 init_world =
      (Ret (token, 900), bump_uuids (tick init_world)) ∧
    ∃ p, result_of (AccessTokenService.decode demo_settings token) (tick init_world) = Ret (Ok p) ∧ at_subject p = 1000%N.
Proof.
  destruct (access_token_roundtrip demo_settings 1000%N 1 "secret" init_world (tick init_world)) as (t & E & Hd & _);
    [reflexivity|discriminate|apply list_elem_of_here|vm_compute; reflexivity|vm_compute; discriminate|vm_compute; reflexivity..
    |vm_compute; discriminate|vm_compute; discriminate|].
  exists t. split; [exact E|]. unfold result_of. rewrite Hd; [|vm_compute; reflexivity]. eexists. split; reflexivity.
Defined.

(** The token of the first demo account, as decoded. *)
Definition demo_token : string :=
  match result_of (AccessTokenService.issue demo_settings 1000%N 1) demo_users with Ret (t, _) => t | _ => "" end.

Lemma resolve_decides_witness :
  ∃ res c', ResolvePrincipal.execute demo_settings demo_token (demo_users, demo_cache) =
      (Ret res, (tick demo_users, c')) ∧ cache_ok c' ∧ is_ok res = true.
Proof.
  destruct (result_of (AccessTokenService.decode demo_settings demo_token) demo_users) as [[p|]|] eqn:E;
    [|vm_compute in E; discriminate E..].
  destruct (resolve_decides demo_settings demo_token p demo_users demo_cache) as (res & c' & Ex & Hc & _);
    [intros k q Hk; vm_compute in Hk; discriminate Hk|exact E|].
  exists res, c'. split_and!; [exact Ex|exact Hc|].
  apply (f_equal (λ x, match x.1 with Ret r => is_ok r | Raise _ => false end)) in Ex.
  etransitivity; [symmetry; exact Ex|]. vm_compute. reflexivity.
Defined.
