(* ===== verification/RefreshFamilies.v ===== *)
(** Refresh-token families over arbitrary sequences of authentication
    operations: a family has one owner and at most one live token, and a family
    whose tokens are all revoked never comes back to life. *)

From stdpp Require Import relations.
From S2P Require Import Prelude PyStr Uuid Store StoreFacts Demo Outbox Users UsersFacts AuthRepo AuthRepoFacts Principals DemoAuth PrincipalsFacts Auth Gdpr.
Open Scope string_scope.
Open Scope list_scope.
Open Scope Z_scope.

(** One owner and at most one live token per family. *)
Definition families_ok (m : gmap uuid RefreshRow) : Prop :=
  ∀ i j r s, m !! i = Some r → m !! j = Some s → rt_family_id r = rt_family_id s →
    rt_user_id r = rt_user_id s ∧ (rt_revoked_at r = None → rt_revoked_at s = None → i = j).

(** Every token of the family is revoked. *)
Definition family_dead (f : uuid) (m : gmap uuid RefreshRow) : Prop :=
  ∀ i r, m !! i = Some r → rt_family_id r = f → is_Some (rt_revoked_at r).

Section invariant.
Context `{Env} `{!UuidsDistinct}.
(** The families known to be dead. *)
Context (dead : uuid → Prop).

(** After [n] identifiers have been drawn: no identifier still to come names a
    family or a dead one, the families are in order and the dead ones are dead. *)
Definition inv (n : nat) (m : gmap uuid RefreshRow) : Prop :=
  (∀ k, (n <= k)%nat → ¬ dead (uuid4_at k) ∧ ∀ i r, m !! i = Some r → rt_family_id r ≠ uuid4_at k) ∧
  families_ok m ∧ (∀ f, dead f → family_dead f m).

Lemma inv_mono n k m : (n <= k)%nat → inv n m → inv k m.
Proof. intros Hle (Hf & ? & ?). split_and!; [|done..]. intros j Hj. apply Hf. lia. Qed.

(** *** What statements do to the tokens *)

(** Rows may be dropped and revoked, their owner and family stay. *)
Definition shrinks (m m' : gmap uuid RefreshRow) : Prop :=
  ∀ i r', m' !! i = Some r' → ∃ r, m !! i = Some r ∧ rt_user_id r' = rt_user_id r ∧
    rt_family_id r' = rt_family_id r ∧ (is_Some (rt_revoked_at r) → is_Some (rt_revoked_at r')).

Lemma shrinks_inv n m m' : shrinks m m' → inv n m → inv n m'.
Proof.
  intros Hs (Hf & Hok & Hd). split_and!.
  - intros k Hk. destruct (Hf k Hk) as [? Hr]. split; [done|]. intros i r' Hi.
    destruct (Hs i r' Hi) as (r & Hir & _ & -> & _). eauto.
  - intros i j r' s' Hi Hj E. destruct (Hs _ _ Hi) as (r & Hr & -> & Er & Hvr), (Hs _ _ Hj) as (s & Hs' & -> & Es & Hvs).
    destruct (Hok i j r s) as [Hu Hl]; [done..|congruence|]. split; [done|].
    intros Hlr Hls.
    apply Hl; apply eq_None_not_Some; intros Hs2; [apply Hvr in Hs2|apply Hvs in Hs2];
      rewrite ?Hlr ?Hls in Hs2; by destruct Hs2.
  - intros f Hdf i r' Hi E. destruct (Hs _ _ Hi) as (r & Hr & _ & Er & Hv). apply Hv.
    apply (Hd f Hdf i r Hr). congruence.
Qed.

Lemma shrinks_revoke P now m : shrinks m (update_where P (set_revoked now) m).
Proof.
  intros i r'. rewrite lookup_update_where fmap_Some. intros (r & Hr & ->). exists r.
  destruct (P i r); split_and!; try done. cbn. by destruct (rt_revoked_at r).
Qed.
Lemma shrinks_replace k now i m : shrinks m (alter (set_replaced_by k ∘ set_revoked now) i m).
Proof.
  intros j r'. rewrite lookup_alter_Some. intros [(-> & r & Hr & ->)|(_ & Hr)]; [exists r|by exists r'].
  split_and!; try done. cbn. by destruct (rt_revoked_at r).
Qed.
Lemma shrinks_delete P m : shrinks m (delete_refresh_where P m).
Proof.
  intros i r'. unfold delete_refresh_where. rewrite lookup_fmap fmap_Some. intros (r & Hr & ->).
  rewrite lookup_delete_where in Hr. apply bind_Some in Hr as (r0 & Hr & HP). destruct (P i r0); [done|].
  simplify_eq. by exists r.
Qed.

(** A login's token starts a family of its own. *)
Lemma inv_login n k i row m :
  (n <= k)%nat → m !! i = None → rt_family_id row = uuid4_at k → inv n m → inv (S k) (<[i := row]> m).
Proof.
  intros Hk Hi Ef (Hf & Hok & Hd). destruct (Hf k Hk) as [Hdk Hnk]. split_and!.
  - intros l Hl. destruct (Hf l) as [? Hnl]; [lia|]. split; [done|]. intros j r.
    rewrite lookup_insert_Some. intros [[<- <-]|[_ Hr]]; [|eauto]. rewrite Ef. intros ?%uuid4_inj. lia.
  - intros a b r s. rewrite !lookup_insert_Some.
    intros [[<- <-]|[_ Hr]] [[<- <-]|[_ Hs]] E; [done|..|by eapply Hok].
    + destruct (Hnk b s Hs). congruence.
    + destruct (Hnk a r Hr). congruence.
  - intros f Hdf a r. rewrite lookup_insert_Some. intros [[<- <-]|[_ Hr]] E; [|by eapply Hd].
    exfalso. apply Hdk. rewrite -Ef. by rewrite E.
Qed.

(** A rotation replaces the live token of a family. *)
Lemma inv_rotate n i j r row k now m :
  m !! i = Some r → rt_revoked_at r = None → m !! j = None →
  rt_family_id row = rt_family_id r → rt_user_id row = rt_user_id r → inv n m →
  inv n (alter (set_replaced_by k ∘ set_revoked now) i (<[j := row]> m)).
Proof.
  intros Hi Hlive Hj Ef Eu (Hf & Hok & Hd).
  assert (Hne : i ≠ j) by (intros ->; by rewrite Hi in Hj).
  assert (Hlk : ∀ a s, alter (set_replaced_by k ∘ set_revoked now) i (<[j := row]> m) !! a = Some s →
    (a = j ∧ s = row) ∨ (a = i ∧ s = set_replaced_by k (set_revoked now r)) ∨ (a ≠ i ∧ a ≠ j ∧ m !! a = Some s)).
  { intros a s. rewrite lookup_alter_Some. intros [(-> & s0 & Hs & ->)|(Ha & Hs)].
    - rewrite lookup_insert_ne // Hi in Hs. simplify_eq. by right; left.
    - apply lookup_insert_Some in Hs as [[<- <-]|[? Hs]]; [by left|]. by right; right. }
  split_and!.
  - intros l Hl. destruct (Hf l Hl) as [? Hnl]. split; [done|].
    intros a s [[-> ->]|[[-> ->]|(_ & _ & Hs)]]%Hlk; [rewrite Ef; eauto|cbn; eauto|eauto].
  - intros a b s t [[-> ->]|[[-> ->]|(Ha & Ha' & Hs)]]%Hlk [[-> ->]|[[-> ->]|(Hb & Hb' & Ht)]]%Hlk E; cbn in *;
      rewrite ?Hlive; try done; try (split; [congruence|done]).
    + destruct (Hok i b r t) as [? Hl]; [done..|congruence|]. split; [congruence|].
      intros _ Hlt. by destruct Hb; rewrite -Hl.
    + destruct (Hok i b r t) as [? Hl]; [done..|]. split; [congruence|done].
    + destruct (Hok a i s r) as [? Hl]; [done..|congruence|]. split; [congruence|].
      intros Hls _. by destruct Ha; rewrite -Hl.
    + destruct (Hok a i s r) as [? Hl]; [done..|]. split; [congruence|done].
    + by apply (Hok a b s t).
  - intros f Hdf a s [[-> ->]|[[-> ->]|(_ & _ & Hs)]]%Hlk E; [|cbn; rewrite Hlive; by eexists|by eapply Hd].
    destruct (Hd f Hdf i r Hi) as [t Ht]; [congruence|]. by rewrite Hlive in Ht.
Qed.

(** *** Procedures that keep the invariant *)

(** On the committed rows, and on what the open session sees. *)
Definition kept (w : World) : Prop := inv (w_uuids w) (refresh_tokens (w_db w)).
Definition staged (w : World) : Prop := inv (w_uuids w) (refresh_tokens (w_session w)).

(** Every statement of the procedure keeps the invariant. *)
Definition keeps {A} (m : IO A) : Prop := ∀ w,
  kept w → staged w → kept (m w).2 ∧ staged (m w).2 ∧ (w_uuids w <= w_uuids (m w).2)%nat.
(** The procedure as a whole keeps the invariant on the committed rows. *)
Definition safe {A} (m : IO A) : Prop := ∀ w,
  kept w → kept (m w).2 ∧ w_session (m w).2 = w_session w ∧ (w_uuids w <= w_uuids (m w).2)%nat.

Lemma keeps_ret {A} (a : A) : keeps (mret a).
Proof. intros w ??. by split_and!. Qed.
Lemma keeps_raise {A} e : keeps (raise e : IO A).
Proof. intros w ??. by split_and!. Qed.
Lemma keeps_bind {A B} (m : IO A) (f : A → IO B) : keeps m → (∀ a, keeps (f a)) → keeps (m ≫= f).
Proof.
  intros Hm Hf w Hk Hs. rewrite run_bind. destruct (Hm w Hk Hs) as (Hk' & Hs' & Hle).
  destruct (m w) as [[a|e] w']; cbn in *; [|done].
  destruct (Hf a w' Hk' Hs') as (? & ? & ?). split_and!; [done..|lia].
Qed.
(** Effects that touch neither rows nor identifiers. *)
Lemma keeps_pure {A} (m : IO A) :
  (∀ w, w_db (m w).2 = w_db w ∧ w_session (m w).2 = w_session w ∧ w_uuids (m w).2 = w_uuids w) → keeps m.
Proof. intros Hm w. unfold kept, staged. by destruct (Hm w) as (-> & -> & ->). Qed.
Lemma keeps_uuid4 : keeps uuid4.
Proof. intros w ??. split_and!; [by eapply inv_mono; [|done]; cbn; lia..|cbn; lia]. Qed.
Lemma keeps_stage f : (∀ d, shrinks (refresh_tokens d) (refresh_tokens (f d))) → keeps (stage f).
Proof. intros Hf w Hk Hs. split_and!; [exact Hk| |cbn; lia]. eapply shrinks_inv; [apply Hf|exact Hs]. Qed.
Lemma shrinks_refl m : shrinks m m.
Proof. intros i r Hr. by exists r. Qed.
Lemma keeps_add_row {R} (get : Db → gmap uuid R) (set : (gmap uuid R → gmap uuid R) → Db → Db) i r :
  (∀ f d, refresh_tokens (set f d) = refresh_tokens d) → keeps (add_row get set i r).
Proof.
  intros Hset w Hk Hs. unfold add_row. destruct (get _ !! i); [done|]. split_and!; [exact Hk| |cbn; lia].
  unfold staged. cbn. by rewrite Hset.
Qed.
Lemma keeps_flush : keeps flush.
Proof. intros w ??. unfold flush. by case_decide. Qed.
Lemma keeps_commit : keeps commit.
Proof.
  intros w Hk Hs. unfold commit. rewrite run_bind. unfold flush. case_decide; [|done].
  split_and!; [exact Hs|exact Hs|cbn; lia].
Qed.
Lemma keeps_try {A} (m : IO A) h : keeps m → (∀ e, keeps (h e)) → keeps (try_except m h).
Proof.
  intros Hm Hh w Hk Hs. unfold try_except. destruct (Hm w Hk Hs) as (Hk' & Hs' & ?).
  destruct (m w) as [[a|e] w']; cbn in *; [done|]. destruct (Hh e w' Hk' Hs') as (? & ? & ?).
  split_and!; [done..|lia].
Qed.
Lemma keeps_savepoint {A} (m h : IO A) : keeps m → keeps h → keeps (savepoint m h).
Proof.
  intros Hm Hh w Hk Hs. unfold savepoint. destruct (Hm w Hk Hs) as (Hk' & Hs' & Hle).
  destruct (m w) as [[a|[]] w']; cbn in *; try done.
  destruct (Hh (set_session (w_session w) w')) as (? & ? & ?); [done|by eapply inv_mono|].
  split_and!; [done..|cbn in *; lia].
Qed.
Lemma safe_with_session {A} (m : IO A) : keeps m → safe (with_session m).
Proof.
  intros Hm w Hk. unfold with_session.
  destruct (Hm (set_session (w_db w) w) Hk Hk) as (? & _ & ?). by destruct (m _) as [o w'].
Qed.
Lemma safe_write_scope {A} (m : IO A) : keeps m → safe (write_scope m).
Proof.
  intros Hm. apply safe_with_session. apply keeps_bind; [done|]. intros a.
  apply keeps_bind; [apply keeps_commit|]. intros []. apply keeps_ret.
Qed.
Lemma safe_keeps {A} (m : IO A) : safe m → keeps m.
Proof.
  intros Hm w Hk Hs. destruct (Hm w Hk) as (? & Es & ?). split_and!; [done| |done].
  unfold staged. rewrite Es. by eapply inv_mono.
Qed.
Lemma safe_bind {A B} (m : IO A) (f : A → IO B) : safe m → (∀ a, safe (f a)) → safe (m ≫= f).
Proof.
  intros Hm Hf w Hk. rewrite run_bind. destruct (Hm w Hk) as (Hk' & Hs' & Hle).
  destruct (m w) as [[a|e] w']; cbn in *; [|done].
  destruct (Hf a w' Hk') as (? & ? & ?). split_and!; [done|congruence|lia].
Qed.
Lemma safe_pure {A} (m : IO A) :
  (∀ w, w_db (m w).2 = w_db w ∧ w_session (m w).2 = w_session w ∧ w_uuids (m w).2 = w_uuids w) → safe m.
Proof. intros Hm w. unfold kept. by destruct (Hm w) as (-> & -> & ->). Qed.
Lemma safe_uuid4 : safe uuid4.
Proof. intros w ?. split_and!; [by eapply inv_mono; [|done]; cbn; lia|done|cbn; lia]. Qed.
End invariant.

(** Walk through a procedure, statement by statement. *)
Ltac keep :=
  repeat match goal with
  | |- keeps _ (if ?b then _ else _) => destruct b
  | |- keeps _ (match ?x with _ => _ end) => destruct x
  | |- keeps _ (with_session _) => apply safe_keeps, safe_with_session
  | |- keeps _ (write_scope _) => apply safe_keeps, safe_write_scope
  | |- safe _ (if ?b then _ else _) => destruct b
  | |- safe _ (match ?x with _ => _ end) => destruct x
  | |- safe _ (with_session _) => apply safe_with_session
  | |- safe _ (write_scope _) => apply safe_write_scope
  | |- keeps _ (mret _) => apply keeps_ret
  | |- keeps _ (raise _) => apply keeps_raise
  | |- keeps _ flush => apply keeps_flush
  | |- keeps _ commit => apply keeps_commit
  | |- keeps _ uuid4 => apply keeps_uuid4
  | |- safe _ uuid4 => apply safe_uuid4
  | |- keeps _ (stage _) => apply keeps_stage; intros ?
  | |- keeps _ (add_row _ _ _ _) => by apply keeps_add_row
  | |- keeps _ (savepoint _ _) => apply keeps_savepoint
  | |- keeps _ (try_except _ _) => apply keeps_try; [|intros ?]
  | |- keeps _ (mbind _ _) => apply keeps_bind; [|intros ?]
  | |- safe _ (mbind _ _) => apply safe_bind; [|intros ?]
  | |- shrinks _ _ => first [apply shrinks_revoke | apply shrinks_replace | apply shrinks_delete | apply shrinks_refl]
  | |- keeps _ _ => apply keeps_pure; by intros
  | |- safe _ _ => apply safe_pure; by intros
  end.

(** ** Every operation of the program *)

Section operations.
Context `{Env} `{!UuidsDistinct} `{Jwt} (cfg : AuthSettings) {C : Type} `{PrincipalCachePort C}.
Context (dead : uuid → Prop).

Lemma safe_issue u v : safe dead (AccessTokenService.issue cfg u v).
Proof.
  unfold AccessTokenService.issue, AccessTokenService.secret, timedelta, datetime_add.
  repeat (apply safe_bind; [|intros ?]); try apply safe_uuid4; apply safe_pure; intros w; by repeat split_match.
Qed.

Lemma keeps_audit e u ip ua m : keeps dead (add_audit e u ip ua m).
Proof. unfold add_audit. keep. Qed.
Lemma keeps_put_credential u a h : keeps dead (put_credential u a h).
Proof. unfold put_credential, find_credential, one_or_none. keep. Qed.
Lemma keeps_revoke_one i k : keeps dead (revoke_one i k).
Proof. unfold revoke_one. keep. Qed.
Lemma keeps_mark_used i : keeps dead (mark_used i).
Proof. unfold mark_used. keep. Qed.
Lemma keeps_revoke_user u : keeps dead (revoke_user_tokens u).
Proof. unfold revoke_user_tokens. keep. Qed.
Lemma keeps_bump u : keeps dead (SessionUsers.bump_authz_version u).
Proof. unfold SessionUsers.bump_authz_version, get_user, save_user. keep. Qed.
Lemma keeps_mark_verified u : keeps dead (SessionUsers.mark_verified u).
Proof. unfold SessionUsers.mark_verified, get_user, save_user. keep. Qed.
Lemma keeps_create e : keeps dead (SessionUsers.create e).
Proof. unfold SessionUsers.create. keep. Qed.
Lemma keeps_enqueue j p t : keeps dead (SessionSQLModelOutboxAdapter.enqueue j p t).
Proof. unfold SessionSQLModelOutboxAdapter.enqueue. keep. Qed.
Lemma safe_get_by_email e : safe dead (EngineUsers.get_by_email e).
Proof. unfold EngineUsers.get_by_email, SessionUsers.get_by_email. keep. Qed.
Lemma safe_get_by_id i : safe dead (EngineUsers.get_by_id i).
Proof. unfold EngineUsers.get_by_id, SessionUsers.get_by_id, get_user. keep. Qed.
Lemma safe_update_last_login i t : safe dead (EngineUsers.update_last_login i t).
Proof. unfold EngineUsers.update_last_login, get_user, save_user. keep. Qed.
Lemma safe_record_audit e u ip ua m : safe dead (AuthRepository.record_audit_event e u ip ua m).
Proof. apply safe_write_scope, keeps_audit. Qed.
Lemma safe_get_credential u : safe dead (AuthRepository.get_credential_for_user u).
Proof. unfold AuthRepository.get_credential_for_user, find_credential, one_or_none. keep. Qed.
Lemma safe_revoke_user u : safe dead (AuthRepository.revoke_user_refresh_tokens u).
Proof. apply safe_write_scope, keeps_revoke_user. Qed.

Lemma safe_register e p ip ua : safe dead (RegisterUser.execute e p ip ua).
Proof.
  unfold RegisterUser.execute. apply safe_bind; [by apply safe_pure|intros h].
  apply safe_write_scope, keeps_bind; [apply keeps_create|].
  intros [u|[]]; [|apply keeps_ret..]. apply keeps_bind; [apply keeps_put_credential|intros _].
  apply keeps_bind; [apply keeps_audit|intros _]. apply keeps_ret.
Qed.

Lemma safe_logout t : safe dead (LogoutUser.execute t).
Proof.
  unfold LogoutUser.execute, AuthRepository.get_refresh_token_by_hash, find_refresh, one_or_none,
    AuthRepository.revoke_refresh_token, when.
  destruct t as [[]|]; keep; apply keeps_revoke_one.
Qed.

Lemma safe_issue_internal user p e t uk u n raw x ip : safe dead (issue_internal cfg user p e t uk u n raw x ip).
Proof.
  unfold issue_internal, IssueTokenTx.invalidate_unused_tokens_for, IssueTokenTx.create_internal_token, insert_internal.
  apply safe_write_scope. keep; [apply keeps_audit|apply keeps_enqueue].
Qed.
Lemma safe_request_reset e ip : safe dead (RequestPasswordReset.execute cfg e ip).
Proof.
  unfold RequestPasswordReset.execute, timedelta, datetime_add. apply safe_bind; [apply safe_get_by_email|].
  intros [u|]; keep. apply safe_issue_internal.
Qed.
Lemma safe_request_verification i ip : safe dead (RequestEmailVerification.execute cfg i ip).
Proof.
  unfold RequestEmailVerification.execute, timedelta, datetime_add. apply safe_bind; [apply safe_get_by_id|].
  intros [u|]; keep. apply safe_issue_internal.
Qed.

Lemma safe_consume t p apply_ : (∀ i u, keeps dead (apply_ i u)) → safe dead (consume t p apply_).
Proof.
  intros Ha. unfold consume, InternalTokenTx.get_internal_token_for_update, find_internal, one_or_none.
  apply safe_write_scope. keep. apply Ha.
Qed.
Lemma keeps_apply_reset h i u : keeps dead (ConfirmPasswordReset.apply_reset h i u).
Proof.
  unfold ConfirmPasswordReset.apply_reset. apply keeps_bind; [apply keeps_put_credential|intros _].
  apply keeps_bind; [apply keeps_bump|intros _]. apply keeps_bind; [apply keeps_mark_used|intros _].
  apply keeps_bind; [apply keeps_revoke_user|intros _]. apply keeps_audit.
Qed.
Lemma keeps_apply_verification i u : keeps dead (ConfirmEmailVerification.apply_verification i u).
Proof.
  unfold ConfirmEmailVerification.apply_verification. apply keeps_bind; [apply keeps_mark_verified|intros _].
  apply keeps_bind; [apply keeps_mark_used|intros _]. apply keeps_audit.
Qed.

Lemma safe_delete_loop batch fuel n : safe dead batch → safe dead (AuthRepository.delete_loop batch fuel n).
Proof.
  intros Hb. revert n. induction fuel as [|fuel IH]; intros n; cbn; [by apply safe_pure|].
  apply safe_bind; [done|]. intros k. destruct (k <=? 0); [by apply safe_pure|done].
Qed.
Lemma safe_purge fuel n : safe dead (PurgeExpiredTokens.execute fuel n).
Proof.
  unfold PurgeExpiredTokens.execute, timedelta, datetime_add. keep;
    apply safe_delete_loop; [unfold AuthRepository.delete_refresh_batch|unfold AuthRepository.delete_internal_batch]; keep.
Qed.
(** The write of a deactivation. *)
Lemma safe_set_inactive (b : bool) i :
  safe dead (if b then
    SQLModelOutboxUnitOfWork.transaction (
      EngineUsers.set_active_atomically_with i false ;;
      SessionSQLModelOutboxAdapter.enqueue DELETE_USER_ASSETS_JOB (user_payload i) None)
    else EngineUsers.set_active i false).
Proof.
  destruct b.
  - apply safe_write_scope. apply keeps_bind; [|intros _; apply keeps_enqueue].
    unfold EngineUsers.set_active_atomically_with, SessionUsers.set_active, get_user, save_user. keep.
  - unfold EngineUsers.set_active, get_user, save_user. keep.
Qed.

Lemma safe_erase i reason : safe dead (EraseUser.execute i reason).
Proof.
  unfold EraseUser.execute, EngineUsers.get_raw_by_id, SessionUsers.get_raw_by_id, get_user,
    SQLModelAuthArtifactsCleanupAdapter.scrub_audit_events,
    SQLModelAuthArtifactsCleanupAdapter.delete_credentials_and_tokens,
    EngineUsers.scrub_for_erasure_atomically_with, SessionUsers.scrub_for_erasure_atomically_with, get_user, save_user,
    SQLModelAuthArtifactsCleanupAdapter.record_user_erased_event, SQLModelOutboxUnitOfWork.transaction.
  keep. apply keeps_enqueue.
Qed.

(** Storing a token, whatever happens. *)
Lemma insert_refresh_cases u h f e ip ua w o w' :
  insert_refresh u h f e ip ua w = (o, w') →
  w_db w' = w_db w ∧ (w_uuids w <= w_uuids w')%nat ∧
  (∀ a, o = Ret a → refresh_tokens (w_session w) !! a.1 = None ∧
     w_session w' = set_refresh_tokens (<[a.1 := a.2]>) (w_session w) ∧
     rt_family_id a.2 = f ∧ rt_user_id a.2 = u).
Proof.
  unfold insert_refresh. rewrite run_bind run_sess run_bind.
  destruct (one_or_none _ w) as [[x|x] w1] eqn:E1;
    (assert (w1 = w) as -> by (unfold one_or_none in E1; repeat split_match; by inversion E1));
    [|intros [= <- <-]; by split_and!].
  case_bool_decide; [intros [= <- <-]; by split_and!|].
  rewrite run_bind run_uuid4 run_bind run_utc_now run_bind. unfold add_row.
  destruct (refresh_tokens (w_session (tick (bump_uuids w))) !! _) eqn:Ei; [intros [= <- <-]; cbn; split_and!; [done|lia|done]|].
  rewrite run_bind. unfold flush. case_decide; rewrite ?run_ret; intros [= <- <-]; cbn;
    (split_and!; [done|lia|]); intros a [= <-]. by split_and!.
Qed.

(** Login: the family identifier is drawn before the token is stored. *)
Lemma create_in_new_family k u h e ip ua w :
  inv dead k (refresh_tokens (w_db w)) → (S k <= w_uuids w)%nat →
  let w' := (AuthRepository.create_refresh_token u h (uuid4_at k) e ip ua w).2 in
  kept dead w' ∧ w_session w' = w_session w ∧ (w_uuids w <= w_uuids w')%nat.
Proof.
  intros Hinv Hk. cbv zeta. unfold AuthRepository.create_refresh_token.
  destruct (write_scope_cases (insert_refresh u h (uuid4_at k) e ip ua) w)
    as [(a & w1 & Eb & Hok & ->)|(o & w1 & x & Eb & ->)];
    destruct (insert_refresh_cases _ _ _ _ _ _ _ _ _ Eb) as (Ed & Hle & Ha); cbn in *.
  - destruct (Ha a eq_refl) as (Hi & Es & Ef & _). split_and!; [|done..]. unfold kept. cbn. rewrite Es. cbn.
    eapply inv_mono; [|by eapply (inv_login _ k k)]. lia.
  - split_and!; [|done..]. unfold kept. cbn. rewrite Ed. eapply inv_mono; [|done]. lia.
Qed.

Lemma safe_login email pw ip ua : safe dead (LoginUser.execute cfg email pw ip ua).
Proof.
  assert (Hrej : ∀ u y e, safe dead (LoginUser.reject u y ip ua e)).
  { intros u y e. unfold LoginUser.reject. apply safe_bind; [apply safe_record_audit|intros _]. keep. }
  unfold LoginUser.execute. apply safe_bind; [apply safe_get_by_email|]. intros user.
  apply safe_bind; [destruct user; cbn; [apply safe_get_credential|keep]|]. intros cr.
  apply safe_bind; [keep|]. intros ok. destruct user as [user|]; [|apply Hrej].
  destruct ok; [|apply Hrej]. destruct (u_is_active user); [|apply Hrej].
  destruct (_ && _); [apply Hrej|]. cbn [negb].
  apply safe_bind; [keep|]. intros now. apply safe_bind; [apply safe_update_last_login|intros _].
  apply safe_bind; [apply safe_issue|]. intros issued. apply safe_bind; [keep|]. intros raw.
  intros w Hw. rewrite run_bind run_uuid4 run_bind run_utc_now run_bind.
  unfold timedelta. destruct (timedelta_ok _); [|split_and!; [by eapply inv_mono; [|done]; cbn; lia|done|cbn; lia]].
  rewrite run_ret run_bind. unfold datetime_add.
  destruct (datetime_ok _); [|split_and!; [by eapply inv_mono; [|done]; cbn; lia|done|cbn; lia]].
  rewrite run_ret run_bind.
  set (w1 := tick (bump_uuids w)).
  destruct (create_in_new_family (w_uuids w) (u_id user) (hash_token raw)
    (now_at (w_clock (bump_uuids w)) + auth_refresh_token_expire_days cfg * day) ip ua w1) as (Hk & Hs & Hle); [done|cbn; lia|].
  destruct (AuthRepository.create_refresh_token _ _ _ _ _ _ w1) as [[row|x] w2]; cbn in *;
    [|split_and!; [done..|lia]].
  assert (Hrest : safe dead (AuthRepository.record_audit_event "auth.login_succeeded" (Some (u_id user)) ip ua ∅ ;;
    metric AUTH_LOGINS_TOTAL "success" ;;
    mret (Ok (mkIssuedTokens issued.1 raw issued.2, principal_from_user user) : Result _ AuthError))).
  { apply safe_bind; [apply safe_record_audit|intros _]. keep. }
  destruct (Hrest w2 Hk) as (? & Hs2 & ?). split_and!; [done|congruence|lia].
Qed.

(** Rotation: two statements that keep the invariant only together. *)
Lemma issue_cases u v w o w' :
  AccessTokenService.issue cfg u v w = (o, w') →
  w_db w' = w_db w ∧ w_session w' = w_session w ∧ (w_uuids w <= w_uuids w')%nat.
Proof.
  unfold AccessTokenService.issue, AccessTokenService.secret, timedelta, datetime_add.
  rewrite run_bind run_utc_now run_bind. destruct (timedelta_ok _); [|intros [= <- <-]; by split_and!].
  rewrite run_ret run_bind. destruct (datetime_ok _); [|intros [= <- <-]; by split_and!].
  rewrite run_ret run_bind run_uuid4 run_bind.
  destruct (auth_jwt_secret_key cfg) as [[|c k]|]; rewrite ?run_ret; intros [= <- <-]; cbn; split_and!; (done || lia).
Qed.

Lemma rotate_cases i r now ip ua w o w' :
  refresh_tokens (w_session w) !! i = Some r → rt_revoked_at r = None → staged dead w →
  RotateRefreshToken.rotate cfg (i, r) now ip ua w = (o, w') →
  w_db w' = w_db w ∧ (w_uuids w <= w_uuids w')%nat ∧ (∀ a, o = Ret a → staged dead w').
Proof.
  intros Hi Hl Hs. unfold RotateRefreshToken.rotate. rewrite run_bind run_get_by_id.
  destruct (find_user _ _) as [user|]; [|intros [= <- <-]; by split_and!].
  destruct (u_is_active user); cbn [negb]; [|intros [= <- <-]; by split_and!].
  rewrite run_bind. destruct (AccessTokenService.issue cfg _ _ w) as [[t|x] w1] eqn:E1;
    destruct (issue_cases _ _ _ _ _ E1) as (Ed1 & Es1 & Hle1); [|intros [= <- <-]; by split_and!].
  rewrite run_bind. unfold generate_opaque_token. rewrite run_token_urlsafe run_bind. unfold timedelta.
  destruct (timedelta_ok _); [|intros [= <- <-]; by split_and!]. rewrite run_ret run_bind. unfold datetime_add.
  destruct (datetime_ok _); [|intros [= <- <-]; by split_and!]. rewrite run_ret run_bind.
  unfold RefreshTokenTx.create_refresh_token.
  destruct (insert_refresh _ _ _ _ _ _ _) as [[[j row]|x] w2] eqn:E2;
    destruct (insert_refresh_cases _ _ _ _ _ _ _ _ _ E2) as (Ed2 & Hle2 & Ha); cbn in Ed2, Hle2;
    [|intros [= <- <-]; split_and!; [congruence|lia|done]].
  destruct (Ha (j, row) eq_refl) as (Hj & Es2 & Ef & Eu). cbn in Hj, Es2, Ef, Eu.
  rewrite Es1 in Hj, Es2. rewrite run_bind.
  assert (Hi2 : refresh_tokens (w_session w2) !! i = Some r).
  { rewrite Es2. cbn. rewrite lookup_insert_ne //. intros ->. by rewrite Hj in Hi. }
  unfold RefreshTokenTx.revoke_refresh_token. rewrite (run_revoke_one i _ r) // Hl. cbv zeta. cbn [default].
  set (w3 := set_session _ (tick w2)).
  assert (Hs3 : staged dead w3).
  { unfold staged, w3. cbn. rewrite Es2. cbn. apply (inv_rotate dead _ i j r row); [done..|].
    eapply inv_mono; [|exact Hs]. lia. }
  rewrite run_bind. unfold RefreshTokenTx.record_audit_event.
  assert (Hk : ∀ x, w_db (add_audit "auth.refresh_succeeded" (Some (rt_user_id r)) ip ua x w3).2 = w_db w3).
  { intros x. unfold add_audit. rewrite run_bind run_uuid4 run_bind run_utc_now. unfold add_row. by split_match. }
  assert (Ha3 : staged dead (add_audit "auth.refresh_succeeded" (Some (rt_user_id r)) ip ua ∅ w3).2 ∧
    (w_uuids w3 <= w_uuids (add_audit "auth.refresh_succeeded" (Some (rt_user_id r)) ip ua ∅ w3).2)%nat).
  { unfold add_audit. rewrite run_bind run_uuid4 run_bind run_utc_now. unfold add_row. split_match; cbn;
      (split; [|lia]); (eapply inv_mono; [|exact Hs3]); cbn; lia. }
  specialize (Hk ∅). destruct Ha3 as [Hs4 Hle4].
  destruct (add_audit _ _ _ _ _ w3) as [[[]|x] w4]; cbn in Hk, Hs4, Hle4;
    intros [= <- <-]; (split_and!; [congruence|lia|done]).
Qed.

(** A transaction body may break the invariant on the way: the rows it leaves
    when it returns are what counts. *)
Definition scoped {A} (m : IO A) : Prop := ∀ w, kept dead w → staged dead w →
  kept dead (m w).2 ∧ (w_uuids w <= w_uuids (m w).2)%nat ∧ (∀ a, (m w).1 = Ret a → staged dead (m w).2).

Lemma scoped_write_scope {A} (m : IO A) : scoped m → safe dead (write_scope m).
Proof.
  intros Hm w Hw. destruct (Hm (set_session (w_db w) w) Hw Hw) as (Hk & Hle & Hs).
  destruct (write_scope_cases m w) as [(a & w1 & Eb & _ & ->)|(o & w1 & x & Eb & ->)];
    rewrite Eb in Hk, Hle, Hs; cbn in *; split_and!; try done.
  by apply (Hs a).
Qed.

Lemma safe_rotate token ip ua : safe dead (RotateRefreshToken.execute cfg token ip ua).
Proof.
  unfold RotateRefreshToken.execute. apply safe_bind; [|intros; keep].
  destruct token as [[|c token]|]; cbn; [by apply safe_pure| |by apply safe_pure].
  set (tok := String c token). apply scoped_write_scope. intros w Hw Hs.
  rewrite run_bind. unfold RefreshTokenTx.get_refresh_token_for_update, find_refresh.
  rewrite run_bind run_sess.
  destruct (select_where _ _) as [|[i r] [|]] eqn:Esel; cbn [one_or_none]; rewrite ?run_ret; [by split_and!| |by split_and!].
  assert (Hin : (i, r) ∈ select_where (by_token_hash (hash_token tok)) (refresh_tokens (w_session w)))
    by (rewrite Esel; left). apply elem_of_select_where in Hin as [Hi _].
  rewrite run_bind run_utc_now.
  assert (Hkeep : ∀ A (m : IO A), keeps dead m → scoped m).
  { intros A m Hm w0 Hk0 Hs0. destruct (Hm w0 Hk0 Hs0) as (?&?&?). by split_and!. }
  destruct (rt_revoked_at r) as [t|] eqn:El; [|destruct (_ <=? _)].
  - refine (Hkeep _ _ _ (tick w) _ _); [|done..]. unfold RefreshTokenTx.revoke_refresh_family, revoke_family. keep. apply keeps_audit.
  - refine (Hkeep _ _ _ (tick w) _ _); [|done..]. apply keeps_bind; [apply keeps_revoke_one|intros _]. apply keeps_ret.
  - destruct (RotateRefreshToken.rotate cfg (i, r) (now_at (w_clock w)) ip ua (tick w)) as [o w'] eqn:E.
    destruct (rotate_cases i r (now_at (w_clock w)) ip ua (tick w) o w') as (Ed & Hle & Ha); [done..|]. cbn in *.
    rewrite E. split_and!; [|exact Hle|exact Ha]. unfold kept. cbn. rewrite Ed. by eapply inv_mono.
Qed.

(** ** Sequences of operations *)

(** One request, job or command; the cache of the process is arbitrary. *)
Inductive auth_step : World → World → Prop :=
  | step_register e p ip ua w : auth_step w (state_of (RegisterUser.execute e p ip ua) w)
  | step_login e p ip ua w : auth_step w (state_of (LoginUser.execute cfg e p ip ua) w)
  | step_rotate t ip ua w : auth_step w (state_of (RotateRefreshToken.execute cfg t ip ua) w)
  | step_logout t w : auth_step w (state_of (LogoutUser.execute t) w)
  | step_logout_all b u ip ua w c : auth_step w (state_of (LogoutAllSessions.execute b u ip ua) (w, c : C)).1
  | step_request_reset e ip w : auth_step w (state_of (RequestPasswordReset.execute cfg e ip) w)
  | step_confirm_reset b t p w c : auth_step w (state_of (ConfirmPasswordReset.execute b t p) (w, c : C)).1
  | step_request_verification i ip w : auth_step w (state_of (RequestEmailVerification.execute cfg i ip) w)
  | step_confirm_verification b t w c : auth_step w (state_of (ConfirmEmailVerification.execute b t) (w, c : C)).1
  | step_deactivate b i w c :
      auth_step w (state_of (DeactivateUser.execute (Some revoke_all_refresh_tokens) b i) (w, c : C)).1
  | step_erase i reason w : auth_step w (state_of (EraseUser.execute i reason) w)
  | step_purge fuel n w : auth_step w (state_of (PurgeExpiredTokens.execute fuel n) w).

(** A procedure on the rows and the cache keeps the rows' invariant. *)
Definition safe2 {A} (m : M (World * C) A) : Prop := ∀ wc, kept dead wc.1 → kept dead (m wc).2.1.
Lemma safe2_fst {A} (m : IO A) : safe dead m → safe2 (on_fst m).
Proof. intros Hm [w c] Hw. unfold on_fst. cbn. destruct (Hm w Hw) as (? & _). by destruct (m w). Qed.
Lemma safe2_snd {A} (m : M C A) : safe2 (on_snd m).
Proof. intros [w c] Hw. unfold on_snd. cbn. by destruct (m c). Qed.
Lemma safe2_bind {A B} (m : M (World * C) A) (f : A → M (World * C) B) : safe2 m → (∀ a, safe2 (f a)) → safe2 (m ≫= f).
Proof.
  intros Hm Hf wc Hw. rewrite run_bind. specialize (Hm wc Hw). destruct (m wc) as [[a|e] wc']; [|done]. by apply Hf.
Qed.
Lemma safe2_ret {A} (a : A) : safe2 (mret a).
Proof. by intros wc. Qed.
Lemma safe2_invalidate b u : safe2 (invalidate_cached b u).
Proof. destruct b; [apply safe2_snd|apply safe2_ret]. Qed.
Lemma safe2_after b r : safe2 (after_consume b r).
Proof.
  destruct r as [u|e]; [|apply safe2_ret]. apply safe2_bind; [apply safe2_invalidate|intros _; apply safe2_ret].
Qed.

Lemma safe2_logout_all b u ip ua : safe2 (LogoutAllSessions.execute b u ip ua).
Proof.
  apply safe2_bind; [apply safe2_fst, safe_revoke_user|intros _].
  apply safe2_bind; [apply safe2_invalidate|intros _].
  apply safe2_bind; [apply safe2_fst, safe_record_audit|intros _; apply safe2_ret].
Qed.
Lemma safe2_deactivate b i : safe2 (DeactivateUser.execute (Some revoke_all_refresh_tokens) b i).
Proof.
  apply safe2_bind; [apply safe2_fst, safe_get_by_id|]. intros [u|]; [|apply safe2_ret].
  apply safe2_bind; [apply safe2_bind; [apply safe2_logout_all|intros _; apply safe2_ret]|intros _].
  apply safe2_bind; [apply safe2_fst, safe_set_inactive|intros _; apply safe2_ret].
Qed.

Lemma auth_step_kept w w' : auth_step w w' → kept dead w → kept dead w'.
Proof.
  intros Hstep Hw. destruct Hstep; unfold state_of.
  - by apply safe_register.
  - by apply safe_login.
  - by apply safe_rotate.
  - by apply safe_logout.
  - by apply safe2_logout_all.
  - by apply safe_request_reset.
  - apply safe2_bind; [by apply safe2_fst, safe_pure| |done]. intros h.
    apply safe2_bind; [apply safe2_fst, safe_consume; intros; apply keeps_apply_reset|intros; apply safe2_after].
  - by apply safe_request_verification.
  - apply safe2_bind; [|intros; apply safe2_after|done].
    apply safe2_fst, safe_consume. intros. apply keeps_apply_verification.
  - by apply safe2_deactivate.
  - by apply safe_erase.
  - by apply safe_purge.
Qed.

Lemma auth_steps_kept w w' : rtc auth_step w w' → kept dead w → kept dead w'.
Proof. induction 1 as [|w1 w2 w3 Hs _ IH]; [done|]. intros Hw. apply IH. by eapply auth_step_kept. Qed.
End operations.

(** ** Properties *)

Section properties.
Context `{Env} `{!UuidsDistinct} `{Jwt} (cfg : AuthSettings) {C : Type} `{PrincipalCachePort C}.

(** No identifier still to be drawn names a family. *)
Definition families_drawn (w : World) : Prop :=
  ∀ k i r, (w_uuids w <= k)%nat → refresh_tokens (w_db w) !! i = Some r → rt_family_id r ≠ uuid4_at k.

(** C2. Whatever requests are served, in whatever order and however they end, a
    refresh-token family belongs to one user and has at most one live token. *)
Theorem families_stay_ok w w' :
  families_drawn w → families_ok (refresh_tokens (w_db w)) → rtc (auth_step (C := C) cfg) w w' →
  families_ok (refresh_tokens (w_db w')).
Proof.
  intros Hd Hok Hsteps.
  assert (Hw : kept (λ _, False) w).
  { split_and!; [|done..]. intros k Hk. split; [tauto|]. intros i r. by apply Hd. }
  by destruct (auth_steps_kept cfg (λ _, False) w w' Hsteps Hw) as (_ & ? & _).
Qed.

(** The run of a replay. *)
Lemma run_replay c token i r t ip ua w :
  let tok := String c token in
  db_ok (w_db w) → refresh_with (hash_token tok) (w_db w) = Some (i, r) → rt_revoked_at r = Some t →
  audit_events (w_db w) !! uuid4_at (w_uuids w) = None →
  ∃ w', RotateRefreshToken.execute cfg (Some tok) ip ua w = (Ret (Err InvalidTokenError), w') ∧
    w_uuids w' = S (w_uuids w) ∧
    w_db w' = set_audit_events (<[uuid4_at (w_uuids w) := mkAuditRow (Some (rt_user_id r)) "auth.refresh_reuse_detected"
        ip ua {[ "family_id" := JStr (uuid_str (rt_family_id r)) ]} (now_at (S (S (w_clock w))))]>)
      (set_refresh_tokens (update_where (in_family (rt_family_id r)) (set_revoked (now_at (S (w_clock w))))) (w_db w)).
Proof.
  intros tok Hok Hr Hrev Ha. unfold RotateRefreshToken.execute. rewrite run_bind. cbn [RotateRefreshToken.execute_ tok].
  fold tok. unfold AuthRepository.refresh_token_transaction.
  apply refresh_with_spec in Hr as Hr'; [|done]. destruct Hr' as [Hi _].
  erewrite (run_write_scope _ w (Err InvalidTokenError)).
  2: { rewrite run_bind. unfold RefreshTokenTx.get_refresh_token_for_update. rewrite run_find_refresh //. cbn [w_session set_session].
    rewrite Hr run_bind run_utc_now Hrev. unfold RefreshTokenTx.revoke_refresh_family, revoke_family.
    rewrite !run_bind run_utc_now run_stage run_bind. unfold RefreshTokenTx.record_audit_event.
    by rewrite run_add_audit. }
  2: { cbn -[db_ok]. apply db_ok_insert_audit; [by apply db_ok_revoke|]. intros u [= <-].
    destruct Hok as (_ & _ & _ & _ & _ & Hfk & _). rewrite fk_on_spec in Hfk. by eapply Hfk. }
  rewrite run_bind run_metric. eexists. split; [done|]. by split.
Qed.

(** A token whose row is revoked is never exchanged. *)
Lemma revoked_not_ok token i r tokens p ip ua w :
  refresh_with (hash_token token) (w_db w) = Some (i, r) → is_Some (rt_revoked_at r) →
  result_of (RotateRefreshToken.execute cfg (Some token) ip ua) w ≠ Ret (Ok (tokens, p)).
Proof.
  intros Hr [t Ht]. unfold result_of, RotateRefreshToken.execute. rewrite run_bind.
  destruct token as [|c token]; [done|]. cbn [RotateRefreshToken.execute_]. set (tok := String c token) in *.
  intros Hres. destruct (write_scope_cases (A := Result (IssuedTokens * Principal) AuthError)
    (record ← RefreshTokenTx.get_refresh_token_for_update (hash_token tok);
     match record with
     | None => mret (Err InvalidTokenError)
     | Some (token_id, r) =>
         now ← utc_now;
         match rt_revoked_at r with
         | Some _ => RefreshTokenTx.revoke_refresh_family (rt_family_id r) ;;
             RefreshTokenTx.record_audit_event "auth.refresh_reuse_detected" (Some (rt_user_id r))
               ip ua {[ "family_id" := JStr (uuid_str (rt_family_id r)) ]} ;; mret (Err InvalidTokenError)
         | None => if rt_expires_at r <=? now then RefreshTokenTx.revoke_refresh_token token_id None ;; mret (Err InvalidTokenError)
                   else RotateRefreshToken.rotate cfg (token_id, r) now ip ua
         end
     end) w) as [(a & w1 & Eb & _ & Ew)|(o & w1 & x & Eb & Ew)];
    unfold AuthRepository.refresh_token_transaction in Hres; rewrite Ew in Hres; [|done].
  rewrite run_bind run_metric in Hres. injection Hres as ->. revert Eb.
  rewrite run_bind. unfold RefreshTokenTx.get_refresh_token_for_update, find_refresh. rewrite run_bind run_sess.
  unfold refresh_with in Hr. cbn [w_session set_session].
  destruct (select_where _ _) as [|[j s] [|]]; cbn [one_or_none]; [done| |done]. cbn in Hr. simplify_eq.
  rewrite run_ret run_bind run_utc_now Ht. unfold RefreshTokenTx.revoke_refresh_family, revoke_family.
  rewrite !run_bind run_utc_now run_stage run_bind. unfold RefreshTokenTx.record_audit_event, add_audit.
  rewrite run_bind run_uuid4 run_bind run_utc_now. unfold add_row. by destruct (audit_events _ !! _).
Qed.

(** C1. Replaying a refresh token that was rotated or revoked is answered with
    [InvalidTokenError], revokes every token of its family and leaves an audit
    event; from then on, after any further requests, the family has no live
    token and none of its tokens is ever exchanged again. *)
Theorem replay_kills_family token i r t ip ua w :
  token ≠ "" → db_ok (w_db w) → families_drawn w → families_ok (refresh_tokens (w_db w)) →
  refresh_tokens (w_db w) !! i = Some r → rt_token_hash r = hash_token token → rt_revoked_at r = Some t →
  audit_events (w_db w) !! uuid4_at (w_uuids w) = None →
  ∃ w1, RotateRefreshToken.execute cfg (Some token) ip ua w = (Ret (Err InvalidTokenError), w1) ∧
    (∃ k e, audit_events (w_db w) !! k = None ∧ audit_events (w_db w1) !! k = Some e ∧
       ae_event_type e = "auth.refresh_reuse_detected" ∧ ae_user_id e = Some (rt_user_id r)) ∧
    (∀ j s, refresh_tokens (w_db w) !! j = Some s → rt_family_id s ≠ rt_family_id r → refresh_tokens (w_db w1) !! j = Some s) ∧
    ∀ w2, rtc (auth_step (C := C) cfg) w1 w2 →
      family_dead (rt_family_id r) (refresh_tokens (w_db w2)) ∧
      ∀ token' j s ip' ua' issued p,
        refresh_with (hash_token token') (w_db w2) = Some (j, s) → rt_family_id s = rt_family_id r →
        result_of (RotateRefreshToken.execute cfg (Some token') ip' ua') w2 ≠ Ret (Ok (issued, p)).
Proof.
  intros Hne Hok Hdr Hfam Hi Hh Hrev Ha. destruct token as [|c token]; [done|].
  destruct (run_replay c token i r t ip ua w) as (w1 & E & Eu & Ed); [done|by apply refresh_with_spec|done..|].
  exists w1. split_and!; [exact E|..].
  - exists (uuid4_at (w_uuids w)). eexists. rewrite Ed. cbn. rewrite lookup_insert_eq. by split_and!.
  - intros j s Hj Hf. rewrite Ed. cbn. rewrite lookup_update_where Hj. cbn. unfold in_family.
    by rewrite bool_decide_eq_false_2.
  - intros w2 Hsteps. set (f := rt_family_id r).
    assert (Hkept : kept (λ g, g = f) w1).
    { unfold kept. rewrite Ed Eu. cbn. apply (inv_mono _ (w_uuids w)); [lia|]. split_and!.
      - intros k Hk. split; [by intros E'; destruct (Hdr k i r Hk Hi)|]. intros j s.
        rewrite lookup_update_where fmap_Some. intros (s0 & Hs0 & ->). unfold in_family; case_bool_decide; exact (Hdr k j s0 Hk Hs0).
      - assert (Hinv : inv (λ _, False) (w_uuids w) (refresh_tokens (w_db w))).
        { split_and!; [|done..]. intros k Hk. split; [tauto|]. intros j s. by apply Hdr. }
        eapply shrinks_inv in Hinv as (_ & ? & _); [|apply shrinks_revoke]. done.
      - intros g -> j s. rewrite lookup_update_where fmap_Some. intros (s0 & Hs0 & ->).
        unfold in_family. case_bool_decide as Hb; cbn; [intros _; by destruct (rt_revoked_at s0)|done]. }
    destruct (auth_steps_kept cfg _ w1 w2 Hsteps Hkept) as (_ & _ & Hdead). split; [by apply Hdead|].
    intros token' j s ip' ua' issued p Hs Ef. apply (revoked_not_ok token' j s); [done|].
    apply (Hdead f eq_refl j s); [|done].
    unfold refresh_with in Hs. by apply head_Some_elem_of, elem_of_select_where in Hs as [? _].
Qed.
End properties.

(** ** The properties on concrete inputs *)

Abbreviation demo_step := (auth_step (C := InProcessPrincipalCache.InProcessPrincipalCache (gmap string Principal)) demo_settings).

(** A user registers, logs in and rotates the refresh token once. *)
Definition demo_registered : World :=
  state_of (RegisterUser.execute "ada@example.com" "Correct-horse-1" None None) init_world.
Definition demo_logged_in : World :=
  state_of (LoginUser.execute demo_settings "ada@example.com" "Correct-horse-1" None None) demo_registered.
Definition demo_rotated : World :=
  state_of (RotateRefreshToken.execute demo_settings (Some (token_at 0)) None None) demo_logged_in.

Lemma demo_reached : rtc demo_step init_world demo_rotated.
Proof.
  eapply rtc_l; [apply step_register|]. eapply rtc_l; [apply step_login|]. apply rtc_once. apply step_rotate.
Qed.

Lemma demo_kept : kept (λ _, False) demo_rotated.
Proof.
  apply (auth_steps_kept demo_settings _ init_world); [apply demo_reached|]. split_and!; [|done..].
  intros k _. split; [tauto|]. intros i r Hi. vm_compute in Hi. discriminate Hi.
Qed.

Lemma families_stay_ok_witness :
  rtc demo_step init_world demo_rotated ∧ families_ok (refresh_tokens (w_db demo_rotated)) ∧
  size (refresh_tokens (w_db demo_rotated)) = 2%nat.
Proof.
  split_and!; [exact demo_reached| |vm_compute; reflexivity].
  apply (families_stay_ok demo_settings init_world); [|done|exact demo_reached].
  intros k i r _ Hi. vm_compute in Hi. discriminate Hi.
Defined.

(** The rotated token is presented again. *)
Definition demo_old : RefreshRow :=
  default (mkRefreshRow 0 "" 0 0 None None 0 None None) (refresh_tokens (w_db demo_rotated) !! 1005%N).

Lemma replay_kills_family_witness :
  ∃ w1, RotateRefreshToken.execute demo_settings (Some (token_at 0)) None None demo_rotated =
      (Ret (Err InvalidTokenError), w1) ∧
    family_dead (rt_family_id demo_old) (refresh_tokens (w_db w1)).
Proof.
  destruct demo_kept as (Hd & Hf & _).
  destruct (replay_kills_family demo_settings (token_at 0) 1005%N demo_old (default 0 (rt_revoked_at demo_old))
    None None demo_rotated) as (w1 & Ex & _ & _ & Hdead);
    [discriminate|by_eval|intros k j s Hk; by apply Hd|exact Hf|vm_compute; reflexivity..|].
  exists w1. split; [exact Ex|]. exact (proj1 (Hdead w1 (rtc_refl _ _))).
Defined.
