(* ===== verification/AuthFacts.v ===== *)
(** What the session use cases of the authentication feature do on every branch:
    refresh-token rotation and login. *)

From stdpp Require Import relations.
From S2P Require Import Prelude PyStr Uuid Store StoreFacts Demo Outbox Users UsersFacts AuthRepo AuthRepoFacts Principals DemoAuth PrincipalsFacts Auth RefreshFamilies.
Open Scope string_scope.
Open Scope list_scope.
Open Scope Z_scope.

(** ** Assumptions shared by the theorems *)

(** Settings under which tokens can be issued at every reading of the clock. *)
Record config_ok `{Env} (cfg : AuthSettings) : Prop := mkConfigOk {
  config_secret : ∃ key, auth_jwt_secret_key cfg = Some key ∧ key ≠ "";
  config_access : timedelta_ok (minutes (auth_access_token_expire_minutes cfg)) = true ∧
    ∀ k, datetime_ok (now_at k + minutes (auth_access_token_expire_minutes cfg)) = true;
  config_refresh : timedelta_ok (auth_refresh_token_expire_days cfg * day) = true ∧
    ∀ k, datetime_ok (now_at k + auth_refresh_token_expire_days cfg * day) = true;
  config_reset : timedelta_ok (minutes (auth_password_reset_token_expire_minutes cfg)) = true ∧
    ∀ k, datetime_ok (now_at k + minutes (auth_password_reset_token_expire_minutes cfg)) = true;
}.

(** The random identifiers and tokens still to be drawn are new. *)
Record drawn_fresh `{Env} (w : World) : Prop := mkDrawnFresh {
  fresh_users : fresh_from (w_uuids w) (users (w_db w));
  fresh_refresh : fresh_from (w_uuids w) (refresh_tokens (w_db w));
  fresh_audit : fresh_from (w_uuids w) (audit_events (w_db w));
  fresh_credentials : fresh_from (w_uuids w) (credentials (w_db w));
  fresh_internal : fresh_from (w_uuids w) (internal_tokens (w_db w));
  fresh_outbox : fresh_from (w_uuids w) (outbox_messages (w_db w));
  fresh_refresh_hash : ∀ k i r, (w_tokens w <= k)%nat → refresh_tokens (w_db w) !! i = Some r →
    rt_token_hash r ≠ hash_token (token_at k);
  fresh_internal_hash : ∀ k i r, (w_tokens w <= k)%nat → internal_tokens (w_db w) !! i = Some r →
    it_token_hash r ≠ hash_token (token_at k);
}.

Section facts.
Context `{Env} `{Jwt} (cfg : AuthSettings).
Implicit Types w : World.

Lemma run_issue_ok subject version w :
  config_ok cfg → ∃ t, AccessTokenService.issue cfg subject version w = (Ret (t, minutes (auth_access_token_expire_minutes cfg) / second), bump_uuids (tick w)) ∧
    ∃ key, auth_jwt_secret_key cfg = Some key ∧
    t = jwt_encode (issued_claims cfg subject version (now_at (w_clock w)) (uuid4_at (w_uuids w))) key (auth_jwt_algorithm cfg).
Proof.
  intros [(key & Hk & Hne) [Ht Hd] _ _]. eexists. split; [by eapply run_issue|]. by exists key.
Qed.

(** ** Rotation *)

(** The rows after a rotation. *)
Definition rotated (i : uuid) (r : RefreshRow) (ip ua : option string) (now : time) w : Db :=
  let j := uuid4_at (S (w_uuids w)) in
  let row := mkRefreshRow (rt_user_id r) (hash_token (token_at (w_tokens w))) (rt_family_id r)
               (now + auth_refresh_token_expire_days cfg * day) None None (now_at (2 + w_clock w)) ip ua in
  set_audit_events (<[uuid4_at (S (S (w_uuids w))) :=
      mkAuditRow (Some (rt_user_id r)) "auth.refresh_succeeded" ip ua ∅ (now_at (4 + w_clock w))]>)
    (set_refresh_tokens (alter (set_replaced_by (Some j) ∘ set_revoked (now_at (3 + w_clock w))) i)
      (set_refresh_tokens (<[j := row]>) (w_db w))).

Lemma run_rotate c token i r u ip ua w :
  let tok := String c token in
  config_ok cfg → drawn_fresh w → db_ok (w_db w) → families_ok (refresh_tokens (w_db w)) →
  refresh_with (hash_token tok) (w_db w) = Some (i, r) → rt_revoked_at r = None →
  now_at (w_clock w) < rt_expires_at r → find_user (rt_user_id r) (w_db w) = Some u → u_is_active u = true →
  ∃ t w', RotateRefreshToken.execute cfg (Some tok) ip ua w =
      (Ret (Ok (mkIssuedTokens t (token_at (w_tokens w)) (minutes (auth_access_token_expire_minutes cfg) / second),
                principal_from_user u)), w') ∧
    (∃ key, auth_jwt_secret_key cfg = Some key ∧
      t = jwt_encode (issued_claims cfg (rt_user_id r) (u_authz_version u) (now_at (S (w_clock w))) (uuid4_at (w_uuids w))) key (auth_jwt_algorithm cfg)) ∧
    w_db w' = rotated i r ip ua (now_at (w_clock w)) w ∧ db_ok (w_db w').
Proof.
  intros tok Hcfg Hfr Hok Hfam Hr Hlive Hexp Hu Hact.
  apply refresh_with_spec in Hr as Hr'; [|done]. destruct Hr' as [Hi Hh].
  destruct (run_issue_ok (rt_user_id r) (u_authz_version u) (tick (set_session (w_db w) w)) Hcfg) as (t & Et & Hkey).
  exists t. unfold RotateRefreshToken.execute. cbn [RotateRefreshToken.execute_ tok]. fold tok.
  destruct Hcfg as [_ _ [Htd Hdt] _].
  assert (Huser : is_Some (users (w_db w) !! rt_user_id r)) by (unfold find_user in Hu; by destruct (users _ !! _)).
  assert (Hj : refresh_tokens (w_db w) !! uuid4_at (S (w_uuids w)) = None) by (apply (fresh_refresh w Hfr); lia).
  assert (Hne : i ≠ uuid4_at (S (w_uuids w))) by (intros ->; by rewrite Hi in Hj).
  set (w1 := bump_tokens (bump_uuids (tick (tick (set_session (w_db w) w))))).
  destruct (run_insert_refresh (rt_user_id r) (hash_token (token_at (w_tokens w))) (rt_family_id r)
    (now_at (w_clock w) + auth_refresh_token_expire_days cfg * day) ip ua w1) as [Ei Hok1]; [done|done|done|..].
  { intros a s Ha Ef. by destruct (Hfam a i s r Ha Hi Ef). }
  { intros a s. by apply (fresh_refresh_hash w Hfr). }
  set (w2 := set_session _ _) in Ei.
  assert (Hi2 : refresh_tokens (w_session w2) !! i = Some r) by (cbn; by rewrite lookup_insert_ne).
  eexists. rewrite run_bind. unfold AuthRepository.refresh_token_transaction.
  erewrite (run_write_scope _ w).
  2: { rewrite run_bind. unfold RefreshTokenTx.get_refresh_token_for_update. rewrite run_find_refresh //.
    cbn [w_session set_session]. rewrite Hr run_bind run_utc_now Hlive.
    rewrite (proj2 (Z.leb_gt _ _)); [|done]. unfold RotateRefreshToken.rotate. rewrite run_bind run_get_by_id.
    cbn [w_db tick set_session]. rewrite Hu Hact. cbn [negb]. rewrite run_bind. cbn [p_authz_version principal_from_user].
    rewrite Et run_bind. unfold generate_opaque_token. rewrite run_token_urlsafe run_bind. unfold timedelta.
    rewrite Htd run_ret run_bind. unfold datetime_add. cbn [w_clock set_session]. rewrite Hdt run_ret run_bind.
    unfold RefreshTokenTx.create_refresh_token. cbn [w_tokens bump_uuids tick set_session]. rewrite Ei run_bind.
    unfold RefreshTokenTx.revoke_refresh_token. rewrite (run_revoke_one i _ r) // Hlive. cbv zeta. cbn [default]. rewrite run_bind.
    unfold RefreshTokenTx.record_audit_event. rewrite run_add_audit; [|cbn; apply (fresh_audit w Hfr); lia]. done. }
  2: { cbn -[db_ok]. apply db_ok_insert_audit; [|by intros ? [= <-]].
    apply db_ok_replace; [done|]. intros k [= <-]. cbn. by rewrite lookup_insert_eq. }
  rewrite run_bind run_metric. split_and!; [done|done|done|].
  cbn -[db_ok]. apply db_ok_insert_audit; [|by intros ? [= <-]].
  apply db_ok_replace; [done|]. intros k [= <-]. cbn. by rewrite lookup_insert_eq.
Qed.

(** C24. Presenting a live refresh token of an active account exchanges it: the
    caller gets an access token for the account's current authorization version
    and a new refresh token of the same user and family with a full lifetime, the
    old token is revoked and points to its replacement, no other token changes,
    and the old token is refused from then on. *)
Theorem rotation_spec token i r u ip ua w :
  token ≠ "" → config_ok cfg → drawn_fresh w → db_ok (w_db w) → families_ok (refresh_tokens (w_db w)) →
  refresh_tokens (w_db w) !! i = Some r → rt_token_hash r = hash_token token → rt_revoked_at r = None →
  now_at (w_clock w) < rt_expires_at r → find_user (rt_user_id r) (w_db w) = Some u → u_is_active u = true →
  ∃ issued w' j new old, RotateRefreshToken.execute cfg (Some token) ip ua w = (Ret (Ok (issued, principal_from_user u)), w') ∧
    db_ok (w_db w') ∧
    (∃ key jti, auth_jwt_secret_key cfg = Some key ∧ access_token issued =
       jwt_encode (issued_claims cfg (u_id u) (u_authz_version u) (now_at (S (w_clock w))) jti) key (auth_jwt_algorithm cfg)) ∧
    refresh_tokens (w_db w) !! j = None ∧ refresh_tokens (w_db w') !! j = Some new ∧
    rt_token_hash new = hash_token (refresh_token issued) ∧ rt_user_id new = rt_user_id r ∧
    rt_family_id new = rt_family_id r ∧ rt_revoked_at new = None ∧
    rt_expires_at new = now_at (w_clock w) + auth_refresh_token_expire_days cfg * day ∧
    refresh_tokens (w_db w') !! i = Some old ∧ is_Some (rt_revoked_at old) ∧ rt_replaced_by old = Some j ∧
    (∀ k, k ≠ i → k ≠ j → refresh_tokens (w_db w') !! k = refresh_tokens (w_db w) !! k) ∧
    users (w_db w') = users (w_db w) ∧ credentials (w_db w') = credentials (w_db w) ∧
    ∀ ip' ua' issued' p', result_of (RotateRefreshToken.execute cfg (Some token) ip' ua') w' ≠ Ret (Ok (issued', p')).
Proof.
  intros Hne Hcfg Hfr Hok Hfam Hi Hh Hlive Hexp Hu Hact. destruct token as [|c token]; [done|].
  destruct (run_rotate c token i r u ip ua w) as (t & w' & E & (key & Hkey & Et) & Ed & Hok');
    [done|done|done|done|by apply refresh_with_spec|done..|].
  set (j := uuid4_at (S (w_uuids w))).
  assert (Hj : refresh_tokens (w_db w) !! j = None) by (apply (fresh_refresh w Hfr); lia).
  assert (Hij : i ≠ j) by (intros ->; by rewrite Hi in Hj).
  assert (Eu : u_id u = rt_user_id r).
  { unfold find_user in Hu. destruct (users _ !! _) as [x|]; [|done]. destruct (user_is_erased x); by simplify_eq. }
  assert (Hold : refresh_tokens (w_db w') !! i = Some (set_replaced_by (Some j) (set_revoked (now_at (3 + w_clock w)) r))).
  { rewrite Ed. cbn. by rewrite lookup_alter_eq lookup_insert_ne // Hi. }
  eexists _, w', j, _, _. split_and!; [exact E|exact Hok'| |done|..].
  - exists key, (uuid4_at (w_uuids w)). rewrite Eu. by split.
  - rewrite Ed. cbn. by rewrite lookup_alter_ne // lookup_insert_eq.
  - done.
  - done.
  - done.
  - done.
  - done.
  - exact Hold.
  - cbn. by rewrite Hlive.
  - done.
  - intros k Hki Hkj. rewrite Ed. cbn. by rewrite lookup_alter_ne // lookup_insert_ne.
  - by rewrite Ed.
  - by rewrite Ed.
  - intros ip' ua' issued' p'. eapply revoked_not_ok; [by apply refresh_with_spec|]. cbn. by rewrite Hlive.
Qed.

(** Every other refresh request is refused with the matching error: an
    empty or unknown token and a token whose account is gone or inactive change
    no row, an expired token is revoked and nothing else changes. *)
Theorem rotation_refuses token ip ua w :
  db_ok (w_db w) →
  let run := RotateRefreshToken.execute cfg token ip ua w in
  match token with
  | None | Some "" => run.1 = Ret (Err InvalidTokenError) ∧ w_db run.2 = w_db w
  | Some token =>
      match refresh_with (hash_token token) (w_db w) with
      | None => run.1 = Ret (Err InvalidTokenError) ∧ w_db run.2 = w_db w
      | Some (i, r) =>
          rt_revoked_at r = None →
          if rt_expires_at r <=? now_at (w_clock w) then
            run.1 = Ret (Err InvalidTokenError) ∧
            w_db run.2 = set_refresh_tokens (alter (set_replaced_by None ∘ set_revoked (now_at (S (w_clock w)))) i) (w_db w)
          else
            match find_user (rt_user_id r) (w_db w) with
            | None => run.1 = Ret (Err InvalidCredentialsError) ∧ w_db run.2 = w_db w
            | Some u => u_is_active u = false → run.1 = Ret (Err InactiveUserError) ∧ w_db run.2 = w_db w
            end
      end
  end.
Proof.
  intros Hok. cbv zeta. unfold RotateRefreshToken.execute.
  destruct token as [[|c token]|]; cbn [RotateRefreshToken.execute_]; [done| |done]. set (tok := String c token).
  unfold AuthRepository.refresh_token_transaction.
  match goal with |- context [write_scope ?b] => set (body := b) end.
  match goal with |- context [(write_scope body ≫= ?f) w] => set (run := (write_scope body ≫= f) w) end.
  assert (Hrun : ∀ e w1, body (set_session (w_db w) w) = (Ret (Err e), w1) → db_ok (w_session w1) →
    run.1 = Ret (Err e) ∧ w_db run.2 = w_session w1).
  { intros e w1 Eb Hok1. unfold run. rewrite run_bind. by erewrite run_write_scope; [|exact Eb|exact Hok1]. }
  assert (Hbody : body (set_session (w_db w) w) = match refresh_with (hash_token tok) (w_db w) with
    | None => (Ret (Err InvalidTokenError), set_session (w_db w) w)
    | Some (i, r) => (body (set_session (w_db w) w)) end).
  { destruct (refresh_with (hash_token tok) (w_db w)) as [[i r]|] eqn:E; [done|]. unfold body.
    rewrite run_bind. unfold RefreshTokenTx.get_refresh_token_for_update. rewrite run_find_refresh //. cbn [w_session set_session].
    by rewrite E. }
  destruct (refresh_with (hash_token tok) (w_db w)) as [[i r]|] eqn:Hr; [|by eapply (Hrun _ _ Hbody)].
  clear Hbody. intros Hlive.
  apply refresh_with_spec in Hr as Hr'; [|done]. destruct Hr' as [Hi Hh].
  assert (Hbody : body (set_session (w_db w) w) =
    (if rt_expires_at r <=? now_at (w_clock w)
     then RefreshTokenTx.revoke_refresh_token i None ;; mret (Err InvalidTokenError)
     else RotateRefreshToken.rotate cfg (i, r) (now_at (w_clock w)) ip ua) (tick (set_session (w_db w) w))).
  { unfold body. rewrite run_bind. unfold RefreshTokenTx.get_refresh_token_for_update. rewrite run_find_refresh //.
    cbn [w_session set_session]. by rewrite Hr run_bind run_utc_now Hlive. }
  destruct (rt_expires_at r <=? now_at (w_clock w)).
  - unfold RefreshTokenTx.revoke_refresh_token in Hbody. rewrite run_bind (run_revoke_one i _ r) // Hlive in Hbody.
    apply (Hrun _ _ Hbody). by apply db_ok_replace.
  - unfold RotateRefreshToken.rotate in Hbody. rewrite run_bind run_get_by_id in Hbody. cbn [w_db tick set_session] in Hbody.
    destruct (find_user (rt_user_id r) (w_db w)) as [u|]; [intros Hact; rewrite Hact in Hbody|]; by apply (Hrun _ _ Hbody).
Qed.

(** ** Login *)

Definition is_verification (e : event) : bool := match e with EvPasswordVerify => true | _ => false end.
Definition verifications (l : list event) : nat := length (filter (λ e, is_verification e = true) l).

Lemma run_update_last_login i r t w :
  db_ok (w_db w) → users (w_db w) !! i = Some r →
  let d' := set_users (alter (set_last_login t) i) (w_db w) in
  EngineUsers.update_last_login i t w = (Ret tt, set_db d' w) ∧ db_ok d'.
Proof.
  intros Hok Hi d'. assert (Hok' : db_ok d') by (apply db_ok_alter_user_email; [done|done|intros; cbn; lia]).
  split; [|done]. unfold EngineUsers.update_last_login, with_session. rewrite run_bind run_get_user.
  cbn [w_session set_session]. rewrite Hi run_bind run_save_user run_commit //.
Qed.

(** The account and password the request names. *)
Definition may_log_in (email password : string) (u : User) (d : Db) : Prop :=
  find_email (normalize_email email) d = Some u ∧
  (∃ i c, credentials d !! i = Some c ∧ cred_user_id c = u_id u ∧ cred_algorithm c = "argon2" ∧
     argon2_verify (cred_hash c) password = true) ∧
  u_is_active u = true ∧ (auth_require_email_verification cfg = true → u_is_verified u = true).

(** The common prefix: one lookup of each kind and one verification. *)
Definition stored_hash (u : option User) (d : Db) : string :=
  match u with
  | Some u => match credential_of (u_id u) d with Some (_, c) => cred_hash c | None => FIXED_DUMMY_ARGON2_HASH end
  | None => FIXED_DUMMY_ARGON2_HASH
  end.

Lemma stored_hash_spec u password d :
  db_ok d → argon2_verify FIXED_DUMMY_ARGON2_HASH password = false →
  argon2_verify (stored_hash (Some u) d) password = true ↔
  ∃ i c, credentials d !! i = Some c ∧ cred_user_id c = u_id u ∧ cred_algorithm c = "argon2" ∧
    argon2_verify (cred_hash c) password = true.
Proof.
  intros Hok Hdummy. cbn. destruct (credential_of (u_id u) d) as [[i c]|] eqn:E.
  - apply credential_of_spec in E as (Hi & Hu & Ha); [|done]. split; [by intros; exists i, c|].
    intros (j & c' & Hj & Hu' & Ha' & Hv). assert (Some (i, c) = Some (j, c')) as [= -> ->]; [|done].
    transitivity (credential_of (u_id u) d); [symmetry|]; by apply credential_of_spec.
  - rewrite Hdummy. split; [done|]. intros (j & c' & Hj & Hu' & Ha' & Hv).
    assert (credential_of (u_id u) d = Some (j, c')) by (by apply credential_of_spec). congruence.
Qed.

(** What follows the verification. *)
Definition login_tail (user : option User) (password_ok : bool) (ip ua : option string)
    : IO (Result (IssuedTokens * Principal) AuthError) :=
  match user with
  | None => LoginUser.reject None "invalid_credentials" ip ua InvalidCredentialsError
  | Some user =>
      if negb password_ok
      then LoginUser.reject (Some (u_id user)) "invalid_credentials" ip ua InvalidCredentialsError else
      if negb (u_is_active user)
      then LoginUser.reject (Some (u_id user)) "inactive_user" ip ua InactiveUserError else
      if auth_require_email_verification cfg && negb (u_is_verified user)
      then LoginUser.reject (Some (u_id user)) "email_not_verified" ip ua EmailNotVerifiedError else
      when ← utc_now;
      EngineUsers.update_last_login (u_id user) when ;;
      issued ← AccessTokenService.issue cfg (u_id user) (u_authz_version user);
      raw_refresh ← generate_opaque_token;
      family_id ← uuid4;
      now ← utc_now;
      lifetime ← timedelta (auth_refresh_token_expire_days cfg * day);
      expires_at ← datetime_add now lifetime;
      AuthRepository.create_refresh_token (u_id user) (hash_token raw_refresh) family_id expires_at ip ua ;;
      AuthRepository.record_audit_event "auth.login_succeeded" (Some (u_id user)) ip ua ∅ ;;
      metric AUTH_LOGINS_TOTAL "success" ;;
      mret (Ok (mkIssuedTokens issued.1 raw_refresh issued.2, principal_from_user user))
  end.

Lemma run_login_prefix email password ip ua w :
  db_ok (w_db w) →
  LoginUser.execute cfg email password ip ua w =
    let u := find_email (normalize_email email) (w_db w) in
    login_tail u (argon2_verify (stored_hash u (w_db w)) password) ip ua (log_event EvPasswordVerify w).
Proof.
  intros Hok. unfold LoginUser.execute. rewrite run_bind run_get_by_email run_bind. cbv zeta.
  destruct (find_email _ _) as [u|]; cbn [fmap option_fmap option_map LoginUser.get_credential_for_user].
  - by rewrite run_get_credential.
  - done.
Qed.

Lemma find_email_user e d u : find_email e d = Some u → ∃ r, users d !! u_id u = Some r ∧ u = to_domain (u_id u, r).
Proof.
  unfold find_email. rewrite fmap_Some. intros ([i r] & Hh & ->).
  apply head_Some_elem_of, elem_of_select_where in Hh as [Hi _]. by exists r.
Qed.

(** A refusal: one audit event, one counter increment. *)
Lemma run_reject u why ip ua e w :
  db_ok (w_db w) → drawn_fresh w → (∀ i, u = Some i → is_Some (users (w_db w) !! i)) →
  ∃ w', LoginUser.reject u why ip ua e w = (Ret (Err e), w') ∧ db_ok (w_db w') ∧
    w_trace w' = EvMetric AUTH_LOGINS_TOTAL "failure" :: w_trace w ∧
    w_db w' = set_audit_events (<[uuid4_at (w_uuids w) :=
      mkAuditRow u "auth.login_failed" ip ua (reason why) (now_at (w_clock w))]>) (w_db w).
Proof.
  intros Hok Hfr Hu. unfold LoginUser.reject.
  destruct (run_record_audit "auth.login_failed" u ip ua (reason why) w) as [E Hok']; [done|by apply fresh_audit|done|].
  rewrite run_bind E run_bind run_metric. eexists. split; [done|]. by split_and!.
Qed.

(** An accepted login. *)
Lemma run_login_tail u r ip ua w :
  config_ok cfg → drawn_fresh w → db_ok (w_db w) → families_drawn w →
  users (w_db w) !! u_id u = Some r → u_is_active u = true →
  (auth_require_email_verification cfg = true → u_is_verified u = true) →
  ∃ t w' j row, login_tail (Some u) true ip ua w =
      (Ret (Ok (mkIssuedTokens t (token_at (w_tokens w)) (minutes (auth_access_token_expire_minutes cfg) / second),
                principal_from_user u)), w') ∧
    db_ok (w_db w') ∧ w_trace w' = EvMetric AUTH_LOGINS_TOTAL "success" :: w_trace w ∧
    refresh_tokens (w_db w) !! j = None ∧ refresh_tokens (w_db w') = <[j := row]> (refresh_tokens (w_db w)) ∧
    rt_token_hash row = hash_token (token_at (w_tokens w)) ∧ rt_user_id row = u_id u ∧ rt_revoked_at row = None ∧
    (∀ i s, refresh_tokens (w_db w) !! i = Some s → rt_family_id s ≠ rt_family_id row) ∧
    users (w_db w') = alter (set_last_login (now_at (w_clock w))) (u_id u) (users (w_db w)) ∧
    credentials (w_db w') = credentials (w_db w) ∧
    ∃ k e, audit_events (w_db w) !! k = None ∧ audit_events (w_db w') = <[k := e]> (audit_events (w_db w)) ∧
      ae_event_type e = "auth.login_succeeded" ∧ ae_user_id e = Some (u_id u).
Proof.
  intros Hcfg Hfr Hok Hdr Hu Hact Hver. unfold login_tail. rewrite Hact. cbn [negb].
  replace (auth_require_email_verification cfg && negb (u_is_verified u)) with false; [|
    destruct (auth_require_email_verification cfg); [by rewrite Hver|done]].
  rewrite run_bind run_utc_now run_bind.
  destruct (run_update_last_login (u_id u) r (now_at (w_clock w)) (tick w)) as [El Hok1]; [done..|]. rewrite El.
  set (d1 := set_users _ _) in *. set (w1 := set_db d1 (tick w)).
  destruct (run_issue_ok (u_id u) (u_authz_version u) w1 Hcfg) as (t & Et & _).
  rewrite run_bind Et run_bind. unfold generate_opaque_token. rewrite run_token_urlsafe run_bind run_uuid4 run_bind run_utc_now.
  destruct Hcfg as [_ _ [Htd Hdt] _]. rewrite run_bind. unfold timedelta. rewrite Htd run_ret run_bind. unfold datetime_add.
  rewrite Hdt run_ret run_bind. cbn [w_clock w_uuids w_tokens bump_uuids bump_tokens tick w1 set_db].
  set (w2 := tick _).
  assert (Hu1 : is_Some (users d1 !! u_id u)) by (cbn; rewrite lookup_alter_eq Hu; eauto).
  destruct (run_insert_refresh (u_id u) (hash_token (token_at (w_tokens w))) (uuid4_at (S (w_uuids w)))
    (now_at (S (S (w_clock w))) + auth_refresh_token_expire_days cfg * day) ip ua (set_session d1 w2)) as [Ei Hok2]; [done|..].
  { apply (fresh_refresh w Hfr). cbn. lia. }
  { done. }
  { intros i s Hi Ef. by destruct (Hdr (S (w_uuids w)) i s); [lia|..]. }
  { intros i s. apply (fresh_refresh_hash w Hfr). lia. }
  unfold AuthRepository.create_refresh_token. erewrite run_write_scope; [|exact Ei|exact Hok2].
  set (w3 := set_session _ _). rewrite run_bind.
  destruct (run_record_audit "auth.login_succeeded" (Some (u_id u)) ip ua ∅ w3) as [Ea Hok3]; [exact Hok2| | |].
  { cbn. apply (fresh_audit w Hfr). lia. }
  { intros i [= <-]. done. }
  rewrite Ea run_bind run_metric. do 4 eexists. split; [done|].
  split_and!; [exact Hok3|done| |done|done|done|done| |done|done|].
  - apply (fresh_refresh w Hfr). cbn. lia.
  - intros i s Hi. cbn. apply (Hdr _ i s); [lia|done].
  - eexists _, _. split_and!; [|done|done|done]. apply (fresh_audit w Hfr). cbn. lia.
Qed.

(** How a login may end. *)
Definition login_outcome (email password : string) (res : Result (IssuedTokens * Principal) AuthError) w w' : Prop :=
  db_ok (w_db w') ∧
  (is_ok res = true ↔ ∃ u, may_log_in email password u (w_db w)) ∧
  verifications (w_trace w') = S (verifications (w_trace w)) ∧
  credentials (w_db w') = credentials (w_db w) ∧
  match res with
  | Err e =>
      users (w_db w') = users (w_db w) ∧ refresh_tokens (w_db w') = refresh_tokens (w_db w) ∧
      (find_email (normalize_email email) (w_db w) = None → e = InvalidCredentialsError) ∧
      ∃ k ev, audit_events (w_db w) !! k = None ∧ audit_events (w_db w') = <[k := ev]> (audit_events (w_db w)) ∧
        ae_event_type ev = "auth.login_failed"
  | Ok (issued, p) =>
      ∃ u j row, find_email (normalize_email email) (w_db w) = Some u ∧ p = principal_from_user u ∧
        refresh_tokens (w_db w) !! j = None ∧ refresh_tokens (w_db w') = <[j := row]> (refresh_tokens (w_db w)) ∧
        rt_token_hash row = hash_token (refresh_token issued) ∧ rt_user_id row = u_id u ∧ rt_revoked_at row = None ∧
        (∀ i s, refresh_tokens (w_db w) !! i = Some s → rt_family_id s ≠ rt_family_id row)
  end.

Lemma login_refused email password u why e ip ua w :
  db_ok (w_db w) → drawn_fresh w → (∀ i, u = Some i → is_Some (users (w_db w) !! i)) →
  (∀ v, ¬ may_log_in email password v (w_db w)) →
  (find_email (normalize_email email) (w_db w) = None → e = InvalidCredentialsError) →
  ∃ res w', LoginUser.reject u why ip ua e (log_event EvPasswordVerify w) = (Ret res, w') ∧
    login_outcome email password res w w'.
Proof.
  intros Hok Hfr Hu Hno He.
  destruct (run_reject u why ip ua e (log_event EvPasswordVerify w)) as (w' & E & Hok' & Htr & Ed); [done|by destruct Hfr|done|].
  eexists _, w'. split; [exact E|]. unfold login_outcome. rewrite Htr Ed.
  split_and!; [by rewrite -Ed|split; [done|intros [v Hv]; by destruct (Hno v)]|done|done|done|done|done|].
  eexists _, _. split_and!; [by apply (fresh_audit w Hfr)|done|done].
Qed.

(** C3. A login is accepted exactly when the address names an account, the
    password matches its stored Argon2 credential, the account is active and,
    when required, verified.  Whatever the outcome, the password function is
    evaluated exactly once; a refusal changes nothing but the audit log, an
    acceptance starts a new token family and records the login. *)
Theorem login_decides email password ip ua w :
  config_ok cfg → drawn_fresh w → db_ok (w_db w) → families_drawn w →
  argon2_verify FIXED_DUMMY_ARGON2_HASH password = false →
  ∃ res w', LoginUser.execute cfg email password ip ua w = (Ret res, w') ∧ login_outcome email password res w w'.
Proof.
  intros Hcfg Hfr Hok Hdr Hdummy. rewrite run_login_prefix //. cbv zeta.
  destruct (find_email (normalize_email email) (w_db w)) as [u|] eqn:Hu; unfold login_tail; last first.
  { apply login_refused; try done. intros v (Hv & _). by rewrite Hu in Hv. }
  destruct (find_email_user _ _ _ Hu) as (r & Hr & _).
  assert (Hsome : ∀ i, Some (u_id u) = Some i → is_Some (users (w_db w) !! i)) by (intros i [= <-]; eauto).
  destruct (argon2_verify (stored_hash (Some u) (w_db w)) password) eqn:Hv; cbn [negb]; last first.
  { apply login_refused; try done; try by rewrite Hu. intros v (Hv' & Hc & _). rewrite Hu in Hv'. simplify_eq.
    apply stored_hash_spec in Hc; [congruence|done..]. }
  destruct (u_is_active u) eqn:Hact; cbn [negb]; last first.
  { apply login_refused; try done; try by rewrite Hu. intros v (Hv' & _ & Ha & _). rewrite Hu in Hv'. simplify_eq. congruence. }
  destruct (auth_require_email_verification cfg && negb (u_is_verified u)) eqn:Hreq.
  { apply login_refused; try done; try by rewrite Hu. intros v (Hv' & _ & _ & Hver). rewrite Hu in Hv'. simplify_eq.
    apply andb_true_iff in Hreq as [Hq Hn]. by rewrite Hver in Hn. }
  assert (Hver : auth_require_email_verification cfg = true → u_is_verified u = true).
  { intros Hq. rewrite Hq in Hreq. by destruct (u_is_verified u). }
  destruct (run_login_tail u r ip ua (log_event EvPasswordVerify w)) as
    (t & w' & j & row & E & Hok' & Htr & Hj & Ert & Eh & Eru & Erl & Efam & _ & Ecr & _);
    [done|by destruct Hfr|done|done|done|done|done|].
  unfold login_tail in E. rewrite Hact Hreq in E. eexists _, w'. split; [exact E|].
  unfold login_outcome. rewrite Htr. split_and!; [done| |done|done|by exists u, j, row; split_and!].
  split; [intros _|done]. exists u. split_and!; [done|by apply stored_hash_spec in Hv|done|done].
Qed.
End facts.

(** ** The properties on concrete inputs *)

(** Rows that the demo environment's later draws cannot collide with. *)
Definition demo_drawn (w : World) : Prop :=
  let old {R} (m : gmap uuid R) := map_Forall (λ i _, (i < N.of_nat (w_uuids w) + 1000)%N) m in
  old (users (w_db w)) ∧ old (refresh_tokens (w_db w)) ∧ old (audit_events (w_db w)) ∧
  old (credentials (w_db w)) ∧ old (internal_tokens (w_db w)) ∧ old (outbox_messages (w_db w)) ∧
  map_Forall (λ _ r, (String.length (rt_token_hash r) < 13 + w_tokens w)%nat) (refresh_tokens (w_db w)) ∧
  map_Forall (λ _ r, (String.length (it_token_hash r) < 13 + w_tokens w)%nat) (internal_tokens (w_db w)).
#[global] Instance demo_drawn_dec w : Decision (demo_drawn w).
Proof. unfold demo_drawn. apply _. Defined.

Lemma demo_hash_length k : String.length (hash_token (token_at k)) = (13 + k)%nat.
Proof.
  assert (Hx : ∀ n, String.length (xs n) = n) by (intros n; induction n; cbn; congruence).
  transitivity (13 + String.length (xs k))%nat; [reflexivity|]. by rewrite Hx.
Qed.

Lemma demo_drawn_fresh w : demo_drawn w → drawn_fresh w.
Proof.
  intros (? & ? & ? & ? & ? & ? & Hr & Hi). constructor; try (by apply demo_fresh).
  - intros k i r Hk Hl E. specialize (Hr i r Hl). rewrite E demo_hash_length in Hr. lia.
  - intros k i r Hk Hl E. specialize (Hi i r Hl). rewrite E demo_hash_length in Hi. lia.
Qed.

Lemma demo_config_ok : config_ok demo_settings.
Proof.
  constructor; [by exists "secret"|..]; (split; [vm_compute; reflexivity|]); intros k;
    unfold datetime_ok; cbn -[Z.mul Z.add Z.min]; unfold demo_epoch, minutes, day, second;
    rewrite andb_true_iff Z.leb_le Z.ltb_lt; lia.
Qed.

Lemma rotation_spec_witness :
  ∃ issued p w', RotateRefreshToken.execute demo_settings (Some (token_at 0)) None None demo_logged_in = (Ret (Ok (issued, p)), w') ∧
    db_ok (w_db w').
Proof.
  destruct (refresh_tokens (w_db demo_logged_in) !! 1005%N) as [r|] eqn:Hr; [|vm_compute in Hr; discriminate Hr].
  destruct (find_user 1000%N (w_db demo_logged_in)) as [u|] eqn:Hu; [|vm_compute in Hu; discriminate Hu].
  assert (Hf : families_ok (refresh_tokens (w_db demo_logged_in))).
  { assert (Hk : kept (λ _, False) demo_logged_in); [|by destruct Hk as (_ & ? & _)].
    apply (auth_steps_kept (C := InProcessPrincipalCache.InProcessPrincipalCache (gmap string Principal)) demo_settings _ init_world).
    - eapply rtc_l; [apply step_register|]. apply rtc_once. apply step_login.
    - split_and!; [|done..]. intros k _. split; [tauto|]. intros i s Hi. vm_compute in Hi. discriminate Hi. }
  destruct (rotation_spec demo_settings (token_at 0) 1005%N r u None None demo_logged_in) as (issued & w' & j & new & old & E & Hok & _);
    [discriminate|exact demo_config_ok|apply demo_drawn_fresh; by_eval|by_eval|exact Hf|exact Hr|..].
  - vm_compute in Hr. injection Hr as <-. reflexivity.
  - vm_compute in Hr. injection Hr as <-. reflexivity.
  - vm_compute in Hr. injection Hr as <-. vm_compute. reflexivity.
  - vm_compute in Hr. injection Hr as <-. exact Hu.
  - vm_compute in Hu. injection Hu as <-. reflexivity.
  - eexists issued, _, w'. split; [exact E|exact Hok].
Defined.

Lemma rotation_refuses_witness :
  db_ok (w_db demo_logged_in) ∧
  (RotateRefreshToken.execute demo_settings (Some "unknown") None None demo_logged_in).1 = Ret (Err InvalidTokenError).
Proof.
  assert (Hok : db_ok (w_db demo_logged_in)) by by_eval. split; [exact Hok|].
  pose proof (rotation_refuses demo_settings (Some "unknown") None None demo_logged_in Hok) as Hr. cbv zeta beta iota in Hr.
  assert (E : refresh_with (hash_token "unknown") (w_db demo_logged_in) = None) by (vm_compute; reflexivity).
  rewrite E in Hr. exact (proj1 Hr).
Defined.

Lemma login_decides_witness :
  ∃ res w', LoginUser.execute demo_settings "Ada@Example.com " "Correct-horse-1" None None demo_registered = (Ret res, w') ∧
    is_ok res = true.
Proof.
  destruct (login_decides demo_settings "Ada@Example.com " "Correct-horse-1" None None demo_registered) as (res & w' & E & _ & _);
    [exact demo_config_ok|apply demo_drawn_fresh; by_eval|by_eval|intros k i r _ Hi; vm_compute in Hi; discriminate Hi|vm_compute; reflexivity|].
  exists res, w'. split; [exact E|].
  apply (f_equal (λ x, match x.1 with Ret r => is_ok r | Raise _ => false end)) in E.
  etransitivity; [symmetry; exact E|]. vm_compute. reflexivity.
Defined.
