(* ===== verification/AuthTokens.v ===== *)
(** Registration and the single-use token flows: password reset and e-mail
    verification. *)

From stdpp Require Import relations.
From S2P Require Import Prelude PyStr Uuid Store StoreFacts Demo Outbox Users UsersFacts AuthRepo AuthRepoFacts Principals DemoAuth PrincipalsFacts Auth Gdpr RefreshFamilies AuthFacts.
Open Scope string_scope.
Open Scope list_scope.
Open Scope Z_scope.

(** Argon2 accepts the password a hash was made from. *)
Class Argon2Correct `{Env} : Prop :=
  argon2_verify_hash salt password : argon2_verify (argon2_hash salt password) password = true.

Section flows.
Context `{Env} `{Jwt} (cfg : AuthSettings) {C : Type} `{PrincipalCachePort C}.
Implicit Types w : World.

(** ** Consuming a single-use token *)

(** A token that can be consumed: known for the purpose, unexpired and unused. *)
Definition consumable (token purpose : string) (i : uuid) (r : InternalRow) (u : uuid) w : Prop :=
  internal_tokens (w_db w) !! i = Some r ∧ it_token_hash r = hash_token token ∧ it_purpose r = purpose ∧
  now_at (w_clock w) < it_expires_at r ∧ it_used_at r = None ∧ it_user_id r = Some u.

Lemma run_consume token purpose apply_ i r u w w1 :
  db_ok (w_db w) → consumable token purpose i r u w →
  apply_ i u (tick (set_session (w_db w) w)) = (Ret tt, w1) → db_ok (w_session w1) →
  consume token purpose apply_ w = (Ret (Ok u), set_session (w_session w) (set_db (w_session w1) w1)).
Proof.
  intros Hok (Hi & Hh & Hp & Hexp & Hused & Hu) Ha Hok1. unfold consume, AuthRepository.internal_token_transaction.
  erewrite run_write_scope; [done| |exact Hok1].
  rewrite run_bind. unfold InternalTokenTx.get_internal_token_for_update. rewrite run_find_internal //.
  cbn [w_session set_session]. rewrite (proj2 (internal_with_spec _ _ _ i r Hok)) //.
  rewrite run_bind run_utc_now. rewrite (proj2 (Z.leb_gt _ _)); [|done]. by rewrite Hused Hu run_bind Ha.
Qed.

(** A used token is never consumed again, for any purpose. *)
Lemma consume_used token purpose apply_ i r w :
  internal_tokens (w_db w) !! i = Some r → it_token_hash r = hash_token token → is_Some (it_used_at r) →
  db_ok (w_db w) → ∃ e, consume token purpose apply_ w = (Ret (Err e), state_of (consume token purpose apply_) w) ∧
    w_db (state_of (consume token purpose apply_) w) = w_db w.
Proof.
  intros Hi Hh [t Hused] Hok. unfold state_of, consume, AuthRepository.internal_token_transaction.
  match goal with |- context [write_scope ?b] => set (body := b) end.
  assert (Hb : ∃ e w1, body (set_session (w_db w) w) = (Ret (Err e), w1) ∧ w_session w1 = w_db w ∧ w_db w1 = w_db w).
  { unfold body. rewrite run_bind. unfold InternalTokenTx.get_internal_token_for_update. rewrite run_find_internal //.
    cbn [w_session set_session]. destruct (internal_with _ _ _) as [[j s]|] eqn:E; [|by do 2 eexists].
    apply internal_with_spec in E as (Hj & Hs & _); [|done].
    assert (j = i) as ->.
    { pose proof Hok as (_ & _ & _ & _ & _ & _ & _ & Hq & _). rewrite uniq_on_spec in Hq.
      apply (Hq j i s r); [done..|congruence]. }
    simplify_eq. rewrite run_bind run_utc_now Hused. destruct (_ <=? _); by do 2 eexists. }
  destruct Hb as (e & w1 & Eb & Es & Ed). exists e. erewrite run_write_scope; [|exact Eb|by rewrite Es]. by split.
Qed.

(** ** Password reset *)

Lemma run_session_bump i r w :
  users (w_session w) !! i = Some r →
  SessionUsers.bump_authz_version i w =
    (Ret tt, set_session (set_users (alter (bump_version (now_at (w_clock w))) i) (w_session w)) (tick w)).
Proof.
  intros Hi. unfold SessionUsers.bump_authz_version. rewrite run_bind run_get_user Hi run_bind run_utc_now. done.
Qed.
Lemma run_mark_used i r w :
  internal_tokens (w_session w) !! i = Some r → it_used_at r = None →
  mark_used i w = (Ret tt, set_session (set_internal_tokens (alter (set_used (now_at (w_clock w))) i) (w_session w)) (tick w)).
Proof. intros Hi Hu. unfold mark_used. by rewrite run_bind run_sess Hi run_bind Hu. Qed.

(** What applying a reset does to the rows of the session. *)
Lemma run_apply_reset h i r u x w :
  db_ok (w_session w) → drawn_fresh (set_db (w_session w) w) →
  internal_tokens (w_session w) !! i = Some r → it_used_at r = None → users (w_session w) !! u = Some x →
  ∃ w', ConfirmPasswordReset.apply_reset h i u w = (Ret tt, w') ∧ db_ok (w_session w') ∧
    (∃ k c, credential_of u (w_session w') = Some (k, c) ∧ cred_hash c = h) ∧
    (∀ v, v ≠ u → credential_of v (w_session w') = credential_of v (w_session w)) ∧
    (∃ t, users (w_session w') = alter (bump_version t) u (users (w_session w))) ∧
    (∃ t, internal_tokens (w_session w') = alter (set_used t) i (internal_tokens (w_session w))) ∧
    (∃ t, refresh_tokens (w_session w') = update_where (live_of_user u) (set_revoked t) (refresh_tokens (w_session w))) ∧
    (∃ k e, audit_events (w_session w) !! k = None ∧ audit_events (w_session w') = <[k := e]> (audit_events (w_session w)) ∧
       ae_event_type e = "auth.password_reset_completed" ∧ ae_user_id e = Some u).
Proof.
  intros Hok Hfr Hi Hused Hx. unfold ConfirmPasswordReset.apply_reset, InternalTokenTx.upsert_credential. rewrite run_bind.
  destruct (run_put_credential u h w) as (c & w1 & E1 & Hok1 & Ew1 & Hle & Es1 & Hc & Hch & Hoth);
    [done|by apply (fresh_credentials _ Hfr)|by rewrite Hx|]. rewrite E1.
  destruct (w_session w1) as [us cr rt it ae re ob pm] eqn:Ed1. cbn in Es1. injection Es1 as -> -> -> -> -> -> ->.
  unfold InternalTokenTx.bump_user_authz_version. rewrite run_bind (run_session_bump u x); [|by rewrite Ed1].
  unfold InternalTokenTx.mark_internal_token_used. rewrite run_bind (run_mark_used i r); [|by rewrite Ed1|done].
  unfold InternalTokenTx.revoke_user_refresh_tokens, revoke_user_tokens. rewrite !run_bind run_utc_now run_stage.
  unfold InternalTokenTx.record_audit_event. rewrite run_add_audit; last first.
  { rewrite Ed1. cbn. apply (fresh_audit _ Hfr). cbn. lia. }
  eexists. split; [done|]. rewrite Ed1. cbn -[db_ok credential_of].
  split_and!.
  - pose proof (db_ok_alter_user_email (bump_version (now_at (w_clock w1))) u _ Hok1 ltac:(done) ltac:(intros; cbn; lia)) as Hok2.
    pose proof (db_ok_use_one i (now_at (S (w_clock w1))) _ Hok2) as Hok3.
    pose proof (db_ok_revoke (live_of_user u) (now_at (S (S (w_clock w1)))) _ Hok3) as Hok4.
    apply (db_ok_insert_audit _ _ _ Hok4). intros v [= <-]. cbn.
    rewrite lookup_alter_eq Hx. eauto.
  - destruct c as [k c]. exists k, c. by split.
  - done.
  - by eexists.
  - by eexists.
  - by eexists.
  - eexists _, _. split_and!; [|done|done|done]. apply (fresh_audit _ Hfr). cbn. lia.
Qed.

(** The refusals, whatever the cache. *)
Lemma confirm_reset_used b token password i r w c :
  internal_tokens (w_db w) !! i = Some r → it_token_hash r = hash_token token → is_Some (it_used_at r) →
  db_ok (w_db w) → ∃ e, result_of (ConfirmPasswordReset.execute b token password) (w, c : C) = Ret (Err e).
Proof.
  intros Hi Hh Hu Hok. unfold result_of, ConfirmPasswordReset.execute. rewrite run_bind. unfold on_fst at 1. cbn.
  rewrite run_bind. unfold on_fst. cbn.
  destruct (consume_used token PASSWORD_RESET_PURPOSE (ConfirmPasswordReset.apply_reset (argon2_hash (w_salts w) password))
    i r (bump_salts w)) as (e & E & _); [done..|]. rewrite E. by exists e.
Qed.

(** A token of an older version than the account's, with no entry in the cache. *)
Lemma stale_refused token p x w c :
  cache_ok c → result_of (AccessTokenService.decode cfg token) w = Ret (Ok p) →
  users (w_db w) !! at_subject p = Some x → at_authz_version p ≠ user_authz_version x →
  entries c !! at_token_id p = None → ∃ e, result_of (ResolvePrincipal.execute cfg token) (w, c) = Ret (Err e).
Proof.
  intros Hc Hd Hx Hv Hn. destruct (resolve_cases cfg token p w c Hc Hd) as (res & c' & E & _ & [(q & Hq & _)|[Hres _]]).
  { by rewrite Hn in Hq. }
  unfold result_of. rewrite E Hres. unfold account_verdict, find_user. rewrite Hx.
  destruct (user_is_erased x); [by eexists|]. cbn. destruct (user_is_active x); [|by eexists].
  cbn. rewrite (proj2 (Z.eqb_neq _ _)); [by eexists|done].
Qed.

(** C4. Confirming a password reset with a live token replaces the account's
    Argon2 credential and nobody else's, revokes all refresh tokens of the
    account and no other, increments its authorization version and evicts its
    cached principals, in one transaction with the consumption of the token:
    the token is refused from then on, and so is every access token issued for
    an earlier version. *)
Theorem password_reset_spec token new_password i r u x w c :
  db_ok (w_db w) → drawn_fresh w → cache_ok c →
  consumable token PASSWORD_RESET_PURPOSE i r u w → users (w_db w) !! u = Some x →
  ∃ w' c', ConfirmPasswordReset.execute true token new_password (w, c) = (Ret (Ok tt), (w', c')) ∧
    db_ok (w_db w') ∧ cache_ok c' ∧
    (∃ k cr, credential_of u (w_db w') = Some (k, cr) ∧ cred_hash cr = argon2_hash (w_salts w) new_password) ∧
    (∀ v, v ≠ u → credential_of v (w_db w') = credential_of v (w_db w)) ∧
    (∀ k s, refresh_tokens (w_db w') !! k = Some s → rt_user_id s = u → is_Some (rt_revoked_at s)) ∧
    (∀ k s, refresh_tokens (w_db w) !! k = Some s → rt_user_id s ≠ u → refresh_tokens (w_db w') !! k = Some s) ∧
    (∃ t, users (w_db w') = alter (bump_version t) u (users (w_db w))) ∧
    (∀ b password c2, ∃ e, result_of (ConfirmPasswordReset.execute b token password) (w', c2 : C) = Ret (Err e)) ∧
    (∀ access p, result_of (AccessTokenService.decode cfg access) w' = Ret (Ok p) → at_subject p = u →
       at_authz_version p <= user_authz_version x →
       (∀ q, entries c !! at_token_id p = Some q → p_user_id q = u) →
       ∃ e, result_of (ResolvePrincipal.execute cfg access) (w', c') = Ret (Err e)).
Proof.
  intros Hok Hfr Hc Hcons Hx. pose proof Hcons as (Hi & Hh & _ & _ & Hused & _).
  destruct (run_apply_reset (argon2_hash (w_salts w) new_password) i r u x (tick (set_session (w_db w) (bump_salts w))))
    as (w1 & E1 & Hok1 & Hcr & Hoth & [t1 Hus] & [t2 Hit] & [t3 Hrt] & _); [done|by destruct Hfr|done..|]. cbn in Hoth, Hus, Hit, Hrt.
  destruct (invalidate_user_spec u c Hc) as (c' & Ec & Hc' & Hsub & Hno).
  set (w' := set_session (w_session (bump_salts w)) (set_db (w_session w1) w1)).
  assert (Hit' : internal_tokens (w_db w') !! i = Some (set_used t2 r)) by (cbn; by rewrite Hit lookup_alter_eq Hi).
  exists w', c'. split_and!.
  - unfold ConfirmPasswordReset.execute. rewrite run_bind. unfold on_fst at 1. cbn [fst snd hash_password].
    rewrite run_bind. unfold on_fst. cbn [fst snd]. rewrite (run_consume _ _ _ i r u _ w1); [|done|done|exact E1|done].
    cbn. unfold invalidate_cached, when. rewrite run_bind. unfold on_snd. cbn. by rewrite Ec.
  - done.
  - done.
  - done.
  - done.
  - intros k s. cbn. rewrite Hrt lookup_update_where fmap_Some. intros (s0 & Hs0 & ->).
    unfold live_of_user. case_bool_decide as Hb1; [case_bool_decide as Hb2|]; cbn.
    + intros _. by rewrite Hb2.
    + intros _. destruct (rt_revoked_at s0); [by eexists|done].
    + done.
  - intros k s Hs Hne. cbn. rewrite Hrt lookup_update_where Hs. cbn. unfold live_of_user. by rewrite bool_decide_eq_false_2.
  - by exists t1.
  - intros b password c2. eapply (confirm_reset_used b token password i); [exact Hit'|done| |done]. cbn. by rewrite Hused.
  - intros access p Hd Hs Hv Hq.
    eapply (stale_refused access p (bump_version t1 x)); [done|exact Hd|..].
    + cbn. by rewrite Hus Hs lookup_alter_eq Hx.
    + cbn. lia.
    + destruct (entries c' !! at_token_id p) as [q|] eqn:E; [|done]. exfalso.
      apply (Hno _ _ E). apply Hq. by eapply lookup_weaken.
Qed.

(** ** Requesting a token *)

Lemma run_issue_internal user purpose event template uk url n raw expires ip w :
  db_ok (w_db w) → drawn_fresh w → is_Some (users (w_db w) !! u_id user) →
  (∀ i r, internal_tokens (w_db w) !! i = Some r → it_token_hash r ≠ hash_token raw) →
  ∃ w' j row k msg, issue_internal cfg user purpose event template uk url n raw expires ip w = (Ret tt, w') ∧
    db_ok (w_db w') ∧ w_trace w' = w_trace w ∧
    internal_tokens (w_db w) !! j = None ∧
    internal_tokens (w_db w') =
      <[j := row]> (update_where (unused_of_user (u_id user) purpose) (set_used (now_at (w_clock w))) (internal_tokens (w_db w))) ∧
    it_user_id row = Some (u_id user) ∧ it_purpose row = purpose ∧ it_token_hash row = hash_token raw ∧
    it_expires_at row = expires ∧ it_used_at row = None ∧
    users (w_db w') = users (w_db w) ∧ credentials (w_db w') = credentials (w_db w) ∧
    refresh_tokens (w_db w') = refresh_tokens (w_db w) ∧
    outbox_messages (w_db w) !! k = None ∧ outbox_messages (w_db w') = <[k := msg]> (outbox_messages (w_db w)) ∧
    ob_status msg = Pending ∧ ob_job_name msg = SEND_EMAIL_JOB ∧
    ob_payload msg !! "to" = Some (JStr (u_email user)) ∧ ob_payload msg !! "template_name" = Some (JStr template) ∧
    ob_payload msg = list_to_map [("to", JStr (u_email user)); ("template_name", JStr template);
      ("context", JObj [("app_name", JStr (app_display_name cfg)); ("email", JStr (u_email user)); (uk, JStr url);
                        ("expires_in_minutes", JInt n)])].
Proof.
  intros Hok Hfr Hu Hh. unfold issue_internal, AuthRepository.issue_internal_token_transaction, SQLModelOutboxUnitOfWork.transaction.
  set (now := now_at (w_clock w)).
  pose proof (db_ok_use (unused_of_user (u_id user) purpose) now _ Hok) as Hok1.
  set (j := uuid4_at (w_uuids w)).
  set (row := mkInternalRow (Some (u_id user)) purpose (hash_token raw) expires None (now_at (S (w_clock w))) ip).
  set (d1 := set_internal_tokens (update_where (unused_of_user (u_id user) purpose) (set_used now)) (w_db w)) in Hok1.
  assert (Hj : internal_tokens d1 !! j = None).
  { cbn. by rewrite lookup_update_where (fresh_internal w Hfr). }
  assert (Hok2 : db_ok (set_internal_tokens (<[j := row]>) d1)).
  { apply db_ok_insert_internal; [done|by intros ? [= <-]|]. intros i r. cbn. rewrite lookup_update_where fmap_Some.
    intros (r0 & Hr0 & ->). specialize (Hh i r0 Hr0). by destruct (unused_of_user _ _ _ _). }
  set (d2 := set_internal_tokens (<[j := row]>) d1) in *.
  eexists _, j, row, (uuid4_at (S (S (w_uuids w)))), _.
  erewrite run_write_scope.
  2: { rewrite run_bind. unfold IssueTokenTx.invalidate_unused_tokens_for.
    rewrite !run_bind run_utc_now run_bind run_sess run_bind run_stage run_ret run_bind.
    unfold IssueTokenTx.create_internal_token, insert_internal.
    rewrite run_bind run_uuid4 run_bind run_utc_now run_bind run_add_row; [|exact Hj]. rewrite run_bind run_flush; [|exact Hok2].
    rewrite run_ret run_bind. unfold IssueTokenTx.record_audit_event. rewrite run_add_audit; [|cbn; apply (fresh_audit w Hfr); lia].
    unfold IssueTokenTx.outbox_enqueue, SessionSQLModelOutboxAdapter.enqueue.
    rewrite run_bind run_gets run_bind run_uuid4 run_bind run_utc_now run_bind run_utc_now.
    rewrite run_add_row; [done|]. cbn. apply (fresh_outbox w Hfr). lia. }
  2: { cbn -[db_ok]. apply db_ok_outbox. apply (db_ok_insert_audit _ _ d2); [done|]. by intros ? [= <-]. }
  split_and!; try done.
  - cbn -[db_ok]. apply db_ok_outbox. apply (db_ok_insert_audit _ _ d2); [done|]. by intros ? [= <-].
  - by apply (fresh_internal w Hfr).
  - cbn. apply (fresh_outbox w Hfr). lia.
Qed.

(** Where the two requests get to: the password function is evaluated, the token and
    the clock are drawn. *)
Definition request_drawn w : World := tick (bump_tokens (log_event EvPasswordVerify w)).
Lemma drawn_fresh_request w : drawn_fresh w → drawn_fresh (request_drawn w).
Proof. intros Hfr. by destruct Hfr; constructor; cbn; intros; eauto with lia. Qed.

Lemma run_request_reset email ip w u :
  config_ok cfg → find_email (normalize_email email) (w_db w) = Some u →
  let raw := token_at (w_tokens w) in
  let lifetime := auth_password_reset_token_expire_minutes cfg in
  let expires := now_at (w_clock w) + minutes lifetime in
  RequestPasswordReset.execute cfg email ip w =
    (issue_internal cfg u PASSWORD_RESET_PURPOSE "auth.password_reset_requested" PASSWORD_RESET_TEMPLATE "reset_url"
       (RequestPasswordReset.reset_url (app_public_url cfg) raw) lifetime raw expires ip ;;
     mret (Ok (internal_result cfg raw expires))) (request_drawn w).
Proof.
  intros Hcfg Hu. unfold RequestPasswordReset.execute. rewrite run_bind run_get_by_email Hu run_bind.
  unfold verify_password at 1. cbn -[issue_internal]. rewrite run_bind. unfold generate_opaque_token.
  rewrite run_token_urlsafe run_bind run_utc_now run_bind. destruct Hcfg as [_ _ _ [Htd Hdt]].
  unfold timedelta. rewrite Htd run_ret run_bind. unfold datetime_add. by rewrite Hdt run_ret.
Qed.

(** The lifetime of a verification link is in range. *)
Definition verify_lifetime_ok : Prop :=
  timedelta_ok (minutes (auth_email_verify_token_expire_minutes cfg)) = true ∧
  ∀ k, datetime_ok (now_at k + minutes (auth_email_verify_token_expire_minutes cfg)) = true.
Lemma run_request_verification i ip w u :
  verify_lifetime_ok → find_user i (w_db w) = Some u →
  let raw := token_at (w_tokens w) in
  let lifetime := auth_email_verify_token_expire_minutes cfg in
  let expires := now_at (w_clock w) + minutes lifetime in
  RequestEmailVerification.execute cfg i ip w =
    (issue_internal cfg u EMAIL_VERIFY_PURPOSE "auth.email_verify_requested" VERIFY_EMAIL_TEMPLATE "verify_url"
       (RequestEmailVerification.verify_url (app_public_url cfg) raw) lifetime raw expires ip ;;
     mret (Ok (internal_result cfg raw expires))) (request_drawn w).
Proof.
  intros [Htd Hdt] Hu. unfold RequestEmailVerification.execute. rewrite run_bind run_get_by_id Hu run_bind.
  unfold verify_password at 1. cbn -[issue_internal]. rewrite run_bind. unfold generate_opaque_token.
  rewrite run_token_urlsafe run_bind run_utc_now run_bind.
  unfold timedelta. rewrite Htd run_ret run_bind. unfold datetime_add. by rewrite Hdt run_ret.
Qed.

(** The address and its outcome. *)

Definition reset_outcome (email : string) (res : InternalTokenResult) w w' : Prop :=
  match find_email (normalize_email email) (w_db w) with
  | None => res = mkInternalTokenResult None None ∧ w_db w' = w_db w
  | Some u =>
      let raw := token_at (w_tokens w) in
      let expires := now_at (w_clock w) + minutes (auth_password_reset_token_expire_minutes cfg) in
      res = mkInternalTokenResult (if auth_return_internal_tokens cfg then Some raw else None) (Some expires) ∧
      users (w_db w') = users (w_db w) ∧ credentials (w_db w') = credentials (w_db w) ∧
      refresh_tokens (w_db w') = refresh_tokens (w_db w) ∧
      (∃ j row, internal_tokens (w_db w) !! j = None ∧ internal_tokens (w_db w') !! j = Some row ∧
         it_token_hash row = hash_token raw ∧ it_expires_at row = expires ∧
         ∀ i r, internal_tokens (w_db w') !! i = Some r → it_user_id r = Some (u_id u) →
           it_purpose r = PASSWORD_RESET_PURPOSE → it_used_at r = None → i = j) ∧
      (∃ k msg, outbox_messages (w_db w) !! k = None ∧ outbox_messages (w_db w') = <[k := msg]> (outbox_messages (w_db w)) ∧
         ob_status msg = Pending ∧ ob_job_name msg = SEND_EMAIL_JOB ∧ ob_payload msg !! "to" = Some (JStr (u_email u)))
  end.

(** Requesting a password reset evaluates the password function once whether
    or not the address is known.  For an unknown address nothing is written; for
    a known one the transaction leaves exactly one unused reset token of the
    account, the new one with the configured lifetime, together with one pending
    e-mail job to the stored address.  The returned expiry is absent exactly
    when there is no account. *)
Theorem request_reset_spec email ip w :
  config_ok cfg → db_ok (w_db w) → drawn_fresh w →
  ∃ res w', RequestPasswordReset.execute cfg email ip w = (Ret (Ok res), w') ∧ db_ok (w_db w') ∧
    verifications (w_trace w') = S (verifications (w_trace w)) ∧
    reset_outcome email res w w' ∧
    (itr_expires_at res = None ↔ find_email (normalize_email email) (w_db w) = None).
Proof.
  intros Hcfg Hok Hfr. unfold reset_outcome. destruct (find_email (normalize_email email) (w_db w)) as [u|] eqn:Hu; last first.
  { unfold RequestPasswordReset.execute. rewrite run_bind run_get_by_email Hu. eexists _, _. split; [done|]. by split_and!. }
  destruct (find_email_user _ _ _ Hu) as (r & Hr & _). rewrite (run_request_reset _ _ _ u) // run_bind.
  match goal with |- context [issue_internal cfg u ?p ?e ?t ?uk ?url ?n ?raw ?ex ip _] =>
    destruct (run_issue_internal u p e t uk url n raw ex ip (request_drawn w)) as
      (w' & j & row & k & msg & E & Hok' & Htr & Hj & Hit & Hru & Hrp & Hrh & Hre & Hrused & Hus & Hcr & Hrt & Hk & Hob & Hst & Hjob & Hto & _) end.
  { done. } { by apply drawn_fresh_request. } { by rewrite Hr. }
  { intros i s Hs. by apply (fresh_internal_hash w Hfr (w_tokens w) i s). }
  rewrite E. eexists _, w'. split; [done|]. rewrite Htr. split_and!; try done.
  - exists j, row. split_and!; [done|by rewrite Hit lookup_insert_eq|done|done|].
    intros i s. rewrite Hit lookup_insert_Some. intros [[<- _]|[Hne Hs]]; [done|]. revert Hs.
    rewrite lookup_update_where fmap_Some. intros (s0 & Hs0 & ->). unfold unused_of_user.
    destruct (bool_decide (it_user_id s0 = Some (u_id u)) && String.eqb (it_purpose s0) PASSWORD_RESET_PURPOSE &&
      bool_decide (it_used_at s0 = None)) eqn:Eb; cbn.
    + intros _ _. by destruct (it_used_at s0).
    + intros Hu1 Hp1 Hn1. rewrite Hu1 Hp1 Hn1 !bool_decide_eq_true_2 // String.eqb_refl in Eb.
  - by exists k, msg.
Qed.

(** ** E-mail verification *)

Lemma run_session_mark_verified i r w :
  users (w_session w) !! i = Some r →
  ∃ w' t, SessionUsers.mark_verified i w = (Ret tt, w') ∧
    w_session w' = set_users (λ m, if user_is_verified r then m else alter (set_verified t) i m) (w_session w) ∧
    w_uuids w' = w_uuids w.
Proof.
  intros Hi. unfold SessionUsers.mark_verified. rewrite run_bind run_get_user Hi.
  destruct (user_is_verified r).
  - exists w, 0. split_and!; [done| |done]. by destruct (w_session w).
  - eexists _, _. split; [done|]. by split.
Qed.

(** Confirming an e-mail address with a live token marks the account as
    verified and changes nothing else about any account or session, evicts the
    account's cached principals, and consumes the token: it is refused from
    then on. *)
Theorem email_verification_spec token i r u x w c :
  db_ok (w_db w) → drawn_fresh w → cache_ok c →
  consumable token EMAIL_VERIFY_PURPOSE i r u w → users (w_db w) !! u = Some x →
  ∃ w' c' x', ConfirmEmailVerification.execute true token (w, c) = (Ret (Ok tt), (w', c')) ∧
    db_ok (w_db w') ∧ cache_ok c' ∧ (∀ k p, entries c' !! k = Some p → p_user_id p ≠ u) ∧
    users (w_db w') !! u = Some x' ∧ user_is_verified x' = true ∧
    user_email x' = user_email x ∧ user_is_active x' = user_is_active x ∧ user_authz_version x' = user_authz_version x ∧
    (∀ v, v ≠ u → users (w_db w') !! v = users (w_db w) !! v) ∧
    credentials (w_db w') = credentials (w_db w) ∧ refresh_tokens (w_db w') = refresh_tokens (w_db w) ∧
    (∀ b c2, ∃ e, result_of (ConfirmEmailVerification.execute b token) (w', c2 : C) = Ret (Err e)).
Proof.
  intros Hok Hfr Hc Hcons Hx. pose proof Hcons as (Hi & Hh & _ & _ & Hused & _).
  destruct (run_session_mark_verified u x (tick (set_session (w_db w) w))) as (w1 & t & E1 & Es1 & Eu1); [done|]. cbn in Es1, Eu1.
  set (g := λ m : gmap uuid UserRow, if user_is_verified x then m else alter (set_verified t) u m) in Es1.
  assert (Hok1 : db_ok (w_session w1)).
  { rewrite Es1. unfold g. destruct (user_is_verified x); [by destruct (w_db w)|].
    apply db_ok_alter_user_email; [done|done|intros; cbn; lia]. }
  pose proof (db_ok_use_one i (now_at (w_clock w1)) _ Hok1) as Hok2.
  set (d2 := set_internal_tokens _ (w_session w1)) in Hok2.
  destruct (invalidate_user_spec u c Hc) as (c' & Ec & Hc' & Hsub & Hno).
  assert (Ha : ConfirmEmailVerification.apply_verification i u (tick (set_session (w_db w) w)) =
    (Ret tt, set_session (set_audit_events (<[uuid4_at (w_uuids w1) :=
       mkAuditRow (Some u) "auth.email_verified" None None ∅ (now_at (S (w_clock w1)))]>) d2) (tick (bump_uuids (tick w1))))).
  { unfold ConfirmEmailVerification.apply_verification. rewrite run_bind. unfold InternalTokenTx.mark_user_verified. rewrite E1 run_bind.
    unfold InternalTokenTx.mark_internal_token_used. rewrite (run_mark_used i r); [|by rewrite Es1|done].
    unfold InternalTokenTx.record_audit_event. rewrite run_add_audit; [done|]. cbn. rewrite Es1 Eu1. by apply (fresh_audit w Hfr). }
  assert (Hux : ∃ x', g (users (w_db w)) !! u = Some x' ∧ user_is_verified x' = true ∧ user_email x' = user_email x ∧
    user_is_active x' = user_is_active x ∧ user_authz_version x' = user_authz_version x).
  { unfold g. destruct (user_is_verified x) eqn:Ev; [by exists x|].
    exists (set_verified t x). by rewrite lookup_alter_eq Hx. }
  destruct Hux as (x' & Hx' & Hv & He & Hac & Hve).
  match type of Ha with _ = (_, ?w2) => set (w' := set_session (w_session w) (set_db (w_session w2) w2)) end.
  assert (Hit' : internal_tokens (w_db w') !! i = Some (set_used (now_at (w_clock w1)) r)).
  { cbn. by rewrite lookup_alter_eq Es1 /= Hi. }
  assert (Hok' : db_ok (w_db w')).
  { apply (db_ok_insert_audit _ _ d2); [done|]. intros v [= <-]. cbn. rewrite Es1. by rewrite /= Hx'. }
  exists w', c', x'. split_and!; try done.
  - unfold ConfirmEmailVerification.execute. rewrite run_bind. unfold on_fst. cbn [fst snd].
    rewrite (run_consume _ _ _ i r u _ _ Hok Hcons Ha); [|exact Hok'].
    cbn. unfold invalidate_cached, when. rewrite run_bind. unfold on_snd. cbn. by rewrite Ec.
  - cbn. by rewrite Es1.
  - intros v Hv'. cbn. rewrite Es1 /=. unfold g. destruct (user_is_verified x); [done|]. by rewrite lookup_alter_ne.
  - cbn. by rewrite Es1.
  - cbn. by rewrite Es1.
  - intros b c2. unfold result_of, ConfirmEmailVerification.execute. rewrite run_bind. unfold on_fst. cbn [fst snd].
    destruct (consume_used token EMAIL_VERIFY_PURPOSE ConfirmEmailVerification.apply_verification i _ w' Hit') as (e & E & _);
      [done|cbn; by rewrite Hused|done|]. rewrite E. by exists e.
Qed.

(** ** Registration *)

(** Registering a new address creates the account, its Argon2 credential and
    an audit event in one transaction, after which the same address (in any
    spelling) and password satisfy the login conditions; registering a spelling
    of a used address is refused with [DuplicateEmailError] and changes no row. *)
Theorem registration_spec `{!Argon2Correct} email password ip ua w :
  db_ok (w_db w) → drawn_fresh w → auth_require_email_verification cfg = false →
  ∃ res w', RegisterUser.execute email password ip ua w = (Ret res, w') ∧ db_ok (w_db w') ∧
    match res with
    | Ok u => (¬ email_taken (normalize_email email) (w_db w)) ∧ users (w_db w) !! u_id u = None ∧
        (∀ spelling, normalize_email spelling = normalize_email email → may_log_in cfg spelling password u (w_db w')) ∧
        (∀ v, v ≠ u_id u → users (w_db w') !! v = users (w_db w) !! v) ∧
        (∀ v, v ≠ u_id u → credential_of v (w_db w') = credential_of v (w_db w)) ∧
        (∃ k e, audit_events (w_db w) !! k = None ∧ audit_events (w_db w') !! k = Some e ∧
           ae_event_type e = "auth.user_registered" ∧ ae_user_id e = Some (u_id u))
    | Err e => e = DuplicateEmailError ∧ email_taken (normalize_email email) (w_db w) ∧ w_db w' = w_db w
    end.
Proof.
  intros Hok Hfr Hreq. unfold RegisterUser.execute. rewrite run_bind. cbn [hash_password].
  unfold AuthRepository.register_user_transaction.
  set (e := normalize_email email). set (w0 := set_session (w_db (bump_salts w)) (bump_salts w)).
  pose proof (run_session_create e w0 Hok) as Ec. destruct (created_user e w0) as [i row] eqn:Ei. cbv zeta in Ec.
  unfold created_user in Ei. injection Ei as <- <-.
  destruct (email_taken_dec e (w_db w)) as [Ht|Ht].
  - rewrite decide_False in Ec; last first.
    { intros [Hn Hbad]. destruct Ht as (j & x & Hj & Ex). by eapply db_ok_duplicate_email in Hbad. }
    eexists _, _. erewrite run_write_scope.
    2: { rewrite run_bind. unfold RegisterUserTx.create_user. rewrite Ec. done. }
    2: { done. }
    split; [done|]. by split_and!.
  - pose proof (db_ok_create e w0 Hok (fresh_users w Hfr _ (Nat.le_refl _)) Ht) as Hok1.
    rewrite decide_True in Ec; [|by split; [apply (fresh_users w Hfr)|]].
    set (u := uuid4_at (w_uuids w0)) in *. set (row := new_user _ _ _) in *. set (w1 := set_session _ (after_create w0)) in Ec.
    destruct (run_put_credential u (argon2_hash (w_salts w) password) w1) as (c & w2 & E2 & Hok2 & _ & Hle & Es2 & Hc & Hch & Hoth);
      [done|apply (fresh_credentials w Hfr); cbn; lia|cbn; by rewrite lookup_insert_eq|]. cbn in Hle, Es2, Hoth.
    set (d3 := set_audit_events (<[uuid4_at (w_uuids w2) :=
      mkAuditRow (Some u) "auth.user_registered" ip ua ∅ (now_at (w_clock w2))]>) (w_session w2)).
    assert (Hok3 : db_ok d3).
    { apply db_ok_insert_audit; [done|]. intros v [= <-]. rewrite Es2. cbn. by rewrite lookup_insert_eq. }
    assert (Hau : audit_events (w_db w) !! uuid4_at (w_uuids w2) = None) by (apply (fresh_audit w Hfr); lia).
    eexists _, _. erewrite run_write_scope.
    2: { rewrite run_bind. unfold RegisterUserTx.create_user. rewrite Ec run_bind. unfold RegisterUserTx.upsert_credential.
      cbn [u_id to_domain]. rewrite E2 run_bind. unfold RegisterUserTx.record_audit_event.
      rewrite run_add_audit; [done|]. by rewrite Es2. }
    2: { exact Hok3. }
    split; [done|]. split; [exact Hok3|]. cbn [u_id to_domain].
    assert (Hus : users d3 = <[u := row]> (users (w_db w))) by (cbn; by rewrite Es2).
    split_and!; [done|by apply (fresh_users w Hfr)|..].
    + intros sp Esp. unfold may_log_in. split_and!.
      * apply find_email_spec; [exact Hok3|]. exists u, row. change (users (w_db _)) with (users d3).
        rewrite Hus lookup_insert_eq. split_and!; [done|by rewrite Esp|done|done].
      * destruct c as [k c]. apply credential_of_spec in Hc as (Hk & Hcu & Hca); [|done].
        exists k, c. split_and!; [done..|]. cbn in Hch. rewrite Hch. apply argon2_verify_hash.
      * done.
      * by rewrite Hreq.
    + intros v Hv. transitivity (users d3 !! v); [done|]. by rewrite Hus lookup_insert_ne.
    + intros v Hv. exact (Hoth v Hv).
    + exists (uuid4_at (w_uuids w2)). eexists. split_and!; [done|by cbn; rewrite lookup_insert_eq|done|done].
Qed.
End flows.

(** ** The properties on concrete inputs *)

#[global] Instance demo_argon2_correct : Argon2Correct.
Proof.
  intros salt pw. cbn. unfold demo_verify. induction pw as [|c pw IH]; [by destruct (xs salt)|].
  rewrite !app_cons. cbn. by case_match.
Qed.

(** The registered user asks for a reset of the password, and for a verification
    of the address. *)
Definition demo_requested : World :=
  state_of (RequestPasswordReset.execute demo_settings "ada@example.com" None) demo_registered.
Definition demo_verifying : World :=
  state_of (RequestEmailVerification.execute demo_settings 1000%N None) demo_registered.

Abbreviation demo_row w i := (default (mkInternalRow None "" "" 0 None 0 None) (internal_tokens (w_db w) !! i)).
Abbreviation demo_user w i := (default (mkUserRow "" true true true 0 0 0 None) (users (w_db w) !! i)).

Lemma password_reset_spec_witness :
  ∃ w' c', ConfirmPasswordReset.execute true (token_at 0) "New-password-2" (demo_requested, demo_cache) = (Ret (Ok tt), (w', c')) ∧
    db_ok (w_db w').
Proof.
  destruct (password_reset_spec demo_settings (token_at 0) "New-password-2" 1003%N (demo_row demo_requested 1003%N) 1000%N
    (demo_user demo_requested 1000%N) demo_requested demo_cache) as (w' & c' & E & Hok & _).
  - by_eval.
  - apply demo_drawn_fresh. by_eval.
  - intros k q Hk. vm_compute in Hk. discriminate Hk.
  - split_and!; vm_compute; reflexivity.
  - vm_compute. reflexivity.
  - exists w', c'. split; [exact E|exact Hok].
Defined.

Lemma request_reset_spec_witness :
  ∃ res w', RequestPasswordReset.execute demo_settings " ADA@example.com" None demo_registered = (Ret (Ok res), w') ∧
    itr_expires_at res ≠ None.
Proof.
  destruct (request_reset_spec demo_settings " ADA@example.com" None demo_registered) as (res & w' & E & _ & _ & _ & Hn);
    [exact demo_config_ok|by_eval|apply demo_drawn_fresh; by_eval|].
  exists res, w'. split; [exact E|]. intros Hr%Hn. vm_compute in Hr. discriminate Hr.
Defined.

Lemma email_verification_spec_witness :
  ∃ w' c' x', ConfirmEmailVerification.execute true (token_at 0) (demo_verifying, demo_cache) = (Ret (Ok tt), (w', c')) ∧
    users (w_db w') !! 1000%N = Some x' ∧ user_is_verified x' = true.
Proof.
  destruct (email_verification_spec (token_at 0) 1003%N (demo_row demo_verifying 1003%N) 1000%N
    (demo_user demo_verifying 1000%N) demo_verifying demo_cache) as (w' & c' & x' & E & _ & _ & _ & Hx & Hv & _).
  - by_eval.
  - apply demo_drawn_fresh. by_eval.
  - intros k q Hk. vm_compute in Hk. discriminate Hk.
  - split_and!; vm_compute; reflexivity.
  - vm_compute. reflexivity.
  - exists w', c', x'. split; [exact E|]. split; [exact Hx|exact Hv].
Defined.

Lemma registration_spec_witness :
  ∃ res w', RegisterUser.execute "ada@example.com" "Correct-horse-1" None None init_world = (Ret res, w') ∧ db_ok (w_db w').
Proof.
  destruct (registration_spec demo_settings "ada@example.com" "Correct-horse-1" None None init_world) as (res & w' & E & Hok & _);
    [by_eval|apply demo_drawn_fresh; by_eval|reflexivity|].
  exists res, w'. split; [exact E|exact Hok].
Defined.

(** ** A limit of the cache *)

(** Log in, call once (which fills the cache), be erased. *)
Definition demo_access : string :=
  match result_of (LoginUser.execute demo_settings "ada@example.com" "Correct-horse-1" None None) demo_registered with
  | Ret (Ok (issued, _)) => access_token issued
  | _ => ""
  end.
Definition demo_called := state_of (ResolvePrincipal.execute demo_settings demo_access) (demo_logged_in, demo_cache).
Definition demo_erased : World := state_of (EraseUser.execute 1000%N "self_request") demo_called.1.

(** Cached principals are found by token id alone, and erasing an account evicts
    none of them: an account that has been erased, with its authorization
    version incremented, is still served from the cache as active, under its old
    address and at the old version. *)
Theorem erased_still_served :
  ∃ q x, result_of (EraseUser.execute 1000%N "self_request") demo_called.1 = Ret (Ok tt) ∧
    users (w_db demo_erased) !! 1000%N = Some x ∧ user_is_erased x = true ∧ user_is_active x = false ∧
    result_of (ResolvePrincipal.execute demo_settings demo_access) (demo_erased, demo_called.2) = Ret (Ok q) ∧
    p_user_id q = 1000%N ∧ p_is_active q = true ∧ p_email q = "ada@example.com" ∧ p_authz_version q < user_authz_version x.
Proof.
  destruct (users (w_db demo_erased) !! 1000%N) as [x|] eqn:Hx; [|vm_compute in Hx; discriminate Hx].
  destruct (result_of (ResolvePrincipal.execute demo_settings demo_access) (demo_erased, demo_called.2)) as [[q|]|] eqn:Hq;
    [|vm_compute in Hq; discriminate Hq..].
  exists q, x. vm_compute in Hx. injection Hx as <-. vm_compute in Hq. injection Hq as <-.
  split_and!; vm_compute; reflexivity.
Qed.
