(* ===== verification/AuthRetention.v ===== *)
(** Retention of authentication data: the purge of expired and consumed tokens. *)

From S2P Require Import Prelude PyStr Uuid Store StoreFacts Demo Outbox Users UsersFacts AuthRepo AuthRepoFacts Principals DemoAuth Auth RefreshFamilies.
Open Scope string_scope.
Open Scope list_scope.
Open Scope Z_scope.

(** ** Batched deletion of refresh tokens *)

Section refresh.
Implicit Types m : gmap uuid RefreshRow.

(** [ON DELETE SET NULL], seen from one row. *)
Definition keep_link (survivors : gmap uuid RefreshRow) (r : RefreshRow) : RefreshRow :=
  set_replaced_by (k ← rt_replaced_by r; if decide (is_Some (survivors !! k)) then Some k else None) r.

Lemma lookup_delete_refresh P m i :
  delete_refresh_where P m !! i = keep_link (delete_where P m) <$> delete_where P m !! i.
Proof. unfold delete_refresh_where. by rewrite lookup_fmap. Qed.

Lemma delete_refresh_is_Some P m i : is_Some (delete_refresh_where P m !! i) ↔ is_Some (delete_where P m !! i).
Proof. by rewrite lookup_delete_refresh fmap_is_Some. Qed.

Context (E : uuid → RefreshRow → bool).
Context (HE : ∀ i r k, E i (set_replaced_by k r) = E i r).

(** Deleting some of the eligible rows first changes nothing in the end. *)
Lemma delete_refresh_batch m (l : list (uuid * RefreshRow)) :
  (∀ i r, (i, r) ∈ l → m !! i = Some r ∧ E i r = true) →
  delete_refresh_where E (delete_refresh_where (AuthRepository.chosen l) m) = delete_refresh_where E m.
Proof.
  intros Hl. set (m1 := delete_refresh_where (AuthRepository.chosen l) m).
  assert (Hch : ∀ i r, m !! i = Some r → AuthRepository.chosen l i r = true → E i r = true).
  { intros i r Hi Hc. apply bool_decide_eq_true, list_elem_of_fmap in Hc as ([j s] & -> & Hin).
    destruct (Hl _ _ Hin). cbn in *. by simplify_eq. }
  assert (Hdom : ∀ i, is_Some (delete_where E m1 !! i) ↔ is_Some (delete_where E m !! i)).
  { intros i. rewrite !lookup_delete_where. unfold m1. rewrite lookup_delete_refresh lookup_delete_where.
    destruct (m !! i) as [r|] eqn:Hi; cbn; [|done]. destruct (AuthRepository.chosen l i r) eqn:Hc; cbn.
    - by rewrite (Hch i r Hi Hc).
    - unfold keep_link. rewrite HE. by destruct (E i r). }
  apply map_eq. intros i. rewrite !lookup_delete_refresh !lookup_delete_where.
  destruct (m !! i) as [r|] eqn:Hi; cbn; last first.
  { unfold m1. rewrite lookup_delete_refresh lookup_delete_where Hi. done. }
  assert (Hm1 : m1 !! i = if AuthRepository.chosen l i r then None else Some (keep_link (delete_where (AuthRepository.chosen l) m) r)).
  { unfold m1. rewrite lookup_delete_refresh lookup_delete_where Hi. cbn. by destruct (AuthRepository.chosen l i r). }
  rewrite Hm1. destruct (AuthRepository.chosen l i r) eqn:Hc; cbn; [by rewrite (Hch i r Hi Hc)|].
  unfold keep_link at 1. rewrite HE. destruct (E i r); [done|]. cbn. f_equal.
  unfold keep_link, set_replaced_by. cbn. f_equal.
  destruct (rt_replaced_by r) as [k|]; [cbn|done].
  destruct (decide (is_Some (delete_where (AuthRepository.chosen l) m !! k))) as [Hk|Hk]; cbn.
  - apply decide_ext, Hdom.
  - rewrite decide_False //. intros Hs%Hdom. apply Hk. apply delete_refresh_is_Some. fold m1.
    revert Hs. rewrite lookup_delete_where. by destruct (m1 !! k).
Qed.

(** With nothing eligible left, the rows stay as they are. *)
Lemma delete_refresh_done m :
  fk_on rt_replaced_by m m → select_where E m = [] → delete_refresh_where E m = m.
Proof.
  intros Hfk Hnil. pose proof (proj1 (select_where_nil E m) Hnil) as Hn.
  assert (Hd : delete_where E m = m) by (by apply delete_where_none).
  apply map_eq. intros i. rewrite lookup_delete_refresh Hd. destruct (m !! i) as [r|] eqn:Hi; [|done]. cbn. f_equal.
  unfold keep_link. rewrite fk_on_spec in Hfk. specialize (Hfk i r). destruct r as [? ? ? ? ? rb ? ? ?]. cbn in *.
  unfold set_replaced_by. cbn. f_equal. destruct rb as [k|]; [cbn|done]. by rewrite decide_True; [|eauto].
Qed.
End refresh.

(** ** Counting *)

Section counting.
Context {R : Type} (E : uuid → R → bool).
Implicit Types m : gmap uuid R.

(** A batch removes as many eligible rows as it has. *)
Lemma length_select_drop n (g : R → R) m m' :
  (∀ i r, E i (g r) = E i r) →
  (∀ i, m' !! i = if decide (i ∈ (limit n (select_where E m)).*1) then None else g <$> m !! i) →
  length (select_where E m') = (length (select_where E m) - length (limit n (select_where E m)))%nat.
Proof.
  intros Hg Hm'. set (l := select_where E m) in *. unfold limit in *. set (k := Z.to_nat n) in *.
  transitivity (length (drop k l)); [|rewrite length_drop length_take; lia].
  assert (Hnd : NoDup l.*1) by apply NoDup_select_where.
  rewrite -(take_drop k l) fmap_app NoDup_app in Hnd. destruct Hnd as (_ & Hdisj & Hnd).
  rewrite -(length_fmap fst (select_where E m')) -(length_fmap fst (drop k l)).
  apply Permutation_length, NoDup_Permutation; [apply NoDup_select_where|done|].
  assert (Hl : ∀ i r, (i, r) ∈ take k l ∨ (i, r) ∈ drop k l ↔ m !! i = Some r ∧ E i r = true).
  { intros i r. rewrite -elem_of_app take_drop. apply elem_of_select_where. }
  intros i. rewrite !list_elem_of_fmap. split.
  - intros ([j r'] & -> & Hin). apply elem_of_select_where in Hin as [Hj He]. rewrite Hm' in Hj. case_decide as Hd; [done|].
    apply fmap_Some in Hj as (r & Hr & ->). rewrite Hg in He. destruct (proj2 (Hl j r) (conj Hr He)) as [Ht|Hdr].
    + destruct Hd. by apply (list_elem_of_fmap_2 fst) in Ht.
    + by exists (j, r).
  - intros ([j r] & -> & Hin). destruct (proj1 (Hl j r) (or_intror Hin)) as [Hr He]. exists (j, g r). split; [done|].
    apply elem_of_select_where. rewrite Hm' Hr Hg. split; [|done]. rewrite decide_False //.
    intros Ht. apply (Hdisj j Ht). by apply (list_elem_of_fmap_2 fst) in Hin.
Qed.

Lemma limit_nil n m : 0 < n → length (limit n (select_where E m)) = O → select_where E m = [].
Proof. unfold limit. rewrite length_take. intros Hn Hl. apply nil_length_inv. lia. Qed.

Lemma limit_eligible n m i r : (i, r) ∈ limit n (select_where E m) → m !! i = Some r ∧ E i r = true.
Proof. unfold limit. intros Hin%subseteq_take. by apply elem_of_select_where. Qed.
End counting.

(** ** The loop *)

Section loop.
Context `{Env} (batch : IO Z) (count : Db → nat) (final : Db → Db).
Context (batch_spec : ∀ w, db_ok (w_db w) → ∃ n d', batch w = (Ret (Z.of_nat n), set_db d' w) ∧ db_ok d' ∧
  count d' = (count (w_db w) - n)%nat ∧ (n <= count (w_db w))%nat ∧ final d' = final (w_db w) ∧
  (n = O → count (w_db w) = O ∧ d' = final (w_db w))).

(** One more batch than there are eligible rows is enough. *)
Lemma run_delete_loop fuel total w :
  db_ok (w_db w) → (count (w_db w) < fuel)%nat →
  AuthRepository.delete_loop batch fuel total w =
    (Ret (Some (total + Z.of_nat (count (w_db w)))), set_db (final (w_db w)) w) ∧ db_ok (final (w_db w)).
Proof.
  revert total w. induction fuel as [|fuel IH]; intros total w Hok Hf; [lia|]. cbn [AuthRepository.delete_loop].
  destruct (batch_spec w Hok) as (n & d' & Eb & Hok' & Hc & Hle & Hfin & Hz). rewrite run_bind Eb.
  destruct n as [|n].
  - destruct (Hz eq_refl) as [Hc0 Hd]. subst d'. rewrite Hc0. cbn. rewrite Z.add_0_r. done.
  - rewrite (proj2 (Z.leb_gt _ _)); [|lia]. destruct (IH (total + Z.of_nat (S n)) (set_db d' w)) as [E2 Hok2];
      [done|cbn; lia|]. rewrite E2. cbn in *. rewrite Hfin in Hok2 |- *. rewrite Hc. split; [|done].
    by replace (total + Z.of_nat (S n) + Z.of_nat (count (w_db w) - S n)) with (total + Z.of_nat (count (w_db w))) by lia.
Qed.
End loop.

Section purge.
Context `{Env}.

Definition refresh_count (cutoff : time) (d : Db) : nat :=
  length (select_where (AuthRepository.refresh_expired cutoff) (refresh_tokens d)).
Definition refresh_purged (cutoff : time) (d : Db) : Db :=
  set_refresh_tokens (delete_refresh_where (AuthRepository.refresh_expired cutoff)) d.
Definition internal_count (cutoff : time) (d : Db) : nat :=
  length (select_where (AuthRepository.internal_expired cutoff) (internal_tokens d)).
Definition internal_purged (cutoff : time) (d : Db) : Db :=
  set_internal_tokens (delete_where (AuthRepository.internal_expired cutoff)) d.

Lemma refresh_batch_spec cutoff w :
  db_ok (w_db w) → ∃ n d', AuthRepository.delete_refresh_batch cutoff w = (Ret (Z.of_nat n), set_db d' w) ∧ db_ok d' ∧
    refresh_count cutoff d' = (refresh_count cutoff (w_db w) - n)%nat ∧ (n <= refresh_count cutoff (w_db w))%nat ∧
    refresh_purged cutoff d' = refresh_purged cutoff (w_db w) ∧
    (n = O → refresh_count cutoff (w_db w) = O ∧ d' = refresh_purged cutoff (w_db w)).
Proof.
  intros Hok. set (E := AuthRepository.refresh_expired cutoff).
  set (l := limit AuthRepository.PURGE_BATCH (select_where E (refresh_tokens (w_db w)))).
  set (d' := set_refresh_tokens (delete_refresh_where (AuthRepository.chosen l)) (w_db w)).
  assert (Hok' : db_ok d') by (by apply db_ok_delete_refresh).
  assert (HE : ∀ i r k, E i (set_replaced_by k r) = E i r) by done.
  assert (Hfin : refresh_purged cutoff d' = refresh_purged cutoff (w_db w)).
  { unfold refresh_purged, d'. destruct (w_db w). unfold set_refresh_tokens. cbn in *. f_equal.
    apply delete_refresh_batch; [done|]. intros i r. apply limit_eligible. }
  exists (length l), d'. split_and!; [|done| |unfold l, limit; rewrite length_take; unfold refresh_count; fold E; lia|done|].
  - unfold AuthRepository.delete_refresh_batch. erewrite run_write_scope.
    2: { rewrite run_bind run_sess run_bind run_stage. done. }
    2: { exact Hok'. }
    by destruct w.
  - apply (length_select_drop E AuthRepository.PURGE_BATCH (keep_link (delete_where (AuthRepository.chosen l) (refresh_tokens (w_db w)))));
      [by intros|]. intros i. cbn. rewrite lookup_delete_refresh lookup_delete_where. fold l.
    destruct (refresh_tokens (w_db w) !! i) as [r|]; cbn; [|by case_decide].
    unfold AuthRepository.chosen. destruct (decide (i ∈ l.*1)); [by rewrite bool_decide_eq_true_2|by rewrite bool_decide_eq_false_2].
  - intros Hn. assert (Hnil : select_where E (refresh_tokens (w_db w)) = []) by (by eapply limit_nil in Hn).
    split; [unfold refresh_count; fold E; by rewrite Hnil|]. rewrite -Hfin.
    unfold refresh_purged. fold E. pose proof Hok' as (_ & _ & _ & _ & _ & _ & Hre & _).
    assert (Hnil' : select_where E (refresh_tokens d') = []).
    { apply nil_length_inv. cbn. apply nil_length_inv in Hn. rewrite Hn.
      assert (Hd : delete_refresh_where (AuthRepository.chosen []) (refresh_tokens (w_db w)) = refresh_tokens (w_db w)).
      { apply delete_refresh_done; [by destruct Hok as (_ & _ & _ & _ & _ & _ & ? & _)|].
        apply select_where_nil. intros. by apply bool_decide_eq_false_2; intros ?%elem_of_nil. }
      by rewrite Hd Hnil. }
    destruct d'. unfold set_refresh_tokens. cbn in *. f_equal. symmetry. by apply delete_refresh_done.
Qed.

Lemma internal_batch_spec cutoff w :
  db_ok (w_db w) → ∃ n d', AuthRepository.delete_internal_batch cutoff w = (Ret (Z.of_nat n), set_db d' w) ∧ db_ok d' ∧
    internal_count cutoff d' = (internal_count cutoff (w_db w) - n)%nat ∧ (n <= internal_count cutoff (w_db w))%nat ∧
    internal_purged cutoff d' = internal_purged cutoff (w_db w) ∧
    (n = O → internal_count cutoff (w_db w) = O ∧ d' = internal_purged cutoff (w_db w)).
Proof.
  intros Hok. set (E := AuthRepository.internal_expired cutoff).
  set (l := limit AuthRepository.PURGE_BATCH (select_where E (internal_tokens (w_db w)))).
  set (d' := set_internal_tokens (delete_where (AuthRepository.chosen l)) (w_db w)).
  assert (Hok' : db_ok d') by (by apply db_ok_delete_internal).
  assert (Hch : ∀ i r, internal_tokens (w_db w) !! i = Some r → AuthRepository.chosen l i r = true → E i r = true).
  { intros i r Hi Hc. apply bool_decide_eq_true, list_elem_of_fmap in Hc as ([j s] & -> & Hin).
    apply limit_eligible in Hin as [? ?]. cbn in *. by simplify_eq. }
  assert (Hfin : internal_purged cutoff d' = internal_purged cutoff (w_db w)).
  { unfold internal_purged, d'. destruct (w_db w). unfold set_internal_tokens. cbn in *. f_equal.
    apply map_eq. intros i. rewrite !lookup_delete_where. destruct (internal_tokens !! i) as [r|] eqn:Hi; [|done]. cbn.
    destruct (AuthRepository.chosen l i r) eqn:Hc; [|done]. cbn. fold E. by rewrite (Hch i r Hi Hc). }
  exists (length l), d'. split_and!; [|done| |unfold l, limit; rewrite length_take; unfold internal_count; fold E; lia|done|].
  - unfold AuthRepository.delete_internal_batch. erewrite run_write_scope.
    2: { rewrite run_bind run_sess run_bind run_stage. done. }
    2: { exact Hok'. }
    by destruct w.
  - apply (length_select_drop E AuthRepository.PURGE_BATCH id); [by intros|]. intros i. cbn. rewrite lookup_delete_where. fold l.
    destruct (internal_tokens (w_db w) !! i) as [r|]; cbn; [|by case_decide].
    unfold AuthRepository.chosen. destruct (decide (i ∈ l.*1)); [by rewrite bool_decide_eq_true_2|by rewrite bool_decide_eq_false_2].
  - intros Hn. assert (Hnil : select_where E (internal_tokens (w_db w)) = []) by (by eapply limit_nil in Hn).
    split; [unfold internal_count; fold E; by rewrite Hnil|]. unfold internal_purged, d'. fold E.
    destruct (w_db w). unfold set_internal_tokens. cbn in *. f_equal. apply nil_length_inv in Hn.
    rewrite !delete_where_none //; [by apply select_where_nil|]. intros i r _. rewrite Hn. by apply bool_decide_eq_false_2; intros ?%elem_of_nil.
Qed.

(** Rows inside the retention window. *)
Lemma refresh_retained cutoff i r :
  AuthRepository.refresh_expired cutoff i r = false ↔
  cutoff <= rt_expires_at r ∧ ∀ t, rt_revoked_at r = Some t → cutoff <= t.
Proof.
  unfold AuthRepository.refresh_expired. rewrite orb_false_iff Z.ltb_ge.
  destruct (rt_revoked_at r) as [t|]; rewrite ?Z.ltb_ge; naive_solver.
Qed.
Lemma internal_retained cutoff i r :
  AuthRepository.internal_expired cutoff i r = false ↔
  cutoff <= it_expires_at r ∧ ∀ t, it_used_at r = Some t → cutoff <= t.
Proof.
  unfold AuthRepository.internal_expired. rewrite orb_false_iff Z.ltb_ge.
  destruct (it_used_at r) as [t|]; rewrite ?Z.ltb_ge; naive_solver.
Qed.

(** A purge terminates and deletes exactly the refresh tokens that expired or
    were revoked, and the single-use tokens that were used or expired, before
    the retention window; it reports how many, keeps every other token (a link
    to a deleted successor becomes empty), and touches no other table.  One
    more batch than there are rows to delete is enough. *)
Theorem purge_tokens_exact fuel retention_days w :
  db_ok (w_db w) → timedelta_ok (retention_days * day) = true →
  datetime_ok (now_at (w_clock w) - retention_days * day) = true →
  let cutoff := now_at (w_clock w) - retention_days * day in
  (refresh_count cutoff (w_db w) < fuel)%nat → (internal_count cutoff (w_db w) < fuel)%nat →
  let d' := internal_purged cutoff (refresh_purged cutoff (w_db w)) in
  PurgeExpiredTokens.execute fuel retention_days w =
    (Ret (Some (PurgeExpiredTokens.mkPurgeReport (Z.of_nat (refresh_count cutoff (w_db w))) (Z.of_nat (internal_count cutoff (w_db w))))),
     set_db d' (tick w)) ∧
  db_ok d' ∧
  (∀ i, is_Some (refresh_tokens d' !! i) ↔ ∃ r, refresh_tokens (w_db w) !! i = Some r ∧
     cutoff <= rt_expires_at r ∧ (∀ t, rt_revoked_at r = Some t → cutoff <= t)) ∧
  (∀ i r, internal_tokens d' !! i = Some r ↔ internal_tokens (w_db w) !! i = Some r ∧
     cutoff <= it_expires_at r ∧ (∀ t, it_used_at r = Some t → cutoff <= t)) ∧
  users d' = users (w_db w) ∧ credentials d' = credentials (w_db w) ∧ audit_events d' = audit_events (w_db w).
Proof.
  intros Hok Htd Hdt cutoff Hf1 Hf2 d'.
  destruct (run_delete_loop _ _ _ (refresh_batch_spec cutoff) fuel 0 (tick w)) as [E1 Hok1]; [done|done|].
  destruct (run_delete_loop _ _ _ (internal_batch_spec cutoff) fuel 0 (set_db (refresh_purged cutoff (w_db w)) (tick w)))
    as [E2 Hok2]; [done|done|].
  split_and!; try done.
  - unfold PurgeExpiredTokens.execute. rewrite run_bind run_utc_now run_bind. unfold timedelta. rewrite Htd run_ret run_bind.
    unfold datetime_add. change (now_at (w_clock w) + - (retention_days * day)) with cutoff. rewrite Hdt run_ret run_bind.
    unfold AuthRepository.delete_expired_refresh_tokens. rewrite E1 run_bind.
    unfold AuthRepository.delete_expired_internal_tokens. cbn [w_db tick] in E2 |- *. rewrite E2. done.
  - intros i. cbn. rewrite lookup_delete_refresh fmap_is_Some lookup_delete_where.
    destruct (refresh_tokens (w_db w) !! i) as [r|]; cbn; [|split; [by intros []|by intros (? & ? & _)]].
    pose proof (refresh_retained cutoff i r) as Hr. destruct (AuthRepository.refresh_expired cutoff i r).
    + split; [by intros []|]. intros (? & [= <-] & Hx). by apply Hr in Hx.
    + split; [intros _; exists r; by rewrite -Hr|by eexists].
  - intros i r. cbn. rewrite lookup_delete_where. rewrite -(internal_retained cutoff i r).
    destruct (internal_tokens (w_db w) !! i) as [x|]; cbn; [|naive_solver].
    split; [destruct (AuthRepository.internal_expired cutoff i x) eqn:Ex; [done|by intros [= <-]]|].
    by intros [[= <-] ->].
Qed.
End purge.

Lemma purge_tokens_exact_witness :
  PurgeExpiredTokens.execute 3 0 demo_rotated =
    (Ret (Some (PurgeExpiredTokens.mkPurgeReport 1 0)), state_of (PurgeExpiredTokens.execute 3 0) demo_rotated).
Proof.
  destruct (purge_tokens_exact 3 0 demo_rotated) as [E _]; [by_eval|vm_compute; reflexivity|vm_compute; reflexivity|vm_compute; lia|vm_compute; lia|].
  unfold state_of. rewrite E. vm_compute. reflexivity.
Defined.
