(* ===== verification/Bootstrap.v ===== *)
(** The system-administrator bootstrap with the authentication feature's
    adapters plugged in: what it decides, and that it never promotes an existing
    account without the operator's consent and the account's password. *)

From S2P Require Import Prelude PyStr Uuid Store StoreFacts Demo Outbox Users UsersFacts Authz AuthzFacts AuthRepo AuthRepoFacts Principals DemoAuth PrincipalsFacts Auth RefreshFamilies AuthFacts.
Open Scope string_scope.
Open Scope list_scope.
Open Scope Z_scope.

(** ** Procedures that leave the relationships alone *)

Section frame.
Context `{Env} (rels : gmap uuid RelationshipRow).

Definition framed (w : World) : Prop :=
  relationships (w_db w) = rels ∧ relationships (w_session w) = rels ∧ db_ok (w_db w).
(** Statement by statement, and as a whole. *)
Definition frames {A} (m : IO A) : Prop := ∀ w, framed w → framed (m w).2 ∧ (w_uuids w <= w_uuids (m w).2)%nat.
Definition frames_db {A} (m : IO A) : Prop := ∀ w, relationships (w_db w) = rels → db_ok (w_db w) →
  relationships (w_db (m w).2) = rels ∧ db_ok (w_db (m w).2) ∧ (w_uuids w <= w_uuids (m w).2)%nat.

Lemma frames_ret {A} (a : A) : frames (mret a).
Proof. intros w Hw. by split. Qed.
Lemma frames_bind {A B} (m : IO A) (f : A → IO B) : frames m → (∀ a, frames (f a)) → frames (m ≫= f).
Proof.
  intros Hm Hf w Hw. rewrite run_bind. destruct (Hm w Hw) as [Hw' Hle]. destruct (m w) as [[a|e] w']; [|done].
  destruct (Hf a w' Hw') as [? ?]. split; [done|]. cbn in *. lia.
Qed.
Lemma frames_pure {A} (m : IO A) :
  (∀ w, w_db (m w).2 = w_db w ∧ w_session (m w).2 = w_session w ∧ (w_uuids w <= w_uuids (m w).2)%nat) → frames m.
Proof. intros Hm w. unfold framed. by destruct (Hm w) as (-> & -> & ?). Qed.
Lemma frames_uuid4 : frames uuid4.
Proof. intros w Hw. split; [exact Hw|cbn; lia]. Qed.
Lemma frames_commit : frames commit.
Proof.
  intros w (? & ? & ?). unfold commit. rewrite run_bind. unfold flush. by case_decide.
Qed.
Lemma frames_flush : frames flush.
Proof. intros w Hw. unfold flush. by case_decide. Qed.
Lemma frames_stage f : (∀ d, relationships (f d) = relationships d) → frames (stage f).
Proof. intros Hf w (? & ? & ?). split; [|cbn; lia]. split_and!; [done|cbn; by rewrite Hf|done]. Qed.
Lemma frames_add_row {R} (get : Db → gmap uuid R) set i r :
  (∀ f d, relationships (set f d) = relationships d) → frames (add_row get set i r).
Proof.
  intros Hf w (? & ? & ?). unfold add_row. destruct (get _ !! i); [done|]. split; [|cbn; lia].
  split_and!; [done|cbn; by rewrite Hf|done].
Qed.
Lemma frames_try {A} (m : IO A) h : frames m → (∀ e, frames (h e)) → frames (try_except m h).
Proof.
  intros Hm Hh w Hw. unfold try_except. destruct (Hm w Hw) as [Hw' Hle]. destruct (m w) as [[a|e] w']; [done|].
  destruct (Hh e w' Hw') as [? ?]. split; [done|]. cbn in *. lia.
Qed.
Lemma frames_db_session {A} (m : IO A) : frames m → frames_db (with_session m).
Proof.
  intros Hm w Hr Hok. unfold with_session. destruct (Hm (set_session (w_db w) w)) as [(? & ? & ?) Hle]; [done|].
  by destruct (m _).
Qed.
Lemma frames_db_write {A} (m : IO A) : frames m → frames_db (write_scope m).
Proof.
  intros Hm. apply frames_db_session. apply frames_bind; [done|]. intros a.
  apply frames_bind; [apply frames_commit|]. intros []. apply frames_ret.
Qed.
Lemma frames_db_bind {A B} (m : IO A) (f : A → IO B) : frames_db m → (∀ a, frames_db (f a)) → frames_db (m ≫= f).
Proof.
  intros Hm Hf w Hr Hok. rewrite run_bind. destruct (Hm w Hr Hok) as (Hr' & Hok' & Hle).
  destruct (m w) as [[a|e] w']; [|done]. destruct (Hf a w' Hr' Hok') as (? & ? & ?). split_and!; [done..|]. cbn in *. lia.
Qed.
Lemma frames_db_pure {A} (m : IO A) : (∀ w, w_db (m w).2 = w_db w ∧ w_uuids (m w).2 = w_uuids w) → frames_db m.
Proof. intros Hm w Hr Hok. destruct (Hm w) as (-> & ->). by split_and!. Qed.

Lemma frames_audit e u ip ua p : frames_db (AuthRepository.record_audit_event e u ip ua p).
Proof.
  apply frames_db_write. unfold add_audit. apply frames_bind; [apply frames_uuid4|intros i].
  apply frames_bind; [by apply frames_pure|intros t]. by apply frames_add_row.
Qed.
Lemma frames_set_initial_password i pw : frames_db (set_initial_password i pw).
Proof.
  unfold set_initial_password. apply frames_db_bind; [by apply frames_db_pure|intros h].
  apply frames_db_bind; [|intros _; by apply frames_db_pure]. apply frames_db_write. unfold put_credential, find_credential.
  apply frames_bind; [apply frames_bind; [by apply frames_pure|]; intros [|? []]; by apply frames_pure|intros row].
  apply frames_bind; [by apply frames_pure|intros now]. destruct row as [[k c]|].
  - apply frames_bind; [by apply frames_stage|intros _]. apply frames_bind; [apply frames_flush|intros _]. apply frames_ret.
  - apply frames_bind; [apply frames_uuid4|intros k].
    apply frames_bind; [by apply frames_add_row|intros _]. apply frames_bind; [apply frames_flush|intros _]. apply frames_ret.
Qed.
Lemma frames_create e : frames_db (EngineUsers.create e).
Proof.
  unfold EngineUsers.create. apply frames_db_session.
  apply frames_bind; [apply frames_uuid4|intros i].
  apply frames_bind; [by apply frames_pure|intros t1]. apply frames_bind; [by apply frames_pure|intros t2]. cbv zeta.
  apply frames_try; [|intros []; by apply frames_pure].
  apply frames_bind; [by apply frames_add_row|intros _]. apply frames_bind; [apply frames_commit|intros _]. apply frames_ret.
Qed.
End frame.

(** ** The decision *)

Section bootstrap.
Context `{Env} `{!UuidsDistinct} {C : Type} `{PrincipalCachePort C} (promote_existing : bool).
Implicit Types w : World.

(** The bootstrap as the container wires it. *)
Definition bootstrap (email password : string) : M (World * C) (Result uuid BootstrapError) :=
  BootstrapSystemAdmin.execute set_initial_password credential_verify audit_record invalidate_user promote_existing email password.

(** The account's stored credential accepts the password. *)
Definition password_matches (i : uuid) (password : string) (d : Db) : bool :=
  match credential_of i d with Some (_, c) => argon2_verify (cred_hash c) password | None => false end.

Lemma run_lookup_by_email email w :
  lookup_by_email email w = (Ret (u_id <$> find_email (normalize_email email) (w_db w)), w).
Proof. unfold lookup_by_email. by rewrite run_bind run_get_by_email. Qed.

Lemma run_credential_verify i password w :
  db_ok (w_db w) → ∃ w', credential_verify i password w = (Ret (password_matches i password (w_db w)), w') ∧
    w_db w' = w_db w ∧ w_uuids w' = w_uuids w.
Proof.
  intros Hok. unfold credential_verify, password_matches. rewrite run_bind run_get_credential //.
  destruct (credential_of i (w_db w)) as [[k c]|]; by eexists.
Qed.

(** What a grant does to the administrators, also when the invalidation exits. *)
Lemma run_grant i w c :
  db_ok (w_db w) → fresh_from (w_uuids w) (relationships (w_db w)) →
  ∃ o w' c', BootstrapSystemAdmin.grant_and_invalidate invalidate_user i (w, c) = (o, (w', c')) ∧ db_ok (w_db w') ∧
    is_admin i (w_db w') = true ∧
    (∀ j, uuid_ok j → uuid_ok i → j ≠ i → is_admin j (w_db w') = is_admin j (w_db w)) ∧
    (uuid_ok i → version_of (w_db w') i = (λ v, v + 1) <$> version_of (w_db w) i).
Proof.
  intros Hok Hfr. set (t := BootstrapSystemAdmin.admin_tuple i).
  destruct (run_write_relationships [t] w) as (w1 & E1 & Hok1 & _ & Hst & _ & Hb); [done..|].
  unfold BootstrapSystemAdmin.grant_and_invalidate. rewrite run_bind. unfold on_fst. cbn [fst snd]. fold t. rewrite E1.
  assert (Hinv : ∃ o c', except_exception (on_snd (invalidate_user i)) (λ _, mret tt) (w1, c) = (o, (w1, c'))).
  { unfold except_exception, try_except, on_snd. cbn.
    destruct (invalidate_user i c) as [[[]|e] c']; [|destruct (is_exception e)]; by eexists _, c'. }
  destruct Hinv as (o & c' & ->). exists o, w1, c'. split_and!; [done|done|..].
  - apply is_admin_spec, Hst. right. left.
  - intros j Hj Hi Hne. apply eq_true_iff_eq. rewrite !is_admin_spec Hst list_elem_of_singleton.
    split; [|by left]. intros [?|E]; [done|]. destruct Hne. apply uuid_str_inj; [done..|]. exact (f_equal subject_id E).
  - intros Hi. specialize (Hb i). rewrite decide_True in Hb; [done|]. cbn. rewrite uuid_parse_str //. set_solver.
Qed.

(** The audit record at the end cannot change who is an administrator. *)
Lemma run_audit_tail i m w c (r : uuid) :
  db_ok (w_db w) →
  let out := (on_fst (audit_record "authz.system_admin_bootstrapped" i m) ;; mret (Ok r : Result uuid BootstrapError)) (w, c : C) in
  relationships (w_db out.2.1) = relationships (w_db w).
Proof.
  intros Hok. cbv zeta. rewrite run_bind. unfold on_fst, audit_record. cbn.
  destruct (frames_audit (relationships (w_db w)) "authz.system_admin_bootstrapped" (Some i) None None m w) as (Hr & _); [done..|].
  by destruct (AuthRepository.record_audit_event _ _ _ _ _ w) as [[]].
Qed.

Lemma is_admin_frame d d' : relationships d' = relationships d → ∀ j, is_admin j d' = is_admin j d.
Proof. intros E j. unfold is_admin, relation_found. by rewrite E. Qed.

Lemma bootstrap_account email password u w c :
  db_ok (w_db w) → fresh_from (w_uuids w) (relationships (w_db w)) → uuid_ok (u_id u) →
  find_email (normalize_email email) (w_db w) = Some u →
  let '(res, (w', c')) := bootstrap email password (w, c) in
  if is_admin (u_id u) (w_db w) then res = Ret (Ok (u_id u)) ∧ w_db w' = w_db w ∧ c' = c
  else if negb promote_existing then res = Ret (Err (BootstrapRefusedExistingUserError (u_id u) email)) ∧ w_db w' = w_db w ∧ c' = c
  else if password_matches (u_id u) password (w_db w) then
    is_admin (u_id u) (w_db w') = true ∧
    (∀ j, uuid_ok j → j ≠ u_id u → is_admin j (w_db w') = is_admin j (w_db w))
  else res = Ret (Err (BootstrapPasswordMismatchError (u_id u))) ∧ w_db w' = w_db w ∧ c' = c.
Proof.
  intros Hok Hfr Hid Hu. unfold bootstrap, BootstrapSystemAdmin.execute. rewrite run_bind. unfold on_fst at 1.
  cbn [fst snd]. rewrite run_lookup_by_email Hu. cbn [fmap option_fmap option_map].
  rewrite run_bind. unfold on_fst at 1. cbn [fst snd]. rewrite run_check_system.
  destruct (is_admin (u_id u) (w_db w)) eqn:Ha; [rewrite bool_decide_eq_true_2 //|rewrite bool_decide_eq_false_2 //].
  destruct promote_existing; cbn [negb]; [|done]. rewrite run_bind. unfold on_fst at 1. cbn [fst snd].
  destruct (run_credential_verify (u_id u) password w) as (w1 & E1 & Ed1 & Eu1); [done|]. rewrite E1.
  destruct (password_matches (u_id u) password (w_db w)) eqn:Hp; cbn [negb]; [|done].
  destruct (run_grant (u_id u) w1 c) as (o2 & w2 & c2 & E2 & Hok2 & Hadm & Hoth & _); [by rewrite Ed1|by rewrite Ed1 Eu1|].
  rewrite run_bind E2. rewrite Ed1 in Hoth. destruct o2 as [[]|e]; [|split; [done|]; intros j Hj Hne; by apply Hoth].
  pose proof (run_audit_tail (u_id u) (BootstrapSystemAdmin.audit_metadata "promoted_existing") w2 c2 (u_id u) Hok2) as Ht.
  cbv zeta in Ht. match type of Ht with context [(?m (w2, c2)).2] => destruct (m (w2, c2)) as [res [w3 c3]] end. cbn in Ht.
  split; [by rewrite (is_admin_frame (w_db w2))|]. intros j Hj Hne. rewrite (is_admin_frame (w_db w2)) //. by apply Hoth.
Qed.

(** For an address that names an account the bootstrap does the following and
    nothing else: an administrator is left as it is; another account is refused
    unless promotion is enabled; with promotion enabled it is refused when the
    configured password does not match the account's stored credential (or
    there is none); only otherwise does it become an administrator, with a new
    authorization version, and no other account's status changes. *)
Theorem bootstrap_existing email password u w c :
  db_ok (w_db w) → fresh_from (w_uuids w) (relationships (w_db w)) → uuid_ok (u_id u) →
  find_email (normalize_email email) (w_db w) = Some u →
  let '(res, (w', c')) := bootstrap email password (w, c) in
  if is_admin (u_id u) (w_db w) then res = Ret (Ok (u_id u)) ∧ w_db w' = w_db w ∧ c' = c
  else if negb promote_existing then res = Ret (Err (BootstrapRefusedExistingUserError (u_id u) email)) ∧ w_db w' = w_db w ∧ c' = c
  else if password_matches (u_id u) password (w_db w) then
    is_admin (u_id u) (w_db w') = true ∧
    (∀ j, uuid_ok j → j ≠ u_id u → is_admin j (w_db w') = is_admin j (w_db w))
  else res = Ret (Err (BootstrapPasswordMismatchError (u_id u))) ∧ w_db w' = w_db w ∧ c' = c.
Proof. apply bootstrap_account. Qed.

(** How creating an account ends. *)
Lemma create_cases e w :
  db_ok (w_db w) →
  (∃ u w', EngineUsers.create e w = (Ret (Ok u), w') ∧ u_id u = uuid4_at (w_uuids w)) ∨
  (∃ w', EngineUsers.create e w = (Ret (Err UserAlreadyExistsError), w') ∧ w_db w' = w_db w).
Proof.
  intros Hok. rewrite create_agrees //. unfold write_scope, with_session. rewrite run_bind run_session_create //.
  destruct (created_user e _) as [i r] eqn:Ei. cbv zeta. case_decide as Hd.
  - left. rewrite run_bind run_commit; [|apply Hd]. eexists _, _. split; [done|].
    unfold created_user in Ei. by injection Ei as <- _.
  - right. rewrite run_bind run_commit //. by eexists.
Qed.

(** The branch for an address without an account grants a new identifier. *)
Lemma bootstrap_created email password j w c :
  db_ok (w_db w) → fresh_from (w_uuids w) (relationships (w_db w)) →
  find_email (normalize_email email) (w_db w) = None → uuid_ok j → uuid_ok (uuid4_at (w_uuids w)) →
  j ≠ uuid4_at (w_uuids w) →
  is_admin j (w_db (state_of (bootstrap email password) (w, c)).1) = is_admin j (w_db w).
Proof.
  intros Hok Hfr Hnone Hj Hk Hne. unfold state_of, bootstrap, BootstrapSystemAdmin.execute. rewrite run_bind. unfold on_fst at 1.
  cbn [fst snd]. rewrite run_lookup_by_email Hnone. cbn [fmap option_fmap option_map].
  rewrite run_bind. unfold on_fst at 1. cbn [fst snd]. unfold register_or_lookup. rewrite run_bind run_get_by_email Hnone run_bind.
  destruct (frames_create (relationships (w_db w)) (normalize_email email) w) as (Hr1 & Hok1 & Hle1); [done..|].
  destruct (create_cases (normalize_email email) w Hok) as [(u & w1 & E1 & Hu)|(w1 & E1 & Hd)]; rewrite E1; rewrite E1 in Hr1, Hok1, Hle1; cbn in Hr1, Hok1, Hle1; last first.
  { rewrite run_bind run_get_by_email Hd Hnone. cbn. by rewrite Hd. }
  rewrite run_bind.
  destruct (frames_set_initial_password (relationships (w_db w)) (u_id u) password w1) as (Hr2 & Hok2 & Hle2); [done..|].
  destruct (set_initial_password (u_id u) password w1) as [[[]|e] w2]; cbn in Hr2, Hok2, Hle2; cbn [fst snd];
    [|by rewrite (is_admin_frame (w_db w))].
  rewrite run_ret. cbn [fst snd].
  destruct (run_grant (u_id u) w2 c) as (o3 & w3 & c3 & E3 & Hok3 & _ & Hoth & _); [done| |].
  { rewrite Hr2. intros k Hk'. apply Hfr. lia. }
  assert (is_admin j (w_db w3) = is_admin j (w_db w)) as Hw3.
  { rewrite Hoth //; [|by rewrite Hu|congruence]. by apply is_admin_frame. }
  rewrite run_bind E3. destruct o3 as [[]|e]; [|done].
  pose proof (run_audit_tail (u_id u) (BootstrapSystemAdmin.audit_metadata "created") w3 c3 (u_id u) Hok3) as Ht. cbv zeta in Ht.
  match type of Ht with context [(?m (w3, c3)).2] => destruct (m (w3, c3)) as [res [w4 c4]] end. cbn in Ht |- *.
  by rewrite (is_admin_frame (w_db w3)).
Qed.

(** C6. The bootstrap never makes an account that already exists an
    administrator, unless promotion is enabled, the account has the configured
    address and its stored credential accepts the configured password. *)
Theorem bootstrap_no_escalation email password j w c :
  db_ok (w_db w) → fresh_from (w_uuids w) (relationships (w_db w)) → fresh_from (w_uuids w) (users (w_db w)) →
  (∀ i, is_Some (users (w_db w) !! i) → uuid_ok i) → uuid_ok (uuid4_at (w_uuids w)) →
  is_Some (users (w_db w) !! j) → is_admin j (w_db w) = false →
  is_admin j (w_db (state_of (bootstrap email password) (w, c)).1) = true →
  promote_existing = true ∧ password_matches j password (w_db w) = true ∧
  ∃ u, find_email (normalize_email email) (w_db w) = Some u ∧ u_id u = j.
Proof.
  intros Hok Hfr Hfu Hids Huk Hj Hna Ha. destruct (find_email (normalize_email email) (w_db w)) as [u|] eqn:Hu; last first.
  { rewrite bootstrap_created // in Ha; [congruence|by apply Hids|]. intros ->. rewrite Hfu in Hj; [by destruct Hj|lia]. }
  destruct (find_email_user _ _ _ Hu) as (r & Hr & _).
  pose proof (bootstrap_account email password u w c Hok Hfr (Hids _ (mk_is_Some _ _ Hr)) Hu) as Hb. unfold state_of in Ha.
  destruct (bootstrap email password (w, c)) as [res [w' c']]. cbn in Ha.
  destruct (is_admin (u_id u) (w_db w)) eqn:Hadm; [destruct Hb as (_ & Ed & _); rewrite Ed in Ha; congruence|].
  destruct promote_existing; cbn [negb] in Hb; [|destruct Hb as (_ & Ed & _); rewrite Ed in Ha; congruence].
  destruct (password_matches (u_id u) password (w_db w)) eqn:Hp; [|destruct Hb as (_ & Ed & _); rewrite Ed in Ha; congruence].
  destruct Hb as [_ Hoth]. assert (j = u_id u) as ->.
  { destruct (decide (j = u_id u)); [done|]. rewrite Hoth // in Ha; [congruence|by apply Hids]. }
  split_and!; [done..|]. by exists u.
Qed.
End bootstrap.

(** ** The properties on concrete inputs *)

(** The registered account has the configured password. *)
Lemma bootstrap_existing_witness :
  is_admin 1000%N (w_db (state_of (bootstrap true "ada@example.com" "Correct-horse-1") (demo_registered, demo_cache)).1) = true.
Proof.
  destruct (find_email (normalize_email "ada@example.com") (w_db demo_registered)) as [u|] eqn:Hu; [|vm_compute in Hu; discriminate Hu].
  assert (Eu : u_id u = 1000%N) by (vm_compute in Hu; injection Hu as <-; reflexivity).
  pose proof (bootstrap_existing true "ada@example.com" "Correct-horse-1" u demo_registered demo_cache) as Hb.
  unfold state_of. destruct (bootstrap true _ _ (demo_registered, demo_cache)) as [res [w' c']].
  rewrite Eu in Hb. specialize (Hb ltac:(by_eval) ltac:(apply demo_fresh; by_eval) ltac:(vm_compute; reflexivity) Hu).
  change (is_admin 1000%N (w_db demo_registered)) with false in Hb.
  change (password_matches 1000%N "Correct-horse-1" (w_db demo_registered)) with true in Hb. exact (proj1 Hb).
Defined.

(** The same run, seen as an escalation that needed all three conditions. *)
Lemma bootstrap_no_escalation_witness :
  is_admin 1000%N (w_db demo_registered) = false ∧
  password_matches 1000%N "Correct-horse-1" (w_db demo_registered) = true.
Proof.
  split; [vm_compute; reflexivity|].
  refine (proj1 (proj2 (bootstrap_no_escalation true "ada@example.com" "Correct-horse-1" 1000%N demo_registered demo_cache
    _ _ _ _ _ _ _ _))).
  - by_eval.
  - apply demo_fresh. by_eval.
  - apply demo_fresh. by_eval.
  - intros i [x Hx]. assert (Hall : map_Forall (λ i _, (i < 2 ^ 128)%N) (users (w_db demo_registered))) by by_eval. exact (Hall i x Hx).
  - vm_compute. reflexivity.
  - by_eval.
  - vm_compute. reflexivity.
  - vm_compute. reflexivity.
Defined.
