(* ===== verification/GdprFacts.v ===== *)
(** Erasure: what a scrubbed account leaves behind, and what it does not touch. *)

From S2P Require Import Prelude PyStr Uuid Store StoreFacts Demo Outbox Users UsersFacts AuthRepo AuthRepoFacts Principals DemoAuth PrincipalsFacts Auth Gdpr RefreshFamilies AuthFacts.
Open Scope string_scope.
Open Scope list_scope.
Open Scope Z_scope.
Import SQLModelAuthArtifactsCleanupAdapter.

(** ** Scrubbed rows *)

(** Nothing personal of [i] is stored in the users and authentication tables:
    no credential, no token, no address, no client data in its audit events. *)
Definition pii_free (i : uuid) (d : Db) : Prop :=
  (∀ j c, credentials d !! j = Some c → cred_user_id c ≠ i) ∧
  (∀ j t, refresh_tokens d !! j = Some t → rt_user_id t ≠ i) ∧
  (∀ j t, internal_tokens d !! j = Some t → it_user_id t ≠ Some i) ∧
  (∀ j e, audit_events d !! j = Some e → ae_user_id e = Some i →
    ae_ip_address e = None ∧ ae_user_agent e = None ∧ ∀ k, k ∈ PII_METADATA_KEYS → ae_metadata e !! k = None) ∧
  ∃ r, users d !! i = Some r ∧ user_email r = erased_email i ∧ user_is_erased r = true ∧
    user_is_active r = false ∧ user_last_login_at r = None.

(** The rows of everybody else stay; a successor link to an erased token is cut. *)
Definition others_kept (i : uuid) (d d' : Db) : Prop :=
  (∀ j, j ≠ i → users d' !! j = users d !! j) ∧
  (∀ j c, credentials d !! j = Some c → cred_user_id c ≠ i → credentials d' !! j = Some c) ∧
  (∀ j t, refresh_tokens d !! j = Some t → rt_user_id t ≠ i →
    ∃ t', refresh_tokens d' !! j = Some t' ∧ set_replaced_by None t' = set_replaced_by None t) ∧
  (∀ j t, internal_tokens d !! j = Some t → it_user_id t ≠ Some i → internal_tokens d' !! j = Some t) ∧
  (∀ j e, audit_events d !! j = Some e → ae_user_id e ≠ Some i → audit_events d' !! j = Some e) ∧
  relationships d' = relationships d ∧ processed_messages d' = processed_messages d.

(** The audit trail keeps its length, order and kinds of event, plus one. *)
Definition trail_kept (i : uuid) (reason : string) (d d' : Db) : Prop :=
  ∃ k e, audit_events d !! k = None ∧ audit_events d' !! k = Some e ∧ dom (audit_events d') = {[k]} ∪ dom (audit_events d) ∧
    ae_user_id e = Some i ∧ ae_event_type e = "user.erased" ∧
    ae_metadata e = {[ "user_id" := JStr (uuid_str i); "reason" := JStr reason ]} ∧
    ∀ j x, audit_events d !! j = Some x → ∃ x', audit_events d' !! j = Some x' ∧
      ae_user_id x' = ae_user_id x ∧ ae_event_type x' = ae_event_type x ∧ ae_created_at x' = ae_created_at x.

(** One more pending message: the clean-up of the account's blobs. *)
Definition cleanup_queued (i : uuid) (d d' : Db) : Prop :=
  ∃ k m, outbox_messages d !! k = None ∧ outbox_messages d' = <[k := m]> (outbox_messages d) ∧
    ob_status m = Pending ∧ ob_job_name m = DELETE_USER_ASSETS_JOB ∧ ob_payload m = user_payload i.

Section erasure.
Context `{Env}.
Implicit Types w : World.

(** The rows the transaction of [execute] commits. *)
Definition scrubbed (i : uuid) (now : time) (d : Db) : Db :=
  set_users (alter (apply_erasure_scrub i now) i)
    (set_internal_tokens (delete_where (internal_of_user i))
      (set_refresh_tokens (delete_refresh_where (refresh_of_user i))
        (set_credentials (delete_where (credential_of_user i))
          (set_audit_events (update_where (event_of i) scrub_event) d)))).

Lemma db_ok_scrubbed i now d :
  db_ok d → (∀ j x, users d !! j = Some x → user_email x = erased_email i → j = i) → db_ok (scrubbed i now d).
Proof.
  intros Hok Hu. apply db_ok_alter_user.
  - apply db_ok_delete_internal, db_ok_delete_refresh. apply db_ok_set_credentials.
    + apply db_ok_set_audit; [done|]. destruct Hok as (_ & _ & _ & _ & _ & _ & _ & _ & _ & Hfk & _).
      by apply fk_on_update.
    + cbn. apply uniq_on_delete. by destruct Hok as (_ & _ & ? & _).
    + cbn. apply fk_on_delete. by destruct Hok as (_ & _ & _ & ? & _).
  - intros r Hr. destruct Hok as (_ & Hver & _). specialize (Hver i r Hr). cbn in *. lia.
  - intros r j x _ Hx E. by eapply Hu.
Qed.

Lemma run_get_raw_by_id i w :
  EngineUsers.get_raw_by_id i w = (Ret ((λ r, to_domain (i, r)) <$> users (w_db w) !! i), w).
Proof. apply (run_with_session_read _ (λ d, (λ r, to_domain (i, r)) <$> users d !! i)). done. Qed.

(** The run on an account that is there and not erased yet. *)
Definition erased_event (i : uuid) (reason : string) (now : time) : AuditRow :=
  mkAuditRow (Some i) "user.erased" None None {[ "user_id" := JStr (uuid_str i); "reason" := JStr reason ]} now.

Lemma run_erase i reason r w :
  db_ok (w_db w) → drawn_fresh w → users (w_db w) !! i = Some r → user_is_erased r = false →
  (∀ j x, users (w_db w) !! j = Some x → user_email x = erased_email i → j = i) →
  ∃ w' m, EraseUser.execute i reason w = (Ret (Ok tt), w') ∧ db_ok (w_db w') ∧
    w_db w' = set_outbox (<[uuid4_at (S (w_uuids w)) := m]>)
      (set_audit_events (<[uuid4_at (w_uuids w) := erased_event i reason (now_at (S (w_clock w)))]>)
        (scrubbed i (now_at (w_clock w)) (w_db w))) ∧
    ob_status m = Pending ∧ ob_job_name m = DELETE_USER_ASSETS_JOB ∧ ob_payload m = user_payload i.
Proof.
  intros Hok Hfr Hi Her Hu. unfold EraseUser.execute.
  rewrite run_bind run_get_raw_by_id Hi. cbn [fmap option_fmap option_map to_domain u_is_erased]. rewrite Her.
  pose proof (db_ok_scrubbed i (now_at (w_clock w)) _ Hok Hu) as Hs.
  eexists _, _. rewrite run_bind. unfold SQLModelOutboxUnitOfWork.transaction. erewrite run_write_scope.
  2: { unfold scrub_audit_events, delete_credentials_and_tokens. rewrite run_bind run_stage run_bind run_bind run_stage run_bind run_stage run_stage run_bind.
    unfold EngineUsers.scrub_for_erasure_atomically_with, SessionUsers.scrub_for_erasure_atomically_with.
    rewrite run_bind run_get_user. cbn [w_session set_session set_internal_tokens set_refresh_tokens set_credentials set_audit_events users].
    rewrite Hi Her run_bind run_utc_now run_bind run_save_user run_ret run_bind.
    unfold record_user_erased_event. rewrite run_bind run_uuid4 run_bind run_utc_now run_add_row.
    2: { cbn. by rewrite lookup_update_where (fresh_audit w Hfr). }
    unfold SessionSQLModelOutboxAdapter.enqueue.
    rewrite run_bind run_gets run_bind run_uuid4 run_bind run_utc_now run_bind run_utc_now.
    rewrite run_add_row; [done|]. cbn. apply (fresh_outbox w Hfr). lia. }
  - split; [done|]. cbn -[db_ok]. split; [|done]. apply db_ok_outbox.
    apply (db_ok_insert_audit _ _ (scrubbed i (now_at (w_clock w)) (w_db w))); [done|].
    intros ? [= <-]. cbn. by rewrite lookup_alter_eq Hi.
  - cbn -[db_ok]. apply db_ok_outbox.
    apply (db_ok_insert_audit _ _ (scrubbed i (now_at (w_clock w)) (w_db w))); [done|].
    intros ? [= <-]. cbn. by rewrite lookup_alter_eq Hi.
Qed.

(** ** What the committed rows say *)

Lemma delete_refresh_Some P m j t :
  delete_refresh_where P m !! j = Some t ↔
  ∃ t0, m !! j = Some t0 ∧ P j t0 = false ∧
    t = set_replaced_by (k ← rt_replaced_by t0; if decide (is_Some (delete_where P m !! k)) then Some k else None) t0.
Proof.
  unfold delete_refresh_where. rewrite lookup_fmap fmap_Some. split.
  - intros (t0 & Hj & ->). rewrite lookup_delete_where in Hj. apply bind_Some in Hj as (t1 & Hj & HP).
    destruct (P j t1) eqn:E; [done|]. simplify_eq. by exists t0.
  - intros (t0 & Hj & HP & ->). exists t0. rewrite lookup_delete_where Hj /= HP. done.
Qed.

Lemma lookup_deleted {R} (P : uuid → R → bool) m j x :
  delete_where P m !! j = Some x ↔ m !! j = Some x ∧ P j x = false.
Proof.
  rewrite lookup_delete_where bind_Some. split.
  - intros (y & Hy & E). destruct (P j y) eqn:EP; by simplify_eq.
  - intros (Hx & E). exists x. by rewrite E.
Qed.

Lemma scrub_event_clean e k : k ∈ PII_METADATA_KEYS → ae_metadata (scrub_event e) !! k = None.
Proof.
  unfold PII_METADATA_KEYS. cbn [scrub_event ae_metadata foldl]. intros Hk. rewrite !lookup_delete_None.
  repeat (apply elem_of_cons in Hk as [->|Hk]; [tauto|]). by apply not_elem_of_nil in Hk.
Qed.

Section committed.
Context (i : uuid) (reason : string) (r : UserRow) (d d' : Db) (now now' : time) (a k : uuid) (m : OutboxRow).
Context (Hi : users d !! i = Some r) (Ha : audit_events d !! a = None).
Context (Hd' : d' = set_outbox (<[k := m]>) (set_audit_events (<[a := erased_event i reason now']>) (scrubbed i now d))).

Lemma committed_pii_free : pii_free i d'.
Proof.
  subst d'. split_and!; cbn.
  - intros j c. rewrite lookup_deleted. unfold credential_of_user. rewrite bool_decide_eq_false. tauto.
  - intros j t. rewrite delete_refresh_Some. intros (t0 & _ & HP & ->).
    by apply bool_decide_eq_false in HP.
  - intros j t. rewrite lookup_deleted. unfold internal_of_user. rewrite bool_decide_eq_false. tauto.
  - intros j e. rewrite lookup_insert_Some. intros [[_ <-]|[_ Hj]] He.
    + cbn. split_and!; [done..|]. unfold PII_METADATA_KEYS. intros q Hq.
      repeat (apply elem_of_cons in Hq as [->|Hq]; [vm_compute; reflexivity|]). by apply not_elem_of_nil in Hq.
    + rewrite lookup_update_where fmap_Some in Hj. destruct Hj as (e0 & Hj & ->). unfold event_of in *.
      case_bool_decide; [|done]. split_and!; [done..|apply scrub_event_clean].
  - eexists. by rewrite lookup_alter_eq Hi.
Qed.

Lemma committed_others : others_kept i d d'.
Proof.
  subst d'. split_and!; cbn; try done.
  - intros j Hj. by rewrite lookup_alter_ne.
  - intros j c Hc Hne. apply lookup_deleted. split; [done|]. by apply bool_decide_eq_false.
  - intros j t Ht Hne. eexists (set_replaced_by _ t). rewrite delete_refresh_Some. split; [|done].
    exists t. split_and!; [done|by apply bool_decide_eq_false|reflexivity].
  - intros j t Ht Hne. apply lookup_deleted. split; [done|]. by apply bool_decide_eq_false.
  - intros j e He Hne. rewrite lookup_insert_ne; [|intros <-; congruence].
    rewrite lookup_update_where He /=. unfold event_of. by rewrite bool_decide_eq_false_2.
Qed.

Lemma committed_trail : trail_kept i reason d d'.
Proof.
  subst d'. exists a, (erased_event i reason now'). cbn. split_and!; try done.
  - by rewrite lookup_insert_eq.
  - rewrite dom_insert_L. f_equal. apply set_eq. intros j. by rewrite !elem_of_dom lookup_update_where fmap_is_Some.
  - intros j x Hx. rewrite lookup_insert_ne; [|intros <-; congruence]. rewrite lookup_update_where Hx.
    eexists. split; [done|]. by destruct (event_of i j x).
Qed.
End committed.

(** How an erasure ends. *)
Lemma erase_cases i reason w :
  db_ok (w_db w) → drawn_fresh w →
  (∀ j x, users (w_db w) !! j = Some x → user_email x = erased_email i → j = i) →
  let '(o, w') := EraseUser.execute i reason w in
  match users (w_db w) !! i with
  | None => o = Ret (Err UserNotFoundError) ∧ w' = w
  | Some r =>
      o = Ret (Ok tt) ∧
      if user_is_erased r then w' = w else
      db_ok (w_db w') ∧ pii_free i (w_db w') ∧ others_kept i (w_db w) (w_db w') ∧
      trail_kept i reason (w_db w) (w_db w') ∧ cleanup_queued i (w_db w) (w_db w') ∧
      find_user i (w_db w') = None ∧ (∀ e u, find_email e (w_db w') = Some u → u_id u ≠ i) ∧
      (user_email r ≠ erased_email i → lower (user_email r) = user_email r → ¬ email_taken (user_email r) (w_db w')) ∧
      ∀ reason', EraseUser.execute i reason' w' = (Ret (Ok tt), w')
  end.
Proof.
  intros Hok Hfr Hu. destruct (users (w_db w) !! i) as [r|] eqn:Hi.
  2: { unfold EraseUser.execute. rewrite run_bind run_get_raw_by_id Hi. by split. }
  destruct (user_is_erased r) eqn:Her.
  { unfold EraseUser.execute. rewrite run_bind run_get_raw_by_id Hi. cbn. rewrite Her. by split. }
  destruct (run_erase i reason r w) as (w' & m & -> & Hok' & Hd' & Hst & Hjob & Hp); [done..|].
  split; [done|]. set (x := apply_erasure_scrub i (now_at (w_clock w)) r).
  assert (Hi' : users (w_db w') !! i = Some x) by (rewrite Hd'; cbn; by rewrite lookup_alter_eq Hi).
  split_and!.
  - done.
  - eapply committed_pii_free; [exact Hi|exact Hd'].
  - eapply committed_others; [|exact Hd']. by apply (fresh_audit w Hfr).
  - eapply committed_trail; [|exact Hd']. by apply (fresh_audit w Hfr).
  - exists (uuid4_at (S (w_uuids w))), m. rewrite Hd'. split_and!; try done. apply (fresh_outbox w Hfr). lia.
  - unfold find_user. by rewrite Hi'.
  - intros e u. rewrite find_email_spec //. intros (j & y & Hj & _ & Hne & ->). cbn. intros ->. by simplify_eq.
  - intros Hnp Hl (j & y & Hj & E). rewrite Hl in E. destruct (decide (j = i)) as [->|Hji]; [by simplify_eq|].
    rewrite Hd' /= lookup_alter_ne // in Hj. destruct Hok as (Huq & _). rewrite uniq_on_spec in Huq.
    by apply Hji, (Huq j i y r).
  - intros reason'. unfold EraseUser.execute. by rewrite run_bind run_get_raw_by_id Hi'.
Qed.

(** C5. Erasing an account scrubs its row and its audit events and deletes its
    credential and tokens in one transaction that also records [user.erased] and
    queues the clean-up of its blobs; nobody else's rows change, the audit trail
    loses no event, the account is found neither by id nor by any address, its
    address can be registered again, and erasing it once more changes nothing.
    An unknown account is reported and nothing is written. *)
Theorem erase_user_spec i reason w :
  db_ok (w_db w) → drawn_fresh w →
  (∀ j x, users (w_db w) !! j = Some x → user_email x = erased_email i → j = i) →
  let '(o, w') := EraseUser.execute i reason w in
  match users (w_db w) !! i with
  | None => o = Ret (Err UserNotFoundError) ∧ w' = w
  | Some r =>
      o = Ret (Ok tt) ∧
      if user_is_erased r then w' = w else
      db_ok (w_db w') ∧ pii_free i (w_db w') ∧ others_kept i (w_db w) (w_db w') ∧
      trail_kept i reason (w_db w) (w_db w') ∧ cleanup_queued i (w_db w) (w_db w') ∧
      find_user i (w_db w') = None ∧ (∀ e u, find_email e (w_db w') = Some u → u_id u ≠ i) ∧
      (user_email r ≠ erased_email i → lower (user_email r) = user_email r → ¬ email_taken (user_email r) (w_db w')) ∧
      ∀ reason', EraseUser.execute i reason' w' = (Ret (Ok tt), w')
  end.
Proof. apply erase_cases. Qed.
End erasure.

(** ** Evaluated *)

Lemma erase_user_spec_witness :
  let w' := state_of (EraseUser.execute 1000%N "self_request") demo_rotated in
  size (refresh_tokens (w_db demo_rotated)) = 2%nat ∧ size (refresh_tokens (w_db w')) = 0%nat ∧
  pii_free 1000%N (w_db w') ∧ cleanup_queued 1000%N (w_db demo_rotated) (w_db w').
Proof.
  pose proof (erase_user_spec 1000%N "self_request" demo_rotated) as Hs. cbv zeta. unfold state_of.
  split; [vm_compute; reflexivity|]. split; [vm_compute; reflexivity|].
  destruct (users (w_db demo_rotated) !! 1000%N) as [r|] eqn:Hi; [|vm_compute in Hi; discriminate Hi].
  assert (Her : user_is_erased r = false) by (vm_compute in Hi; injection Hi as <-; reflexivity).
  destruct (EraseUser.execute _ _ _) as [o w']. destruct Hs as (_ & Hs).
  - by_eval.
  - apply demo_drawn_fresh. by_eval.
  - intros j x Hj He. exfalso.
    assert (Hall : map_Forall (λ _ x, user_email x ≠ erased_email 1000%N) (users (w_db demo_rotated))) by by_eval.
    exact (Hall j x Hj He).
  - rewrite Her in Hs. destruct Hs as (_ & Hp & _ & _ & Hc & _). split; [exact Hp|exact Hc].
Defined.
