(* ===== verification/Files.v ===== *)
(** File storage ([features/file_storage]): the port with its contract, the
    local-filesystem adapter that implements it, and the adapter of the users
    feature that deletes the blobs of an account
    ([users/adapters/outbound/file_storage_user_assets/adapter.py]). *)

From S2P Require Import Prelude PyStr Uuid Store.
Open Scope string_scope.
Open Scope Z_scope.

(** [application/errors.py]. *)
Inductive FileStorageError :=
  | ObjectNotFoundError (key : string)
  | StorageBackendError (reason : string).

(** [str(error)]; [repr] of a key without quotes. *)
Definition storage_error_str (e : FileStorageError) : string :=
  match e with
  | ObjectNotFoundError key => "No stored object for key: '" +:+ key +:+ "'"
  | StorageBackendError reason => "Storage backend failure: " +:+ reason
  end.

(** ** [application/ports/file_storage_port.py] *)

(** The backend keeps its blobs in a state [F]. *)
Class FileStoragePort (F : Type) := {
  storage_put (key content content_type : string) : M F (Result unit FileStorageError);
  storage_get (key : string) : M F (Result string FileStorageError);
  storage_delete (key : string) : M F (Result unit FileStorageError);
  storage_list (prefix : string) : M F (Result (list string) FileStorageError);
  storage_signed_url (key : string) (expires_in : Z) : M F (Result string FileStorageError);
}.

(** What the port's documentation promises.  [storage_keys] are the keys a
    listing can see and [storage_at] the blob under a key; a backend failure
    is an [Err] value, and it may leave the key it was working on in any state. *)
Class FileStorageLaws (F : Type) `{FileStoragePort F} := {
  storage_ok : F → Prop;
  storage_keys : F → gset string;
  storage_at : F → string → option string;
  put_law key content ct f : storage_ok f → ∃ r f', storage_put key content ct f = (Ret r, f') ∧ storage_ok f' ∧
    (∀ k, k ≠ key → storage_at f' k = storage_at f k ∧ (k ∈ storage_keys f' ↔ k ∈ storage_keys f)) ∧
    (is_ok r = true → key ∈ storage_keys f' ∧ storage_at f' key = Some content);
  get_law key f : storage_ok f → ∃ r f', storage_get key f = (Ret r, f') ∧ storage_ok f' ∧
    storage_keys f' = storage_keys f ∧ (∀ k, storage_at f' k = storage_at f k) ∧
    match r with
    | Ok content => storage_at f key = Some content
    | Err (ObjectNotFoundError k) => k = key ∧ storage_at f key = None
    | Err (StorageBackendError _) => True
    end;
  delete_law key f : storage_ok f → ∃ r f', storage_delete key f = (Ret r, f') ∧ storage_ok f' ∧
    storage_keys f' ⊆ storage_keys f ∧
    (∀ k, k ≠ key → storage_at f' k = storage_at f k ∧ (k ∈ storage_keys f' ↔ k ∈ storage_keys f)) ∧
    (is_ok r = true → key ∉ storage_keys f' ∧ storage_at f' key = None);
  list_law prefix f : storage_ok f → ∃ r f', storage_list prefix f = (Ret r, f') ∧ storage_ok f' ∧
    storage_keys f' = storage_keys f ∧ (∀ k, storage_at f' k = storage_at f k) ∧
    match r with
    | Ok keys => ∀ k, k ∈ keys ↔ k ∈ storage_keys f ∧ String.prefix prefix k = true
    | Err _ => True
    end;
  signed_url_law key expires_in f : storage_ok f → ∃ r f', storage_signed_url key expires_in f = (Ret r, f') ∧ storage_ok f' ∧
    storage_keys f' = storage_keys f ∧ (∀ k, storage_at f' k = storage_at f k) ∧
    match r with
    | Ok _ => is_Some (storage_at f key)
    | Err (ObjectNotFoundError k) => k = key ∧ storage_at f key = None
    | Err (StorageBackendError _) => True
    end;
}.

(** ** [adapters/outbound/local/adapter.py] *)

(** The calls of the operating system the adapter makes. *)
Inductive fs_op := FsMkdir | FsWrite | FsRead | FsReadMeta | FsUnlink | FsScan | FsRmtree.

(** The operating system: which call fails with an [OSError] and why, how many
    bytes of the file a failed write has replaced, and [pathlib]'s file URI of a
    path under the root. *)
Class FsEnv := {
  os_error : fs_op → nat → option string;
  torn_write : nat → option nat;
  as_uri : string → string;
}.

(** The tree under [root].  Blobs and sidecars are kept apart: a digest has no
    dot, so no blob has the suffix of a sidecar.  A sidecar holds the JSON
    document with [key] and [content_type], or [None] when a failed write left
    text that is not JSON. *)
Record LocalFs := mkLocalFs {
  fs_root : bool;
  fs_objects : gmap string string;
  fs_sidecars : gmap string (option (string * string));
  fs_calls : nat;
}.

Module LocalFileStorageAdapter.
Section local.
Context `{Env} `{FsEnv}.

Definition set_root (b : bool) (f : LocalFs) := mkLocalFs b (fs_objects f) (fs_sidecars f) (fs_calls f).
Definition set_objects g (f : LocalFs) := mkLocalFs (fs_root f) (g (fs_objects f)) (fs_sidecars f) (fs_calls f).
Definition set_sidecars g (f : LocalFs) := mkLocalFs (fs_root f) (fs_objects f) (g (fs_sidecars f)) (fs_calls f).

(** One call: it succeeds with [on_success], or it leaves [on_failure] and raises. *)
Definition call (op : fs_op) (on_success on_failure : LocalFs → LocalFs) : M LocalFs unit := λ f,
  let f1 := mkLocalFs (fs_root f) (fs_objects f) (fs_sidecars f) (S (fs_calls f)) in
  match os_error op (fs_calls f) with
  | None => (Ret tt, on_success f1)
  | Some reason => (Raise (OSError reason), on_failure f1)
  end.

(** [except OSError as exc: return Err(StorageBackendError(...))]. *)
Definition backend_error {A} (e : exn) : M LocalFs (Result A FileStorageError) :=
  match e with
  | OSError reason => mret (Err (StorageBackendError reason))
  | e => raise e
  end.

Definition object_path (key : string) : string :=
  let digest := sha256_hex key in
  String.substring 0 2 digest +:+ "/" +:+ String.substring 2 2 digest +:+ "/" +:+ digest.

Definition write_bytes (path content : string) : M LocalFs unit := λ f,
  call FsWrite (set_objects (<[path := content]>))
    (match torn_write (fs_calls f) with
     | None => id
     | Some n => set_objects (<[path := String.substring 0 n content]>)
     end) f.
Definition write_meta (path key content_type : string) : M LocalFs unit := λ f,
  call FsWrite (set_sidecars (<[path := Some (key, content_type)]>))
    (match torn_write (fs_calls f) with
     | None => id
     | Some _ => set_sidecars (<[path := None]>)
     end) f.

(** [__post_init__]. *)
Definition post_init : M LocalFs unit :=
  try_except (call FsMkdir (set_root true) id)
    (λ e, match e with
          | OSError reason => raise (RuntimeError ("APP_STORAGE_LOCAL_PATH is not writable: " +:+ reason))
          | e => raise e
          end).

Definition put (key content content_type : string) : M LocalFs (Result unit FileStorageError) :=
  let path := object_path key in
  try_except (
    call FsMkdir (set_root true) id ;;
    write_bytes path content ;;
    write_meta path key content_type ;;
    mret (Ok tt)) backend_error.

Definition get (key : string) : M LocalFs (Result string FileStorageError) :=
  let path := object_path key in
  blob ← gets (λ f, fs_objects f !! path);
  match blob with
  | None => mret (Err (ObjectNotFoundError key))
  | Some content => try_except (call FsRead id id ;; mret (Ok content)) backend_error
  end.

Definition delete (key : string) : M LocalFs (Result unit FileStorageError) :=
  let path := object_path key in
  try_except (
    call FsUnlink (set_objects (base.delete path)) id ;;
    call FsUnlink (set_sidecars (base.delete path)) id ;;
    mret (Ok tt)) backend_error.

(** One sidecar of the walk: unreadable ones and ones that are not JSON are
    skipped. *)
Definition visit (prefix : string) (meta : option (string * string)) : M LocalFs (list string) :=
  try_except (
    call FsReadMeta id id ;;
    mret (match meta with
          | Some (key, _) => if String.prefix prefix key then [key] else []
          | None => []
          end))
    (λ e, match e with OSError _ => mret [] | e => raise e end).

Fixpoint walk (prefix : string) (metas : list (option (string * string))) : M LocalFs (list string) :=
  match metas with
  | [] => mret []
  | meta :: metas => keys ← visit prefix meta; rest ← walk prefix metas; mret (keys ++ rest)%list
  end.

(** [list]; the order of [rglob] is the operating system's. *)
Definition list_keys (prefix : string) : M LocalFs (Result (list string) FileStorageError) :=
  root ← gets fs_root;
  if negb root then mret (Ok []) else
  try_except (
    call FsScan id id ;;
    metas ← gets (λ f, (map_to_list (fs_sidecars f)).*2);
    keys ← walk prefix metas;
    mret (Ok keys)) backend_error.

Definition signed_url (key : string) (expires_in : Z) : M LocalFs (Result string FileStorageError) :=
  if expires_in <=? 0 then mret (Err (StorageBackendError "expires_in must be positive")) else
  let path := object_path key in
  blob ← gets (λ f, fs_objects f !! path);
  match blob with
  | None => mret (Err (ObjectNotFoundError key))
  | Some _ => mret (Ok (as_uri path))
  end.

(** [reset]; [rmtree] that fails half-way is not distinguished. *)
Definition reset : M LocalFs unit :=
  root ← gets fs_root;
  when root (call FsRmtree (λ f, mkLocalFs false ∅ ∅ (fs_calls f)) id) ;;
  call FsMkdir (set_root true) id.
End local.
End LocalFileStorageAdapter.

#[global] Instance local_port `{Env} `{FsEnv} : FileStoragePort LocalFs := {|
  storage_put := LocalFileStorageAdapter.put;
  storage_get := LocalFileStorageAdapter.get;
  storage_delete := LocalFileStorageAdapter.delete;
  storage_list := LocalFileStorageAdapter.list_keys;
  storage_signed_url := LocalFileStorageAdapter.signed_url;
|}.

(** ** The blobs of an account *)

(** [users/application/ports/user_assets_cleanup_port.py]. *)
Inductive AssetsCleanupError := AssetsCleanupBackendError (reason : string).
Definition assets_error_str (e : AssetsCleanupError) : string :=
  match e with AssetsCleanupBackendError reason => "User-asset cleanup backend failure: " +:+ reason end.

Definition user_prefix (user_id : uuid) : string := "users/" +:+ uuid_str user_id +:+ "/".

Module FileStorageUserAssetsAdapter.
Section adapter.
Context {F : Type} `{FileStoragePort F}.

(** The loop over the listed keys; the first failure ends it. *)
Fixpoint delete_keys (keys : list string) : M F (Result unit AssetsCleanupError) :=
  match keys with
  | [] => mret (Ok tt)
  | key :: keys =>
      r ← storage_delete key;
      match r with
      | Err e => mret (Err (AssetsCleanupBackendError (storage_error_str e)))
      | Ok _ => delete_keys keys
      end
  end.

Definition delete_user_assets (user_id : uuid) : M F (Result unit AssetsCleanupError) :=
  r ← storage_list (user_prefix user_id);
  match r with
  | Err e => mret (Err (AssetsCleanupBackendError (storage_error_str e)))
  | Ok keys => if bool_decide (keys = []) then mret (Ok tt) else delete_keys keys
  end.
End adapter.
End FileStorageUserAssetsAdapter.
