(* ===== verification/FilesFacts.v ===== *)
(** The local adapter keeps the storage contract, and the clean-up of an
    account's blobs is correct for every backend that keeps it. *)

From S2P Require Import Prelude PyStr Uuid Store Demo Files.
Open Scope string_scope.
Open Scope list_scope.
Open Scope Z_scope.

(** ** The local adapter *)

(** SHA-256 separates the keys in use. *)
Class PathsDistinct `{Env} : Prop := object_path_inj :: Inj (=) (=) LocalFileStorageAdapter.object_path.
(** The operating system lets the process read the sidecars it wrote. *)
Class SidecarsReadable `{FsEnv} : Prop := sidecars_readable n : os_error FsReadMeta n = None.

Section local.
Context `{Env} `{FsEnv}.
Import LocalFileStorageAdapter.
Implicit Types f : LocalFs.

(** Every sidecar lies at the path of the key it names. *)
Definition local_ok f : Prop :=
  (∀ p k ct, fs_sidecars f !! p = Some (Some (k, ct)) → p = object_path k) ∧
  (fs_root f = false → fs_sidecars f = ∅).
Definition local_keys f : gset string := list_to_set (fst <$> omap id (map_to_list (fs_sidecars f)).*2).
Definition local_at f (key : string) : option string := fs_objects f !! object_path key.

Lemma elem_of_local_keys f k :
  local_ok f → k ∈ local_keys f ↔ ∃ ct, fs_sidecars f !! object_path k = Some (Some (k, ct)).
Proof.
  intros [Hp _]. unfold local_keys. rewrite elem_of_list_to_set list_elem_of_fmap. split.
  - intros ([k' ct] & -> & Hin). apply list_elem_of_omap in Hin as (m & Hin & E). cbn in E. subst m.
    apply list_elem_of_fmap in Hin as ([p m] & E & Hin). cbn in E. subst m.
    apply elem_of_map_to_list in Hin. exists ct. by rewrite -(Hp _ _ _ Hin).
  - intros (ct & Hk). exists (k, ct). split; [done|]. apply list_elem_of_omap. exists (Some (k, ct)). split; [|done].
    apply list_elem_of_fmap. exists (object_path k, Some (k, ct)). split; [done|]. by apply elem_of_map_to_list.
Qed.

(** What one key's operation may change. *)
Definition touches_only (key : string) f f' : Prop :=
  ∀ p, p ≠ object_path key → fs_objects f' !! p = fs_objects f !! p ∧ fs_sidecars f' !! p = fs_sidecars f !! p.

Lemma touches_only_refl key f : touches_only key f f.
Proof. done. Qed.
Lemma touches_only_trans key f1 f2 f3 : touches_only key f1 f2 → touches_only key f2 f3 → touches_only key f1 f3.
Proof. intros H1 H2 p Hp. destruct (H1 p Hp) as [<- <-]. by apply H2. Qed.

Lemma touches_only_others `{!PathsDistinct} key f f' k :
  local_ok f → local_ok f' → touches_only key f f' → k ≠ key →
  local_at f' k = local_at f k ∧ (k ∈ local_keys f' ↔ k ∈ local_keys f).
Proof.
  intros Hok Hok' Ht Hk. destruct (Ht (object_path k)) as [Eo Es]; [by intros E%object_path_inj|].
  rewrite !elem_of_local_keys // Es. by split.
Qed.

(** The effect of a call on a key's two files. *)
Definition benign (key : string) (g : LocalFs → LocalFs) : Prop := ∀ f, local_ok f → local_ok (g f) ∧ touches_only key f (g f).

Lemma benign_id key : benign key id.
Proof. by intros f Hf. Qed.
Lemma benign_root key : benign key (set_root true).
Proof. intros f [Hp Hr]. by split. Qed.
Lemma benign_objects key g : (∀ m p, p ≠ object_path key → (g m : gmap _ _) !! p = m !! p) → benign key (set_objects g).
Proof. intros Hg f Hf. split; [done|]. intros p Hp. by cbn; rewrite Hg. Qed.
Lemma benign_delete_meta key : benign key (set_sidecars (base.delete (object_path key))).
Proof.
  intros f [Hp Hr]. split; [split|].
  - intros p k ct. cbn. rewrite lookup_delete_Some. intros [_ Hk]. by eapply Hp.
  - cbn. intros Hroot. by rewrite Hr // delete_empty.
  - intros p Hne. cbn. by rewrite lookup_delete_ne.
Qed.

(** Writes happen under an existing root. *)
Lemma write_meta_ok key v f :
  fs_root f = true → (∀ k ct, v = Some (k, ct) → k = key) → local_ok f →
  local_ok (set_sidecars (<[object_path key := v]>) f) ∧ touches_only key f (set_sidecars (<[object_path key := v]>) f).
Proof.
  intros Hroot Hv [Hp Hr]. split; [split|].
  - intros p k ct. cbn. rewrite lookup_insert_Some. intros [[<- E]|[_ Hk]]; [|by eapply Hp]. by rewrite (Hv k ct).
  - cbn. by rewrite Hroot.
  - intros p Hne. cbn. by rewrite lookup_insert_ne.
Qed.

Definition stepped f : LocalFs := mkLocalFs (fs_root f) (fs_objects f) (fs_sidecars f) (S (fs_calls f)).

Lemma run_call op g h f :
  call op g h f = match os_error op (fs_calls f) with
                  | None => (Ret tt, g (stepped f))
                  | Some reason => (Raise (OSError reason), h (stepped f))
                  end.
Proof. done. Qed.

Lemma run_try {A} (m : M LocalFs A) h f :
  try_except m h f = match m f with (Ret a, f') => (Ret a, f') | (Raise e, f') => h e f' end.
Proof. done. Qed.

Lemma write_bytes_cases path content f :
  ∃ g, write_bytes path content f =
    (match os_error FsWrite (fs_calls f) with None => Ret tt | Some reason => Raise (OSError reason) end,
     set_objects g (stepped f)) ∧
    (∀ m p, p ≠ path → (g m : gmap _ _) !! p = m !! p) ∧
    (os_error FsWrite (fs_calls f) = None → g = <[path := content]>).
Proof.
  unfold write_bytes. rewrite run_call. destruct (os_error FsWrite (fs_calls f)) as [e|].
  - destruct (torn_write (fs_calls f)) as [n|].
    + eexists. split; [done|]. split; [intros m p Hp; by rewrite lookup_insert_ne|done].
    + exists id. split_and!; [by destruct f|done..].
  - eexists. split; [done|]. split; [intros m p Hp; by rewrite lookup_insert_ne|done].
Qed.

Lemma local_put_law `{!PathsDistinct} key content ct f :
  local_ok f → ∃ r f', put key content ct f = (Ret r, f') ∧ local_ok f' ∧
    (∀ k, k ≠ key → local_at f' k = local_at f k ∧ (k ∈ local_keys f' ↔ k ∈ local_keys f)) ∧
    (is_ok r = true → key ∈ local_keys f' ∧ local_at f' key = Some content).
Proof.
  intros Hok.
  assert (∃ r f', put key content ct f = (Ret r, f') ∧ local_ok f' ∧ touches_only key f f' ∧
    (is_ok r = true → key ∈ local_keys f' ∧ local_at f' key = Some content)) as (r & f' & E & Hok' & Ht & Hr).
  2: { exists r, f'. split_and!; try done. intros k Hk. by eapply touches_only_others. }
  unfold put. rewrite run_try !run_bind run_call. destruct (os_error FsMkdir _) as [e|].
  { eexists _, _. by split_and!. }
  destruct (benign_root key (stepped f) Hok) as [Hok1 Ht1]. set (f1 := set_root true (stepped f)) in *.
  rewrite run_bind. destruct (write_bytes_cases (object_path key) content f1) as (g & -> & Hg & Hgc).
  destruct (benign_objects key g Hg (stepped f1) Hok1) as [Hok2 Ht2]. set (f2 := set_objects g (stepped f1)) in *.
  assert (Ht12 : touches_only key f f2) by (by eapply touches_only_trans).
  destruct (os_error FsWrite (fs_calls f1)) as [e|]; [by eexists _, _; split_and!|].
  rewrite run_bind. unfold write_meta. rewrite run_call.
  destruct (os_error FsWrite (fs_calls f2)) as [e|].
  - destruct (torn_write (fs_calls f2)) as [n|]; [|by eexists _, _; split_and!].
    destruct (write_meta_ok key None (stepped f2)) as [Hok3 Ht3]; [done..|].
    eexists _, _. split_and!; [done|exact Hok3|by eapply touches_only_trans|done].
  - destruct (write_meta_ok key (Some (key, ct)) (stepped f2)) as [Hok3 Ht3]; [done|by intros ?? [= <- _]|done|].
    eexists _, _. split_and!; [done|exact Hok3|by eapply touches_only_trans|]. intros _. split.
    + apply elem_of_local_keys; [exact Hok3|]. exists ct. cbn. by rewrite lookup_insert_eq.
    + unfold local_at. cbn. by rewrite Hgc // lookup_insert_eq.
Qed.

Lemma local_get_law key f :
  local_ok f → ∃ r f', get key f = (Ret r, f') ∧ local_ok f' ∧
    local_keys f' = local_keys f ∧ (∀ k, local_at f' k = local_at f k) ∧
    match r with
    | Ok content => local_at f key = Some content
    | Err (ObjectNotFoundError k) => k = key ∧ local_at f key = None
    | Err (StorageBackendError _) => True
    end.
Proof.
  intros Hok. unfold get. rewrite run_bind run_gets. fold (local_at f key). destruct (local_at f key) as [c|] eqn:E.
  - rewrite run_try run_bind run_call. destruct (os_error FsRead _); by eexists _, _.
  - by eexists _, _.
Qed.

Lemma local_delete_law `{!PathsDistinct} key f :
  local_ok f → ∃ r f', delete key f = (Ret r, f') ∧ local_ok f' ∧ local_keys f' ⊆ local_keys f ∧
    (∀ k, k ≠ key → local_at f' k = local_at f k ∧ (k ∈ local_keys f' ↔ k ∈ local_keys f)) ∧
    (is_ok r = true → key ∉ local_keys f' ∧ local_at f' key = None).
Proof.
  intros Hok.
  assert (∃ r f', delete key f = (Ret r, f') ∧ local_ok f' ∧ touches_only key f f' ∧
    (fs_sidecars f' = fs_sidecars f ∨ fs_sidecars f' = base.delete (object_path key) (fs_sidecars f)) ∧
    (is_ok r = true → fs_sidecars f' = base.delete (object_path key) (fs_sidecars f) ∧ local_at f' key = None))
    as (r & f' & E & Hok' & Ht & Hs & Hr).
  2: { exists r, f'. split_and!; try done.
    - intros k. rewrite !elem_of_local_keys //. intros (ct & Hk). exists ct.
      destruct Hs as [<-|Hs]; [done|]. rewrite Hs in Hk. by apply lookup_delete_Some in Hk as [_ ?].
    - intros k Hk. by eapply touches_only_others.
    - intros Hrk. destruct (Hr Hrk) as [Hs' Ha]. split; [|done]. rewrite elem_of_local_keys // Hs'.
      intros (ct & Hk). by rewrite lookup_delete_eq in Hk. }
  unfold delete. rewrite run_try !run_bind run_call. destruct (os_error FsUnlink _) as [e|].
  { eexists _, _. by split_and!; [..|left|]. }
  destruct (benign_objects key (base.delete (object_path key))) with (f := stepped f) as [Hok1 Ht1]; [|done|].
  { intros m p Hp. by rewrite lookup_delete_ne. }
  set (f1 := set_objects _ (stepped f)) in *. rewrite run_bind run_call. destruct (os_error FsUnlink _) as [e|].
  { eexists _, _. by split_and!; [..|left|]. }
  destruct (benign_delete_meta key (stepped f1) Hok1) as [Hok2 Ht2].
  eexists _, _. split_and!; [done|exact Hok2|by eapply touches_only_trans|by right|].
  intros _. split; [done|]. unfold local_at. cbn. by rewrite lookup_delete_eq.
Qed.

(** A walk over readable sidecars finds the keys with the prefix. *)
Definition keys_of (prefix : string) (metas : list (option (string * string))) : list string :=
  filter (λ k, String.prefix prefix k = true) (fst <$> omap id metas).

Lemma run_walk `{!SidecarsReadable} prefix metas f :
  ∃ n, walk prefix metas f = (Ret (keys_of prefix metas), mkLocalFs (fs_root f) (fs_objects f) (fs_sidecars f) n).
Proof.
  revert f. induction metas as [|m metas IH]; intros f; cbn [walk].
  - exists (fs_calls f). by destruct f.
  - rewrite run_bind. unfold visit. rewrite run_try run_bind run_call sidecars_readable run_ret run_bind.
    destruct (IH (id (stepped f))) as (n & ->). exists n. rewrite run_ret. f_equal. f_equal.
    destruct m as [[k ct]|]; [|done]. unfold keys_of.
    change (omap id (Some (k, ct) :: metas)) with ((k, ct) :: omap id metas). rewrite fmap_cons filter_cons.
    cbn [fst]. by destruct (String.prefix prefix k).
Qed.

Lemma local_list_law `{!SidecarsReadable} prefix f :
  local_ok f → ∃ r f', list_keys prefix f = (Ret r, f') ∧ local_ok f' ∧
    local_keys f' = local_keys f ∧ (∀ k, local_at f' k = local_at f k) ∧
    match r with
    | Ok keys => ∀ k, k ∈ keys ↔ k ∈ local_keys f ∧ String.prefix prefix k = true
    | Err _ => True
    end.
Proof.
  intros Hok. unfold list_keys. rewrite run_bind run_gets. destruct (fs_root f) eqn:Hroot; cbn [negb].
  - rewrite run_try !run_bind run_call. destruct (os_error FsScan _) as [e|]; [by eexists _, _|].
    rewrite run_bind run_gets run_bind.
    destruct (run_walk prefix (map_to_list (fs_sidecars (id (stepped f)))).*2 (id (stepped f))) as (n & ->).
    eexists _, _. split_and!; [done..|]. intros k. unfold keys_of, local_keys.
    rewrite list_elem_of_filter elem_of_list_to_set. cbn. tauto.
  - eexists _, _. split_and!; [done..|]. intros k. unfold local_keys. destruct Hok as [_ Hr]. rewrite Hr //.
    rewrite map_to_list_empty. set_solver.
Qed.
End local.

(** The local adapter keeps the contract. *)
Lemma local_signed_url_law `{Env} `{FsEnv} key expires_in f :
  local_ok f → ∃ r f', LocalFileStorageAdapter.signed_url key expires_in f = (Ret r, f') ∧ local_ok f' ∧
    local_keys f' = local_keys f ∧ (∀ k, local_at f' k = local_at f k) ∧
    match r with
    | Ok _ => is_Some (local_at f key)
    | Err (ObjectNotFoundError k) => k = key ∧ local_at f key = None
    | Err (StorageBackendError _) => True
    end.
Proof.
  intros Hok. unfold LocalFileStorageAdapter.signed_url, local_at. destruct (expires_in <=? 0); [by eexists _, f|]. rewrite run_bind run_gets.
  destruct (fs_objects f !! LocalFileStorageAdapter.object_path key) eqn:E; eexists _, f; (split; [done|]); rewrite ?E; done.
Qed.

#[global] Instance local_laws `{Env} `{FsEnv} `{!PathsDistinct} `{!SidecarsReadable} : FileStorageLaws LocalFs := {|
  storage_ok := local_ok;
  storage_keys := local_keys;
  storage_at := local_at;
  put_law := local_put_law;
  get_law := local_get_law;
  delete_law := local_delete_law;
  list_law := local_list_law;
  signed_url_law := local_signed_url_law;
|}.

(** ** Clients of the contract *)

Section clients.
Context {F : Type} `{FileStorageLaws F}.
Implicit Types f : F.

(** A stored blob is read back and listed until it is deleted: after a [put]
    that returned [Ok], a [get] that reaches the backend returns the content, a
    listing that reaches it has the key, and after a [delete] that returned [Ok]
    neither does; no other key notices any of it. *)
Theorem storage_roundtrip key content ct prefix f :
  storage_ok f → String.prefix prefix key = true →
  ∃ r f', storage_put key content ct f = (Ret r, f') ∧
  (is_ok r = true →
    (∃ g f'', storage_get key f' = (Ret g, f'') ∧ (g = Ok content ∨ ∃ e, g = Err (StorageBackendError e))) ∧
    (∃ l f'', storage_list prefix f' = (Ret l, f'') ∧ ∀ keys, l = Ok keys → key ∈ keys) ∧
    ∃ d f2, storage_delete key f' = (Ret d, f2) ∧ (is_ok d = true →
      (∃ g f3, storage_get key f2 = (Ret g, f3) ∧ is_ok g = false) ∧
      (∃ l f3, storage_list prefix f2 = (Ret l, f3) ∧ ∀ keys, l = Ok keys → key ∉ keys) ∧
      ∀ k, k ≠ key → storage_at f2 k = storage_at f k ∧ (k ∈ storage_keys f2 ↔ k ∈ storage_keys f))).
Proof.
  intros Hok Hp. destruct (put_law key content ct f Hok) as (r & f1 & -> & Hok1 & Ho1 & Hr).
  exists r, f1. split; [done|]. intros Hr1. destruct (Hr Hr1) as [Hin Hat]. split_and!.
  - destruct (get_law key f1 Hok1) as (g & f2 & -> & _ & _ & _ & Hg). exists g, f2. split; [done|].
    destruct g as [c|[k|e]]; [left; congruence|destruct Hg; congruence|right; by exists e].
  - destruct (list_law prefix f1 Hok1) as (l & f2 & -> & _ & _ & _ & Hl). exists l, f2. split; [done|].
    intros keys ->. by apply Hl.
  - destruct (delete_law key f1 Hok1) as (d & f2 & -> & Hok2 & _ & Ho2 & Hd). exists d, f2. split; [done|].
    intros Hd1. destruct (Hd Hd1) as [Hnin Hnone]. split_and!.
    + destruct (get_law key f2 Hok2) as (g & f3 & -> & _ & _ & _ & Hg). exists g, f3. split; [done|].
      destruct g as [c|e]; [congruence|done].
    + destruct (list_law prefix f2 Hok2) as (l & f3 & -> & _ & _ & _ & Hl). exists l, f3. split; [done|].
      intros keys ->. rewrite Hl. tauto.
    + intros k Hk. destruct (Ho1 k Hk) as [<- <-]. by apply Ho2.
Qed.

(** [f'] differs from [f] at most at the keys of [P]. *)
Definition untouched_outside (P : string → Prop) f f' : Prop :=
  ∀ k, ¬ P k → storage_at f' k = storage_at f k ∧ (k ∈ storage_keys f' ↔ k ∈ storage_keys f).

Lemma run_delete_keys keys f :
  storage_ok f → ∃ r f', FileStorageUserAssetsAdapter.delete_keys keys f = (Ret r, f') ∧ storage_ok f' ∧
    storage_keys f' ⊆ storage_keys f ∧ untouched_outside (λ k, k ∈ keys) f f' ∧
    (is_ok r = true → ∀ k, k ∈ keys → k ∉ storage_keys f' ∧ storage_at f' k = None).
Proof.
  revert f. induction keys as [|key keys IH]; intros f Hok; cbn [FileStorageUserAssetsAdapter.delete_keys].
  { exists (Ok tt), f. split_and!; try done. intros _ k Hk. by apply not_elem_of_nil in Hk. }
  rewrite run_bind. destruct (delete_law key f Hok) as (d & f1 & -> & Hok1 & Hsub1 & Ho1 & Hd).
  destruct d as [[]|e].
  2: { eexists _, f1. split_and!; try done. intros k Hk. apply Ho1. intros ->. apply Hk. left. }
  destruct (IH f1 Hok1) as (r & f2 & -> & Hok2 & Hsub2 & Ho2 & Hr). exists r, f2. split_and!; try done.
  - by transitivity (storage_keys f1).
  - intros k Hk. rewrite elem_of_cons in Hk. destruct (Ho1 k) as [<- <-]; [tauto|]. apply Ho2. tauto.
  - intros Hr1 k. rewrite elem_of_cons. destruct (decide (k ∈ keys)) as [Hin|Hin]; [by intros _; apply Hr|].
    intros [->|]; [|done]. destruct (Hd eq_refl) as [Hnin Hnone]. destruct (Ho2 key Hin) as [-> ->]. by split.
Qed.

Definition owned_by (i : uuid) (k : string) : Prop := String.prefix (user_prefix i) k = true.

Lemma run_delete_user_assets i f :
  storage_ok f → ∃ r f', FileStorageUserAssetsAdapter.delete_user_assets i f = (Ret r, f') ∧ storage_ok f' ∧
    storage_keys f' ⊆ storage_keys f ∧ untouched_outside (owned_by i) f f' ∧
    (is_ok r = true → ∀ k, owned_by i k → k ∉ storage_keys f' ∧ (k ∈ storage_keys f → storage_at f' k = None)).
Proof.
  intros Hok. unfold FileStorageUserAssetsAdapter.delete_user_assets. rewrite run_bind.
  destruct (list_law (user_prefix i) f Hok) as (l & f1 & -> & Hok1 & Hk1 & Ha1 & Hl).
  assert (Hu : untouched_outside (owned_by i) f f1) by (intros k _; by rewrite Hk1 Ha1).
  destruct l as [keys|e]; [|by eexists _, f1; rewrite Hk1; split_and!].
  destruct (bool_decide_reflect (keys = [])) as [->|_].
  { exists (Ok tt), f1. rewrite Hk1. split_and!; try done. intros _ k Hk.
    assert (k ∉ storage_keys f); [|done]. intros Hin. by apply (not_elem_of_nil k), Hl. }
  destruct (run_delete_keys keys f1 Hok1) as (r & f2 & -> & Hok2 & Hsub & Ho & Hr).
  exists r, f2. split_and!; try done.
  - by rewrite -Hk1.
  - intros k Hk. destruct (Hu k Hk) as [<- <-]. apply Ho. rewrite Hl. unfold owned_by in Hk. tauto.
  - intros Hr1 k Hk. split.
    + intros Hin. assert (Hkin : k ∈ keys) by (apply Hl; split; [rewrite -Hk1; by apply Hsub|done]).
      by destruct (Hr Hr1 k Hkin).
    + intros Hin. apply Hr; [done|]. by apply Hl.
Qed.
End clients.

(** *** Prefixes of different accounts *)

Lemma prefix_same_length a b s :
  String.length a = String.length b → String.prefix a s = true → String.prefix b s = true → a = b.
Proof.
  revert b s. induction a as [|c a IH]; intros [|c' b] [|x s]; cbn; try done.
  destruct (Ascii.ascii_dec c x) as [->|]; [|done]. destruct (Ascii.ascii_dec c' x) as [->|]; [|done].
  intros [= Hlen] Ha Hb. f_equal. by eapply IH.
Qed.

Lemma app_same_length a b c d : String.length a = String.length b → a +:+ c = b +:+ d → a = b.
Proof.
  revert b. induction a as [|x a IH]; intros [|y b]; try done. intros [= Hlen] E.
  rewrite !app_cons in E. injection E as -> E. f_equal. by apply IH.
Qed.

Lemma uuid_str_length u : String.length (uuid_str u) = 36%nat.
Proof. unfold uuid_str. by rewrite !length_app_string. Qed.

Lemma user_prefix_length u : String.length (user_prefix u) = 43%nat.
Proof.
  unfold user_prefix. rewrite (length_app_string "users/") (length_app_string (uuid_str u)). by rewrite uuid_str_length.
Qed.

Lemma owned_by_one i j k : uuid_ok i → uuid_ok j → owned_by i k → owned_by j k → i = j.
Proof.
  intros Hi Hj Ki Kj. apply uuid_str_inj; [done..|].
  assert (E : user_prefix i = user_prefix j).
  { eapply prefix_same_length; [|exact Ki|exact Kj]. by rewrite !user_prefix_length. }
  unfold user_prefix in E. apply (inj (String.app "users/")) in E. eapply app_same_length; [|exact E]. by rewrite !uuid_str_length.
Qed.

Section assets.
Context {F : Type} `{FileStorageLaws F}.
Implicit Types f : F.

(** Deleting the blobs of an account never raises and never touches a key
    outside [users/{id}/], so no blob of another account; when it returns [Ok]
    no key of the account is left and every blob that was listed is gone, and
    doing it again changes nothing. *)
Theorem assets_cleanup_spec i f :
  storage_ok f → ∃ r f', FileStorageUserAssetsAdapter.delete_user_assets i f = (Ret r, f') ∧ storage_ok f' ∧
    storage_keys f' ⊆ storage_keys f ∧ untouched_outside (owned_by i) f f' ∧
    (∀ j k, uuid_ok i → uuid_ok j → j ≠ i → owned_by j k →
      storage_at f' k = storage_at f k ∧ (k ∈ storage_keys f' ↔ k ∈ storage_keys f)) ∧
    (is_ok r = true →
      (∀ k, owned_by i k → k ∉ storage_keys f' ∧ (k ∈ storage_keys f → storage_at f' k = None)) ∧
      ∃ r2 f2, FileStorageUserAssetsAdapter.delete_user_assets i f' = (Ret r2, f2) ∧
        storage_keys f2 = storage_keys f' ∧ ∀ k, storage_at f2 k = storage_at f' k).
Proof.
  intros Hok. destruct (run_delete_user_assets i f Hok) as (r & f' & E & Hok' & Hsub & Ho & Hr).
  exists r, f'. split_and!; try done.
  - intros j k Hi Hj Hne Hk. apply Ho. intros Hk'. by apply Hne, (owned_by_one j i k).
  - intros Hr1. split; [by apply Hr|]. unfold FileStorageUserAssetsAdapter.delete_user_assets. rewrite run_bind.
    destruct (list_law (user_prefix i) f' Hok') as (l & f2 & -> & _ & Hk2 & Ha2 & Hl).
    destruct l as [keys|e]; [|by eexists _, f2]. assert (keys = []) as ->; [|by eexists _, f2].
    destruct keys as [|k keys]; [done|]. exfalso. destruct (proj1 (Hl k)) as [Hin Hown]; [left|].
    by destruct (Hr Hr1 k Hown).
Qed.
End assets.

(** ** Evaluated *)

(** A disk on which the tenth call fails if it is an unlink. *)
#[global] Instance demo_fs : FsEnv := {|
  os_error op n := match op with FsUnlink => if (n =? 9)%nat then Some "EIO" else None | _ => None end;
  torn_write _ := None;
  as_uri p := "file:///var/blobs/" +:+ p;
|}.
#[global] Instance demo_paths_distinct : PathsDistinct.
Proof.
  intros a b E.
  assert (Hp : ∀ x, LocalFileStorageAdapter.object_path x = "sh/a2/sha256:" +:+ x) by reflexivity.
  rewrite !Hp in E. by apply (inj (String.app "sh/a2/sha256:")) in E.
Qed.
#[global] Instance demo_sidecars_readable : SidecarsReadable.
Proof. intros n. reflexivity. Qed.

Definition demo_disk_at (calls : nat) : LocalFs :=
  state_of (storage_put (user_prefix 1 +:+ "a.png") "AAA" "image/png" ;;
            storage_put (user_prefix 2 +:+ "b.png") "BBB" "image/png") (mkLocalFs true ∅ ∅ calls).
Definition demo_disk : LocalFs := demo_disk_at 10.

Lemma demo_disk_ok : storage_ok demo_disk.
Proof.
  split; [|intros E; vm_compute in E; discriminate E].
  assert (Hall : map_Forall (λ p v,
    match v with Some (k, _) => String.eqb p (LocalFileStorageAdapter.object_path k) | None => true end = true)
    (fs_sidecars demo_disk)).
  { apply (bool_decide_unpack _). vm_compute. exact I. }
  intros p k ct Hp. apply String.eqb_eq. exact (Hall p _ Hp).
Qed.

Lemma storage_roundtrip_witness :
  ∃ r f', storage_put "notes/1" "hello" "text/plain" demo_disk = (Ret r, f') ∧ is_ok r = true ∧
    ∃ l f'', storage_list "notes/" f' = (Ret l, f'') ∧ ∀ keys, l = Ok keys → "notes/1" ∈ keys.
Proof.
  destruct (storage_roundtrip "notes/1" "hello" "text/plain" "notes/" demo_disk demo_disk_ok) as (r & f' & E & Hr);
    [vm_compute; reflexivity|].
  assert (Hok : is_ok r = true).
  { apply (f_equal (λ x, match x.1 with Ret r => is_ok r | Raise _ => false end)) in E.
    etransitivity; [symmetry; exact E|]. vm_compute. reflexivity. }
  exists r, f'. split; [exact E|]. split; [exact Hok|]. destruct (Hr Hok) as (_ & Hl & _). exact Hl.
Defined.

(** One account's clean-up leaves the other's blob. *)
Lemma assets_cleanup_spec_witness :
  ∃ r f', FileStorageUserAssetsAdapter.delete_user_assets 1%N demo_disk = (Ret r, f') ∧ is_ok r = true ∧
    storage_keys f' ⊆ storage_keys demo_disk ∧
    storage_at f' (user_prefix 2 +:+ "b.png") = Some "BBB".
Proof.
  destruct (assets_cleanup_spec 1%N demo_disk demo_disk_ok) as (r & f' & E & _ & Hsub & _ & Ho & Hr).
  exists r, f'. split; [exact E|]. split; [|split; [exact Hsub|]].
  - apply (f_equal (λ x, match x.1 with Ret r => is_ok r | Raise _ => false end)) in E.
    etransitivity; [symmetry; exact E|]. vm_compute. reflexivity.
  - destruct (Ho 2%N (user_prefix 2 +:+ "b.png")) as [Ha _];
      [reflexivity|reflexivity|discriminate|vm_compute; reflexivity|].
    etransitivity; [exact Ha|]. vm_compute. reflexivity.
Defined.

(** A sidecar that cannot be read is left out of an [Ok] listing: the clean-up
    of the account then reports success and its blob stays. *)
Definition unreadable_fs : FsEnv := {|
  os_error op n := match op with FsReadMeta => if (n =? 17)%nat then Some "EACCES" else None | _ => None end;
  torn_write _ := None;
  as_uri p := p;
|}.

Lemma unreadable_sidecar_hides_blob :
  let key := user_prefix 1 +:+ "a.png" in
  let '(r, f') := @FileStorageUserAssetsAdapter.delete_user_assets _ (@local_port demo_env unreadable_fs) 1%N demo_disk in
  fs_calls demo_disk = 16%nat ∧ r = Ret (Ok tt) ∧ local_at f' key = Some "AAA" ∧ bool_decide (key ∈ local_keys f') = true.
Proof. vm_compute. split_and!; reflexivity. Qed.
