(* ===== verification/Jobs.v ===== *)
(** Background jobs ([features/background_jobs]): the handler registry, the
    in-process queue, and the handlers the features register
    ([email/composition/jobs.py], [users/composition/jobs.py]), wired the way
    [worker.py] wires them. *)

From stdpp Require Import pretty.
From S2P Require Import Prelude PyStr Uuid Store Outbox Users Auth Gdpr Files.
Open Scope string_scope.
Open Scope Z_scope.

(** ** [application/registry.py] *)

Section registry.
(** Handlers run on a state [S]. *)
Context {S : Type}.

Definition JobHandler : Type := payload → M S unit.

Record JobHandlerEntry := mkEntry {
  handler : JobHandler;
  keep_result_seconds : option Z;
}.

Record JobHandlerRegistry := mkRegistry {
  handlers_ : gmap string JobHandlerEntry;
  sealed_ : bool;
}.

Definition new_registry : JobHandlerRegistry := mkRegistry ∅ false.

Definition guard_unsealed : M JobHandlerRegistry unit := λ r,
  if sealed_ r then (Raise (RuntimeError "JobHandlerRegistry is sealed"), r) else (Ret tt, r).

Definition register_handler (name : string) (h : JobHandler) (keep : option Z) : M JobHandlerRegistry unit :=
  guard_unsealed ;;
  r ← gets id;
  if bool_decide (is_Some (handlers_ r !! name)) then raise (HandlerAlreadyRegisteredError name) else
  modify (λ r, mkRegistry (<[name := mkEntry h keep]> (handlers_ r)) (sealed_ r)).

Definition seal : M JobHandlerRegistry unit := modify (λ r, mkRegistry (handlers_ r) true).

Definition sealed (r : JobHandlerRegistry) : bool := sealed_ r.
Definition registered_jobs (r : JobHandlerRegistry) : gset string := dom (handlers_ r).
Definition has (r : JobHandlerRegistry) (name : string) : bool := bool_decide (is_Some (handlers_ r !! name)).
Definition entries (r : JobHandlerRegistry) : gmap string JobHandlerEntry := handlers_ r.

Definition get_entry (r : JobHandlerRegistry) (name : string) : outcome JobHandlerEntry :=
  match handlers_ r !! name with
  | None => Raise (UnknownJobError name)
  | Some entry => Ret entry
  end.
Definition get (r : JobHandlerRegistry) (name : string) : outcome JobHandler :=
  match handlers_ r !! name with
  | None => Raise (UnknownJobError name)
  | Some entry => Ret (handler entry)
  end.
End registry.
Arguments JobHandler : clear implicits.
Arguments JobHandlerEntry : clear implicits.
Arguments JobHandlerRegistry : clear implicits.

Definition JOBS_ENQUEUED_TOTAL : string := "app_jobs_enqueued_total".

(** ** [adapters/outbound/in_process/adapter.py] *)

(** A process with the database world and a further state [P] (blobs, mails). *)
Module InProcessJobQueueAdapter.
Section queue.
Context {P : Type} (registry : JobHandlerRegistry (World * P)).

Definition resolve (job_name : string) : outcome (JobHandler (World * P)) :=
  if negb (has registry job_name) then Raise (UnknownJobError job_name) else get registry job_name.

(** The handler runs inline; the trace context around it is not observable. *)
Definition enqueue (job_name : string) (p : payload) : M (World * P) unit := λ s,
  match resolve job_name with
  | Raise e => (Raise e, s)
  | Ret h => (on_fst (metric JOBS_ENQUEUED_TOTAL job_name) ;; h p) s
  end.

Definition enqueue_at (job_name : string) (p : payload) (run_at : time) : M (World * P) unit :=
  raise NotImplementedError.
End queue.
End InProcessJobQueueAdapter.

(** ** Handlers *)

Definition ERASE_USER_JOB : string := "erase_user".

(** [dedupe is not None and isinstance(message_id, str) and not dedupe(message_id)],
    negated: whether the handler goes on. *)
Definition goes_on (dedupe : option (string → IO bool)) (p : payload) : IO bool :=
  match dedupe, p !! OUTBOX_MESSAGE_ID_KEY with
  | Some dedupe, Some (JStr message_id) => dedupe message_id
  | _, _ => mret true
  end.

(** [payload[key]]. *)
Definition item {S} (p : payload) (key : string) : M S json :=
  match p !! key with
  | None => raise (KeyError key)
  | Some v => mret v
  end.

(** [UUID(str(value))]: the text of a list, an object, a boolean or [None] has
    characters no UUID has. *)
Definition uuid_of_json (v : json) : option uuid :=
  match v with
  | JStr s => uuid_parse s
  | JInt z => uuid_parse (pretty z)
  | _ => None
  end.

Section handlers.
Context `{Env} {P : Type} (dedupe : option (string → IO bool)).

(** [email/composition/jobs.py]; [send] is the [EmailPort], its errors as text. *)
Definition send_email_handler (send : json → json → json → M P (Result unit string)) : JobHandler (World * P) := λ p,
  go ← on_fst (goes_on dedupe p);
  if negb go then mret tt else
  to ← item p "to";
  template_name ← item p "template_name";
  let context := default (JObj []) (p !! "context") in
  result ← on_snd (send to template_name context);
  match result with
  | Err e => raise (RuntimeError ("send_email failed: " +:+ e))
  | Ok _ => mret tt
  end.

(** [users/composition/jobs.py]: the [delete_user_assets] handler. *)
Definition delete_user_assets_handler (delete_user_assets : uuid → M P (Result unit AssetsCleanupError))
    : JobHandler (World * P) := λ p,
  go ← on_fst (goes_on dedupe p);
  if negb go then mret tt else
  raw_user_id ← item p "user_id";
  match uuid_of_json raw_user_id with
  | None => raise (RuntimeError "delete_user_assets received invalid user_id")
  | Some user_id =>
      result ← on_snd (delete_user_assets user_id);
      match result with
      | Err e => raise (RuntimeError ("delete_user_assets failed: " +:+ assets_error_str e))
      | Ok _ => mret tt
      end
  end.

(** [payload.get("reason", "self_request")] and its check. *)
Definition erase_reason (p : payload) : option string :=
  match default (JStr "self_request") (p !! "reason") with
  | JStr s => if String.eqb s "self_request" || String.eqb s "admin_request" then Some s else None
  | _ => None
  end.

(** The [erase_user] handler; [str(UserNotFoundError())] is empty. *)
Definition erase_user_handler (erase_user : uuid → string → IO (Result unit UserError)) : JobHandler (World * P) := λ p,
  go ← on_fst (goes_on dedupe p);
  if negb go then mret tt else
  raw_user_id ← item p "user_id";
  match uuid_of_json raw_user_id with
  | None => raise (RuntimeError "erase_user received invalid user_id")
  | Some user_id =>
      match erase_reason p with
      | None => raise (RuntimeError "erase_user received unknown reason")
      | Some reason =>
          result ← on_fst (erase_user user_id reason);
          match result with
          | Err _ => raise (RuntimeError "erase_user failed: ")
          | Ok _ => mret tt
          end
      end
  end.
End handlers.

(** ** [worker.py:build_worker_scaffold]: the registrations of the process *)

Definition register_worker_handlers `{Env} {P} (send : json → json → json → M P (Result unit string))
    (delete_user_assets : uuid → M P (Result unit AssetsCleanupError)) : M (JobHandlerRegistry (World * P)) unit :=
  register_handler SEND_EMAIL_JOB (send_email_handler (Some dedupe) send) None ;;
  register_handler DELETE_USER_ASSETS_JOB (delete_user_assets_handler (Some dedupe) delete_user_assets) None ;;
  register_handler ERASE_USER_JOB (erase_user_handler (Some dedupe) EraseUser.execute) None ;;
  seal.
