(* ===== verification/JobsFacts.v ===== *)
(** What the job queue guarantees: the registry freezes what the features
    registered, the handlers run once per message, and the worker's queue keeps
    the promises the relay relies on. *)

From S2P Require Import Prelude PyStr Uuid Store StoreFacts Demo Outbox OutboxFacts OutboxRetention Users UsersFacts Auth Gdpr Files FilesFacts Jobs.
Open Scope string_scope.
Open Scope list_scope.
Open Scope Z_scope.

(** ** Runs *)

Section runs.
Context {P : Type}.
Lemma run_on_fst {A} (m : IO A) (w : World) (f : P) :
  on_fst m (w, f) = match m w with (r, w') => (r, (w', f)) end.
Proof. unfold on_fst. cbn. by destruct (m w). Qed.
Lemma run_on_snd {A} (m : M P A) (w : World) (f : P) :
  on_snd m (w, f) = match m f with (r, f') => (r, (w, f')) end.
Proof. unfold on_snd. cbn. by destruct (m f). Qed.
End runs.

(** ** Handlers and dedup *)

Section handlers.
Context `{Env} {P : Type}.
Implicit Types (w : World) (f : P).

(** The world after the mark of message [i] is committed. *)
Definition marked (i : uuid) w : World :=
  tick (set_db (set_processed (<[i := now_at (w_clock w)]>) (w_db w)) w).

Lemma run_goes_on i p w :
  p !! OUTBOX_MESSAGE_ID_KEY = Some (JStr (uuid_str i)) → uuid_ok i → db_ok (w_db w) →
  goes_on (Some dedupe) p w =
    match processed_messages (w_db w) !! i with
    | Some _ => (Ret false, tick w)
    | None => (Ret true, marked i w)
    end.
Proof. intros Hp Hi Hok. unfold goes_on. rewrite Hp. by apply run_dedupe. Qed.

(** A handler that runs its effect under the guard: with the mark of the message
    stored it is a successful no-op, without it it commits the mark and then
    behaves as if no dedup were wired. *)
Definition deduplicates (h : option (string → IO bool) → JobHandler (World * P)) : Prop := ∀ i p w f,
  p !! OUTBOX_MESSAGE_ID_KEY = Some (JStr (uuid_str i)) → uuid_ok i → db_ok (w_db w) →
  h (Some dedupe) p (w, f) =
    match processed_messages (w_db w) !! i with
    | Some _ => (Ret tt, (tick w, f))
    | None => h None p (marked i w, f)
    end.

Lemma deduplicates_send send : deduplicates (λ d, send_email_handler d send).
Proof.
  intros i p w f Hp Hi Hok. unfold send_email_handler. rewrite !run_bind !run_on_fst (run_goes_on i) //.
  by destruct (processed_messages (w_db w) !! i).
Qed.
Lemma deduplicates_assets del : deduplicates (λ d, delete_user_assets_handler d del).
Proof.
  intros i p w f Hp Hi Hok. unfold delete_user_assets_handler. rewrite !run_bind !run_on_fst (run_goes_on i) //.
  by destruct (processed_messages (w_db w) !! i).
Qed.
Lemma deduplicates_erase er : deduplicates (λ d, erase_user_handler d er).
Proof.
  intros i p w f Hp Hi Hok. unfold erase_user_handler. rewrite !run_bind !run_on_fst (run_goes_on i) //.
  by destruct (processed_messages (w_db w) !! i).
Qed.

(** The mark outlives a run that keeps the committed marks. *)
Lemma redelivery h i p w f :
  deduplicates h → p !! OUTBOX_MESSAGE_ID_KEY = Some (JStr (uuid_str i)) → uuid_ok i → db_ok (w_db w) →
  is_Some (processed_messages (w_db w) !! i) → h (Some dedupe) p (w, f) = (Ret tt, (tick w, f)).
Proof. intros Hd Hp Hi Hok [t Ht]. by rewrite (Hd i) // Ht. Qed.

(** The effect of [delete_user_assets] does not write to the database. *)
Lemma assets_effect_world del p w f :
  (delete_user_assets_handler None del p (w, f)).2.1 = w.
Proof.
  unfold delete_user_assets_handler. rewrite run_bind. cbn [goes_on on_fst]. unfold on_fst. cbn.
  unfold item. rewrite run_bind. destruct (p !! "user_id") as [v|]; [|done]. rewrite run_ret.
  destruct (uuid_of_json v) as [u|]; [|done]. rewrite run_bind run_on_snd. destruct (del u f) as [[[|e]|e] f']; done.
Qed.
Lemma send_effect_world send p w f : (send_email_handler None send p (w, f)).2.1 = w.
Proof.
  unfold send_email_handler. rewrite run_bind. unfold on_fst. cbn. unfold item.
  rewrite run_bind. destruct (p !! "to") as [t|]; [|done]. rewrite run_ret run_bind.
  destruct (p !! "template_name") as [n|]; [|done]. rewrite run_ret run_bind run_on_snd.
  destruct (send _ _ _ _) as [[[|e]|e] f']; done.
Qed.

(** A message whose effect fails is lost: the dedup mark is committed before
    the effect runs, so however the first delivery of a [send_email] or
    [delete_user_assets] message ends -- with an error the relay retries, too --
    every redelivery returns success at once and leaves the mail transport and
    the blob storage exactly as the failure left them. *)
Theorem failed_effect_is_lost send del i p w f :
  p !! OUTBOX_MESSAGE_ID_KEY = Some (JStr (uuid_str i)) → uuid_ok i → db_ok (w_db w) →
  processed_messages (w_db w) !! i = None →
  (let '(o, (w1, f1)) := send_email_handler (Some dedupe) send p (w, f) in
   o = (send_email_handler None send p (marked i w, f)).1 ∧
   send_email_handler (Some dedupe) send p (w1, f1) = (Ret tt, (tick w1, f1))) ∧
  (let '(o, (w1, f1)) := delete_user_assets_handler (Some dedupe) del p (w, f) in
   o = (delete_user_assets_handler None del p (marked i w, f)).1 ∧
   delete_user_assets_handler (Some dedupe) del p (w1, f1) = (Ret tt, (tick w1, f1))).
Proof.
  intros Hp Hi Hok Hm. split.
  - rewrite (deduplicates_send send i) // Hm. pose proof (send_effect_world send p (marked i w) f) as Hw.
    destruct (send_email_handler None send p (marked i w, f)) as [o [w1 f1]]. cbn in Hw. subst w1. split; [done|].
    apply (redelivery (λ d, send_email_handler d send) i); [apply deduplicates_send|done..|].
    cbn. by rewrite lookup_insert_eq.
  - rewrite (deduplicates_assets del i) // Hm. pose proof (assets_effect_world del p (marked i w) f) as Hw.
    destruct (delete_user_assets_handler None del p (marked i w, f)) as [o [w1 f1]]. cbn in Hw. subst w1. split; [done|].
    apply (redelivery (λ d, delete_user_assets_handler d del) i); [apply deduplicates_assets|done..|].
    cbn. by rewrite lookup_insert_eq.
Qed.
End handlers.

Definition demo_message : payload :=
  {[ OUTBOX_MESSAGE_ID_KEY := JStr (uuid_str 7); "user_id" := JStr (uuid_str 1) ]}.

(** The tenth call on the disk is the failing unlink: the first delivery raises,
    the redelivery reports success, and the blob is still there. *)
Lemma failed_effect_is_lost_witness :
  let key := user_prefix 1 +:+ "a.png" in
  let p := demo_message in
  let h := delete_user_assets_handler (Some dedupe) FileStorageUserAssetsAdapter.delete_user_assets in
  let '(o, (w1, f1)) := h p (init_world, demo_disk_at 0) in
  o = Raise (RuntimeError "delete_user_assets failed: User-asset cleanup backend failure: Storage backend failure: EIO") ∧
  h p (w1, f1) = (Ret tt, (tick w1, f1)) ∧ local_at f1 key = Some "AAA".
Proof.
  cbv zeta.
  destruct (failed_effect_is_lost (λ _ _ _, mret (Ok tt)) FileStorageUserAssetsAdapter.delete_user_assets 7%N demo_message
    init_world (demo_disk_at 0)) as [_ H]; [reflexivity|reflexivity|by_eval|reflexivity|].
  destruct (delete_user_assets_handler (Some dedupe) _ demo_message (init_world, demo_disk_at 0)) as [o [w1 f1]] eqn:E.
  destruct H as [_ H2]. split; [|split; [exact H2|]].
  - apply (f_equal fst) in E. etransitivity; [symmetry; exact E|]. vm_compute. reflexivity.
  - apply (f_equal (λ x, local_at x.2.2 (user_prefix 1 +:+ "a.png"))) in E. etransitivity; [symmetry; exact E|].
    vm_compute. reflexivity.
Defined.

(** ** The worker's registry *)

Section worker.
Context `{Env} {P : Type}.
Context (send : json → json → json → M P (Result unit string)) (del : uuid → M P (Result unit AssetsCleanupError)).

Definition worker_registry : JobHandlerRegistry (World * P) := state_of (register_worker_handlers send del) new_registry.

(** The handler of each job name. *)
Definition worker_handler (job : string) : option (JobHandler (World * P)) :=
  if String.eqb job SEND_EMAIL_JOB then Some (send_email_handler (Some dedupe) send) else
  if String.eqb job DELETE_USER_ASSETS_JOB then Some (delete_user_assets_handler (Some dedupe) del) else
  if String.eqb job ERASE_USER_JOB then Some (erase_user_handler (Some dedupe) EraseUser.execute) else None.

Lemma worker_lookup job : handler <$> handlers_ worker_registry !! job = worker_handler job.
Proof.
  unfold worker_registry, worker_handler. cbn.
  destruct (String.eqb_spec job ERASE_USER_JOB) as [->|H3]; [by rewrite lookup_insert_eq|].
  rewrite lookup_insert_ne //.
  destruct (String.eqb_spec job DELETE_USER_ASSETS_JOB) as [->|H2]; [by rewrite lookup_insert_eq|].
  rewrite lookup_insert_ne //.
  destruct (String.eqb_spec job SEND_EMAIL_JOB) as [->|H1]; [by rewrite lookup_insert_eq|].
  by rewrite lookup_insert_ne // lookup_empty.
Qed.

Lemma run_enqueue job p s :
  InProcessJobQueueAdapter.enqueue worker_registry job p s =
    match worker_handler job with
    | Some h => (on_fst (metric JOBS_ENQUEUED_TOTAL job) ;; h p) s
    | None => (Raise (UnknownJobError job), s)
    end.
Proof.
  rewrite -worker_lookup. unfold InProcessJobQueueAdapter.enqueue, InProcessJobQueueAdapter.resolve, has, get.
  by destruct (handlers_ worker_registry !! job).
Qed.

(** ** What the relay relies on *)

(** A statement that stages no deletion or change of an outbox row. *)
Definition grows {A} (m : IO A) : Prop := ∀ w,
  w_db (m w).2 = w_db w ∧ outbox_messages (w_session w) ⊆ outbox_messages (w_session (m w).2).

Lemma grows_bind {A B} (m : IO A) (k : A → IO B) : grows m → (∀ a, grows (k a)) → grows (m ≫= k).
Proof.
  intros Hm Hk w. rewrite run_bind. destruct (Hm w) as [Ed Hs]. destruct (m w) as [[a|e] w1]; [|done]. cbn in *.
  destruct (Hk a w1) as [Ed1 Hs1]. split; [congruence|by transitivity (outbox_messages (w_session w1))].
Qed.
Lemma grows_stage g : (∀ d, outbox_messages (g d) = outbox_messages d) → grows (stage g).
Proof. intros Hg w. cbn. by rewrite Hg. Qed.
Lemma grows_pure {A} (m : IO A) :
  (∀ w, w_db (m w).2 = w_db w ∧ w_session (m w).2 = w_session w) → grows m.
Proof. intros Hm w. destruct (Hm w) as [-> ->]. done. Qed.
Lemma grows_add_row {R} (get : Db → gmap uuid R) set i r :
  (∀ d, get d !! i = None → outbox_messages d ⊆ outbox_messages (set (<[i := r]>) d)) → grows (add_row get set i r).
Proof. intros Hg w. unfold add_row. destruct (get (w_session w) !! i) eqn:E; [done|]. cbn. split; [done|by apply Hg]. Qed.

(** A transaction of such statements keeps every row of the outbox. *)
Definition keeps_messages w w' : Prop :=
  (db_ok (w_db w) → db_ok (w_db w')) ∧ outbox_messages (w_db w) ⊆ outbox_messages (w_db w').

Lemma grows_commit {A} (m : IO A) w : grows m → keeps_messages w (write_scope m w).2.
Proof.
  intros Hm. destruct (Hm (set_session (w_db w) w)) as [Ed Hs].
  destruct (write_scope_cases m w) as [(a & w1 & E & Hok1 & ->)|(o & w1 & e & E & ->)]; rewrite E in Ed, Hs; cbn in *.
  - by split.
  - unfold keeps_messages. cbn. by rewrite Ed.
Qed.

Lemma erase_keeps_messages i reason w : keeps_messages w (EraseUser.execute i reason w).2.
Proof.
  unfold EraseUser.execute. rewrite run_bind. unfold EngineUsers.get_raw_by_id.
  rewrite (run_with_session_read _ (λ d, (λ r, to_domain (i, r)) <$> users d !! i)) //.
  destruct (users (w_db w) !! i) as [r|]; [|done]. cbn [fmap option_fmap option_map]. destruct (u_is_erased _); [done|].
  rewrite run_bind. set (body := mbind _ _).
  enough (grows body) as Hb.
  { pose proof (grows_commit body w Hb) as Hk. unfold SQLModelOutboxUnitOfWork.transaction.
    by destruct (write_scope body w) as [[[]|e] w1]. }
  unfold body, SQLModelAuthArtifactsCleanupAdapter.scrub_audit_events,
    SQLModelAuthArtifactsCleanupAdapter.delete_credentials_and_tokens.
  apply grows_bind; [by apply grows_stage|intros _].
  apply grows_bind; [apply grows_bind; [by apply grows_stage|intros _; apply grows_bind; [by apply grows_stage|intros _; by apply grows_stage]]|intros _].
  apply grows_bind; [|intros _; apply grows_bind; [|intros _]].
  - unfold EngineUsers.scrub_for_erasure_atomically_with, SessionUsers.scrub_for_erasure_atomically_with.
    apply grows_bind; [by apply grows_pure|]. intros [x|]; [|by apply grows_pure].
    destruct (user_is_erased x); [by apply grows_pure|]. apply grows_bind; [by apply grows_pure|intros now].
    apply grows_bind; [by apply grows_stage|intros _; by apply grows_pure].
  - unfold SQLModelAuthArtifactsCleanupAdapter.record_user_erased_event.
    apply grows_bind; [by apply grows_pure|intros id]. apply grows_bind; [by apply grows_pure|intros now].
    by apply grows_add_row.
  - unfold SessionSQLModelOutboxAdapter.enqueue.
    repeat (apply grows_bind; [by apply grows_pure|intros ?]).
    apply grows_add_row. intros d Hd. cbn. by apply insert_subseteq.
Qed.

Lemma dedupe_keeps_messages m w : keeps_messages w (dedupe m w).2.
Proof.
  unfold dedupe. destruct (uuid_parse m) as [i|]; [|done]. unfold with_session.
  rewrite run_bind run_utc_now. unfold try_except. rewrite run_bind. unfold add_row. cbn.
  destruct (processed_messages (w_db w) !! i); [done|]. rewrite run_bind.
  set (w1 := set_session _ _). destruct (decide (db_ok (w_session w1))).
  - rewrite run_commit //.
  - rewrite run_commit_fail //.
Qed.

Lemma keeps_messages_refl w : keeps_messages w w.
Proof. by split. Qed.
Lemma keeps_messages_trans w1 w2 w3 : keeps_messages w1 w2 → keeps_messages w2 w3 → keeps_messages w1 w3.
Proof. intros [Hok1 H1] [Hok2 H2]. split; [tauto|by transitivity (outbox_messages (w_db w2))]. Qed.

(** The guard, then any effect that keeps the messages. *)
Lemma guarded_keeps_messages p (k : bool → M (World * P) unit) w f :
  (∀ b w1, keeps_messages w1 (k b (w1, f)).2.1) →
  keeps_messages w ((on_fst (goes_on (Some dedupe) p) ≫= k) (w, f)).2.1.
Proof.
  intros Hk. rewrite run_bind run_on_fst.
  assert (Hg : keeps_messages w (goes_on (Some dedupe) p w).2).
  { unfold goes_on. destruct (p !! OUTBOX_MESSAGE_ID_KEY) as [[]|]; try by apply keeps_messages_refl.
    by apply dedupe_keeps_messages. }
  destruct (goes_on _ _ _) as [[b|e] w1]; [|done]. eapply keeps_messages_trans; [exact Hg|]. by apply Hk.
Qed.

Lemma handler_keeps_messages job h p w f :
  worker_handler job = Some h → keeps_messages w (h p (w, f)).2.1.
Proof.
  unfold worker_handler. intros Hh. repeat case_match; simplify_eq; apply guarded_keeps_messages;
    intros [] w1; cbn [negb]; try (by apply keeps_messages_refl).
  - pose proof (send_effect_world send p w1 f) as Hw. unfold send_email_handler in Hw. rewrite run_bind in Hw.
    cbn [goes_on] in Hw. unfold on_fst at 1 in Hw. cbn in Hw. rewrite Hw. by apply keeps_messages_refl.
  - pose proof (assets_effect_world del p w1 f) as Hw. unfold delete_user_assets_handler in Hw. rewrite run_bind in Hw.
    cbn [goes_on] in Hw. unfold on_fst at 1 in Hw. cbn in Hw. rewrite Hw. by apply keeps_messages_refl.
  - rewrite run_bind. unfold item. destruct (p !! "user_id") as [v|]; [|by apply keeps_messages_refl]. rewrite run_ret.
    destruct (uuid_of_json v) as [u|]; [|by apply keeps_messages_refl].
    destruct (erase_reason p) as [reason|]; [|by apply keeps_messages_refl].
    rewrite run_bind run_on_fst. pose proof (erase_keeps_messages u reason w1) as Hk.
    by destruct (EraseUser.execute u reason w1) as [[[|]|] w2].
Qed.

(** The worker's queue: the three features' registrations succeed and seal the
    registry with exactly their three job names; no handler can be added or
    replaced afterwards; an unknown job is refused without an effect; and running
    a job, whatever its payload and however it ends, never violates a constraint
    and keeps every message of the outbox as it is, which is what the relay tick
    relies on. *)
Theorem worker_queue_spec :
  let r := worker_registry in
  register_worker_handlers send del new_registry = (Ret tt, r) ∧ sealed r = true ∧
  registered_jobs r = {[ SEND_EMAIL_JOB; DELETE_USER_ASSETS_JOB; ERASE_USER_JOB ]} ∧
  (∀ name h keep, register_handler name h keep r = (Raise (RuntimeError "JobHandlerRegistry is sealed"), r)) ∧
  ∀ job p w f,
    let '(o, (w', f')) := InProcessJobQueueAdapter.enqueue r job p (w, f) in
    keeps_messages w w' ∧ (job ∉ registered_jobs r → o = Raise (UnknownJobError job) ∧ w' = w ∧ f' = f).
Proof.
  cbv zeta.
  assert (Hr : register_worker_handlers send del new_registry = (Ret tt, worker_registry)) by done.
  split_and!; [done|done| |done|].
  - apply set_eq. intros job. unfold registered_jobs. rewrite elem_of_dom -(fmap_is_Some handler) worker_lookup.
    unfold worker_handler.
    destruct (String.eqb_spec job SEND_EMAIL_JOB); [set_solver|].
    destruct (String.eqb_spec job DELETE_USER_ASSETS_JOB); [set_solver|].
    destruct (String.eqb_spec job ERASE_USER_JOB); [set_solver|]. split; [by intros []|set_solver].
  - intros job p w f. rewrite run_enqueue.
    assert (Hdom : job ∉ registered_jobs worker_registry ↔ worker_handler job = None).
    { unfold registered_jobs. by rewrite not_elem_of_dom -worker_lookup fmap_None. }
    destruct (worker_handler job) as [h|] eqn:Eh.
    + rewrite run_bind run_on_fst run_metric.
      pose proof (handler_keeps_messages job h p (log_event (EvMetric JOBS_ENQUEUED_TOTAL job) w) f Eh) as Hk.
      destruct (h p _) as [o [w' f']]. split; [exact Hk|]. by intros Hn%Hdom.
    + split; [by apply keeps_messages_refl|done].
Qed.
End worker.

(** The worker's queue is one a relay can use, when its transports keep no state
    of their own. *)
Definition worker_enqueue `{Env} (send : json → json → json → M unit (Result unit string))
    (del : uuid → M unit (Result unit AssetsCleanupError)) (job : string) (p : payload) : IO unit := λ w,
  let '(o, (w', _)) := InProcessJobQueueAdapter.enqueue (worker_registry send del) job p (w, tt) in (o, w').

#[global] Instance worker_queue_port `{Env} send del : JobQueuePort (worker_enqueue send del).
Proof.
  assert (Hk : ∀ job p w, keeps_messages w (worker_enqueue send del job p w).2).
  { intros job p w. unfold worker_enqueue. rewrite run_enqueue.
    destruct (worker_handler send del job) as [h|] eqn:Eh; [|by apply keeps_messages_refl].
    rewrite run_bind run_on_fst run_metric.
    pose proof (handler_keeps_messages send del job h p (log_event (EvMetric JOBS_ENQUEUED_TOTAL job) w) tt Eh) as Hk.
    by destruct (h p _) as [o [w' f']]. }
  split; intros job p w; destruct (Hk job p w) as [Hok Hsub]; [done|]. intros i r Hi. by eapply lookup_weaken.
Qed.
