(* ===== verification/RateLimit.v ===== *)
(** The rate limiters of the auth endpoints
    ([features/authentication/application/rate_limit.py]): the in-process limiter
    on cachetools' [TTLCache] and the distributed one, whose Lua script runs on a
    Redis server.  The cache and the server are parameters with their documented
    behaviour as laws. *)

From S2P Require Import Prelude PyStr Uuid Store Principals.
Open Scope string_scope.
Open Scope Z_scope.

(** ** Parameters *)

(** cachetools' [TTLCache]: every access reads the cache's own timer.  An item is
    kept with the instant it was inserted at. *)
Class AttemptCache (T : Type) := {
  ac_items : T → gmap string (time * list time);
  ac_empty : T;
  ac_get : time → string → T → option (list time) * T;
  ac_set : time → string → list time → T → T;
  ac_clear : T → T;
}.

(** An item of age [ttl] has expired. *)
Definition unexpired (ttl now : time) (item : time * list time) : Prop := now < item.1 + ttl.
Global Instance unexpired_dec ttl now item : Decision (unexpired ttl now item).
Proof. unfold unexpired. apply _. Defined.

Class AttemptCacheLaws (T : Type) `{AttemptCache T} (maxsize : nat) (ttl : time) : Prop := {
  ac_items_empty : ac_items ac_empty = ∅;
  ac_get_law now k t : (ac_get now k t).1 =
    match ac_items t !! k with
    | Some item => if decide (unexpired ttl now item) then Some item.2 else None
    | None => None
    end;
  ac_get_items now k t : ac_items (ac_get now k t).2 = ac_items t;
  ac_set_self now k v t : ac_items (ac_set now k v t) !! k = Some (now, v);
  (* an item that has not expired stays while there is room for the new key *)
  ac_set_other now k v t k' item : k' ≠ k → ac_items t !! k' = Some item → unexpired ttl now item →
    (is_Some (ac_items t !! k) ∨ (size (ac_items t) < maxsize)%nat) →
    ac_items (ac_set now k v t) !! k' = Some item;
  (* nothing else appears *)
  ac_set_only now k v t k' item : k' ≠ k → ac_items (ac_set now k v t) !! k' = Some item → ac_items t !! k' = Some item;
  ac_items_clear t : ac_items (ac_clear t) = ∅;
}.

(** A Redis server: sorted sets of members with scores.  A command runs at the
    server's time, here in milliseconds; [rs_zset now r key] is what a client
    sees of [key] at [now], an expired key being empty. *)
Class RedisServer (R : Type) := {
  rs_zset : Z → R → string → gmap string Z;
  zremrangebyscore : Z → string → Z → Z → R → R;
  zcard : Z → string → R → Z;
  zadd : Z → string → Z → string → R → R;
  expire : Z → string → Z → R → R;
  delete_key : string → R → R;
  scan_iter : string → R → list string;
}.

Class RedisServerLaws (R : Type) `{RedisServer R} : Prop := {
  zrem_law now key lo hi r now' k : now <= now' →
    rs_zset now' (zremrangebyscore now key lo hi r) k =
      if decide (k = key) then filter (λ ms, ¬ (lo <= ms.2 <= hi)) (rs_zset now' r k) else rs_zset now' r k;
  zcard_law now key r : zcard now key r = Z.of_nat (size (rs_zset now r key));
  zadd_law now key s m r k : rs_zset now (zadd now key s m r) k =
    if decide (k = key) then <[m := s]> (rs_zset now r k) else rs_zset now r k;
  zadd_other now key s m r now' k : now <= now' → k ≠ key → rs_zset now' (zadd now key s m r) k = rs_zset now' r k;
  expire_law now key secs r now' k : now <= now' →
    rs_zset now' (expire now key secs r) k =
      if decide (k = key) then (if now' <? now + 1000 * secs then rs_zset now r k else ∅) else rs_zset now' r k;
}.

(** ** [FixedWindowRateLimiter] *)

Definition FIXED_WINDOW_MAX_KEYS : nat := 10000.
Definition FIXED_WINDOW_TTL_SLACK_SECONDS : Z := 60.

Module FixedWindowRateLimiter.
Record Config := mkConfig {
  max_attempts : Z;
  window_seconds : Z;
  maxsize : nat;
}.
Definition default_config : Config := mkConfig 5 60 FIXED_WINDOW_MAX_KEYS.

(** The [ttl] of the cache [__post_init__] builds. *)
Definition cache_ttl (cfg : Config) : time := (window_seconds cfg + FIXED_WINDOW_TTL_SLACK_SECONDS) * second.

Section limiter.
Context {T : Type} `{AttemptCache T} (cfg : Config).

(** The three readings of the monotonic clock one call makes: its own, and the
    cache's on [get] and on the assignment. *)
Record readings := mkReadings { at_now : time; at_get : time; at_set : time }.

Definition check (clock : readings) (key : string) : M T (Result unit AuthError) := λ t,
  let now := at_now clock in
  let window_start := now - window_seconds cfg * second in
  let '(got, t) := ac_get (at_get clock) key t in
  let attempts := filter (λ ts, window_start <= ts) (default [] got) in
  if max_attempts cfg <=? Z.of_nat (length attempts)
  then (Ret (Err (RateLimitExceededError (window_seconds cfg))), ac_set (at_set clock) key attempts t)
  else (Ret (Ok tt), ac_set (at_set clock) key (attempts ++ [now])%list t).

Definition reset : M T unit := modify ac_clear.
Definition close : M T unit := mret tt.
End limiter.
End FixedWindowRateLimiter.

(** ** [RedisRateLimiter] *)

Module RedisRateLimiter.
Section limiter.
Context {R : Type} `{RedisServer R} (max_attempts window_seconds : Z).

Definition window_ms : Z := window_seconds * 1000.

(** [math.ceil(window_ms / 1000)]. *)
Definition window_ttl : Z := - ((- window_ms) / 1000).

(** [_SLIDING_WINDOW_SCRIPT]; the server runs it atomically at [server_ms]. *)
Definition sliding_window_script (server_ms : Z) (key : string) (now_ms : Z) (member : string) (r : R) : Z * R :=
  let r := zremrangebyscore server_ms key 0 (now_ms - window_ms) r in
  let count := zcard server_ms key r in
  if max_attempts <=? count then (1, r) else
  let r := zadd server_ms key now_ms member r in
  let r := expire server_ms key window_ttl r in
  (0, r).

Definition redis_key (key : string) : string := "rate:" +:+ key.

(** [member] is [f"{now_ms}:{uuid4()}"]. *)
Definition check (server_ms now_ms : Z) (member key : string) : M R (Result unit AuthError) := λ r,
  let '(result, r) := sliding_window_script server_ms (redis_key key) now_ms member r in
  if result =? 1 then (Ret (Err (RateLimitExceededError (1 `max` (window_ms / 1000)))), r) else (Ret (Ok tt), r).

Definition reset : M R unit := modify (λ r, foldl (λ r k, delete_key k r) r (scan_iter "rate:*" r)).
End limiter.
End RedisRateLimiter.
