(* ===== verification/RateLimitFacts.v ===== *)
(** Both rate limiters decide like a reference limiter that never forgets an
    accepted attempt (the in-process one as long as its cache has room for every key),
    and the reference never accepts more than the budget in any window. *)

From S2P Require Import Prelude PyStr Uuid Store Demo Principals RateLimit.
Open Scope string_scope.
Open Scope list_scope.
Open Scope Z_scope.

(** ** The reference limiter *)

Section reference.
(** The window includes its left end ([closed]) or not. *)
Context (closed : bool) (window : time) (max : Z).

Definition after (a ts : time) : bool := if closed then a <=? ts else a <? ts.
Definition recent (a : time) (l : list time) : list time := filter (λ ts, after a ts = true) l.

Definition accepted (log : gmap string (list time)) (key : string) : list time := default [] (log !! key).

Definition ref_check (now : time) (key : string) (log : gmap string (list time)) : bool * gmap string (list time) :=
  let l := accepted log key in
  if max <=? Z.of_nat (length (recent (now - window) l)) then (false, log)
  else (true, <[key := l ++ [now]]> log).

Fixpoint ref_run (probes : list (time * string)) (log : gmap string (list time))
    : list bool * gmap string (list time) :=
  match probes with
  | [] => ([], log)
  | (now, key) :: probes =>
      let '(b, log) := ref_check now key log in
      let '(bs, log) := ref_run probes log in
      (b :: bs, log)
  end.

(** No window of the given length holds more attempts than the budget. *)
Definition in_span (a ts : time) : bool := after a ts && (ts <=? a + window).
Definition within_budget (l : list time) : Prop :=
  ∀ a, Z.of_nat (length (filter (λ ts, in_span a ts = true) l)) <= 0 `max` max.

Lemma length_filter_le {A} (P Q : A → Prop) `{!∀ x, Decision (P x), !∀ x, Decision (Q x)} l :
  (∀ x, x ∈ l → P x → Q x) → (length (filter P l) <= length (filter Q l))%nat.
Proof.
  induction l as [|x l IH]; intros HPQ; [done|]. rewrite !filter_cons.
  assert (length (filter P l) <= length (filter Q l))%nat by (apply IH; intros; apply HPQ; [by right|done]).
  destruct (decide (P x)) as [HP|HP], (decide (Q x)) as [HQ|HQ]; cbn; try lia.
  exfalso. apply HQ, HPQ; [left|done].
Qed.

Lemma within_budget_snoc now l :
  within_budget l → Z.of_nat (length (recent (now - window) l)) < max → within_budget (l ++ [now]).
Proof.
  intros Hl Hn a. rewrite filter_app length_app. cbn [filter list_filter]. case_decide as Hin; cbn; [|specialize (Hl a); lia].
  assert (length (filter (λ ts, in_span a ts = true) l) <= length (recent (now - window) l))%nat; [|lia].
  apply length_filter_le. intros ts _. unfold in_span, after in *. rewrite !andb_true_iff in Hin |- *.
  destruct closed; rewrite ?Z.leb_le ?Z.ltb_lt in Hin |- *; lia.
Qed.

Lemma ref_check_budget now key log :
  (∀ k, within_budget (accepted log k)) → ∀ k, within_budget (accepted (ref_check now key log).2 k).
Proof.
  intros Hlog k. unfold ref_check. destruct (Z.leb_spec max (Z.of_nat (length (recent (now - window) (accepted log key))))); [done|].
  cbn. unfold accepted at 1. destruct (decide (k = key)) as [->|Hne].
  - rewrite lookup_insert_eq. cbn. by apply within_budget_snoc.
  - rewrite lookup_insert_ne //. apply Hlog.
Qed.

Lemma ref_run_budget probes log :
  (∀ k, within_budget (accepted log k)) → ∀ k, within_budget (accepted (ref_run probes log).2 k).
Proof.
  revert log. induction probes as [|[now key] probes IH]; intros log Hlog k; [done|]. cbn.
  pose proof (ref_check_budget now key log Hlog) as H1. destruct (ref_check now key log) as [b log1]. cbn in H1.
  specialize (IH log1 H1 k). by destruct (ref_run probes log1).
Qed.

Lemma within_budget_nil : within_budget [].
Proof. intros a. cbn. lia. Qed.

(** Attempts that are too old do not count, and filtering twice is filtering with
    the later bound. *)
Lemma recent_none a l : (∀ ts, ts ∈ l → ts < a) → recent a l = [].
Proof.
  intros Hl. induction l as [|x l IH]; [done|]. unfold recent. rewrite filter_cons_False.
  - apply IH. intros ts Hts. apply Hl. by right.
  - assert (x < a) by (apply Hl; left). unfold after. destruct closed; rewrite ?Z.leb_le ?Z.ltb_lt; lia.
Qed.
Lemma recent_recent a b l : a <= b → recent b (recent a l) = recent b l.
Proof.
  intros Hab. induction l as [|x l IH]; [done|]. unfold recent in *. rewrite !filter_cons.
  unfold after in *. destruct closed.
  - destruct (decide ((a <=? x) = true)) as [Ha|Ha]; [rewrite filter_cons IH //|].
    rewrite IH. rewrite decide_False //. rewrite Z.leb_le in Ha. rewrite Z.leb_le. lia.
  - destruct (decide ((a <? x) = true)) as [Ha|Ha]; [rewrite filter_cons IH //|].
    rewrite IH. rewrite decide_False //. rewrite Z.ltb_lt in Ha. rewrite Z.ltb_lt. lia.
Qed.
Lemma recent_snoc a l ts : after a ts = true → recent a (l ++ [ts]) = recent a l ++ [ts].
Proof. intros H. unfold recent. rewrite filter_app. cbn. by rewrite decide_True. Qed.
End reference.

(** ** The in-process limiter *)

Section fixed.
Import FixedWindowRateLimiter.
Context {T : Type} `{AttemptCache T} (cfg : Config) `{!AttemptCacheLaws T (maxsize cfg) (cache_ttl cfg)}.

Abbreviation W := (window_seconds cfg * second).

(** A call and the clock readings it makes. *)
Definition probe : Type := readings * string.

(** The clock is monotonic, and the cache reads it within the slack. *)
Fixpoint ordered (b : time) (probes : list probe) : Prop :=
  match probes with
  | [] => True
  | (c, _) :: probes =>
      b <= at_now c ∧ at_now c <= at_get c ∧ at_get c <= at_set c ∧
      at_get c < at_now c + FIXED_WINDOW_TTL_SLACK_SECONDS * second ∧ ordered (at_set c) probes
  end.

Fixpoint run_checks (probes : list probe) (t : T) : list bool :=
  match probes with
  | [] => []
  | (c, key) :: probes =>
      match check cfg c key t with
      | (Ret r, t) => is_ok r :: run_checks probes t
      | (Raise _, _) => []
      end
  end.

(** What the cache knows of a key: its recent attempts; an item that is gone had
    only attempts that are too old. *)
Definition item_sim (b : time) (item : option (time * list time)) (l : list time) : Prop :=
  match item with
  | Some (s, v) => s <= b ∧ (∀ ts, ts ∈ l → ts <= s) ∧ ∃ now0, now0 <= s ∧ v = recent true (now0 - W) l
  | None => ∀ ts, ts ∈ l → ts < b - W
  end.
Definition sim (K : gset string) (b : time) (t : T) (log : gmap string (list time)) : Prop :=
  dom (ac_items t) ⊆ K ∧ ∀ k, item_sim b (ac_items t !! k) (accepted log k).

Lemma item_sim_mono b b' item l : b <= b' → item_sim b item l → item_sim b' item l.
Proof.
  intros Hb. destruct item as [[s v]|]; cbn.
  - intros (Hs & Hl & Hv). split_and!; [lia|done..].
  - intros Hl ts Hts. specialize (Hl ts Hts). lia.
Qed.

(** The list the check works on. *)
Lemma got_recent b t l c key :
  0 <= window_seconds cfg → item_sim b (ac_items t !! key) l → b <= at_now c → at_now c <= at_get c →
  at_get c < at_now c + FIXED_WINDOW_TTL_SLACK_SECONDS * second →
  filter (λ ts, at_now c - W <= ts) (default [] (ac_get (at_get c) key t).1) = recent true (at_now c - W) l.
Proof.
  intros HW Hsim Hb Hget Hslack.
  assert (Hf : ∀ l, filter (λ ts, at_now c - W <= ts) l = recent true (at_now c - W) l).
  { intros l'. unfold recent, after. apply list_filter_iff. intros x. by rewrite Z.leb_le. }
  rewrite Hf ac_get_law. destruct (ac_items t !! key) as [[s v]|]; cbn in Hsim.
  - destruct Hsim as (Hs & Hl & now0 & Hn0 & ->). case_decide as Hex.
    + refine (recent_recent true _ _ l _). lia.
    + symmetry. apply recent_none. intros ts Hts. specialize (Hl ts Hts).
      unfold unexpired, cache_ttl in Hex. cbn in Hex. unfold FIXED_WINDOW_TTL_SLACK_SECONDS, second in *. lia.
  - symmetry. apply recent_none. intros ts Hts. specialize (Hsim ts Hts). lia.
Qed.

Lemma room K t key : dom (ac_items t) ⊆ K → key ∈ K → (size K <= maxsize cfg)%nat →
  is_Some (ac_items t !! key) ∨ (size (ac_items t) < maxsize cfg)%nat.
Proof.
  intros Hdom Hkey HK. destruct (ac_items t !! key) as [x|] eqn:E; [left; by eexists|right].
  rewrite -(size_dom (D := gset string) (ac_items t)).
  assert (size (dom (ac_items t)) <= size (K ∖ {[key]}))%nat.
  { apply subseteq_size. intros k Hk. apply elem_of_difference. split; [by apply Hdom|].
    rewrite elem_of_singleton. intros ->. apply elem_of_dom in Hk as [y Hy]. congruence. }
  assert (Hs : size (K ∖ {[key]}) = (size K - 1)%nat).
  { rewrite size_difference; [by rewrite size_singleton|]. by apply singleton_subseteq_l. }
  assert (size K ≠ 0%nat). { intros E0. apply size_empty_inv in E0. set_solver. } lia.
Qed.

(** Storing the list keeps the other keys' knowledge. *)
Lemma sim_set K b t log c key v l :
  sim K b t log → key ∈ K → (size K <= maxsize cfg)%nat → b <= at_set c →
  item_sim (at_set c) (Some (at_set c, v)) l →
  sim K (at_set c) (ac_set (at_set c) key v t) (<[key := l]> log).
Proof.
  intros [Hdom Hsim] Hkey HK Hb Hnew. split.
  - intros k Hk. destruct (decide (k = key)) as [->|Hne]; [done|]. apply elem_of_dom in Hk as [item Hk].
    apply ac_set_only in Hk; [|done]. apply Hdom, elem_of_dom. by eexists.
  - intros k. unfold accepted. destruct (decide (k = key)) as [->|Hne].
    + rewrite ac_set_self lookup_insert_eq. exact Hnew.
    + rewrite lookup_insert_ne //. specialize (Hsim k). fold (accepted log k).
      destruct (ac_items t !! k) as [[s x]|] eqn:E.
      * destruct (decide (unexpired (cache_ttl cfg) (at_set c) (s, x))) as [Hex|Hex].
        -- erewrite ac_set_other; [by eapply item_sim_mono| done | done | done |]. by eapply room.
        -- destruct (ac_items (ac_set (at_set c) key v t) !! k) as [item|] eqn:E'.
           { apply ac_set_only in E'; [|done]. rewrite E in E'. injection E' as <-. by eapply item_sim_mono. }
           destruct Hsim as (Hs & Hl & _). intros ts Hts. specialize (Hl ts Hts).
           unfold unexpired, cache_ttl in Hex. cbn in Hex. unfold FIXED_WINDOW_TTL_SLACK_SECONDS, second in *. lia.
      * destruct (ac_items (ac_set (at_set c) key v t) !! k) as [item|] eqn:E'.
        { apply ac_set_only in E'; [|done]. congruence. }
        by eapply (item_sim_mono b).
Qed.

Lemma check_sim K b t log c key :
  0 <= window_seconds cfg → sim K b t log → key ∈ K → (size K <= maxsize cfg)%nat →
  b <= at_now c → at_now c <= at_get c → at_get c <= at_set c →
  at_get c < at_now c + FIXED_WINDOW_TTL_SLACK_SECONDS * second →
  ∃ r t', check cfg c key t = (Ret r, t') ∧
    is_ok r = (ref_check true W (max_attempts cfg) (at_now c) key log).1 ∧
    sim K (at_set c) t' (ref_check true W (max_attempts cfg) (at_now c) key log).2.
Proof.
  intros HW Hsim Hkey HK H1 H2 H3 H4. unfold check, ref_check.
  pose proof (proj2 Hsim key) as Hk.
  pose proof (got_recent b t (accepted log key) c key HW Hk H1 H2 H4) as Hgot.
  pose proof (ac_get_items (at_get c) key t) as Hitems.
  destruct (ac_get (at_get c) key t) as [got t1]. cbn in Hgot, Hitems. rewrite Hgot.
  assert (Hsim1 : sim K b t1 log) by (unfold sim; by rewrite Hitems).
  assert (Hle : ∀ ts, ts ∈ accepted log key → ts <= at_now c).
  { intros ts Hts. destruct (ac_items t !! key) as [[s v]|]; cbn in Hk.
    - destruct Hk as (? & Hl & _). specialize (Hl ts Hts). lia.
    - specialize (Hk ts Hts). unfold second in *. lia. }
  destruct (max_attempts cfg <=? _).
  - eexists _, _. split_and!; [done|done|]. cbn [snd].
    assert (Hnew : item_sim (at_set c) (Some (at_set c, recent true (at_now c - W) (accepted log key))) (accepted log key)).
    { split_and!; [done|intros ts Hts; specialize (Hle ts Hts); lia|]. exists (at_now c). split; [lia|done]. }
    pose proof (sim_set K b t1 log c key _ _ Hsim1 Hkey HK ltac:(lia) Hnew) as [Hd Hs]. split; [done|].
    intros k. specialize (Hs k). unfold accepted in Hs |- *. destruct (decide (k = key)) as [->|Hne].
    + rewrite lookup_insert_eq in Hs. exact Hs.
    + by rewrite lookup_insert_ne in Hs.
  - eexists _, _. split_and!; [done|done|]. cbn [snd]. apply (sim_set K b); [done..|lia|]. split_and!; [done|..].
    + intros ts [Hts|Hts]%elem_of_app; [specialize (Hle ts Hts); lia|]. apply list_elem_of_singleton in Hts. lia.
    + exists (at_now c). split; [lia|]. rewrite recent_snoc //. apply Z.leb_le. unfold second. lia.
Qed.

Lemma run_checks_sim K probes b t log :
  0 <= window_seconds cfg → sim K b t log → (size K <= maxsize cfg)%nat → ordered b probes →
  (∀ p, p ∈ probes → p.2 ∈ K) →
  run_checks probes t = (ref_run true W (max_attempts cfg) ((λ p, (at_now p.1, p.2)) <$> probes) log).1.
Proof.
  intros HW Hsim HK. revert b t log Hsim. induction probes as [|[c key] probes IH]; intros b t log Hsim Hord HinK; [done|].
  cbn in Hord. destruct Hord as (H1 & H2 & H3 & H4 & Hord). cbn [run_checks fmap list_fmap ref_run fst snd].
  assert (Hkey : key ∈ K) by (apply (HinK (c, key)); left).
  destruct (check_sim K b t log c key) as (r & t' & -> & Hr & Hsim'); [done..|].
  destruct (ref_check _ _ _ _ _ _) as [b1 log1]. cbn in Hr, Hsim'. rewrite Hr.
  rewrite (IH _ _ _ Hsim' Hord); [|intros p Hp; apply HinK; by right]. by destruct (ref_run _ _ _ _ _).
Qed.

(** C32. The in-process limiter, started empty, accepts and refuses exactly as the
    reference limiter that counts the accepted attempts of the last window and never
    forgets, as long as no more distinct keys are ever tried than the cache can hold
    ([maxsize]; a full cache evicts the least recently used key, whose budget starts
    again), the clock readings are ordered and each cache look-up reads the clock
    within the slack of the check. Under these conditions no window of
    [window_seconds], wherever it starts, has more than [max_attempts] accepted
    attempts on one key. *)
Theorem fixed_window_equivalent probes b :
  0 <= window_seconds cfg → ordered b probes →
  (size (list_to_set (snd <$> probes) : gset string) <= maxsize cfg)%nat →
  let '(decisions, log) := ref_run true W (max_attempts cfg) ((λ p, (at_now p.1, p.2)) <$> probes) ∅ in
  run_checks probes ac_empty = decisions ∧
  ∀ key a, Z.of_nat (length (filter (λ ts, a <= ts <= a + W) (accepted log key))) <= 0 `max` max_attempts cfg.
Proof.
  intros HW Hord HK.
  assert (Hsim : sim (list_to_set (snd <$> probes)) b ac_empty ∅).
  { split; [by rewrite ac_items_empty dom_empty_L; apply empty_subseteq|]. intros k. rewrite ac_items_empty lookup_empty.
    intros ts Hts. by apply not_elem_of_nil in Hts. }
  pose proof (run_checks_sim _ probes b ac_empty ∅ HW Hsim HK Hord) as Hrun.
  pose proof (ref_run_budget true W (max_attempts cfg) ((λ p, (at_now p.1, p.2)) <$> probes) ∅) as Hb.
  destruct (ref_run _ _ _ _ _) as [ds log]. cbn in Hrun, Hb. split.
  - apply Hrun. intros p Hp. apply elem_of_list_to_set. by apply list_elem_of_fmap_2.
  - intros key a. specialize (Hb ltac:(intros k; apply within_budget_nil) key a).
    rewrite (list_filter_iff _ (λ ts, in_span true W a ts = true)); [done|]. intros ts.
    unfold in_span, after. by rewrite andb_true_iff !Z.leb_le.
Qed.
End fixed.

(** ** The distributed limiter *)

Section redis.
Import RedisRateLimiter.
Context {R : Type} `{RedisServerLaws R} (max_attempts window_seconds : Z).

Abbreviation WMS := (window_ms window_seconds).

(** A call: the time in milliseconds, the member it draws and its key.  The
    server's clock agrees with the client's. *)
Record call := mkCall { at_ms : Z; member : string; call_key : string }.

Fixpoint calls_ok (b : Z) (used : gset string) (calls : list call) : Prop :=
  match calls with
  | [] => True
  | c :: calls => b <= at_ms c ∧ member c ∉ used ∧ calls_ok (at_ms c) ({[ member c ]} ∪ used) calls
  end.

Fixpoint run_calls (calls : list call) (r : R) : list bool :=
  match calls with
  | [] => []
  | c :: calls =>
      match check max_attempts window_seconds (at_ms c) (at_ms c) (member c) (call_key c) r with
      | (Ret o, r) => is_ok o :: run_calls calls r
      | (Raise _, _) => []
      end
  end.

Definition newer (c : Z) (z : gmap string Z) : gmap string Z := filter (λ ms, c < ms.2) z.

(** The server's set agrees with the accepted attempts on everything newer than
    the window's left end. *)
Definition zsim (b : Z) (used : gset string) (r : R) (log : gmap string (list Z)) : Prop :=
  (∀ key ts, ts ∈ accepted log key → ts <= b) ∧
  ∀ key now c, b <= now → now - WMS <= c →
    let z := rs_zset now r (redis_key key) in
    dom z ⊆ used ∧ map_Forall (λ _ s, 0 <= s) z ∧
    size (newer c z) = length (recent false c (accepted log key)).

Lemma newer_newer a c z : a <= c → newer c (newer a z) = newer c z.
Proof.
  intros Hac. unfold newer. rewrite map_filter_filter. apply map_filter_ext. intros i x _. cbn. lia.
Qed.

Lemma zrem_newer (z : gmap string Z) hi : map_Forall (λ _ s, 0 <= s) z → filter (λ ms, ¬ (0 <= ms.2 <= hi)) z = newer hi z.
Proof. intros Hz. apply map_filter_ext. intros i x Hx. specialize (Hz i x Hx). cbn in *. lia. Qed.

Lemma window_ttl_ms : 1000 * window_ttl window_seconds = WMS.
Proof.
  unfold window_ttl, window_ms. replace (- (window_seconds * 1000)) with ((- window_seconds) * 1000) by lia.
  rewrite Z.div_mul; lia.
Qed.

Global Instance redis_key_inj : Inj (=) (=) redis_key.
Proof. unfold redis_key. intros a b E. by apply (inj (String.app "rate:")) in E. Qed.

(** The view after the script's first command. *)
Lemma purged_view b used r log key now now' k :
  zsim b used r log → b <= now → now <= now' →
  rs_zset now' (zremrangebyscore now (redis_key key) 0 (now - WMS) r) (redis_key k) =
    if decide (k = key) then newer (now - WMS) (rs_zset now' r (redis_key k)) else rs_zset now' r (redis_key k).
Proof.
  intros [_ Hs] Hb Hn. rewrite zrem_law //. destruct (decide (k = key)) as [->|Hne].
  - rewrite decide_True //. apply zrem_newer. apply (Hs key now' (now' - WMS)); lia.
  - rewrite decide_False //. by intros E%redis_key_inj.
Qed.

Lemma zsim_reject b used m r log key now :
  zsim b used r log → b <= now → 
  zsim now ({[ m ]} ∪ used) (zremrangebyscore now (redis_key key) 0 (now - WMS) r) log.
Proof.
  intros Hsim Hb. pose proof Hsim as [Hle Hs]. split; [intros k ts Hts; specialize (Hle k ts Hts); lia|].
  intros k now' c Hn Hc. cbv zeta. rewrite (purged_view b used r log key now now' k Hsim Hb Hn).
  destruct (Hs k now' c) as (Hdom & Hpos & Hsize); [lia..|]. destruct (decide (k = key)) as [->|Hne].
  - split_and!.
    + intros x [y Hy]%elem_of_dom. apply map_lookup_filter_Some in Hy as [Hy _]. apply elem_of_union_r, Hdom, elem_of_dom. by eexists.
    + intros x y Hy. apply map_lookup_filter_Some in Hy as [Hy _]. by eapply Hpos.
    + rewrite newer_newer //. lia.
  - split_and!; [|done..]. intros x Hx. apply elem_of_union_r. by apply Hdom.
Qed.

Lemma newer_insert m now c z : m ∉ dom z → size (newer c (<[m := now]> z)) = (size (newer c z) + (if decide (c < now)%Z then 1 else 0))%nat.
Proof.
  intros Hm%not_elem_of_dom. unfold newer. case_decide.
  - rewrite map_filter_insert_True; [|done]. rewrite map_size_insert_None; [lia|].
    apply map_lookup_filter_None. by left.
  - rewrite map_filter_insert_not'; [lia|done|]. intros y Hy. congruence.
Qed.

Lemma recent_open_none c l : (∀ ts, ts ∈ l → ts <= c) → recent false c l = [].
Proof.
  intros Hl. induction l as [|x l IH]; [done|]. unfold recent. rewrite filter_cons_False.
  - apply IH. intros ts Hts. apply Hl. by right.
  - assert (x <= c) by (apply Hl; left). unfold after. rewrite Z.ltb_lt. lia.
Qed.

Lemma recent_snoc_length c l now :
  length (recent false c (l ++ [now])) = (length (recent false c l) + (if decide (c < now)%Z then 1 else 0))%nat.
Proof.
  unfold recent, after. rewrite filter_app length_app. f_equal. rewrite filter_cons filter_nil.
  destruct (Z.ltb_spec c now); repeat case_decide; done || lia.
Qed.

(** The view after an accepted call. *)
Definition recorded (key m : string) (now : Z) (r : R) : R :=
  expire now (redis_key key) (window_ttl window_seconds)
    (zadd now (redis_key key) now m (zremrangebyscore now (redis_key key) 0 (now - WMS) r)).

Lemma recorded_view b used r log key m now now' k :
  zsim b used r log → b <= now → now <= now' →
  rs_zset now' (recorded key m now r) (redis_key k) =
    if decide (k = key) then
      (if now' <? now + WMS then <[m := now]> (newer (now - WMS) (rs_zset now r (redis_key key))) else ∅)
    else rs_zset now' r (redis_key k).
Proof.
  intros Hsim Hb Hn. unfold recorded. rewrite expire_law // window_ttl_ms. destruct (decide (k = key)) as [->|Hne].
  - rewrite decide_True // zadd_law decide_True // (purged_view b used r log key now now key) //.
    by rewrite decide_True.
  - assert (redis_key k ≠ redis_key key) by (by intros E%redis_key_inj).
    rewrite decide_False // zadd_other // (purged_view b used r log key now now' k) // decide_False //.
Qed.

Lemma zsim_accept b used m r log key now :
  0 <= window_seconds → 0 <= now → zsim b used r log → b <= now → m ∉ used →
  zsim now ({[ m ]} ∪ used) (recorded key m now r) (<[key := accepted log key ++ [now]]> log).
Proof.
  intros HW Hnow Hsim Hb Hm. pose proof Hsim as [Hle Hs]. split.
  - intros k ts. unfold accepted. destruct (decide (k = key)) as [->|Hne].
    + rewrite lookup_insert_eq. cbn. intros [Hts|Hts]%elem_of_app; [specialize (Hle key ts Hts); lia|].
      apply list_elem_of_singleton in Hts. lia.
    + rewrite lookup_insert_ne //. intros Hts. specialize (Hle k ts Hts). lia.
  - intros k now' c Hn Hc. cbv zeta. rewrite (recorded_view b used r log) //. unfold accepted.
    destruct (decide (k = key)) as [->|Hne].
    2: { rewrite lookup_insert_ne //. destruct (Hs k now' c) as (Hdom & Hpos & Hsize); [lia..|].
      split_and!; [|done..]. intros x Hx. by apply elem_of_union_r, Hdom. }
    rewrite lookup_insert_eq. cbn [default from_option]. destruct (Hs key now c) as (Hdom & Hpos & Hsize); [lia..|].
    assert (Hm' : m ∉ dom (newer (now - WMS) (rs_zset now r (redis_key key)))).
    { intros [y Hy]%elem_of_dom. apply map_lookup_filter_Some in Hy as [Hy _]. apply Hm, Hdom, elem_of_dom. by eexists. }
    destruct (Z.ltb_spec now' (now + WMS)) as [Hlt|Hge].
    + split_and!.
      * intros x. rewrite dom_insert elem_of_union elem_of_singleton. intros [->|[y Hy]%elem_of_dom]; [by apply elem_of_union_l, elem_of_singleton|].
        apply map_lookup_filter_Some in Hy as [Hy _]. apply elem_of_union_r, Hdom, elem_of_dom. by eexists.
      * apply map_Forall_insert_2; [done|]. intros x y Hy. apply map_lookup_filter_Some in Hy as [Hy _]. by eapply Hpos.
      * rewrite newer_insert // newer_newer; [|lia]. rewrite Hsize. unfold accepted. by rewrite recent_snoc_length.
    + split_and!; [set_solver|apply map_Forall_empty|]. unfold newer. rewrite map_filter_empty map_size_empty.
      rewrite recent_snoc_length decide_False; [|lia]. fold (accepted log key). rewrite recent_open_none; [done|].
      intros ts Hts. specialize (Hle key ts Hts). lia.
Qed.

Lemma call_sim b used c r log :
  0 <= window_seconds → 0 <= b → zsim b used r log → b <= at_ms c → member c ∉ used →
  ∃ o r', check max_attempts window_seconds (at_ms c) (at_ms c) (member c) (call_key c) r = (Ret o, r') ∧
    is_ok o = (ref_check false WMS max_attempts (at_ms c) (call_key c) log).1 ∧
    zsim (at_ms c) ({[ member c ]} ∪ used) r' (ref_check false WMS max_attempts (at_ms c) (call_key c) log).2.
Proof.
  intros HW Hnow Hsim Hb Hm. unfold check, sliding_window_script, ref_check. rewrite zcard_law.
  rewrite (purged_view b used r log (call_key c) (at_ms c) (at_ms c) (call_key c)) // decide_True //.
  destruct (proj2 Hsim (call_key c) (at_ms c) (at_ms c - WMS)) as (_ & _ & ->); [lia..|].
  destruct (max_attempts <=? _); cbn.
  - eexists _, _. split_and!; [done|done|]. by eapply zsim_reject.
  - eexists _, _. split_and!; [done|done|]. apply (zsim_accept b); [done|lia|done..].
Qed.

(** The distributed limiter, started on an empty server, decides exactly as the
    reference limiter with the half-open window, whatever the keys: the sorted
    set and its expiry forget only attempts that no longer count; hence no
    half-open window has more than [max_attempts] accepted attempts on one key,
    over all processes that share the server. *)
Theorem redis_window_equivalent calls b r :
  0 <= window_seconds → 0 <= b → calls_ok b ∅ calls → (∀ now key, rs_zset now r key = ∅) →
  let '(decisions, log) := ref_run false WMS max_attempts ((λ c, (at_ms c, call_key c)) <$> calls) ∅ in
  run_calls calls r = decisions ∧
  ∀ key a, Z.of_nat (length (filter (λ ts, a < ts <= a + WMS) (accepted log key))) <= 0 `max` max_attempts.
Proof.
  intros HW Hnow Hok Hempty.
  assert (Hsim : zsim b ∅ r ∅).
  { split; [intros key ts Hts; by apply not_elem_of_nil in Hts|]. intros key now c _ _. cbv zeta. rewrite Hempty.
    split_and!; [set_solver|apply map_Forall_empty|]. unfold newer. by rewrite map_filter_empty map_size_empty. }
  pose proof (ref_run_budget false WMS max_attempts ((λ c, (at_ms c, call_key c)) <$> calls) ∅) as Hb.
  assert (Hrun : run_calls calls r = (ref_run false WMS max_attempts ((λ c, (at_ms c, call_key c)) <$> calls) ∅).1).
  { clear Hb Hempty. revert b r Hnow Hok Hsim. generalize (∅ : gmap string (list Z)). generalize (∅ : gset string).
    induction calls as [|c calls IH]; intros used log b r Hnow Hok Hsim; [done|]. cbn in Hok. destruct Hok as (H1 & H2 & Hok).
    cbn [run_calls fmap list_fmap ref_run]. destruct (call_sim b used c r log) as (o & r' & -> & Ho & Hsim'); [done..|].
    destruct (ref_check _ _ _ _ _ _) as [b1 log1]. cbn in Ho, Hsim'. rewrite Ho.
    assert (Hb : 0 <= at_ms c) by lia. rewrite (IH _ _ _ _ Hb Hok Hsim'). by destruct (ref_run _ _ _ _ _). }
  destruct (ref_run _ _ _ _ _) as [ds log]. cbn in Hrun, Hb. split; [done|].
  intros key a. specialize (Hb ltac:(intros k; apply within_budget_nil) key a).
  rewrite (list_filter_iff _ (λ ts, in_span false WMS a ts = true)); [done|]. intros ts.
  unfold in_span, after. by rewrite andb_true_iff Z.ltb_lt Z.leb_le.
Qed.
End redis.

(** ** Evaluated *)

(** A cache without a size limit, with the expiry of the default limiter. *)
Abbreviation demo_ttl_time := (FixedWindowRateLimiter.cache_ttl FixedWindowRateLimiter.default_config).
#[global] Instance demo_attempts : AttemptCache (gmap string (time * list time)) := {|
  ac_items t := t;
  ac_empty := ∅;
  ac_get now k t :=
    (item ← t !! k; if decide (unexpired demo_ttl_time now item) then Some item.2 else None, t);
  ac_set now k v t := <[k := (now, v)]> t;
  ac_clear _ := ∅;
|}.
#[global] Instance demo_attempts_laws n : AttemptCacheLaws (gmap string (time * list time)) n demo_ttl_time.
Proof.
  constructor.
  - done.
  - intros now k t. cbn. by destruct (t !! k).
  - done.
  - intros now k v t. cbn. by rewrite lookup_insert_eq.
  - intros now k v t k' item Hne Hk _ _. cbn. by rewrite lookup_insert_ne.
  - intros now k v t k' item Hne. cbn. by rewrite lookup_insert_ne.
  - done.
Qed.

(** Six attempts in six seconds, and a seventh two minutes later. *)
Definition demo_probes : list (FixedWindowRateLimiter.readings * string) :=
  (λ n, (FixedWindowRateLimiter.mkReadings (n * second) (n * second) (n * second), "/auth/login:1.2.3.4:ada@example.com"))
    <$> [1; 2; 3; 4; 5; 6; 126].

Lemma fixed_window_equivalent_witness :
  run_checks FixedWindowRateLimiter.default_config demo_probes ac_empty = [true; true; true; true; true; false; true].
Proof.
  pose proof (fixed_window_equivalent FixedWindowRateLimiter.default_config demo_probes 0) as Hf.
  assert (Hord : ordered 0 demo_probes) by (vm_compute; intuition congruence).
  assert (Hsz : (size (list_to_set (snd <$> demo_probes) : gset string)
    <= FixedWindowRateLimiter.maxsize FixedWindowRateLimiter.default_config)%nat)
    by (apply Nat.leb_le; vm_compute; reflexivity).
  specialize (Hf ltac:(vm_compute; congruence) Hord Hsz).
  destruct (ref_run _ _ _ _ _) as [ds log] eqn:E. destruct Hf as [Hf _]. etransitivity; [exact Hf|].
  apply (f_equal fst) in E. symmetry. etransitivity; [|exact E]. vm_compute. reflexivity.
Defined.

(** A server that keeps each set with its expiry time. *)
Abbreviation demo_redis := (gmap string (gmap string Z * option Z)).
Definition demo_alive (now : Z) (e : option Z) : bool := match e with Some t => now <? t | None => true end.
#[global] Instance demo_redis_server : RedisServer demo_redis := {|
  rs_zset now r k := match r !! k with Some (z, e) => if demo_alive now e then z else ∅ | None => ∅ end;
  zremrangebyscore now k lo hi r := alter (λ ze, (filter (λ ms, ¬ (lo <= ms.2 <= hi)) ze.1, ze.2)) k r;
  zcard now k r := match r !! k with Some (z, e) => if demo_alive now e then Z.of_nat (size z) else 0 | None => 0 end;
  zadd now k s m r :=
    match r !! k with
    | Some (z, e) => if demo_alive now e then <[k := (<[m := s]> z, e)]> r else <[k := ({[m := s]}, None)]> r
    | None => <[k := ({[m := s]}, None)]> r
    end;
  expire now k secs r :=
    match r !! k with
    | Some (z, e) => if demo_alive now e then <[k := (z, Some (now + 1000 * secs))]> r else r
    | None => r
    end;
  delete_key k r := delete k r;
  scan_iter _ r := (map_to_list r).*1;
|}.
#[global] Instance demo_redis_laws : RedisServerLaws demo_redis.
Proof.
  assert (Hmono : ∀ now now' e, now <= now' → demo_alive now e = false → demo_alive now' e = false).
  { intros now now' [t|] Hn; cbn; rewrite ?Z.ltb_ge; [lia|done]. }
  constructor; cbn [rs_zset zremrangebyscore zcard zadd expire demo_redis_server].
  - intros now key lo hi r now' k Hn. destruct (decide (k = key)) as [->|Hne].
    + rewrite lookup_alter_eq. destruct (r !! key) as [[z e]|]; cbn [fmap option_fmap option_map fst snd];
        [destruct (demo_alive now' e); [done|]|]; symmetry; apply map_filter_empty.
    + by rewrite lookup_alter_ne.
  - intros now key r. destruct (r !! key) as [[z e]|]; [destruct (demo_alive now e)|]; by rewrite ?map_size_empty.
  - intros now key s m r k. destruct (decide (k = key)) as [->|Hne].
    + destruct (r !! key) as [[z e]|]; [destruct (demo_alive now e) eqn:E|]; rewrite lookup_insert_eq /= ?E ?insert_empty //.
    + destruct (r !! key) as [[z e]|]; [destruct (demo_alive now e) eqn:E|]; rewrite lookup_insert_ne //.
  - intros now key s m r now' k Hn Hne. destruct (r !! key) as [[z e]|]; [destruct (demo_alive now e) eqn:E|]; rewrite lookup_insert_ne //.
  - intros now key secs r now' k Hn. destruct (decide (k = key)) as [->|Hne].
    + destruct (r !! key) as [[z e]|] eqn:Er; [destruct (demo_alive now e) eqn:E|].
      * by rewrite lookup_insert_eq.
      * rewrite Er (Hmono now now' e) //. by destruct (now' <? _).
      * rewrite Er. by destruct (now' <? _).
    + destruct (r !! key) as [[z e]|] eqn:Er; [destruct (demo_alive now e) eqn:E|]; rewrite ?lookup_insert_ne //.
Qed.

Definition demo_calls : list call :=
  [mkCall 1000 "a" "k"; mkCall 2000 "b" "k"; mkCall 2500 "c" "other"; mkCall 3000 "d" "k"; mkCall 61000 "e" "k"].

(** Two attempts a minute: the third is refused, and the first one's place is free
    again exactly a minute later. *)
Lemma redis_window_equivalent_witness :
  run_calls 2 60 demo_calls (∅ : demo_redis) = [true; true; true; false; true].
Proof.
  pose proof (redis_window_equivalent 2 60 demo_calls 0 (∅ : demo_redis)) as Hr.
  assert (Hok : calls_ok 0 ∅ demo_calls) by (cbn; split_and!; try lia; set_solver).
  specialize (Hr ltac:(lia) ltac:(lia) Hok ltac:(done)).
  destruct (ref_run _ _ _ _ _) as [ds log] eqn:E. destruct Hr as [Hr _]. etransitivity; [exact Hr|].
  apply (f_equal fst) in E. symmetry. etransitivity; [|exact E]. vm_compute. reflexivity.
Defined.
