(* ===== verification/Json.v ===== *)
(** Text and JSON of the Python standard library as the program uses them: UTF-8,
    [int(text)], [json.dumps] and [json.loads].

    From here on a Python [str] is the list of bytes of its UTF-8 encoding (a lone
    surrogate, which only an escape of JSON can write, takes the three bytes of its
    code point), so [s.encode("utf-8")] is the identity. *)

From Stdlib Require Import Ascii String.
From stdpp Require Import pretty.
From S2P Require Import Prelude PyStr Uuid.
Open Scope string_scope.
Open Scope list_scope.
Open Scope N_scope.

(** ** UTF-8 *)

(** One code point. *)
Definition utf8_char (cp : N) : string :=
  if cp <? 128 then String (ascii_of_N cp) ""
  else if cp <? 2048 then String (ascii_of_N (192 + cp / 64)) (String (ascii_of_N (128 + cp mod 64)) "")
  else if cp <? 65536 then
    String (ascii_of_N (224 + cp / 4096))
      (String (ascii_of_N (128 + cp / 64 mod 64)) (String (ascii_of_N (128 + cp mod 64)) ""))
  else
    String (ascii_of_N (240 + cp / 262144))
      (String (ascii_of_N (128 + cp / 4096 mod 64))
        (String (ascii_of_N (128 + cp / 64 mod 64)) (String (ascii_of_N (128 + cp mod 64)) ""))).

Definition is_high (cp : N) : bool := (55296 <=? cp) && (cp <? 56320).
Definition is_low (cp : N) : bool := (56320 <=? cp) && (cp <? 57344).
(** A code point that is no surrogate. *)
Definition scalar (cp : N) : bool := (cp <? 1114112) && negb (is_high cp || is_low cp).

Definition utf8 (cps : list N) : string := foldr (λ cp s, utf8_char cp +:+ s) "" cps.

Definition continuation (c : ascii) : option N :=
  let n := N_of_ascii c in if (128 <=? n) && (n <? 192) then Some (n - 128) else None.

(** The first code point of a text and the rest; overlong forms and surrogates are
    errors. *)
Definition utf8_next (s : string) : option (N * string) :=
  match s with
  | "" => None
  | String c s =>
      let n := N_of_ascii c in
      if n <? 128 then Some (n, s)
      else if n <? 194 then None
      else if n <? 224 then
        match s with
        | String c1 s => x1 ← continuation c1; Some ((n - 192) * 64 + x1, s)
        | _ => None
        end
      else if n <? 240 then
        match s with
        | String c1 (String c2 s) =>
            x1 ← continuation c1; x2 ← continuation c2;
            let cp := (n - 224) * 4096 + x1 * 64 + x2 in
            if (2048 <=? cp) && scalar cp then Some (cp, s) else None
        | _ => None
        end
      else if n <? 245 then
        match s with
        | String c1 (String c2 (String c3 s)) =>
            x1 ← continuation c1; x2 ← continuation c2; x3 ← continuation c3;
            let cp := (n - 240) * 262144 + x1 * 4096 + x2 * 64 + x3 in
            if (65536 <=? cp) && scalar cp then Some (cp, s) else None
        | _ => None
        end
      else None
  end.

(** [s[:1]]: the bytes of the first code point, as many as the lead byte says. *)
Definition char_length (lead : ascii) : nat :=
  let n := N_of_ascii lead in if n <? 128 then 1%nat else if n <? 224 then 2%nat else if n <? 240 then 3%nat else 4%nat.
Definition first_char (s : string) : string :=
  match s with "" => "" | String c _ => String.substring 0 (char_length c) s end.

(** The code points of a text; every step takes a byte, so the length is fuel
    enough. *)
Fixpoint codepoints_of (fuel : nat) (s : string) : option (list N) :=
  match s, fuel with
  | "", _ => Some []
  | _, O => None
  | _, S fuel => '(cp, s) ← utf8_next s; cons cp <$> codepoints_of fuel s
  end.
Definition codepoints (s : string) : option (list N) := codepoints_of (String.length s) s.

(** [raw.decode("utf-8")]. *)
Definition utf8_decode (raw : string) : outcome string :=
  match codepoints raw with Some _ => Ret raw | None => Raise UnicodeDecodeError end.

(** [raw.decode("latin-1")]. *)
Fixpoint latin1_decode (raw : string) : string :=
  match raw with "" => "" | String c raw => utf8_char (N_of_ascii c) +:+ latin1_decode raw end.

(** ** [int(text)] *)

Open Scope Z_scope.

(** White space around it (of Latin-1), a sign, decimal digits with single underscores
    between them, at most 4300 digits. *)
Definition int_space (c : ascii) : bool := is_space c || (code c =? 133)%nat || (code c =? 160)%nat.
Fixpoint int_digits (acc : Z) (count : nat) (after_digit : bool) (s : string) : option Z :=
  match s with
  | "" => if after_digit && (count <=? 4300)%nat then Some acc else None
  | String c s =>
      if is_digit c then int_digits (10 * acc + (Z.of_nat (code c) - 48)) (S count) true s
      else if Ascii.eqb c "_" && after_digit then int_digits acc count false s
      else None
  end.
Definition py_int (s : string) : option Z :=
  match strip_by int_space s with
  | String "+" s => int_digits 0 0 false s
  | String "-" s => Z.opp <$> int_digits 0 0 false s
  | s => int_digits 0 0 false s
  end.

(** ** Python dicts with insertion order *)

Abbreviation dict := (list (string * json)) (only parsing).

Fixpoint dict_get (d : dict) (key : string) : option json :=
  match d with
  | [] => None
  | (k, v) :: d => if String.eqb k key then Some v else dict_get d key
  end.

(** [d[key] = value]: in place when the key is there, at the end otherwise. *)
Fixpoint dict_set (d : dict) (key : string) (value : json) : dict :=
  match d with
  | [] => [(key, value)]
  | (k, v) :: d => if String.eqb k key then (k, value) :: d else (k, v) :: dict_set d key value
  end.

Definition dict_keys (d : dict) : list string := map fst d.

(** ** [json.dumps] *)

Definition quote : ascii := ascii_of_nat 34.
Definition backslash : ascii := ascii_of_nat 92.

(** [ensure_ascii]: everything but printable ASCII is escaped, beyond the basic plane
    as a pair of surrogates. *)
Definition unicode_escape (unit : N) : string := String backslash (String "u" (hex 4 unit)).
Definition escape (cp : N) : string :=
  if (cp =? 34)%N then String backslash (String quote "")
  else if (cp =? 92)%N then String backslash (String backslash "")
  else if (cp =? 8)%N then String backslash "b"
  else if (cp =? 9)%N then String backslash "t"
  else if (cp =? 10)%N then String backslash "n"
  else if (cp =? 12)%N then String backslash "f"
  else if (cp =? 13)%N then String backslash "r"
  else if ((32 <=? cp) && (cp <=? 126))%N then String (ascii_of_N cp) ""
  else if (cp <? 65536)%N then unicode_escape cp
  else unicode_escape (55296 + (cp - 65536) / 1024)%N +:+ unicode_escape (56320 + (cp - 65536) mod 1024)%N.

Definition dump_string (s : string) : string :=
  String quote (foldr (λ cp s, escape cp +:+ s) "" (default [] (codepoints s)) +:+ String quote "").

Record DumpOptions := mkDump { item_separator : string; key_separator : string; sort_keys : bool }.
(** What [dumps] does unless told otherwise. *)
Definition default_options : DumpOptions := mkDump ", " ": " false.
(** [separators=(",", ":")]. *)
Definition compact : DumpOptions := mkDump "," ":" false.

(** The order of [str]: by code points, which is that of the encoded bytes. *)
Fixpoint str_le (s t : string) : bool :=
  match s, t with
  | "", _ => true
  | _, "" => false
  | String c s, String c' t => (code c <? code c')%nat || (code c =? code c')%nat && str_le s t
  end.
Definition item_le {A} (kv kv' : string * A) : Prop := Is_true (str_le (fst kv) (fst kv')).
#[global] Instance item_le_dec A : RelDecision (@item_le A).
Proof. intros kv kv'. unfold item_le. apply _. Defined.

(** A dict is written in its order, or sorted by its keys. *)
Definition dump_items {A} (o : DumpOptions) (d : list (string * A)) : list (string * A) :=
  if sort_keys o then merge_sort item_le d else d.

Fixpoint join (sep : string) (l : list string) : string :=
  match l with
  | [] => ""
  | [x] => x
  | x :: l => x +:+ sep +:+ join sep l
  end.

(** The members of an object are printed, then put in order. *)
Fixpoint dumps (o : DumpOptions) (j : json) : string :=
  match j with
  | JNull => "null"
  | JBool b => if b then "true" else "false"
  | JInt z => pretty z
  | JFloat literal => literal
  | JStr s => dump_string s
  | JList l => "[" +:+ join (item_separator o) (map (dumps o) l) +:+ "]"
  | JObj d =>
      let member '(key, value) := (key, dump_string key +:+ key_separator o +:+ dumps o value) in
      "{" +:+ join (item_separator o) (map snd (dump_items o (map member d))) +:+ "}"
  end.

(** ** [json.loads] *)

(** A parser works on the text that is left. *)
Abbreviation Parser := (M string).

Definition expecting {A} : Parser A := raise JSONDecodeError.

Definition json_space (c : ascii) : bool := existsb (Nat.eqb (code c)) [32; 9; 10; 13]%nat.
Definition skip_space : Parser unit := modify (lstrip_by json_space).

(** Reads one character. *)
Definition next : Parser ascii := λ s,
  match s with "" => (Raise JSONDecodeError, s) | String c s => (Ret c, s) end.

(** What follows [word] in [s]. *)
Fixpoint after_prefix (word s : string) : option string :=
  match word, s with
  | "", _ => Some s
  | String a word, String b s => if Ascii.eqb a b then after_prefix word s else None
  | _, "" => None
  end.

(** Reads a keyword. *)
Definition keyword (word : string) (value : json) : Parser json := λ s,
  match after_prefix word s with Some rest => (Ret value, rest) | None => (Raise JSONDecodeError, s) end.

Fixpoint span (P : ascii → bool) (s : string) : string * string :=
  match s with
  | "" => ("", "")
  | String c s' => if P c then let '(l, r) := span P s' in (String c l, r) else ("", s)
  end.

(** *** Numbers: an integer without leading zeros, a fraction, an exponent *)

Definition integer_part (s : string) : option (string * string) :=
  match s with
  | String c s' =>
      if Ascii.eqb c "0" then Some ("0", s')
      else if is_digit c then Some (span is_digit s)
      else None
  | _ => None
  end.
Definition fraction (s : string) : string * string :=
  match s with
  | String p (String c s') =>
      if Ascii.eqb p "." && is_digit c then let '(l, r) := span is_digit (String c s') in (String p l, r) else ("", s)
  | _ => ("", s)
  end.
(** An optional sign. *)
Definition sign_of (signs : ascii → bool) (s : string) : string * string :=
  match s with
  | String c s' => if signs c then (String c "", s') else ("", s)
  | "" => ("", s)
  end.
Definition exponent (s : string) : string * string :=
  match s with
  | String e s' =>
      if Ascii.eqb e "e" || Ascii.eqb e "E" then
        let '(sign, digits) := sign_of (λ c, Ascii.eqb c "+" || Ascii.eqb c "-") s' in
        match span is_digit digits with
        | ("", _) => ("", s)
        | (l, r) => (String e (sign +:+ l), r)
        end
      else ("", s)
  | _ => ("", s)
  end.

(** [int(literal)] raises a plain [ValueError] beyond 4300 digits. *)
Definition number : Parser json := λ s,
  let '(sign, s') := sign_of (λ c, Ascii.eqb c "-") s in
  match integer_part s' with
  | None => (Raise JSONDecodeError, s)
  | Some (digits, s') =>
      let '(frac, s') := fraction s' in
      let '(exp, s') := exponent s' in
      match frac, exp with
      | "", "" =>
          match py_int (sign +:+ digits) with
          | Some z => (Ret (JInt z), s')
          | None => (Raise (ValueError "Exceeds the limit (4300 digits) for integer string conversion"), s')
          end
      | _, _ => (Ret (JFloat (sign +:+ digits +:+ frac +:+ exp)), s')
      end
  end.

(** *** Strings *)

(** The four digits of an escape. *)
Definition unit_of (a b c d : ascii) : option N :=
  a ← digit_value a; b ← digit_value b; c ← digit_value c; d ← digit_value d;
  Some (((a * 16 + b) * 16 + c) * 16 + d)%N.
Definition join_units (high low : N) : N := (65536 + (high - 55296) * 1024 + (low - 56320))%N.
Definition simple_escape (c : ascii) : option ascii :=
  match code c with
  | 34%nat => Some quote | 92%nat => Some backslash | 47%nat => Some "/"%char
  | 98%nat => Some (ascii_of_nat 8) | 102%nat => Some (ascii_of_nat 12) | 110%nat => Some (ascii_of_nat 10)
  | 114%nat => Some (ascii_of_nat 13) | 116%nat => Some (ascii_of_nat 9)
  | _ => None
  end.

Definition prepend (l : string) (r : option (string * string)) : option (string * string) :=
  '(s, rest) ← r; Some (l +:+ s, rest).

(** What follows the opening quote, up to the closing one.  Two escapes in a row that
    are a high and a low surrogate are one code point. *)
Fixpoint scan_string (s : string) : option (string * string) :=
  match s with
  | "" => None
  | String c s =>
      if Ascii.eqb c quote then Some ("", s)
      else if Ascii.eqb c backslash then
        match s with
        | "" => None
        | String e s =>
            if Ascii.eqb e "u" then
              match s with
              | String a (String b (String c (String d s))) =>
                  match unit_of a b c d with
                  | None => None
                  | Some cu =>
                      match s with
                      | String b1 (String u1 (String a (String b (String c (String d s'))))) =>
                          if is_high cu && Ascii.eqb b1 backslash && Ascii.eqb u1 "u" then
                            match unit_of a b c d with
                            | None => None
                            | Some cu' =>
                                if is_low cu' then prepend (utf8_char (join_units cu cu')) (scan_string s')
                                else prepend (utf8_char cu) (scan_string s)
                            end
                          else prepend (utf8_char cu) (scan_string s)
                      | _ => prepend (utf8_char cu) (scan_string s)
                      end
                  end
              | _ => None
              end
            else match simple_escape e with
                 | Some c => prepend (String c "") (scan_string s)
                 | None => None
                 end
        end
      else if (code c <? 32)%nat then None
      else prepend (String c "") (scan_string s)
  end.

Definition string_body : Parser string := λ s,
  match scan_string s with Some (v, rest) => (Ret v, rest) | None => (Raise JSONDecodeError, s) end.

(** *** Values *)

(** The loops over the elements of an array and the members of an object; every round
    reads a character. *)
Section containers.
Context (value : Parser json).

Fixpoint array_elements (fuel : nat) : Parser (list json) :=
  match fuel with
  | O => expecting
  | S fuel =>
      v ← value;
      skip_space ;;
      c ← next;
      if Ascii.eqb c "]" then mret [v]
      else if Ascii.eqb c "," then
        skip_space ;;
        l ← array_elements fuel;
        mret (v :: l)
      else expecting
  end.

Definition array (fuel : nat) : Parser json :=
  skip_space ;;
  empty ← gets (String.prefix "]");
  if empty : bool then next ;; mret (JList []) else l ← array_elements fuel; mret (JList l).

Fixpoint members (fuel : nat) (d : dict) : Parser dict :=
  match fuel with
  | O => expecting
  | S fuel =>
      c ← next;
      if negb (Ascii.eqb c quote) then expecting else
      key ← string_body;
      skip_space ;;
      c ← next;
      if negb (Ascii.eqb c ":") then expecting else
      skip_space ;;
      v ← value;
      let d := dict_set d key v in
      skip_space ;;
      c ← next;
      if Ascii.eqb c "}" then mret d
      else if Ascii.eqb c "," then skip_space ;; members fuel d
      else expecting
  end.

Definition object (fuel : nat) : Parser json :=
  skip_space ;;
  empty ← gets (String.prefix "}");
  if empty : bool then next ;; mret (JObj []) else d ← members fuel []; mret (JObj d).
End containers.

(** [depth] is what is left of the interpreter's recursion limit. *)
Fixpoint scan_once (fuel depth : nat) : Parser json := λ s,
  match s with
  | "" => (Raise JSONDecodeError, s)
  | String c s' =>
      if Ascii.eqb c quote then (text ← string_body; mret (JStr text)) s'
      else if Ascii.eqb c "{" then
        match depth with O => (Raise RecursionError, s') | S depth => object (scan_once fuel depth) fuel s' end
      else if Ascii.eqb c "[" then
        match depth with O => (Raise RecursionError, s') | S depth => array (scan_once fuel depth) fuel s' end
      else if Ascii.eqb c "n" then keyword "null" JNull s
      else if Ascii.eqb c "t" then keyword "true" (JBool true) s
      else if Ascii.eqb c "f" then keyword "false" (JBool false) s
      else if Ascii.eqb c "N" then keyword "NaN" (JFloat "NaN") s
      else if Ascii.eqb c "I" then keyword "Infinity" (JFloat "Infinity") s
      else if String.prefix "-Infinity" s then keyword "-Infinity" (JFloat "-Infinity") s
      else number s
  end.

Definition loads_with (fuel depth : nat) (s : string) : outcome json :=
  result_of (
    skip_space ;;
    v ← scan_once fuel depth;
    skip_space ;;
    rest ← gets id;
    if String.eqb rest "" then mret v else raise JSONDecodeError) s.

(** Every round of a loop reads a character, so one more than there are is fuel
    enough. *)
Definition loads (depth : nat) (s : string) : outcome json := loads_with (S (String.length s)) depth s.
