(* ===== verification/JsonFacts.v ===== *)
(** JSON round trips, and the parser's loops always end. *)

From Stdlib Require Import Ascii String.
From stdpp Require Import pretty.
From S2P Require Import Prelude PyStr Uuid Json.
Open Scope string_scope.
Open Scope list_scope.
Open Scope Z_scope.

(** ** Dicts *)

Lemma dict_set_same d k v : dict_get d k = Some v → dict_set d k v = d.
Proof.
  induction d as [|[k' v'] d IH]; simpl; [done|].
  case_match eqn:E; [by intros [= ->]|]. intros H. by rewrite IH.
Qed.

Lemma dict_get_app d1 d2 k : k ∉ dict_keys d1 → dict_get (d1 ++ d2) k = dict_get d2 k.
Proof.
  induction d1 as [|[k' v'] d1 IH]; simpl; [done|]. intros [Hk ?]%not_elem_of_cons.
  rewrite eqb_neq_string; [by apply IH|congruence].
Qed.

Lemma dict_set_app d1 d2 k v : k ∉ dict_keys d1 → dict_set (d1 ++ d2) k v = (d1 ++ dict_set d2 k v)%list.
Proof.
  induction d1 as [|[k' v'] d1 IH]; simpl; [done|]. intros [Hk ?]%not_elem_of_cons.
  rewrite eqb_neq_string; [by rewrite IH|congruence].
Qed.

Lemma dict_set_last d k v : k ∉ dict_keys d → dict_set d k v = (d ++ [(k, v)])%list.
Proof. intros Hk. rewrite -{1}(app_nil_r d) dict_set_app //. Qed.

(** ** Decimal notation *)

Lemma digit_char n :
  (n < 10)%N → is_digit (pretty_N_char n) = true ∧ Z.of_nat (code (pretty_N_char n)) - 48 = Z.of_N n.
Proof.
  intros Hn. assert (n = 0 ∨ n = 1 ∨ n = 2 ∨ n = 3 ∨ n = 4 ∨ n = 5 ∨ n = 6 ∨ n = 7 ∨ n = 8 ∨ n = 9)%N as Hc by lia.
  destruct_or! Hc; by subst.
Qed.

Lemma pretty_digits x s : str_forall is_digit s = true → str_forall is_digit (pretty_N_go x s) = true.
Proof.
  revert s. induction (N.lt_wf_0 x) as [x _ IH]; intros s Hs.
  destruct (N.eq_0_gt_0_cases x) as [->|Hx]; [by rewrite pretty_N_go_0|]. rewrite pretty_N_go_step //.
  apply IH; [by apply N.div_lt|]. cbn [str_forall]. rewrite Hs andb_true_r. apply digit_char, N.mod_lt. lia.
Qed.

(** Reading back what the decimal notation of [x] puts before [s]. *)
Lemma int_digits_pretty d x : (x < 10 ^ N.of_nat d)%N → ∃ k, (k ≤ d)%nat ∧ (x = 0%N → k = 0%nat) ∧ (x ≠ 0%N → (0 < k)%nat) ∧
  ∀ acc count b s, int_digits acc count b (pretty_N_go x s) =
    int_digits (acc * 10 ^ Z.of_nat k + Z.of_N x) (count + k) (b || bool_decide (0 < k)%nat) s.
Proof.
  revert x. induction d as [|d IH]; intros x Hx.
  - assert (x = 0%N) as -> by (cbn in Hx; lia). exists 0%nat. split_and!; [lia|done|done|]. intros acc count b s.
    rewrite pretty_N_go_0 orb_false_r Nat.add_0_r. f_equal. lia.
  - destruct (N.eq_0_gt_0_cases x) as [->|Hpos].
    { exists 0%nat. split_and!; [lia|done|done|]. intros acc count b s. rewrite pretty_N_go_0 orb_false_r Nat.add_0_r. f_equal. lia. }
    destruct (IH (x / 10)%N) as (k & Hk & Hk0 & Hk1 & Hgo).
    { apply N.Div0.div_lt_upper_bound. rewrite -N.pow_succ_r'. by rewrite -Nat2N.inj_succ. }
    exists (S k). split_and!; [lia|lia|lia|]. intros acc count b s. rewrite pretty_N_go_step // Hgo. cbn [int_digits].
    destruct (digit_char (x mod 10)) as [-> Hd]; [apply N.mod_lt; lia|]. rewrite Hd.
    rewrite (bool_decide_eq_true_2 (0 < S k)%nat); [|lia]. rewrite orb_true_r Nat.add_succ_r. f_equal.
    rewrite Nat2Z.inj_succ Z.pow_succ_r; [|lia]. pose proof (N.div_mod x 10 ltac:(lia)). lia.
Qed.

Lemma digit_not_space s : str_forall is_digit s = true → str_forall (λ c, negb (int_space c)) s = true.
Proof.
  apply str_forall_impl. intros c Hc. assert (is_digit c && int_space c = false) as E by (clear Hc; revert c; by_chars).
  rewrite Hc in E. by destruct (int_space c).
Qed.

Lemma py_int_digits s n :
  str_forall is_digit s = true → int_digits 0 0 false s = Some n → py_int s = Some n.
Proof.
  intros Hs Hn. unfold py_int. rewrite strip_none; [|by apply digit_not_space].
  destruct s as [|c s]; [done|]. cbn [str_forall] in Hs. apply andb_true_iff in Hs as [Hc _].
  destruct (ascii_dec c "+") as [->|Hp]; [done|]. destruct (ascii_dec c "-") as [->|Hm]; [done|].
  destruct c as [[] [] [] [] [] [] [] []]; done.
Qed.

(** A length that is declared in decimal notation is read as it is. *)
Lemma py_int_pretty (x : N) : (x < 10 ^ N.of_nat 4300)%N → py_int (pretty x) = Some (Z.of_N x).
Proof.
  intros Hx. unfold pretty, pretty_N. destruct (decide (x = 0)%N) as [->|Hne]; [reflexivity|].
  destruct (int_digits_pretty _ x Hx) as (k & Hk & _ & Hpos & Hgo). specialize (Hpos Hne). apply py_int_digits; [by apply pretty_digits|].
  rewrite Hgo. cbn [int_digits orb]. rewrite bool_decide_eq_true_2 //.
  by rewrite (proj2 (Nat.leb_le _ _)).
Qed.


(** ** UTF-8 *)

Lemma code_of_N n : (n < 256)%N → N_of_ascii (ascii_of_N n) = n.
Proof. apply N_ascii_embedding. Qed.

Lemma continuation_byte n : (n < 64)%N → continuation (ascii_of_N (128 + n)) = Some n.
Proof.
  intros Hn. unfold continuation. rewrite code_of_N; [|lia].
  rewrite (proj2 (N.leb_le _ _)); [|lia]. rewrite (proj2 (N.ltb_lt _ _)); [|lia]. cbn. f_equal. lia.
Qed.

Ltac div_lia := zify; Z.to_euclidean_division_equations; lia.

(** Decide the comparisons of numbers in the goal. *)
Ltac decide_N :=
  repeat match goal with
    | |- context [(?a <? ?b)%N] =>
        first [rewrite (proj2 (N.ltb_lt a b)); [|first [lia | div_lia]] | rewrite (proj2 (N.ltb_ge a b)); [|first [lia | div_lia]]]
    | |- context [(?a <=? ?b)%N] =>
        first [rewrite (proj2 (N.leb_le a b)); [|first [lia | div_lia]] | rewrite (proj2 (N.leb_gt a b)); [|first [lia | div_lia]]]
    end.

Lemma is_high_spec x : is_high x = true ↔ (55296 <= x < 56320)%N.
Proof. unfold is_high. by rewrite andb_true_iff N.leb_le N.ltb_lt. Qed.
Lemma is_low_spec x : is_low x = true ↔ (56320 <= x < 57344)%N.
Proof. unfold is_low. by rewrite andb_true_iff N.leb_le N.ltb_lt. Qed.

Lemma scalar_bound cp : scalar cp = true → (cp < 1114112)%N.
Proof. unfold scalar. intros [?%N.ltb_lt _]%andb_true_iff. done. Qed.

(** A scalar value is read back from its encoding, whatever follows. *)
Lemma utf8_next_char cp s : scalar cp = true → utf8_next (utf8_char cp +:+ s) = Some (cp, s).
Proof.
  intros Hs. pose proof (scalar_bound _ Hs). unfold utf8_char.
  destruct (N.ltb_spec cp 128) as [Ha|Ha]; [|destruct (N.ltb_spec cp 2048) as [Hb|Hb];
    [|destruct (N.ltb_spec cp 65536) as [Hc|Hc]]]; rewrite !app_cons app_nil_string; cbn [utf8_next].
  - rewrite code_of_N; [|lia]. by decide_N.
  - assert (cp / 64 < 32 ∧ 2 <= cp / 64)%N as [? ?] by div_lia.
    rewrite code_of_N; [|lia]. decide_N. rewrite continuation_byte; [|div_lia]. cbn. do 2 f_equal. div_lia.
  - assert (cp / 4096 < 16)%N by div_lia.
    rewrite code_of_N; [|lia]. decide_N. rewrite !continuation_byte; [|div_lia..]. cbn.
    rewrite (_ : (224 + cp / 4096 - 224) * 4096 + (cp / 64) mod 64 * 64 + cp mod 64 = cp)%N; [|div_lia].
    rewrite Hs. by decide_N.
  - assert (cp / 262144 < 5)%N by div_lia.
    rewrite code_of_N; [|lia]. decide_N. rewrite !continuation_byte; [|div_lia..]. cbn.
    rewrite (_ : (240 + cp / 262144 - 240) * 262144 + (cp / 4096) mod 64 * 4096 + (cp / 64) mod 64 * 64 + cp mod 64 = cp)%N;
      [|div_lia].
    rewrite Hs. by decide_N.
Qed.

(** ** Strings *)

(** The encoding of a sequence of code points without surrogates. *)
Definition is_text (s : string) : Prop := ∃ cps, Forall scalar cps ∧ s = utf8 cps.

Lemma codepoints_utf8 cps : Forall scalar cps → codepoints (utf8 cps) = Some cps.
Proof.
  unfold codepoints. intros H. remember (String.length (utf8 cps)) as fuel eqn:Hf.
  assert (String.length (utf8 cps) <= fuel)%nat as Hle by lia. clear Hf. revert fuel Hle.
  induction H as [|cp cps Hcp _ IH]; intros fuel Hle; [by destruct fuel|]. cbn [utf8 foldr] in *. fold (utf8 cps) in *.
  assert (∃ c s, utf8_char cp +:+ utf8 cps = String c s) as (c & s & E).
  { unfold utf8_char. repeat case_match; rewrite app_cons; eauto. }
  assert (0 < String.length (utf8_char cp))%nat by (unfold utf8_char; repeat case_match; cbn; lia).
  rewrite length_app_string in Hle. destruct fuel as [|fuel]; [lia|].
  rewrite E. cbn [codepoints_of]. rewrite -E utf8_next_char; [|by apply Is_true_true]. cbn.
  rewrite IH //. lia.
Qed.

Lemma below_128 (P : N → Prop) :
  Forall P (N.of_nat <$> seq 0 128) → ∀ n, (n < 128)%N → P n.
Proof.
  rewrite Forall_fmap Forall_forall. intros H n Hn. rewrite -(N2Nat.id n).
  apply (H (N.to_nat n)), elem_of_seq. lia.
Qed.

Lemma unit_of_hex x :
  (x < 65536)%N → ∃ a b c d, hex 4 x = String a (String b (String c (String d ""))) ∧ unit_of a b c d = Some x.
Proof.
  intros Hx. eexists _, _, _, _. split; [reflexivity|]. unfold unit_of.
  rewrite !hexdigit_value; try (apply N.mod_lt; lia). cbn. f_equal. div_lia.
Qed.

Lemma scan_unit x s :
  (x < 65536)%N → is_high x = false → scan_string (unicode_escape x +:+ s) = prepend (utf8_char x) (scan_string s).
Proof.
  intros Hx Hh. destruct (unit_of_hex x Hx) as (a & b & c & d & E & Hu).
  unfold unicode_escape. rewrite E !app_cons app_nil_string. cbn -[prepend utf8_char]. rewrite Hu Hh.
  by destruct s as [|? [|? [|? [|? [|? [|? s]]]]]].
Qed.

Lemma scan_pair x y s :
  is_high x = true → is_low y = true →
  scan_string (unicode_escape x +:+ unicode_escape y +:+ s) = prepend (utf8_char (join_units x y)) (scan_string s).
Proof.
  intros Hx Hy. assert (x < 65536 ∧ y < 65536)%N as [Hbx Hby] by (apply is_high_spec in Hx; apply is_low_spec in Hy; lia).
  destruct (unit_of_hex x Hbx) as (a & b & c & d & Ex & Hux), (unit_of_hex y Hby) as (a' & b' & c' & d' & Ey & Huy).
  unfold unicode_escape. rewrite Ex Ey !(app_cons, app_nil_string).
  cbn -[prepend utf8_char join_units]. by rewrite Hux Hx Huy Hy.
Qed.

Lemma scan_escape cp s :
  scalar cp = true → scan_string (escape cp +:+ s) = prepend (utf8_char cp) (scan_string s).
Proof.
  intros Hs. pose proof (scalar_bound _ Hs). destruct (N.ltb_spec cp 128) as [Hlt|Hge].
  - revert s. clear Hs. revert cp Hlt H. apply (below_128 (λ cp, _ → ∀ s, _)). cbn [seq fmap list_fmap].
    repeat (apply Forall_cons_2; [intros _ s; first [reflexivity | apply scan_unit; reflexivity]|]). apply Forall_nil_2.
  - unfold escape. repeat (rewrite (proj2 (N.eqb_neq _ _)); [|lia]). decide_N. cbn [andb].
    destruct (N.ltb_spec cp 65536) as [Hb|Hb].
    + apply scan_unit; [done|]. unfold scalar in Hs. destruct (is_high cp); [|done]. by rewrite andb_false_r in Hs.
    + rewrite app_string_assoc scan_pair; [|apply is_high_spec; div_lia|apply is_low_spec; div_lia].
      do 2 f_equal. unfold join_units. div_lia.
Qed.

(** A text is read back from its literal, whatever follows. *)
Lemma string_body_dump s rest :
  is_text s → string_body (foldr (λ cp s, escape cp +:+ s) "" (default [] (codepoints s)) +:+ String quote rest) = (Ret s, rest).
Proof.
  intros (cps & Hcps & ->). rewrite codepoints_utf8 //. cbn [default from_option id].
  unfold string_body. enough (scan_string (foldr (λ cp s, escape cp +:+ s) "" cps +:+ String quote rest) = Some (utf8 cps, rest)) as -> by done.
  induction Hcps as [|cp cps Hcp _ IH]; [done|]. cbn [foldr]. rewrite app_string_assoc scan_escape; [|by apply Is_true_true].
  by rewrite IH.
Qed.

(** ** The parser ends *)

(** A parser that reads at least [k] characters of what it accepts. *)
Definition reads {A} (k : nat) (m : Parser A) : Prop :=
  ∀ s a rest, m s = (Ret a, rest) → (String.length rest + k <= String.length s)%nat.

Lemma reads_bind {A B} k (m : Parser A) (f : A → Parser B) :
  reads k m → (∀ a, reads 0 (f a)) → reads k (m ≫= f).
Proof.
  intros Hm Hf s b rest. rewrite run_bind. destruct (m s) as [[a|e] s'] eqn:E; [|done]. intros Hb.
  apply Hm in E. apply Hf in Hb. lia.
Qed.

(** When the first step may read nothing. *)
Lemma reads_then {A B} (m : Parser A) (f : A → Parser B) :
  reads 0 m → (∀ a, reads 1 (f a)) → reads 1 (m ≫= f).
Proof.
  intros Hm Hf s b rest. rewrite run_bind. destruct (m s) as [[a|e] s'] eqn:E; [|done]. intros Hb.
  apply Hm in E. apply Hf in Hb. lia.
Qed.

Lemma reads_some {A} (m : Parser A) : reads 1 m → reads 0 m.
Proof. intros Hm s a rest E. apply Hm in E. lia. Qed.

Lemma reads_ret {A} (a : A) : reads 0 (mret a).
Proof. intros s b rest [= _ ->]. lia. Qed.
Lemma reads_raise {A} k e : reads k (raise e : Parser A).
Proof. done. Qed.
Lemma reads_expecting {A} k : reads k (@expecting A).
Proof. done. Qed.
Lemma reads_gets {A} (f : string → A) : reads 0 (gets f).
Proof. intros s a rest [= _ ->]. lia. Qed.

Lemma lstrip_length P s : (String.length (lstrip_by P s) <= String.length s)%nat.
Proof. induction s as [|c s IH]; cbn; [done|]. destruct (P c); cbn; lia. Qed.
Lemma reads_skip : reads 0 skip_space.
Proof. intros s a rest [= _ <-]. pose proof (lstrip_length json_space s). lia. Qed.
Lemma reads_next : reads 1 next.
Proof. intros [|c s] a rest; [done|]. intros [= _ ->]. cbn. lia. Qed.

Lemma prepend_reads l s v rest :
  (∀ v rest, scan_string s = Some (v, rest) → (String.length rest + 1 <= String.length s)%nat) →
  prepend l (scan_string s) = Some (v, rest) → (String.length rest + 1 <= String.length s)%nat.
Proof. intros IH. destruct (scan_string s) as [[v' r']|] eqn:E; [|done]. cbn. intros [= _ ->]. by eapply IH. Qed.

Lemma scan_string_reads n s v rest :
  (String.length s <= n)%nat → scan_string s = Some (v, rest) → (String.length rest + 1 <= String.length s)%nat.
Proof.
  revert s v rest. induction n as [|n IH]; intros [|c s] v rest Hn; cbn [String.length] in Hn; [done|lia|done|].
  assert (∀ l s' v rest, (String.length s' <= n)%nat → prepend l (scan_string s') = Some (v, rest) →
            (String.length rest + 1 <= String.length s')%nat) as Hp.
  { intros l s' ?? Hs'. apply prepend_reads. intros ??. by apply IH. }
  clear IH. cbn -[prepend utf8_char join_units is_high Nat.ltb]. intros H.
  destruct (Ascii.eqb c quote); [simplify_eq/=; lia|].
  destruct (Ascii.eqb c backslash); [|destruct (code c <? 32)%nat; [done|apply Hp in H; lia]].
  destruct s as [|e s]; [done|]. cbn [String.length] in *. destruct (Ascii.eqb e "u").
  2: { destruct (simple_escape e); [|done]. apply Hp in H; lia. }
  destruct s as [|a [|b [|c' [|d s]]]]; try done. cbn [String.length] in *. destruct (unit_of a b c' d) as [cu|]; [|done].
  destruct s as [|b1 [|u1 [|a' [|b' [|c'' [|d' s]]]]]]; cbn [String.length] in *; try (apply Hp in H; cbn [String.length] in *; lia).
  destruct (is_high cu && Ascii.eqb b1 backslash && Ascii.eqb u1 "u"); [|apply Hp in H; cbn [String.length] in *; lia].
  destruct (unit_of a' b' c'' d') as [cu'|]; [|done].
  destruct (is_low cu'); apply Hp in H; cbn [String.length] in *; lia.
Qed.

Lemma reads_string : reads 1 string_body.
Proof.
  intros s a rest. unfold string_body. destruct (scan_string s) as [[v r]|] eqn:E; [|done]. intros [= _ ->].
  by eapply scan_string_reads.
Qed.

Lemma after_prefix_length word s rest :
  after_prefix word s = Some rest → (String.length rest + String.length word = String.length s)%nat.
Proof.
  revert s. induction word as [|a word IH]; intros s; cbn; [intros [= ->]; lia|].
  destruct s as [|b s]; [done|]. destruct (Ascii.eqb a b); [|done]. intros H%IH. cbn. lia.
Qed.
Lemma reads_keyword word value : word ≠ "" → reads 1 (keyword word value).
Proof.
  intros Hw s a rest. unfold keyword. destruct (after_prefix word s) as [r|] eqn:E; [|done]. intros [= _ ->].
  apply after_prefix_length in E. destruct word; [done|]. cbn in E. lia.
Qed.

Lemma span_length P s : (String.length (span P s).1 + String.length (span P s).2 = String.length s)%nat.
Proof. induction s as [|c s IH]; cbn; [done|]. destruct (P c); [|done]. destruct (span P s). cbn in *. lia. Qed.

Lemma sign_of_length signs s : (String.length (sign_of signs s).2 <= String.length s)%nat.
Proof. destruct s as [|c s]; cbn; [done|]. destruct (signs c); cbn; lia. Qed.

Lemma integer_part_reads s l r : integer_part s = Some (l, r) → (String.length r + 1 <= String.length s)%nat.
Proof.
  destruct s as [|c s]; [done|]. cbn. destruct (Ascii.eqb c "0"); [intros [= _ ->]; lia|].
  destruct (is_digit c); [|done]. pose proof (span_length is_digit s) as Hl. destruct (span is_digit s).
  intros [= _ ->]. cbn in Hl. lia.
Qed.

Lemma fraction_reads s : (String.length (fraction s).2 <= String.length s)%nat.
Proof.
  destruct s as [|p [|c s]]; cbn -[span]; [done..|]. destruct (Ascii.eqb p "." && is_digit c); [|done].
  pose proof (span_length is_digit (String c s)) as Hl. destruct (span is_digit (String c s)). cbn in *. lia.
Qed.

Lemma exponent_reads s : (String.length (exponent s).2 <= String.length s)%nat.
Proof.
  destruct s as [|e s]; cbn; [done|]. destruct (Ascii.eqb e "e" || Ascii.eqb e "E"); [|done].
  pose proof (sign_of_length (λ c, Ascii.eqb c "+" || Ascii.eqb c "-") s) as Hs. destruct (sign_of _ s) as [sg ds].
  pose proof (span_length is_digit ds) as Hl. destruct (span is_digit ds) as [[|d l] r]; cbn in *; lia.
Qed.

Lemma reads_number : reads 1 number.
Proof.
  intros s a rest. unfold number. pose proof (sign_of_length (λ c, Ascii.eqb c "-") s) as Hs.
  destruct (sign_of _ s) as [sign s']. pose proof (integer_part_reads s') as Hi.
  destruct (integer_part s') as [[digits r]|]; [|done]. specialize (Hi _ _ eq_refl).
  pose proof (fraction_reads r) as Hf. destruct (fraction r) as [frac r'].
  pose proof (exponent_reads r') as He. destruct (exponent r') as [exp r'']. cbn in *.
  intros H. repeat (case_match; try done); simplify_eq/=; lia.
Qed.

#[local] Hint Resolve reads_some reads_ret reads_raise reads_expecting reads_gets reads_skip reads_next reads_string reads_number : reads.
Ltac solve_reads :=
  intros; first
    [ solve [eauto 3 with reads]
    | match goal with |- reads _ (if ?b then _ else _) => destruct b; solve_reads end
    | apply reads_bind; [solve [eauto 3 with reads]|solve_reads]
    | apply reads_then; [solve [eauto 3 with reads]|solve_reads] ].

Section containers.
Context (value : Parser json) (Hvalue : reads 1 value).
#[local] Hint Resolve Hvalue : reads.

Lemma reads_elements fuel : reads 1 (array_elements value fuel).
Proof. induction fuel as [|fuel IH]; [done|]. cbn [array_elements]. solve_reads. Qed.

Lemma reads_members fuel d : reads 1 (members value fuel d).
Proof. revert d. induction fuel as [|fuel IH]; intros d; [done|]. cbn [members]. solve_reads. Qed.

#[local] Hint Resolve reads_elements reads_members : reads.
Lemma reads_array fuel : reads 0 (array value fuel).
Proof. unfold array. solve_reads. Qed.
Lemma reads_object fuel : reads 0 (object value fuel).
Proof. unfold object. solve_reads. Qed.
End containers.

Lemma reads_scan fuel depth : reads 1 (scan_once fuel depth).
Proof.
  induction depth as [|depth IH]; intros [|c s] a rest; [done| |done|]; cbn -[keyword number String.prefix];
  repeat match goal with
    | |- (if ?b then _ else _) _ = _ → _ => destruct b
    | |- (if ?b then _ else _) = _ → _ => destruct b
    end; try done; try (by apply reads_keyword); try apply reads_number.
  - intros H. apply (reads_bind 1 string_body) in H; [cbn; lia|apply reads_string|solve_reads].
  - intros H. apply (reads_bind 1 string_body) in H; [cbn; lia|apply reads_string|solve_reads].
  - intros H%reads_object; [cbn; lia|done].
  - intros H%reads_array; [cbn; lia|done].
Qed.

(** Parsers that do the same on texts of at most [n] characters. *)
Definition agree {A} (n : nat) (m1 m2 : Parser A) : Prop := ∀ s, (String.length s <= n)%nat → m1 s = m2 s.

Lemma agree_refl {A} n (m : Parser A) : agree n m m.
Proof. done. Qed.
Lemma agree_le {A} n n' (m1 m2 : Parser A) : (n' <= n)%nat → agree n m1 m2 → agree n' m1 m2.
Proof. intros Hn H s Hs. apply H. lia. Qed.

Lemma agree_bind {A B} n (m1 m2 : Parser A) (f1 f2 : A → Parser B) :
  agree n m1 m2 → reads 0 m1 → (∀ a, agree n (f1 a) (f2 a)) → agree n (m1 ≫= f1) (m2 ≫= f2).
Proof.
  intros Hm Hr Hf s Hs. rewrite !run_bind -(Hm _ Hs). destruct (m1 s) as [[a|e] s'] eqn:E; [|done].
  apply Hr in E. apply Hf. lia.
Qed.

Lemma agree_bind_read {A B} n (m1 m2 : Parser A) (f1 f2 : A → Parser B) :
  agree n m1 m2 → reads 1 m1 → (∀ a n', n = S n' → agree n' (f1 a) (f2 a)) → agree n (m1 ≫= f1) (m2 ≫= f2).
Proof.
  intros Hm Hr Hf s Hs. rewrite !run_bind -(Hm _ Hs). destruct (m1 s) as [[a|e] s'] eqn:E; [|done].
  apply Hr in E. destruct n as [|n']; [lia|]. apply (Hf a n'); lia.
Qed.

Section containers_agree.
Context (v1 v2 : Parser json) (n : nat) (Hv : agree n v1 v2) (Hr : reads 1 v1).

Lemma agree_elements k f1 f2 :
  (k <= n)%nat → (k < f1)%nat → (k < f2)%nat → agree k (array_elements v1 f1) (array_elements v2 f2).
Proof.
  revert k f2. induction f1 as [|f1 IH]; intros k [|f2] Hk H1 H2; [lia..|]. cbn [array_elements].
  apply agree_bind_read; [by eapply agree_le|done|]. intros v k' ->.
  apply agree_bind; [done|apply reads_skip|]. intros []. apply agree_bind; [done|solve_reads|]. intros c.
  destruct (Ascii.eqb c "]"); [done|]. destruct (Ascii.eqb c ","); [|done].
  apply agree_bind; [done|apply reads_skip|]. intros [].
  apply agree_bind; [apply IH; lia|apply reads_some, reads_elements, Hr|done].
Qed.

Lemma agree_members k f1 f2 d :
  (k <= n)%nat → (k < f1)%nat → (k < f2)%nat → agree k (members v1 f1 d) (members v2 f2 d).
Proof.
  revert k f2 d. induction f1 as [|f1 IH]; intros k [|f2] d Hk H1 H2; [lia..|]. cbn [members].
  apply agree_bind_read; [done|apply reads_next|]. intros c k' ->. destruct (negb _); [done|].
  apply agree_bind; [done|solve_reads|]. intros key. apply agree_bind; [done|apply reads_skip|]. intros [].
  apply agree_bind; [done|solve_reads|]. intros c'. destruct (negb _); [done|].
  apply agree_bind; [done|apply reads_skip|]. intros []. apply agree_bind; [eapply agree_le; [|done]; lia|by apply reads_some|]. intros v.
  apply agree_bind; [done|apply reads_skip|]. intros []. apply agree_bind; [done|solve_reads|]. intros c''.
  destruct (Ascii.eqb c'' "}"); [done|]. destruct (Ascii.eqb c'' ","); [|done].
  apply agree_bind; [done|apply reads_skip|]. intros []. apply IH; lia.
Qed.

Lemma agree_array f1 f2 : (n < f1)%nat → (n < f2)%nat → agree n (array v1 f1) (array v2 f2).
Proof.
  intros H1 H2. unfold array. apply agree_bind; [done|apply reads_skip|]. intros [].
  apply agree_bind; [done|apply reads_gets|]. intros [|]; [done|].
  apply agree_bind; [by apply agree_elements|apply reads_some, reads_elements, Hr|done].
Qed.
Lemma agree_object f1 f2 : (n < f1)%nat → (n < f2)%nat → agree n (object v1 f1) (object v2 f2).
Proof.
  intros H1 H2. unfold object. apply agree_bind; [done|apply reads_skip|]. intros [].
  apply agree_bind; [done|apply reads_gets|]. intros [|]; [done|].
  apply agree_bind; [by apply agree_members|apply reads_some, reads_members, Hr|done].
Qed.
End containers_agree.

Lemma agree_scan depth n f1 f2 :
  (n < f1)%nat → (n < f2)%nat → agree n (scan_once f1 depth) (scan_once f2 depth).
Proof.
  intros H1 H2. induction depth as [|depth IH]; intros [|c s] Hs; cbn -[keyword number String.prefix string_body]; [done..| |];
    [done|]. cbn in Hs.
  destruct (Ascii.eqb c quote); [done|]. destruct (Ascii.eqb c "{"); [|destruct (Ascii.eqb c "["); [|done]].
  - apply (agree_object _ _ n); [done|apply reads_scan|done..|lia].
  - apply (agree_array _ _ n); [done|apply reads_scan|done..|lia].
Qed.

(** The loops of the parser end: no amount of fuel beyond the length of the text
    changes what [loads] does, so it never stops for the lack of it. *)
Theorem loads_ends fuel depth s : (String.length s < fuel)%nat → loads_with fuel depth s = loads depth s.
Proof.
  intros Hf. unfold loads, loads_with, result_of. f_equal. apply (agree_bind (String.length s)); [done|apply reads_skip| |done].
  intros []. apply agree_bind; [by apply agree_scan; lia|apply reads_some, reads_scan|done].
Qed.

(** ** Printing and parsing *)

(** At most 4300 digits. *)
Definition short_int (z : Z) : Prop := (Z.abs_N z < 10 ^ N.of_nat 4300)%N.

(** What [float.__repr__] writes: digits without leading zeros, a fraction or an
    exponent or both, a sign; or one of the three that are no number. *)
Definition int_literal (s : string) : Prop :=
  s = "0" ∨ ∃ c t, s = String c t ∧ Ascii.eqb c "0" = false ∧ str_forall is_digit s = true.
Definition frac_literal (s : string) : Prop :=
  ∃ c t, s = String "." (String c t) ∧ str_forall is_digit (String c t) = true.
Definition exp_literal (s : string) : Prop :=
  ∃ e sign c t, s = String e (sign +:+ String c t) ∧ (e = "e" ∨ e = "E")%char ∧ sign ∈ [""; "+"; "-"] ∧
    str_forall is_digit (String c t) = true.
Definition float_literal (s : string) : Prop :=
  s ∈ ["NaN"; "Infinity"; "-Infinity"] ∨
  ∃ sign int frac exp, s = sign +:+ int +:+ frac +:+ exp ∧ sign ∈ [""; "-"] ∧ int_literal int ∧
    (frac_literal frac ∧ (exp = "" ∨ exp_literal exp) ∨ frac = "" ∧ exp_literal exp).

(** What [dumps] writes so that [loads] reads it back, within [depth] levels of
    nesting: floats as [repr] writes them, integers of at most 4300 digits, text
    without surrogates, objects without repeated keys. *)
Fixpoint printable (depth : nat) (j : json) : Prop :=
  match j with
  | JFloat literal => float_literal literal
  | JInt z => short_int z
  | JStr s => is_text s
  | JNull | JBool _ => True
  | JList l => match depth with O => False | S depth => Forall (printable depth) l end
  | JObj d =>
      match depth with
      | O => False
      | S depth => NoDup (dict_keys d) ∧ Forall (λ kv, is_text kv.1 ∧ printable depth kv.2) d
      end
  end.

(** The value with the members of its objects in the order they are written. *)
Fixpoint ordered (o : DumpOptions) (j : json) : json :=
  match j with
  | JList l => JList (map (ordered o) l)
  | JObj d => JObj (dump_items o (map (λ '(key, value), (key, ordered o value)) d))
  | _ => j
  end.

(** Separators that are white space around the comma and the colon. *)
Definition separators_ok (o : DumpOptions) : Prop :=
  ∃ after_comma after_colon, str_forall json_space after_comma = true ∧ str_forall json_space after_colon = true ∧
    item_separator o = "," +:+ after_comma ∧ key_separator o = ":" +:+ after_colon.

(** A text in which a number ends at once. *)
Definition number_ends (rest : string) : Prop :=
  match rest with "" => True | String c _ => is_digit c || existsb (Ascii.eqb c) ["."; "e"; "E"]%char = false end.

Lemma span_all P s rest : str_forall P s = true → match rest with "" => True | String c _ => P c = false end →
  span P (s +:+ rest) = (s, rest).
Proof.
  intros Hs Hr. induction s as [|c s IH].
  - rewrite app_nil_string. destruct rest as [|c rest]; [done|]. cbn. by rewrite Hr.
  - cbn in Hs. apply andb_true_iff in Hs as [Hc Hs]. rewrite app_cons. cbn. by rewrite Hc IH.
Qed.

Lemma pretty_pos (x : N) : (x ≠ 0)%N → pretty x = pretty_N_go x "".
Proof. intros Hx. unfold pretty, pretty_N. by rewrite decide_False. Qed.

Lemma pretty_N_head x s : (x ≠ 0)%N → ∃ c t, pretty_N_go x s = String c t ∧ is_digit c = true ∧ Ascii.eqb c "0" = false.
Proof.
  revert s. induction (N.lt_wf_0 x) as [x _ IH]; intros s Hx. rewrite pretty_N_go_step; [|lia].
  destruct (decide (x / 10 = 0)%N) as [E|E]; [|apply IH; [by apply N.div_lt; lia|done]].
  rewrite E pretty_N_go_0. eexists _, _. split; [done|]. assert (x < 10)%N by div_lia. rewrite N.mod_small //.
  assert (x = 1 ∨ x = 2 ∨ x = 3 ∨ x = 4 ∨ x = 5 ∨ x = 6 ∨ x = 7 ∨ x = 8 ∨ x = 9)%N as Hc by lia.
  destruct_or! Hc; by subst.
Qed.

Lemma number_ends_spec rest :
  number_ends rest → match rest with "" => True | String c _ => is_digit c = false end ∧
    fraction rest = ("", rest) ∧ exponent rest = ("", rest).
Proof.
  destruct rest as [|c rest]; [done|]. unfold number_ends. cbn [existsb]. rewrite !orb_false_iff.
  intros (Hd & H1 & H2 & H3 & _). split; [done|]. unfold fraction, exponent. rewrite H1 H2 H3. by destruct rest.
Qed.

Lemma py_int_minus s n :
  str_forall is_digit s = true → int_digits 0 0 false s = Some n → py_int (String "-" s) = Some (- n).
Proof.
  intros Hs Hn. unfold py_int. rewrite strip_none; [by rewrite Hn|]. cbn [str_forall]. by rewrite digit_not_space.
Qed.

Lemma int_digits_short x : (0 < x)%N → (x < 10 ^ N.of_nat 4300)%N → int_digits 0 0 false (pretty_N_go x "") = Some (Z.of_N x).
Proof.
  intros Hpos Hx. destruct (int_digits_pretty _ x Hx) as (k & Hk & _ & Hk1 & Hgo). specialize (Hk1 ltac:(lia)).
  rewrite Hgo. cbn [int_digits orb]. rewrite bool_decide_eq_true_2 //. by rewrite (proj2 (Nat.leb_le _ _)).
Qed.

Lemma number_pretty z rest :
  short_int z → number_ends rest → number (pretty z +:+ rest) = (Ret (JInt z), rest).
Proof.
  intros Hz Hrest. destruct (number_ends_spec rest Hrest) as (Hd & Hf & He).
  assert (∀ x, (0 < x)%N → ∃ c t, pretty x = String c t ∧ is_digit c = true ∧ Ascii.eqb c "0" = false ∧
            pretty x = pretty_N_go x "" ∧ span is_digit (String c (t +:+ rest)) = (String c t, rest)) as Hp.
  { intros x Hx. destruct (pretty_N_head x "") as (c & t & E & Hc & H0); [lia|].
    assert (pretty x = pretty_N_go x "") as Ep by (apply pretty_pos; lia).
    exists c, t. rewrite Ep. split_and!; try done. rewrite -app_cons. apply span_all; [|done]. rewrite -E. by apply pretty_digits. }
  destruct z as [|p|p].
  - change (pretty 0) with "0". unfold number. rewrite app_cons app_nil_string. cbn. by rewrite Hf He.
  - destruct (Hp (Npos p)) as (c & t & E & Hc & H0 & Ep & Hspan); [lia|]. change (pretty (Zpos p)) with (pretty (Npos p)).
    rewrite E app_cons. unfold number. cbn [sign_of].
    destruct (Ascii.eqb_spec c "-") as [->|]; [done|]. cbn [integer_part]. rewrite H0 Hc Hspan Hf He.
    rewrite app_nil_string -E Ep. rewrite (py_int_digits _ (Z.pos p)); [done|by apply pretty_digits|].
    by apply (int_digits_short (Npos p)).
  - destruct (Hp (Npos p)) as (c & t & E & Hc & H0 & Ep & Hspan); [lia|].
    change (pretty (Zneg p)) with ("-" +:+ pretty (Npos p)). rewrite app_string_assoc E !app_cons app_nil_string.
    unfold number. cbn [sign_of]. change (Ascii.eqb "-" "-") with true. cbn iota. cbn [integer_part]. rewrite H0 Hc Hspan Hf He.
    rewrite !app_cons app_nil_string -E Ep. rewrite (py_int_minus _ (Z.pos p)); [done|by apply pretty_digits|].
    by apply (int_digits_short (Npos p)).
Qed.

Definition no_digit_ahead (rest : string) : Prop := match rest with "" => True | String c _ => is_digit c = false end.

Lemma digits_head c t : str_forall is_digit (String c t) = true → is_digit c = true.
Proof. cbn. by intros [? _]%andb_true_iff. Qed.

Lemma int_literal_head int : int_literal int → ∃ c t, int = String c t ∧ is_digit c = true.
Proof. intros [->|(c & t & -> & _ & Hd)]; [by eexists _, _|]. exists c, t. split; [done|]. by eapply digits_head. Qed.

Lemma integer_part_literal int rest :
  int_literal int → no_digit_ahead rest → integer_part (int +:+ rest) = Some (int, rest).
Proof.
  intros [->|(c & t & -> & H0 & Hd)] Hr; [done|]. rewrite app_cons. cbn [integer_part].
  rewrite H0 (digits_head c t Hd) -app_cons. by rewrite span_all.
Qed.

Lemma fraction_literal frac rest : frac_literal frac → no_digit_ahead rest → fraction (frac +:+ rest) = (frac, rest).
Proof.
  intros (c & t & -> & Hd) Hr. rewrite !app_cons. cbn [fraction].
  rewrite Ascii.eqb_refl (digits_head c t Hd) -app_cons. cbn [andb]. by rewrite span_all.
Qed.

Lemma exponent_literal exp rest : exp_literal exp → no_digit_ahead rest → exponent (exp +:+ rest) = (exp, rest).
Proof.
  intros (e & sign & c & t & -> & He & Hsign & Hd) Hr. rewrite app_cons app_string_assoc. cbn [exponent].
  assert (Ascii.eqb e "e" || Ascii.eqb e "E" = true) as -> by (by destruct He as [-> | ->]).
  assert (sign_of (λ c, Ascii.eqb c "+" || Ascii.eqb c "-") (sign +:+ String c t +:+ rest) = (sign, String c t +:+ rest)) as ->.
  { rewrite !elem_of_cons elem_of_nil in Hsign. destruct Hsign as [->|[->|[->|[]]]]; [|done..]. rewrite app_nil_string app_cons. cbn [sign_of].
    apply digits_head in Hd. destruct (Ascii.eqb_spec c "+") as [->|]; [done|]. by destruct (Ascii.eqb_spec c "-") as [->|]. }
  by rewrite span_all.
Qed.

(** A float is read back, whatever follows it that is not part of a number. *)
Lemma number_float sign int frac exp rest :
  sign ∈ [""; "-"] → int_literal int →
  (frac_literal frac ∧ (exp = "" ∨ exp_literal exp) ∨ frac = "" ∧ exp_literal exp) → number_ends rest →
  number ((sign +:+ int +:+ frac +:+ exp) +:+ rest) = (Ret (JFloat (sign +:+ int +:+ frac +:+ exp)), rest).
Proof.
  intros Hsign Hint Hlit Hrest. destruct (number_ends_spec rest Hrest) as (Hd & Hf & He).
  assert (no_digit_ahead (exp +:+ rest) ∧ exponent (exp +:+ rest) = (exp, rest)) as [Hexp Hexponent].
  { assert (exp = "" ∨ exp_literal exp) as [->|Hx] by tauto; [by split|]. split; [|by apply exponent_literal].
    destruct Hx as (e & sg & c & t & -> & He' & _). rewrite app_cons. by destruct He' as [-> | ->]. }
  assert (no_digit_ahead (frac +:+ exp +:+ rest) ∧ fraction (frac +:+ exp +:+ rest) = (frac, exp +:+ rest)) as [Hfrac Hfraction].
  { destruct Hlit as [[Hx _]|[-> Hx]].
    - split; [|by apply fraction_literal]. by destruct Hx as (c & t & -> & _).
    - split; [done|]. destruct Hx as (e & sg & c & t & -> & He' & _). rewrite app_nil_string app_cons. unfold fraction.
      destruct ((sg +:+ String c t) +:+ rest); by destruct He' as [-> | ->]. }
  destruct (int_literal_head int Hint) as (c & t & Ei & Hc).
  assert (sign_of (λ c, Ascii.eqb c "-") (sign +:+ int +:+ frac +:+ exp +:+ rest) = (sign, int +:+ frac +:+ exp +:+ rest)) as Hs.
  { rewrite !elem_of_cons elem_of_nil in Hsign. destruct Hsign as [->|[->|[]]]; [|done]. rewrite app_nil_string Ei app_cons. cbn [sign_of].
    by destruct (Ascii.eqb_spec c "-") as [->|]. }
  unfold number. rewrite !app_string_assoc Hs integer_part_literal // Hfraction Hexponent.
  destruct Hlit as [[(? & ? & -> & _) _]|[-> (? & ? & ? & ? & -> & _)]]; [by destruct exp|done].
Qed.

(** *** The order of members *)

Section sort_map.
Context {A B : Type} (f : A → B) (R : relation A) (R' : relation B) `{!RelDecision R, !RelDecision R'}.
Context (HR : ∀ x y, R x y ↔ R' (f x) (f y)).

Lemma list_merge_map l1 l2 : list_merge R' (map f l1) (map f l2) = map f (list_merge R l1 l2).
Proof.
  revert l2. induction l1 as [|x l1 IH1]; intros l2; [by destruct l2|].
  induction l2 as [|y l2 IH2]; [done|]. cbn [map] in *. rewrite !list_merge_cons IH2.
  pose proof (HR x y). specialize (IH1 (y :: l2)). repeat case_decide; cbn [map] in *; [by rewrite IH1|tauto..|done].
Qed.

Lemma merge_sort_map l : merge_sort R' (map f l) = map f (merge_sort R l).
Proof.
  unfold merge_sort. change (@nil (option (list B))) with (map (fmap (M:=option) (map f)) []).
  generalize (@nil (option (list A))) as st. induction l as [|x l IH]; intros st.
  - cbn. induction st as [|[l|] st IH]; cbn; [done| |done]. by rewrite IH list_merge_map.
  - cbn. rewrite -IH. f_equal. change [f x] with (map f [x]). generalize [x] as m. clear IH.
    induction st as [|[l'|] st IH]; intros m; cbn; [done| |done]. by rewrite list_merge_map IH.
Qed.
End sort_map.

(** Sorting looks at the keys only. *)
Lemma dump_items_map {A B} o (f : string * A → string * B) d :
  (∀ kv, (f kv).1 = kv.1) → dump_items o (map f d) = map f (dump_items o d).
Proof.
  intros Hf. unfold dump_items. destruct (sort_keys o); [|done]. apply merge_sort_map. intros x y. unfold item_le. by rewrite !Hf.
Qed.

Lemma dump_items_Permutation {A} o (d : list (string * A)) : dump_items o d ≡ₚ d.
Proof. unfold dump_items. destruct (sort_keys o); [apply merge_sort_Permutation|done]. Qed.

(** ** The round trip *)

Lemma lstrip_all P ws t : str_forall P ws = true → solid P t → lstrip_by P (ws +:+ t) = t.
Proof.
  intros Hws Ht. induction ws as [|c ws IH]; [by rewrite app_nil_string lstrip_id|]. cbn in Hws. apply andb_true_iff in Hws as [Hc Hws].
  rewrite app_cons. cbn. by rewrite Hc IH.
Qed.

Lemma skip_spaces ws t :
  str_forall json_space ws = true → solid json_space t → skip_space (ws +:+ t) = (Ret tt, t).
Proof. intros Hws Ht. unfold skip_space, modify. by rewrite lstrip_all. Qed.
Lemma skip_none t : solid json_space t → skip_space t = (Ret tt, t).
Proof. apply (skip_spaces ""). done. Qed.

(** The first character of a printed value. *)
Definition starts_value (s : string) : Prop :=
  match s with "" => False | String c _ => json_space c = false ∧ Ascii.eqb c "]" = false end.

Lemma pretty_starts (z : Z) : starts_value (pretty z).
Proof.
  assert (∀ c, is_digit c = true → json_space c = false ∧ Ascii.eqb c "]" = false) as Hd.
  { intros c Hc. assert (implb (is_digit c) (negb (json_space c || Ascii.eqb c "]")) = true) as E by (clear Hc; revert c; by_chars).
    rewrite Hc in E. by apply negb_true_iff, orb_false_iff in E. }
  destruct z as [|p|p]; [done| |done]. change (pretty (Zpos p)) with (pretty (Npos p)). rewrite pretty_pos //.
  destruct (pretty_N_head (Npos p) "") as (c & t & -> & Hc & _); [done|]. by apply Hd.
Qed.

Lemma digit_starts c s : is_digit c = true → starts_value (String c s).
Proof.
  intros Hc. assert (implb (is_digit c) (negb (json_space c || Ascii.eqb c "]")) = true) as E by (clear Hc; revert c; by_chars).
  rewrite Hc in E. by apply negb_true_iff, orb_false_iff in E.
Qed.

Lemma float_starts literal : float_literal literal → starts_value literal.
Proof.
  intros [Hs|(sign & int & frac & exp & -> & Hsign & Hint & _)].
  - rewrite !elem_of_cons elem_of_nil in Hs. by destruct Hs as [->|[->|[->|[]]]].
  - destruct (int_literal_head int Hint) as (c & t & -> & Hc). rewrite !elem_of_cons elem_of_nil in Hsign.
    destruct Hsign as [->|[->|[]]]; [|done]. rewrite app_nil_string app_cons. by apply digit_starts.
Qed.

Lemma dumps_starts o depth j : printable depth j → starts_value (dumps o j).
Proof.
  destruct j as [| [] |z|literal|s|l|d]; try done; [intros _; apply pretty_starts| |by destruct depth..].
  intros Hl. apply float_starts. by destruct depth.
Qed.

Lemma starts_solid s t : starts_value s → solid json_space (s +:+ t) ∧ String.prefix "]" (s +:+ t) = false.
Proof.
  destruct s as [|c s]; [done|]. intros [Hc Hb]. rewrite app_cons. split; [done|]. cbn.
  case_match; [|done]. subst. by rewrite Ascii.eqb_refl in Hb.
Qed.

Section roundtrip.
Context (o : DumpOptions) (after_comma after_colon : string).
Context (Hcomma : str_forall json_space after_comma = true) (Hcolon : str_forall json_space after_colon = true).
Context (Hitem : item_separator o = "," +:+ after_comma) (Hkey : key_separator o = ":" +:+ after_colon).
Context (value : Parser json) (depth : nat).
(** [value] reads back what is printed in at most [n] characters. *)
Definition reads_back (n : nat) : Prop := ∀ j rest,
  printable depth j → number_ends rest → (String.length (dumps o j +:+ rest) <= n)%nat →
  value (dumps o j +:+ rest) = (Ret (ordered o j), rest).

Lemma elements_dump n fuel j l rest :
  reads_back n → (length l < fuel)%nat → Forall (printable depth) (j :: l) →
  (String.length (join (item_separator o) (map (dumps o) (j :: l)) +:+ String "]" rest) <= n)%nat →
  array_elements value fuel (join (item_separator o) (map (dumps o) (j :: l)) +:+ String "]" rest) =
    (Ret (map (ordered o) (j :: l)), rest).
Proof.
  intros Hv. revert j l. induction fuel as [|fuel IH]; intros j l Hfuel Hl Hn; [lia|].
  apply Forall_cons in Hl as [Hj Hl]. cbn [array_elements]. rewrite run_bind. destruct l as [|j' l].
  - cbn [map join]. by rewrite Hv.
  - change (join (item_separator o) (map (dumps o) (j :: j' :: l)))
      with (dumps o j +:+ item_separator o +:+ join (item_separator o) (map (dumps o) (j' :: l))) in *.
    rewrite {1}Hitem !app_string_assoc app_cons app_nil_string in Hn. rewrite {1}Hitem !app_string_assoc app_cons app_nil_string.
    rewrite Hv // run_bind skip_none // run_bind. cbn [next]. change (Ascii.eqb "," "]") with false. cbn iota.
    change (Ascii.eqb "," ",") with true. cbn iota. rewrite run_bind.
    apply Forall_cons in Hl as Hl'. destruct Hl' as [Hj' _].
    assert (solid json_space (join (item_separator o) (map (dumps o) (j' :: l)) +:+ String "]" rest)) as Hsolid.
    { cbn [map join]. destruct (map (dumps o) l); rewrite ?app_string_assoc; by apply starts_solid, (dumps_starts o depth). }
    rewrite skip_spaces // run_bind IH //; [cbn in Hfuel; lia|].
    do 2 (rewrite ?length_app_string in Hn |- *; cbn [String.length] in Hn |- *). lia.
Qed.

Definition member (kv : string * json) : string := dump_string kv.1 +:+ key_separator o +:+ dumps o kv.2.

Lemma members_dump n fuel kv d acc rest :
  reads_back n → (length d < fuel)%nat → Forall (λ kv, is_text kv.1 ∧ printable depth kv.2) (kv :: d) →
  NoDup (dict_keys (acc ++ kv :: d)) →
  (String.length (join (item_separator o) (map member (kv :: d)) +:+ String "}" rest) <= n)%nat →
  members value fuel acc (join (item_separator o) (map member (kv :: d)) +:+ String "}" rest) =
    (Ret (acc ++ map (λ '(key, value), (key, ordered o value)) (kv :: d)), rest).
Proof.
  intros Hv. revert kv d acc. induction fuel as [|fuel IH]; intros [k j] d acc Hfuel Hd Hnd Hn; [lia|].
  apply Forall_cons in Hd as [[Hk Hj] Hd]. cbn [fst snd] in Hk, Hj.
  assert (k ∉ dict_keys acc) as Hacc.
  { unfold dict_keys in Hnd. rewrite map_app in Hnd. apply NoDup_app in Hnd as (_ & Hdis & _). intros Hin.
    apply (Hdis _ Hin). left. }
  assert (∀ tail, (String.length (dumps o j +:+ tail) <= n)%nat → number_ends tail → solid json_space tail →
    members value (S fuel) acc (member (k, j) +:+ tail) =
      (c ← next; if Ascii.eqb c "}" then mret (acc ++ [(k, ordered o j)])
                 else if Ascii.eqb c "," then skip_space ;; members value fuel (acc ++ [(k, ordered o j)]) else expecting) tail) as Hstep.
  { intros tail Ht He Hs. unfold member, dump_string. cbn [fst snd members]. rewrite Hkey !(app_cons, app_nil_string, app_string_assoc) run_bind. cbn [next].
    rewrite Ascii.eqb_refl. cbn [negb]. cbn iota. rewrite run_bind.
    rewrite string_body_dump // run_bind skip_none // run_bind. cbn [next]. rewrite Ascii.eqb_refl. cbn [negb]. cbn iota.
    rewrite run_bind skip_spaces //; [|by apply starts_solid, (dumps_starts o depth)].
    rewrite run_bind Hv // run_bind skip_none //. by rewrite dict_set_last. }
  assert (String.length (dumps o j) <= String.length (member (k, j)))%nat as Hm.
  { unfold member. cbn [fst snd]. rewrite !length_app_string. lia. }
  destruct d as [|[k' j'] d].
  - cbn [map join] in *. remember (member (k, j)) as m eqn:Em. rewrite Hstep //. rewrite !length_app_string in Hn |- *. lia.
  - change (join (item_separator o) (map member ((k, j) :: (k', j') :: d)))
      with (member (k, j) +:+ item_separator o +:+ join (item_separator o) (map member ((k', j') :: d))) in *.
    remember (member (k, j)) as m eqn:Em.
    rewrite {1}Hitem !app_string_assoc app_cons app_nil_string in Hn. rewrite {1}Hitem !app_string_assoc app_cons app_nil_string.
    rewrite Hstep //; [|rewrite !length_app_string in Hn |- *; lia].
    rewrite run_bind. cbn [next]. change (Ascii.eqb "," "}") with false. cbn iota. change (Ascii.eqb "," ",") with true. cbn iota.
    rewrite run_bind skip_spaces //; [|by cbn [map join]; destruct (map member d)].
    rewrite IH //.
    + by rewrite -assoc.
    + cbn in Hfuel. lia.
    + revert Hnd. unfold dict_keys. by rewrite -assoc !map_app.
    + do 2 (rewrite ?length_app_string in Hn |- *; cbn [String.length] in Hn |- *). lia.
Qed.
End roundtrip.

Lemma join_length {A} sep (f : A → string) l :
  Forall (λ x, 1 <= String.length (f x))%nat l → (length l <= String.length (join sep (map f l)))%nat.
Proof.
  induction 1 as [|x l Hx _ IH]; [cbn; lia|]. destruct l as [|y l]; [cbn; lia|].
  change (join sep (map f (x :: y :: l))) with (f x +:+ sep +:+ join sep (map f (y :: l))).
  rewrite !length_app_string. cbn [length] in *. lia.
Qed.

Lemma dumps_nonempty o depth j : printable depth j → (1 <= String.length (dumps o j))%nat.
Proof. intros Hj%(dumps_starts o). destruct (dumps o j); [done|cbn; lia]. Qed.

Lemma member_nonempty o kv : (1 <= String.length (member o kv))%nat.
Proof. unfold member, dump_string. rewrite app_cons. cbn. lia. Qed.

Lemma scan_digit fuel depth c s : is_digit c = true → scan_once fuel depth (String c s) = number (String c s).
Proof. intros Hc. destruct depth; destruct c as [[] [] [] [] [] [] [] []]; first [discriminate Hc | reflexivity]. Qed.
Lemma scan_minus fuel depth c s :
  is_digit c = true → scan_once fuel depth (String "-" (String c s)) = number (String "-" (String c s)).
Proof. intros Hc. destruct depth; destruct c as [[] [] [] [] [] [] [] []]; first [discriminate Hc | reflexivity]. Qed.

Lemma scan_pretty fuel depth z rest :
  short_int z → number_ends rest → scan_once fuel depth (pretty z +:+ rest) = (Ret (JInt z), rest).
Proof.
  intros Hz Hr. rewrite -number_pretty //. destruct z as [|p|p]; [by apply scan_digit|..].
  - change (pretty (Zpos p)) with (pretty (Npos p)). rewrite pretty_pos //. destruct (pretty_N_head (Npos p) "") as (c & t & -> & Hc & _); [done|].
    rewrite app_cons. by apply scan_digit.
  - change (pretty (Zneg p)) with ("-" +:+ pretty (Npos p)). rewrite pretty_pos //. destruct (pretty_N_head (Npos p) "") as (c & t & -> & Hc & _); [done|].
    rewrite !(app_string_assoc, app_cons, app_nil_string). by apply scan_minus.
Qed.

Lemma scan_float fuel depth literal rest :
  float_literal literal → number_ends rest → scan_once fuel depth (literal +:+ rest) = (Ret (JFloat literal), rest).
Proof.
  intros [Hs|(sign & int & frac & exp & -> & Hsign & Hint & Hlit)] Hr.
  - rewrite !elem_of_cons elem_of_nil in Hs. destruct Hs as [->|[->|[->|[]]]]; rewrite !app_cons app_nil_string; by destruct depth, rest.
  - rewrite -(number_float sign int frac exp rest) //. destruct (int_literal_head int Hint) as (c & t & -> & Hc).
    rewrite !elem_of_cons elem_of_nil in Hsign. destruct Hsign as [->|[->|[]]]; rewrite !app_cons ?app_nil_string.
    + by apply scan_digit.
    + by apply scan_minus.
Qed.

Lemma member_items o d :
  map snd (dump_items o (map (λ '(key, value), (key, dump_string key +:+ key_separator o +:+ dumps o value)) d)) =
    map (member o) (dump_items o d).
Proof.
  rewrite dump_items_map; [|by intros []]. rewrite map_map. apply map_ext. by intros [].
Qed.

Lemma scan_reads_back o fuel depth n :
  separators_ok o → (n < fuel)%nat → reads_back o (scan_once fuel depth) depth n.
Proof.
  intros (ac & al & Hac & Hal & Hitem & Hkey) Hfuel.
  induction depth as [|depth IH]; intros j rest Hj Hr Hn; destruct j as [|[]|z|literal|s|l|d]; try done; try (by apply scan_pretty); try (by apply scan_float).
  - cbn [dumps]. unfold dump_string. rewrite !(app_cons, app_nil_string, app_string_assoc).
    cbn [scan_once]. rewrite Ascii.eqb_refl run_bind string_body_dump //.
  - cbn [dumps]. unfold dump_string. rewrite !(app_cons, app_nil_string, app_string_assoc).
    cbn [scan_once]. rewrite Ascii.eqb_refl run_bind string_body_dump //.
  - cbn [dumps] in Hn |- *. rewrite !(app_string_assoc, app_cons, app_nil_string) in Hn |- *. cbn [scan_once].
    change (Ascii.eqb "[" quote) with false. cbn iota. change (Ascii.eqb "[" "{") with false. cbn iota.
    change (Ascii.eqb "[" "[") with true. cbn iota. cbn [printable String.length] in Hj, Hn. unfold array.
    destruct l as [|j l]; [|]. { by destruct rest. }
    assert (starts_value (join (item_separator o) (map (dumps o) (j :: l)))) as Hstart.
    { apply Forall_cons in Hj as [Hj _]. apply (dumps_starts o) in Hj. cbn [map join].
      destruct (map (dumps o) l); [done|]. destruct (dumps o j); [done|]. by rewrite app_cons. }
    destruct (starts_solid _ (String "]" rest) Hstart) as [Hsolid Hprefix].
    rewrite run_bind skip_none // run_bind run_gets Hprefix run_bind.
    rewrite (elements_dump _ ac Hac Hitem _ depth n) //; [|lia].
    pose proof (join_length (item_separator o) (dumps o) (j :: l)) as Hlen. rewrite length_app_string in Hn.
    cbn [length] in Hlen. enough (S (length l) <= String.length (join (item_separator o) (map (dumps o) (j :: l))))%nat by lia.
    apply Hlen. eapply Forall_impl; [done|]. intros ?. by apply dumps_nonempty.
  - cbn [dumps ordered] in Hn |- *. rewrite member_items in Hn |- *. rewrite dump_items_map; [|by intros []].
    rewrite !(app_string_assoc, app_cons, app_nil_string) in Hn |- *. cbn [scan_once].
    change (Ascii.eqb "{" quote) with false. cbn iota. change (Ascii.eqb "{" "{") with true. cbn iota.
    cbn [printable String.length] in Hj, Hn. destruct Hj as [Hnd Hd]. unfold object.
    assert (NoDup (dict_keys (dump_items o d))) as Hnd'.
    { eapply NoDup_Permutation_proper; [|done]. unfold dict_keys. apply Permutation_map, dump_items_Permutation. }
    assert (Forall (λ kv, is_text kv.1 ∧ printable depth kv.2) (dump_items o d)) as Hd' by (by rewrite dump_items_Permutation).
    destruct (dump_items o d) as [|kv d']; [by destruct rest|].
    assert (∃ t, join (item_separator o) (map (member o) (kv :: d')) +:+ String "}" rest = String quote t) as (t & Ht).
    { assert (∃ t, member o kv = String quote t) as (t & Et) by by eexists.
      cbn [map join]. rewrite Et. destruct (map (member o) d'); rewrite !app_cons; by eexists. }
    rewrite run_bind skip_none ?Ht // run_bind run_gets -Ht. rewrite {1}Ht. change (String.prefix "}" (String quote t)) with false.
    cbn iota. rewrite run_bind (members_dump _ ac al Hac Hal Hitem Hkey _ depth n) //; [|lia].
    rewrite length_app_string in Hn. pose proof (join_length (item_separator o) (member o) (kv :: d')) as Hlen. cbn [length] in Hlen.
    enough (S (length d') <= String.length (join (item_separator o) (map (member o) (kv :: d'))))%nat by lia.
    apply Hlen, Forall_true. intros ?. apply member_nonempty.
Qed.

(** What [json.dumps] writes, [json.loads] reads back: the same value, its
    members in the order in which they were written. *)
Lemma loads_dumps o depth j :
  separators_ok o → printable depth j → loads depth (dumps o j) = Ret (ordered o j).
Proof.
  intros Ho Hj. unfold loads, loads_with, result_of. rewrite -(app_string_nil_r (dumps o j)).
  destruct (starts_solid (dumps o j) "") as [Hs _]; [by eapply dumps_starts|].
  rewrite run_bind skip_none // run_bind (scan_reads_back o _ depth (String.length (dumps o j +:+ "")) Ho) //. lia.
Qed.

(** Without [sort_keys] the order is the dict's. *)
Lemma ordered_id o depth j : sort_keys o = false → printable depth j → ordered o j = j.
Proof.
  intros Ho. revert j. induction depth as [|depth IH]; intros [| | | | |l|d]; try done; cbn [printable ordered].
  - intros Hl. f_equal. rewrite -{2}(map_id l). apply map_ext_Forall. eapply Forall_impl; [done|]. intros ?. by apply IH.
  - intros [_ Hd]. unfold dump_items. rewrite Ho. f_equal. rewrite -{2}(map_id d). apply map_ext_Forall.
    eapply Forall_impl; [done|]. intros [k v] [_ Hv]. cbn in *. by rewrite IH.
Qed.

Lemma compact_ok : separators_ok compact.
Proof. by exists "", "". Qed.
Lemma default_ok b : separators_ok (mkDump ", " ": " b).
Proof. by exists " ", " ". Qed.
#[export] Hint Resolve compact_ok default_ok : app.

(** *** The output is ASCII *)

Lemma code_N c : code c = N.to_nat (N_of_ascii c).
Proof. done. Qed.

Lemma is_text_ascii s : str_forall is_ascii s = true → is_text s.
Proof.
  induction s as [|c s IH]; cbn -[is_ascii]; [by exists []|]. intros [Hc Hs]%andb_true_iff. destruct (IH Hs) as (cps & Hcps & ->).
  unfold is_ascii in Hc. rewrite code_N in Hc. apply Nat.ltb_lt in Hc. exists (N_of_ascii c :: cps).
  split.
  - constructor; [|done]. apply Is_true_true. unfold scalar, is_high, is_low. by decide_N.
  - cbn. unfold utf8_char. decide_N. by rewrite ascii_N_embedding.
Qed.

Lemma utf8_decode_text s : is_text s → utf8_decode s = Ret s.
Proof. intros (cps & Hcps & ->). unfold utf8_decode. by rewrite codepoints_utf8. Qed.

Lemma ascii_of_class (P : ascii → bool) s :
  (∀ c, implb (P c) (is_ascii c) = true) → str_forall P s = true → str_forall is_ascii s = true.
Proof. intros HP. apply str_forall_impl. intros c Hc. specialize (HP c). by rewrite Hc in HP. Qed.

(** A character [json.dumps] writes itself: no control character, no line break. *)
Definition visible (c : ascii) : bool := between 32 126 c.

Lemma visible_ascii s : str_forall visible s = true → str_forall is_ascii s = true.
Proof. apply ascii_of_class. by_chars. Qed.

Lemma visible_of_class (P : ascii → bool) s :
  (∀ c, implb (P c) (visible c) = true) → str_forall P s = true → str_forall visible s = true.
Proof. intros HP. apply str_forall_impl. intros c Hc. specialize (HP c). by rewrite Hc in HP. Qed.

Lemma hex_visible n x : str_forall visible (hex n x) = true.
Proof. apply (visible_of_class is_hex); [by_chars|apply hex_is_hex]. Qed.

Lemma escape_visible cp : str_forall visible (escape cp) = true.
Proof.
  unfold escape. repeat (case_match; [done|]). case_match.
  - match goal with H : _ && _ = true |- _ => apply andb_true_iff in H as [?%N.leb_le ?%N.leb_le] end. cbn -[visible]. rewrite andb_true_r.
    unfold visible, between. rewrite code_N code_of_N; [|lia]. apply andb_true_iff. split; apply Nat.leb_le; lia.
  - case_match; unfold unicode_escape; rewrite ?str_forall_app; cbn -[visible hex]; by rewrite !hex_visible.
Qed.

Lemma dump_string_visible s : str_forall visible (dump_string s) = true.
Proof.
  unfold dump_string. cbn [str_forall]. rewrite str_forall_app andb_true_r. change (visible quote) with true. cbn [andb].
  induction (default [] (codepoints s)) as [|cp l IH]; [done|]. cbn [foldr]. by rewrite str_forall_app escape_visible.
Qed.

Lemma dump_string_ascii s : str_forall is_ascii (dump_string s) = true.
Proof. apply visible_ascii, dump_string_visible. Qed.

Lemma pretty_visible (z : Z) : str_forall visible (pretty z) = true.
Proof.
  assert (∀ x : N, (x ≠ 0)%N → str_forall visible (pretty x) = true) as Hp.
  { intros x Hx. rewrite pretty_pos //. apply (visible_of_class is_digit); [by_chars|]. by apply pretty_digits. }
  destruct z as [|p|p]; [done|by apply (Hp (Npos p))|]. change (pretty (Zneg p)) with ("-" +:+ pretty (Npos p)).
  rewrite str_forall_app. by rewrite Hp.
Qed.

Lemma join_forall P sep l :
  str_forall P sep = true → Forall (λ s, str_forall P s = true) l → str_forall P (join sep l) = true.
Proof.
  intros Hsep. induction 1 as [|x l Hx Hl IH]; [done|]. destruct l as [|y l]; [done|].
  change (join sep (x :: y :: l)) with (x +:+ sep +:+ join sep (y :: l)). by rewrite !str_forall_app Hx Hsep IH.
Qed.

Lemma float_visible literal : float_literal literal → str_forall visible literal = true.
Proof.
  assert (∀ s, str_forall is_digit s = true → str_forall visible s = true) as Hd by (intros s; apply visible_of_class; by_chars).
  intros [Hs|(sign & int & frac & exp & -> & Hsign & Hint & Hlit)].
  - rewrite !elem_of_cons elem_of_nil in Hs. by destruct Hs as [->|[->|[->|[]]]].
  - assert (exp_literal exp → str_forall visible exp = true) as Hexp.
    { intros (e & sg & c & t & -> & He & Hsg & Hx). cbn [str_forall]. rewrite str_forall_app (Hd _ Hx).
      rewrite !elem_of_cons elem_of_nil in Hsg. by destruct He as [-> | ->], Hsg as [->|[->|[->|[]]]]. }
    assert (str_forall visible int = true) as Hi by (destruct Hint as [->|(c & t & -> & _ & Hx)]; [done|by apply Hd]).
    rewrite !str_forall_app Hi. rewrite !elem_of_cons elem_of_nil in Hsign.
    assert (str_forall visible sign = true) as -> by (by destruct Hsign as [->|[->|[]]]). cbn [andb].
    destruct Hlit as [[(c & t & -> & Hx) [->|He]]|[-> He]].
    + change (visible "." && str_forall visible (String c t) && true = true). by rewrite (Hd _ Hx).
    + change (visible "." && str_forall visible (String c t) && str_forall visible exp = true). by rewrite (Hd _ Hx) Hexp.
    + by rewrite Hexp.
Qed.

(** The output has no character but visible ones and those of the separators. *)
Lemma dumps_forall P o depth j :
  (∀ c, implb (visible c) (P c) = true) →
  str_forall P (item_separator o) = true → str_forall P (key_separator o) = true →
  printable depth j → str_forall P (dumps o j) = true.
Proof.
  intros HP Hi Hk.
  assert (∀ s, str_forall visible s = true → str_forall P s = true) as Hv.
  { intros s. apply str_forall_impl. intros c Hc. specialize (HP c). by rewrite Hc in HP. }
  assert (∀ a b s, str_forall visible a = true → str_forall visible b = true → str_forall P s = true →
    str_forall P (a +:+ s +:+ b) = true) as Hab by (intros a b s Ha Hb Hs; by rewrite !str_forall_app (Hv a Ha) (Hv b Hb) Hs).
  revert j. induction depth as [|depth IH]; intros [| [] |z|literal|s|l|d]; try done; cbn [printable dumps];
    try (intros Hl; by apply Hv, float_visible); try (intros _; by apply Hv); try (intros _; apply Hv, pretty_visible); try (intros _; apply Hv, dump_string_visible).
  - intros Hl. apply Hab; [done..|]. apply join_forall; [done|]. apply Forall_map.
    eapply Forall_impl; [done|]. intros j. apply IH.
  - rewrite member_items. intros [_ Hd]. apply Hab; [done..|]. apply join_forall; [done|]. apply Forall_map.
    rewrite dump_items_Permutation. eapply Forall_impl; [done|]. intros kv [_ Hkv]. unfold member.
    by rewrite !str_forall_app Hv ?dump_string_visible // Hk IH.
Qed.

Lemma dumps_ascii o depth j :
  separators_ok o → printable depth j → str_forall is_ascii (dumps o j) = true.
Proof.
  intros (ac & al & Hac & Hal & Hitem & Hkey). 
  assert (∀ s, str_forall json_space s = true → str_forall is_ascii s = true) as Hs by (intros s; apply ascii_of_class; by_chars).
  intros Hj. apply (dumps_forall _ _ depth); [by_chars|rewrite Hitem str_forall_app (Hs ac) //|rewrite Hkey str_forall_app (Hs al) //|done].
Qed.

(** What [json.dumps] writes by default is one line. *)
Lemma dumps_visible depth j : printable depth j → str_forall visible (dumps default_options j) = true.
Proof. intros Hj. by apply (dumps_forall _ _ depth); [by_chars|..]. Qed.

(** ** What the parser can raise *)

Definition raises_only {A} (P : exn → Prop) (m : Parser A) : Prop := ∀ s e s', m s = (Raise e, s') → P e.
(** Not JSON, an integer of too many digits, too deep. *)
Definition loads_error (e : exn) : Prop :=
  e = JSONDecodeError ∨ (∃ what, e = ValueError what) ∨ e = RecursionError.

Section raises.
Abbreviation safe := (raises_only loads_error).

Lemma parser_safe_bind {A B} (m : Parser A) (f : A → Parser B) : safe m → (∀ a, safe (f a)) → safe (m ≫= f).
Proof.
  intros Hm Hf s e s'. rewrite run_bind. destruct (m s) as [[a|e'] s1] eqn:E; [apply Hf|]. intros [= <- <-]. by eapply Hm.
Qed.
Lemma safe_result {A} (m : Parser A) s e : safe m → result_of m s = Raise e → loads_error e.
Proof. intros Hm. unfold result_of. destruct (m s) as [r s'] eqn:E. cbn. intros ->. by eapply Hm. Qed.
Lemma safe_ret {A} (a : A) : safe (mret a : Parser A).
Proof. done. Qed.
Lemma safe_gets {A} (f : string → A) : safe (gets f).
Proof. done. Qed.
Lemma safe_skip : safe skip_space.
Proof. done. Qed.
Lemma safe_expecting {A} : safe (@expecting A).
Proof. intros s e s' [= <- <-]. by left. Qed.
Lemma safe_next : safe next.
Proof. intros [|c s] e s' [=]; subst. by left. Qed.
Lemma safe_string : safe string_body.
Proof. intros s e s'. unfold string_body. destruct (scan_string s) as [[??]|]; intros [=]; subst. by left. Qed.
Lemma safe_keyword word v : safe (keyword word v).
Proof. intros s e s'. unfold keyword. destruct (after_prefix word s); intros [=]; subst. by left. Qed.
Lemma safe_number : safe number.
Proof.
  intros s e s'. unfold number. destruct (sign_of _ s) as [sign s1]. destruct (integer_part s1) as [[digits s2]|].
  2: { intros [=]; subst. by left. }
  destruct (fraction s2) as [frac s3], (exponent s3) as [exp s4].
  destruct frac, exp; try done. destruct (py_int (sign +:+ digits)); intros [=]; subst. right; left. by eexists.
Qed.

#[local] Hint Resolve safe_ret safe_gets safe_skip safe_expecting safe_next safe_string : safe.
Ltac solve_safe :=
  intros; first
    [ solve [eauto 3 with safe]
    | match goal with |- raises_only _ (if ?b then _ else _) => destruct b; solve_safe end
    | apply parser_safe_bind; [solve [eauto 3 with safe]|solve_safe] ].

Section containers.
Context (value : Parser json) (Hvalue : safe value).
#[local] Hint Resolve Hvalue : safe.
Lemma safe_elements fuel : safe (array_elements value fuel).
Proof. induction fuel as [|fuel IH]; [apply safe_expecting|]. cbn [array_elements]. solve_safe. Qed.
Lemma safe_members fuel d : safe (members value fuel d).
Proof. revert d. induction fuel as [|fuel IH]; intros d; [apply safe_expecting|]. cbn [members]. solve_safe. Qed.
#[local] Hint Resolve safe_elements safe_members : safe.
Lemma safe_array fuel : safe (array value fuel).
Proof. unfold array. solve_safe. Qed.
Lemma safe_object fuel : safe (object value fuel).
Proof. unfold object. solve_safe. Qed.
End containers.

Lemma safe_scan fuel depth : safe (scan_once fuel depth).
Proof.
  induction depth as [|depth IH]; intros [|c s] e s'; cbn -[keyword number String.prefix string_body];
    try (intros [=]; subst; by left);
  repeat match goal with
    | |- (if ?b then _ else _) _ = _ → _ => destruct b
    | |- (if ?b then _ else _) = _ → _ => destruct b
    end; try apply safe_keyword; try apply safe_number; try (intros [=]; subst; right; by right).
  - apply (parser_safe_bind string_body); [apply safe_string|intros; apply safe_ret].
  - apply (parser_safe_bind string_body); [apply safe_string|intros; apply safe_ret].
  - by apply safe_object.
  - by apply safe_array.
Qed.

Lemma loads_raises depth s e : loads depth s = Raise e → loads_error e.
Proof.
  unfold loads, loads_with. apply safe_result.
  apply parser_safe_bind; [apply safe_skip|]. intros []. apply parser_safe_bind; [apply safe_scan|]. intros v.
  apply parser_safe_bind; [apply safe_skip|]. intros []. apply parser_safe_bind; [apply safe_gets|]. intros rest.
  destruct (String.eqb rest ""); [apply safe_ret|apply safe_expecting].
Qed.
End raises.

(** Nesting beyond the limit, whatever it is. *)
Lemma loads_too_deep depth : loads depth (String.concat "" (replicate (S depth) "[")) = Raise RecursionError.
Proof.
  assert (∀ n, String.concat "" (replicate (S n) "[") = String "[" (String.concat "" (replicate n "["))) as Hc.
  { intros [|n]; [done|]. change (String.concat "" (replicate (S (S n)) "[")) with
      ("[" +:+ "" +:+ String.concat "" (replicate (S n) "[")). done. }
  assert (∀ fuel, (depth < fuel)%nat → ∃ s, scan_once fuel depth (String.concat "" (replicate (S depth) "[")) = (Raise RecursionError, s)) as H.
  { intros fuel. induction depth as [|depth IH]; intros Hf; rewrite Hc; [by eexists|].
    cbn [scan_once]. change (Ascii.eqb "[" quote) with false. change (Ascii.eqb "[" "{") with false.
    change (Ascii.eqb "[" "[") with true. cbn iota. unfold array. rewrite run_bind skip_none; [|by rewrite Hc].
    rewrite run_bind run_gets {1}Hc. change (String.prefix "]" (String "[" _)) with false. cbn iota. rewrite run_bind.
    destruct fuel as [|fuel]; [lia|]. cbn [array_elements]. rewrite run_bind. destruct IH as [s Hs]; [lia|]. rewrite Hs. by eexists. }
  unfold loads, loads_with, result_of. rewrite run_bind skip_none; [|by rewrite Hc]. rewrite run_bind.
  destruct (H (S (String.length (String.concat "" (replicate (S depth) "["))))) as [s Hs]; [|by rewrite Hs].
  clear H. induction depth as [|depth IH]; [cbn; lia|]. rewrite Hc. cbn [String.length]. lia.
Qed.
