(* ===== verification/Redaction.v ===== *)
(** PII and token redaction of log records:
    [app_platform/observability/redaction.py] and
    [app_platform/observability/pii_filter.py].

    An event dict, a mapping-style [record.args] and a record's [__dict__] are
    Python dicts with insertion order: association lists with unique keys,
    read and assigned by key.  The values are JSON-shaped; [isinstance(v,
    Mapping)] holds of [JObj] only.  Keys are lower-cased as ASCII is. *)

From Stdlib Require Import Ascii String.
From S2P Require Import Prelude PyStr Json.
Open Scope string_scope.

Definition str_in (s : string) (l : list string) : bool := existsb (String.eqb s) l.

(** ** [redaction.py] *)

Definition REDACT_STRICT_KEYS : list string :=
  ["password"; "password_hash"; "hash"; "token"; "access_token"; "refresh_token";
   "authorization"; "cookie"; "set-cookie"; "secret"; "api_key"; "phone"].

Definition REDACT_EMAIL_KEYS : list string := ["email"; "to"; "from"; "recipient"; "cc"; "bcc"].

Definition REDACT_HEADER_NAMES : list string :=
  ["authorization"; "cookie"; "set-cookie"; "proxy-authorization"; "x-api-key"; "x-auth-token"].

Definition REDACTED_PLACEHOLDER : json := JStr "***REDACTED***".
Definition SAFE_EMAIL_FALLBACK : string := "***@***".

Definition redact_email (addr : string) : string :=
  if negb (contains_char "@" addr) then SAFE_EMAIL_FALLBACK
  else
    let '(local, _, domain) := partition_char "@" addr in
    match local, domain with
    | "", _ | _, "" => SAFE_EMAIL_FALLBACK
    | _, _ => first_char local +:+ "***@" +:+ domain
    end.

(** ** [pii_filter.py] *)

Definition STDLIB_RECORD_ATTRS : list string :=
  ["args"; "asctime"; "created"; "exc_info"; "exc_text"; "filename"; "funcName"; "levelname";
   "levelno"; "lineno"; "message"; "module"; "msecs"; "msg"; "name"; "pathname"; "process";
   "processName"; "relativeCreated"; "stack_info"; "thread"; "threadName"; "taskName";
   "request_id"; "trace_id"].

Definition HEADERS_KEYS : list string := ["headers"; "request.headers"; "response.headers"].

Definition redact_value_for_key (key : string) (value : json) : json :=
  let lowered := lower key in
  if str_in lowered REDACT_STRICT_KEYS then REDACTED_PLACEHOLDER
  else
    match value with
    | JStr s => if str_in lowered REDACT_EMAIL_KEYS then JStr (redact_email s) else value
    | _ => value
    end.

Definition redact_header (header_name : string) (header_value : json) : json :=
  let lowered := lower header_name in
  if str_in lowered REDACT_HEADER_NAMES || str_in lowered REDACT_STRICT_KEYS
  then REDACTED_PLACEHOLDER
  else
    match header_value with
    | JStr s => if str_in lowered REDACT_EMAIL_KEYS then JStr (redact_email s) else header_value
    | _ => header_value
    end.

(** The new dict is filled by assignment, one header after the other. *)
Definition redact_headers_mapping (headers : dict) : dict :=
  fold_left (λ redacted '(name, value), dict_set redacted name (redact_header name value))
    headers [].

(** One turn of the loop over [list(event_dict.keys())]. *)
Definition redact_key_in_place (event_dict : dict) (key : string) : dict :=
  match dict_get event_dict key with
  | None => event_dict
  | Some value =>
      if str_in key HEADERS_KEYS || str_in (lower key) HEADERS_KEYS then
        match value with
        | JObj headers => dict_set event_dict key (JObj (redact_headers_mapping headers))
        | _ => event_dict
        end
      else dict_set event_dict key (redact_value_for_key key value)
  end.

Definition redact_event_dict_in_place (event_dict : dict) : dict :=
  fold_left redact_key_in_place (dict_keys event_dict) event_dict.

Definition PiiRedactionProcessor_call (event_dict : dict) : dict :=
  redact_event_dict_in_place event_dict.

Module PiiLogFilter.
(** The value the filter stores for a key of [record.args] or of
    [record.__dict__]. *)
Definition redact_entry (key : string) (value : json) : json :=
  let lowered := lower key in
  match value with
  | JObj headers =>
      if str_in lowered HEADERS_KEYS then JObj (redact_headers_mapping headers)
      else redact_value_for_key key value
  | _ => redact_value_for_key key value
  end.

Definition redact_args (args : dict) : dict :=
  fold_left (λ redacted_args '(key, value), dict_set redacted_args key (redact_entry key value))
    args [].

Definition skipped (attr_name : string) : bool :=
  str_in attr_name STDLIB_RECORD_ATTRS || String.prefix "_" attr_name.

(** One turn of the loop over [list(record.__dict__.keys())]. *)
Definition redact_attr (record : dict) (attr_name : string) : dict :=
  if skipped attr_name then record
  else
    match dict_get record attr_name with
    | None => record
    | Some value => dict_set record attr_name (redact_entry attr_name value)
    end.

(** [filter]: the record is its [__dict__]; the result is whether the record is
    kept, with the record it leaves. *)
Definition filter (record : dict) : bool * dict :=
  let record :=
    match dict_get record "args" with
    | Some (JObj args) => dict_set record "args" (JObj (redact_args args))
    | _ => record
    end in
  (true, fold_left redact_attr (dict_keys record) record).
End PiiLogFilter.
