(* ===== verification/RedactionFacts.v ===== *)
(** No secret reaches a log record: records that differ only in what the policy
    calls secret are redacted to the same record, by the structlog processor and
    by the stdlib filter alike, and everything else is left as it was. *)

From Stdlib Require Import Ascii String.
From S2P Require Import Prelude PyStr Json JsonFacts Redaction.
Open Scope string_scope.

(** ** Rewriting a dict key by key *)

Definition map_entries (f : string → json → json) (d : dict) : dict := map (λ kv, (kv.1, f kv.1 kv.2)) d.

Lemma keys_map_entries f d : dict_keys (map_entries f d) = dict_keys d.
Proof. unfold dict_keys, map_entries. rewrite map_map. by apply map_ext. Qed.

(** One turn of the loop [for key in list(d.keys()): d[key] = f(key, d[key])]. *)
Definition set_turn (f : string → json → json) (d : dict) (k : string) : dict :=
  match dict_get d k with None => d | Some v => dict_set d k (f k v) end.

Lemma fold_set_turn_app f d1 d2 :
  NoDup (dict_keys (d1 ++ d2)) →
  fold_left (set_turn f) (dict_keys d2) (d1 ++ d2)%list = (d1 ++ map_entries f d2)%list.
Proof.
  revert d1. induction d2 as [|[k v] d2 IH]; intros d1 Hnd; simpl; [done|].
  assert (k ∉ dict_keys d1) as Hk.
  { unfold dict_keys in Hnd. rewrite map_app in Hnd.
    apply NoDup_app in Hnd as (_ & Hd & _). intros Hin. apply (Hd _ Hin). simpl. left. }
  unfold set_turn at 2. rewrite dict_get_app //= String.eqb_refl dict_set_app //= String.eqb_refl.
  specialize (IH (d1 ++ [(k, f k v)])%list). rewrite -!assoc /= in IH. apply IH.
  revert Hnd. unfold dict_keys. by rewrite !map_app.
Qed.

Lemma fold_set_turn f d : NoDup (dict_keys d) → fold_left (set_turn f) (dict_keys d) d = map_entries f d.
Proof. apply (fold_set_turn_app f []). Qed.

Lemma fold_fill_app f d1 d2 :
  NoDup (dict_keys (d1 ++ d2)) →
  fold_left (λ acc '(k, v), dict_set acc k (f k v)) d2 d1 = (d1 ++ map_entries f d2)%list.
Proof.
  revert d1. induction d2 as [|[k v] d2 IH]; intros d1 Hnd; simpl; [by rewrite app_nil_r|].
  rewrite dict_set_last.
  - rewrite IH; [|revert Hnd; unfold dict_keys; by rewrite !map_app /= -assoc].
    by rewrite -assoc.
  - unfold dict_keys in Hnd. rewrite map_app in Hnd.
    apply NoDup_app in Hnd as (_ & Hd & _). intros Hin. apply (Hd _ Hin). simpl. left.
Qed.

Lemma fold_fill f d :
  NoDup (dict_keys d) → fold_left (λ acc '(k, v), dict_set acc k (f k v)) d [] = map_entries f d.
Proof. apply (fold_fill_app f []). Qed.

Lemma fold_left_ext {A B} (f g : A → B → A) l a : (∀ a b, f a b = g a b) → fold_left f l a = fold_left g l a.
Proof. intros H. revert a. induction l as [|b l IH]; intros a; simpl; [done|]. by rewrite H. Qed.

(** ** The processor and the filter, as maps *)

Definition policy : string → json → json := PiiLogFilter.redact_entry.

Lemma str_in_spec s l : str_in s l = true ↔ s ∈ l.
Proof.
  unfold str_in. rewrite existsb_exists. split.
  - intros (x & Hx & ->%String.eqb_eq). by apply list_elem_of_In.
  - intros ?%list_elem_of_In. exists s. by rewrite String.eqb_refl.
Qed.

Lemma str_in_false s l : s ∉ l → str_in s l = false.
Proof. intros Hs. apply not_true_iff_false. by rewrite str_in_spec. Qed.

Lemma elem_of_list3 (s a b c : string) : s ∈ [a; b; c] → s = a ∨ s = b ∨ s = c.
Proof. rewrite !elem_of_cons elem_of_nil. naive_solver. Qed.

(** The constants are written in lower case, so the two membership tests of the
    processor are one. *)
Lemma headers_key_lower key :
  str_in key HEADERS_KEYS || str_in (lower key) HEADERS_KEYS = str_in (lower key) HEADERS_KEYS.
Proof.
  destruct (str_in key HEADERS_KEYS) eqn:E; [|done]. symmetry.
  apply str_in_spec in E. apply elem_of_list3 in E. by destruct E as [-> | [-> | ->]].
Qed.

(** Under a headers key the key policy changes nothing. *)
Lemma headers_key_plain key value :
  str_in (lower key) HEADERS_KEYS = true → redact_value_for_key key value = value.
Proof.
  unfold redact_value_for_key. intros [-> | [-> | ->]]%str_in_spec%elem_of_list3; by destruct value.
Qed.

Lemma redact_key_turn d k : redact_key_in_place d k = set_turn policy d k.
Proof.
  unfold redact_key_in_place, set_turn, policy, PiiLogFilter.redact_entry.
  destruct (dict_get d k) as [v|] eqn:Hv; [|done]. rewrite headers_key_lower.
  destruct (str_in (lower k) HEADERS_KEYS) eqn:Hh; [|by destruct v].
  destruct v; try done; by rewrite headers_key_plain ?dict_set_same.
Qed.

Lemma processor_maps d : NoDup (dict_keys d) → PiiRedactionProcessor_call d = map_entries policy d.
Proof.
  intros Hd. unfold PiiRedactionProcessor_call, redact_event_dict_in_place.
  rewrite (fold_left_ext _ (set_turn policy)); [|apply redact_key_turn]. by apply fold_set_turn.
Qed.

Lemma redact_args_maps d : NoDup (dict_keys d) → PiiLogFilter.redact_args d = map_entries policy d.
Proof. apply (fold_fill policy). Qed.

(** What the filter does to one attribute of a record. *)
Definition attr_policy (k : string) (v : json) : json := if PiiLogFilter.skipped k then v else policy k v.
Definition args_policy (k : string) (v : json) : json :=
  match v with
  | JObj args => if String.eqb k "args" then JObj (PiiLogFilter.redact_args args) else v
  | _ => v
  end.

Lemma redact_attr_turn d k : PiiLogFilter.redact_attr d k = set_turn attr_policy d k.
Proof.
  unfold PiiLogFilter.redact_attr, set_turn, attr_policy, policy.
  destruct (PiiLogFilter.skipped k); [|done].
  destruct (dict_get d k) eqn:Hv; [|done]. by rewrite dict_set_same.
Qed.

Lemma map_entries_id f d : (∀ k v, (k, v) ∈ d → f k v = v) → map_entries f d = d.
Proof.
  induction d as [|[k v] d IH]; simpl; [done|]. intros H. rewrite H; [|left].
  f_equal. apply IH. intros k' v' ?. apply H. by right.
Qed.

(** A value the loop would write back only at [k0]. *)
Lemma set_turn_maps f d k0 :
  NoDup (dict_keys d) → (∀ k v, k ≠ k0 → f k v = v) → set_turn f d k0 = map_entries f d.
Proof.
  intros Hd Hf. unfold set_turn. induction d as [|[k v] d IH]; simpl; [done|].
  apply NoDup_cons in Hd as [Hk Hd]. destruct (String.eqb_spec k k0) as [->|Hne].
  - f_equal. symmetry. apply map_entries_id. intros k v' Hin. apply Hf. intros ->.
    apply Hk. apply list_elem_of_fmap. by exists (k0, v').
  - rewrite Hf // -IH //. by destruct (dict_get d k0).
Qed.

Lemma filter_maps r :
  NoDup (dict_keys r) →
  PiiLogFilter.filter r = (true, map_entries attr_policy (map_entries args_policy r)).
Proof.
  intros Hr. unfold PiiLogFilter.filter.
  assert (∀ d, match dict_get d "args" with
               | Some (JObj args) => dict_set d "args" (JObj (PiiLogFilter.redact_args args))
               | _ => d end = set_turn args_policy d "args") as ->.
  { intros d. unfold set_turn, args_policy. destruct (dict_get d "args") as [[]|] eqn:E; try done;
      by rewrite dict_set_same. }
  rewrite set_turn_maps; [|done|].
  - rewrite (fold_left_ext _ (set_turn attr_policy)); [|apply redact_attr_turn].
    rewrite fold_set_turn ?keys_map_entries //.
  - intros k v Hk. unfold args_policy. destruct v; try done. by rewrite eqb_neq_string.
Qed.

(** ** What an observer of the log may learn *)

Definition at_free (s : string) : Prop := contains_char "@" s = false.

(** Not an address the policy can mask: no at sign, or nothing before or after
    the first one. *)
Definition malformed (s : string) : Prop :=
  at_free s ∨ (∃ domain, s = String "@" domain) ∨ (∃ local, at_free local ∧ s = local +:+ "@").

(** Two addresses that only differ in the local part after its first letter, or
    two malformed ones. *)
Inductive low_email : string → string → Prop :=
  | low_email_same a : low_email a a
  | low_email_masked l1 l2 domain :
      at_free l1 → at_free l2 → first_char l1 = first_char l2 →
      low_email (l1 +:+ "@" +:+ domain) (l2 +:+ "@" +:+ domain)
  | low_email_malformed a b : malformed a → malformed b → low_email a b.

(** Two values that may both stand under [key] without the log telling them
    apart, when the keys in [secret] are replaced outright. *)
Inductive low_value (secret : list string) (key : string) : json → json → Prop :=
  | low_public v : low_value secret key v v
  | low_secret v1 v2 : lower key ∈ secret → low_value secret key v1 v2
  | low_masked a b : lower key ∈ REDACT_EMAIL_KEYS → low_email a b → low_value secret key (JStr a) (JStr b).

Definition low_pair (R : string → json → json → Prop) (kv1 kv2 : string * json) : Prop :=
  kv1.1 = kv2.1 ∧ R kv1.1 kv1.2 kv2.2.

Inductive low_entry (key : string) : json → json → Prop :=
  | low_plain v1 v2 : low_value REDACT_STRICT_KEYS key v1 v2 → low_entry key v1 v2
  | low_headers h1 h2 :
      lower key ∈ HEADERS_KEYS →
      Forall2 (low_pair (low_value (REDACT_HEADER_NAMES ++ REDACT_STRICT_KEYS))) h1 h2 →
      low_entry key (JObj h1) (JObj h2).

(** The same for an attribute of a record: the standard attributes must agree,
    except that mapping-style arguments may differ in their secrets. *)
Inductive low_attr (key : string) : json → json → Prop :=
  | low_attr_same v : low_attr key v v
  | low_attr_args a1 a2 :
      key = "args" → NoDup (dict_keys a1) → Forall2 (low_pair low_entry) a1 a2 →
      low_attr key (JObj a1) (JObj a2)
  | low_attr_extra v1 v2 :
      PiiLogFilter.skipped key = false → low_entry key v1 v2 → low_attr key v1 v2.

Lemma low_keys R d1 d2 : Forall2 (low_pair R) d1 d2 → dict_keys d1 = dict_keys d2.
Proof. induction 1 as [|[] [] ?? [? ?] ? IH]; simpl in *; [done|]. congruence. Qed.

Lemma low_maps R f d1 d2 :
  (∀ k v1 v2, R k v1 v2 → f k v1 = f k v2) →
  Forall2 (low_pair R) d1 d2 → map_entries f d1 = map_entries f d2.
Proof.
  intros HR. induction 1 as [|[k1 v1] [k2 v2] ?? [Hk HRk] ? IH]; simpl in *; [done|].
  subst k2. by rewrite (HR _ _ _ HRk) IH.
Qed.

(** ** Addresses *)

Lemma str_exists_cons P c s : str_exists P (String c s) = P c || str_exists P s.
Proof. unfold str_exists. simpl. rewrite negb_andb. by destruct (P c). Qed.

Lemma at_free_cons c s : at_free (String c s) ↔ Ascii.eqb c "@" = false ∧ at_free s.
Proof. unfold at_free, contains_char. rewrite str_exists_cons. apply orb_false_iff. Qed.

Lemma contains_at local domain : contains_char "@" (local +:+ String "@" domain) = true.
Proof.
  unfold contains_char. induction local as [|c s IH].
  - by rewrite app_nil_string str_exists_cons Ascii.eqb_refl.
  - by rewrite app_cons str_exists_cons IH orb_true_r.
Qed.

Lemma partition_at local domain :
  at_free local → partition_char "@" (local +:+ String "@" domain) = (local, true, domain).
Proof.
  induction local as [|c s IH]; [done|].
  intros [Hc Hs]%at_free_cons. rewrite app_cons /=. by rewrite Hc IH.
Qed.

Lemma redact_malformed s : malformed s → redact_email s = SAFE_EMAIL_FALLBACK.
Proof.
  unfold redact_email. intros [H | [[domain ->] | (local & Hl & ->)]].
  - by rewrite H.
  - by case_match.
  - rewrite contains_at /= partition_at //. by destruct local.
Qed.

Lemma redact_masked l domain :
  at_free l →
  redact_email (l +:+ "@" +:+ domain) =
    match first_char l, domain with
    | "", _ | _, "" => SAFE_EMAIL_FALLBACK
    | first, _ => first +:+ "***@" +:+ domain
    end.
Proof.
  intros Hl. unfold redact_email. change ("@" +:+ domain) with (String "@" domain).
  rewrite contains_at partition_at //=. destruct l as [|c l]; [done|].
  assert (∃ t, first_char (String c l) = String c t) as [t ->]; [|done].
  unfold first_char, char_length. by repeat case_match; eexists.
Qed.

Lemma redact_email_low a b : low_email a b → redact_email a = redact_email b.
Proof.
  intros [x|l1 l2 d H1 H2 Hf|x y Hx Hy]; [done| |by rewrite !redact_malformed].
  by rewrite !redact_masked // Hf.
Qed.

(** ** The policy hides the secrets *)

Lemma redact_value_low key v1 v2 :
  low_value REDACT_STRICT_KEYS key v1 v2 → redact_value_for_key key v1 = redact_value_for_key key v2.
Proof.
  unfold redact_value_for_key. intros [v|x y Hk|a b Hk Hab]; [done| |].
  - apply str_in_spec in Hk. by rewrite Hk.
  - by rewrite (redact_email_low a b Hab) (proj2 (str_in_spec _ _) Hk).
Qed.

Lemma redact_header_low name v1 v2 :
  low_value (REDACT_HEADER_NAMES ++ REDACT_STRICT_KEYS) name v1 v2 →
  redact_header name v1 = redact_header name v2.
Proof.
  unfold redact_header. intros [v|x y Hk|a b Hk Hab]; [done| |].
  - apply elem_of_app in Hk. rewrite -!str_in_spec in Hk.
    by destruct Hk as [-> | ->]; rewrite ?orb_true_r.
  - apply str_in_spec in Hk. by rewrite Hk (redact_email_low a b Hab).
Qed.

Lemma redact_headers_low h1 h2 :
  Forall2 (low_pair (low_value (REDACT_HEADER_NAMES ++ REDACT_STRICT_KEYS))) h1 h2 →
  redact_headers_mapping h1 = redact_headers_mapping h2.
Proof.
  unfold redact_headers_mapping. intros H. generalize (@nil (string * json)).
  induction H as [|[k1 v1] [k2 v2] ?? [Hk Hv] ? IH]; intros acc; simpl in *; [done|].
  subst k2. by rewrite (redact_header_low _ _ _ Hv).
Qed.

Lemma strict_not_headers key : lower key ∈ REDACT_STRICT_KEYS → str_in (lower key) HEADERS_KEYS = false.
Proof.
  unfold REDACT_STRICT_KEYS. rewrite !elem_of_cons elem_of_nil.
  intros H. repeat (destruct H as [-> | H]; [done|]). done.
Qed.

Lemma policy_low key v1 v2 : low_entry key v1 v2 → policy key v1 = policy key v2.
Proof.
  unfold policy, PiiLogFilter.redact_entry. intros [x y [v|a b Hk|a b Hk Hab]|h1 h2 Hk Hh]; [done| | |].
  - assert (∀ v, match v with
                 | JObj h => if str_in (lower key) HEADERS_KEYS then JObj (redact_headers_mapping h)
                             else redact_value_for_key key v
                 | _ => redact_value_for_key key v end = REDACTED_PLACEHOLDER) as Hall; [|by rewrite !Hall].
    intros v. unfold redact_value_for_key. rewrite strict_not_headers //.
    apply str_in_spec in Hk. rewrite Hk. by destruct v.
  - apply redact_value_low. by constructor.
  - apply str_in_spec in Hk. by rewrite Hk (redact_headers_low _ _ Hh).
Qed.

Lemma attr_low key v1 v2 :
  low_attr key v1 v2 → attr_policy key (args_policy key v1) = attr_policy key (args_policy key v2).
Proof.
  unfold attr_policy, args_policy. intros [v|a1 a2 -> Hnd Ha|x y Hs Hl]; [done| |].
  - simpl. rewrite !redact_args_maps // -?(low_keys _ _ _ Ha) //.
    by rewrite (low_maps _ _ _ _ policy_low Ha).
  - rewrite Hs. apply policy_low in Hl. assert (key ≠ "args") as Hne; [by intros ->|].
    by destruct x, y; rewrite ?eqb_neq_string.
Qed.

(** ** The claim *)

Lemma map_entries_compose f g d : map_entries f (map_entries g d) = map_entries (λ k v, f k (g k v)) d.
Proof. unfold map_entries. by rewrite map_map. Qed.

(** A key the policy says nothing about. *)
Definition public_key (key : string) : Prop :=
  lower key ∉ REDACT_STRICT_KEYS ∧ lower key ∉ REDACT_EMAIL_KEYS ∧ lower key ∉ HEADERS_KEYS.

Lemma policy_public key v : public_key key → policy key v = v.
Proof.
  intros (H1 & H2 & H3). unfold policy, PiiLogFilter.redact_entry, redact_value_for_key.
  by rewrite !str_in_false //; destruct v.
Qed.

(** C37. No secret reaches a log record.  Two event dicts that differ only under
    the keys the policy names (a password, a token, ... replaced outright; the
    local part of an address after its first letter, under an address key; the
    same and the credential headers inside a headers mapping), however the keys
    are capitalized, leave the structlog processor equal; so do two log records
    that differ only so in their extra attributes and in their mapping-style
    arguments, after the stdlib filter, which drops no record.  Both keep every
    key, in order, and every value under a key the policy does not name. *)
Theorem redaction_noninterference d1 d2 r1 r2 :
  NoDup (dict_keys d1) → Forall2 (low_pair low_entry) d1 d2 →
  NoDup (dict_keys r1) → Forall2 (low_pair low_attr) r1 r2 →
  PiiRedactionProcessor_call d1 = PiiRedactionProcessor_call d2
  ∧ PiiLogFilter.filter r1 = PiiLogFilter.filter r2
  ∧ dict_keys (PiiRedactionProcessor_call d1) = dict_keys d1
  ∧ (PiiLogFilter.filter r1).1 = true
  ∧ dict_keys (PiiLogFilter.filter r1).2 = dict_keys r1
  ∧ (∀ key v, public_key key → (key, v) ∈ d1 → (key, v) ∈ PiiRedactionProcessor_call d1)
  ∧ (∀ key v, public_key key → key ≠ "args" → (key, v) ∈ r1 → (key, v) ∈ (PiiLogFilter.filter r1).2).
Proof.
  intros Hd Hdl Hr Hrl.
  rewrite (processor_maps d2) -?(low_keys _ _ _ Hdl) // (filter_maps r2) -?(low_keys _ _ _ Hrl) //.
  rewrite processor_maps // filter_maps //= !map_entries_compose !keys_map_entries.
  split_and!; [by apply low_maps with low_entry; [apply policy_low|]
              |by rewrite (low_maps _ _ _ _ attr_low Hrl)|done|done|done| |]; intros key v Hk.
  - intros Hin. apply list_elem_of_fmap. exists (key, v). simpl. by rewrite policy_public.
  - intros Ha Hin. apply list_elem_of_fmap. exists (key, v). split; [|done]. simpl.
    unfold attr_policy, args_policy. rewrite (eqb_neq_string key) //.
    by destruct v; rewrite policy_public //; case_match.
Qed.

Lemma redaction_noninterference_witness :
  PiiRedactionProcessor_call
    [("event", JStr "login"); ("Password", JStr "hunter2"); ("to", JStr "ada@example.com")]
  = PiiRedactionProcessor_call
      [("event", JStr "login"); ("Password", JNull); ("to", JStr "alan@example.com")].
Proof.
  refine (proj1 (redaction_noninterference _ _ [("msg", JNull)] [("msg", JNull)] _ _ _ _)).
  - apply (bool_decide_unpack _); vm_compute; exact I.
  - apply Forall2_cons_2; [split; [done|]; apply low_plain, low_public|].
    apply Forall2_cons_2; [split; [done|]; apply low_plain, low_secret|].
    { by apply (bool_decide_unpack _). }
    apply Forall2_cons_2; [split; [done|]; apply low_plain, low_masked|by apply Forall2_nil_2].
    + by apply (bool_decide_unpack _).
    + by apply (low_email_masked "ada" "alan" "example.com").
  - apply (bool_decide_unpack _); vm_compute; exact I.
  - apply Forall2_cons_2; [split; [done|]; apply low_attr_same|by apply Forall2_nil_2].
Defined.
