(* ===== verification/Http.v ===== *)
(** The HTTP vocabulary of the platform: requests and responses as the routes see
    them, [urllib.parse.urlsplit] as far as the routes use it, RFC 9457 problem
    responses ([app_platform/api/problem_types.py], [error_handlers.py]). *)

From Stdlib Require Import Ascii String.
From stdpp Require Import pretty.
From S2P Require Import Prelude PyStr.
Open Scope string_scope.
Open Scope Z_scope.

(** ** Requests *)

(** What the handlers read of a [Request]; header names are lower case.  [creds]
    is what FastAPI's [HTTPBearer(auto_error=False)] extracts. *)
Record Request := mkRequest {
  req_path : string;
  req_url : string;
  client_host : option string;
  headers : gmap string string;
  cookies : gmap string string;
  creds : option string;
  request_id : option string;
}.

(** ** [urllib.parse.urlsplit] *)

Definition any_of (l : list ascii) (c : ascii) : bool := existsb (Ascii.eqb c) l.

(** The characters up to the first one of [stop], and the rest with it. *)
Fixpoint break_at (stop : ascii → bool) (s : string) : string * string :=
  match s with
  | "" => ("", "")
  | String c s' => if stop c then ("", s) else let '(l, r) := break_at stop s' in (String c l, r)
  end.

(** [s.rpartition(sep)[2]]. *)
Fixpoint after_last (sep : ascii) (s : string) : string :=
  match s with
  | "" => ""
  | String c s' => if Ascii.eqb c sep then after_last sep s'
                   else if contains_char sep s' then after_last sep s' else s
  end.

Fixpoint str_filter (P : ascii → bool) (s : string) : string :=
  match s with
  | "" => ""
  | String c s => if P c then String c (str_filter P s) else str_filter P s
  end.

Record SplitResult := mkSplit { scheme : string; netloc : string }.

Definition scheme_char (c : ascii) : bool := is_alnum c || any_of ["+"; "-"; "."]%char c.
Definition is_alpha (c : ascii) : bool := is_upper c || is_lower c.
(** WHATWG's C0 controls and the space, stripped on the left; tab, CR and LF,
    removed everywhere. *)
Definition c0_or_space (c : ascii) : bool := (code c <=? 32)%nat.
Definition unsafe_byte (c : ascii) : bool := any_of [ascii_of_nat 9; ascii_of_nat 10; ascii_of_nat 13] c.

Definition split_scheme (url : string) : string * string :=
  match partition_char ":" url with
  | (String c l, true, rest) =>
      if is_alpha c && str_forall scheme_char (String c l) then (lower (String c l), rest) else ("", url)
  | _ => ("", url)
  end.

(** What [ipaddress] accepts between brackets. *)
Class IpLiterals := ip_literal_ok : string → bool.

Section urlsplit.
Context `{IpLiterals}.

(** [_check_bracketed_netloc]. *)
Definition bracketed_netloc_ok (netloc : string) : bool :=
  let '(before, _, bracketed) := partition_char "[" (after_last "@" netloc) in
  let '(hostname, _, port) := partition_char "]" bracketed in
  String.eqb before "" && (String.eqb port "" || String.prefix ":" port) && ip_literal_ok hostname.

(** [None] when it raises [ValueError]. *)
Definition urlsplit (url : string) : option SplitResult :=
  let url := str_filter (λ c, negb (unsafe_byte c)) (lstrip_by c0_or_space url) in
  let '(scheme, url) := split_scheme url in
  if String.prefix "//" url then
    let '(netloc, _) := break_at (any_of ["/"; "?"; "#"]%char) (String.substring 2 (String.length url) url) in
    let open := contains_char "[" netloc in
    let close := contains_char "]" netloc in
    if negb (Bool.eqb open close) then None
    else if open && negb (bracketed_netloc_ok netloc) then None
    else Some (mkSplit scheme netloc)
  else Some (mkSplit scheme "").
End urlsplit.

(** [SplitResult._hostinfo]: the host and the port as strings. *)
Definition hostinfo (parts : SplitResult) : string * string :=
  let hostinfo := after_last "@" (netloc parts) in
  match partition_char "[" hostinfo with
  | (_, true, bracketed) =>
      let '(hostname, _, rest) := partition_char "]" bracketed in
      let '(_, _, port) := partition_char ":" rest in
      (hostname, port)
  | _ =>
      let '(hostname, _, port) := partition_char ":" hostinfo in
      (hostname, port)
  end.

(** [SplitResult.hostname]: a zone after [%] keeps its case. *)
Definition hostname (parts : SplitResult) : option string :=
  match (hostinfo parts).1 with
  | "" => None
  | host =>
      let '(name, percent, zone) := partition_char "%" host in
      Some (lower name +:+ (if percent then "%" else "") +:+ zone)
  end.

Fixpoint digits_value (acc : Z) (s : string) : Z :=
  match s with
  | "" => acc
  | String c s => digits_value (10 * acc + (Z.of_nat (code c) - 48)) s
  end.

(** [SplitResult.port]. *)
Definition port {S} (parts : SplitResult) : M S (option Z) :=
  match (hostinfo parts).2 with
  | "" => mret None
  | port =>
      if negb (str_forall is_digit port) then raise (ValueError "Port could not be cast to integer value") else
      let port := digits_value 0 port in
      if (0 <=? port) && (port <=? 65535) then mret (Some port) else raise (ValueError "Port out of range 0-65535")
  end.

(** ** Problem types ([problem_types.py]) *)

Module ProblemType.
Definition AUTH_INVALID_CREDENTIALS : string := "urn:problem:auth:invalid-credentials".
Definition AUTH_RATE_LIMITED : string := "urn:problem:auth:rate-limited".
Definition AUTH_TOKEN_STALE : string := "urn:problem:auth:token-stale".
Definition AUTH_TOKEN_INVALID : string := "urn:problem:auth:token-invalid".
Definition AUTH_EMAIL_NOT_VERIFIED : string := "urn:problem:auth:email-not-verified".
Definition AUTHZ_PERMISSION_DENIED : string := "urn:problem:authz:permission-denied".
Definition VALIDATION_FAILED : string := "urn:problem:validation:failed".
Definition GENERIC_CONFLICT : string := "urn:problem:generic:conflict".
Definition GENERIC_NOT_FOUND : string := "urn:problem:generic:not-found".
Definition ABOUT_BLANK : string := "about:blank".
End ProblemType.

(** [HTTPException(status_code, detail, headers)]. *)
Definition http_error (status_code : Z) (detail : string) (headers : list (string * string)) : exn :=
  HTTPException (mkHTTPError status_code detail None headers).
(** [ApplicationHTTPException(status_code, detail, code, type_uri, headers)]. *)
Definition app_error (status_code : Z) (detail code type_uri : string) (headers : list (string * string)) : exn :=
  HTTPException (mkHTTPError status_code detail (Some (code, type_uri)) headers).

(** ** Problem responses ([error_handlers.py]) *)

(** One entry of a [RequestValidationError]. *)
Record ValidationEntry := mkEntry { loc : list string; type : string; msg : string; input : json }.
(** One public violation; [input] is absent in production. *)
Record Violation := mkViolation { v_loc : list string; v_type : string; v_msg : string; v_input : option json }.

Record Problem := mkProblem {
  pr_type : string;
  pr_title : string;
  pr_status : Z;
  pr_instance : string;
  pr_detail : option string;
  pr_code : option string;
  pr_violations : option (list Violation);
  pr_request_id : option string;
}.

(** [HTTPStatus(code).phrase] of the statuses the application sends. *)
Definition status_title (code : Z) : string :=
  match code with
  | 400 => "Bad Request"
  | 401 => "Unauthorized"
  | 403 => "Forbidden"
  | 404 => "Not Found"
  | 409 => "Conflict"
  | 422 => "Unprocessable Entity"
  | 429 => "Too Many Requests"
  | 500 => "Internal Server Error"
  | 503 => "Service Unavailable"
  | _ => "Error"
  end.

Definition problem_json_response (status_code : Z) (request : Request) (detail : option string) (type_uri : string)
    (code : option string) (violations : option (list Violation)) : Problem :=
  mkProblem type_uri (status_title status_code) status_code (req_url request) detail code violations (request_id request).

Definition pydantic_errors_to_violations (errors : list ValidationEntry) (include_input : bool) : list Violation :=
  map (λ e, mkViolation (loc e) (type e) (msg e) (if include_input then Some (input e) else None)) errors.

Definition validation_exception_handler (environment : string) (request : Request) (errors : list ValidationEntry) : Problem :=
  let is_production := String.eqb environment "production" in
  let violations := pydantic_errors_to_violations errors (negb is_production) in
  problem_json_response 422 request
    (Some ("Validation failed: " +:+ pretty (N.of_nat (length violations)) +:+ " field(s)"))
    ProblemType.VALIDATION_FAILED None (Some violations).

(** The handlers of [ApplicationHTTPException], [HTTPException],
    [DependencyContainerNotReadyError] and everything else, with the headers they
    attach. *)
Definition exception_handler (request : Request) (e : exn) : Problem * list (string * string) :=
  match e with
  | HTTPException err =>
      match application err with
      | Some (code, type_uri) =>
          (problem_json_response (status_code err) request (Some (detail err)) type_uri (Some code) None, error_headers err)
      | None =>
          (problem_json_response (status_code err) request (Some (detail err)) ProblemType.ABOUT_BLANK None None, error_headers err)
      end
  | DependencyContainerNotReadyError what =>
      (problem_json_response 503 request (Some what) "https://starter-template-fastapi.dev/problems/service-unavailable"
         (Some "dependency_container_not_ready") None, [])
  | _ => (problem_json_response 500 request (Some "Internal Server Error") ProblemType.ABOUT_BLANK None None, [])
  end.
