(* ===== verification/AuthHttp.v ===== *)
(** The HTTP surface of the authentication feature
    ([features/authentication/adapters/inbound/http/]: [schemas.py], [errors.py],
    [dependencies.py], [cookies.py] and [auth.py]).

    A handler works on the process state [App]: the world of the use cases, the
    principal cache, the four rate limiters of the container, and the parts of
    the current exchange it writes to (the response's cookies and
    [request.state]). *)

From Stdlib Require Import Ascii String.
From stdpp Require Import pretty.
From S2P Require Import Prelude PyStr Uuid Store Users Principals Auth RateLimit Http.
Open Scope string_scope.
Open Scope Z_scope.

(** ** [schemas.py] *)

Definition MIN_PASSWORD_LENGTH_FOR_RELAXED_RULE : nat := 20.
Definition MIN_PASSWORD_CLASS_COUNT : nat := 3.

Definition count_true (l : list bool) : nat := length (filter (λ b, b = true) l).

(** [_validate_password_complexity]: whether the value is returned. *)
Definition password_complex (value : string) : bool :=
  if (MIN_PASSWORD_LENGTH_FOR_RELAXED_RULE <=? String.length value)%nat then true else
  let classes := [str_exists is_upper value; str_exists is_lower value; str_exists is_digit value;
                  str_exists (λ ch, negb (is_alnum ch) && negb (is_space ch)) value] in
  negb (count_true classes <? MIN_PASSWORD_CLASS_COUNT)%nat.

Definition characters (n : nat) : string :=
  pretty (N.of_nat n) +:+ (if (n =? 1)%nat then " character" else " characters").

(** One field of a request model: [Field(min_length, max_length)] and then the
    field's validator, which returns the value or raises [ValueError]. *)
Definition validate_field (name : string) (min_length max_length : nat) (validator : string → Result string string)
    (value : string) : Result string (list ValidationEntry) :=
  let entry type msg := Err [mkEntry ["body"; name] type msg (JStr value)] in
  if (String.length value <? min_length)%nat
  then entry "string_too_short" ("String should have at least " +:+ characters min_length)
  else if (max_length <? String.length value)%nat
  then entry "string_too_long" ("String should have at most " +:+ characters max_length)
  else match validator value with
       | Ok v => Ok v
       | Err msg => entry "value_error" ("Value error, " +:+ msg)
       end.

Definition normalize_email_value (value : string) : Result string string := Ok (normalize_email value).
Definition validate_password (value : string) : Result string string :=
  if password_complex value then Ok value
  else Err "Password must contain at least 3 of: uppercase, lowercase, digit, symbol — or be at least 20 characters long".
Definition no_validator (value : string) : Result string string := Ok value.

(** Pydantic reports the errors of all fields. *)
Definition both {A B} (a : Result A (list ValidationEntry)) (b : Result B (list ValidationEntry))
    : Result (A * B) (list ValidationEntry) :=
  match a, b with
  | Ok x, Ok y => Ok (x, y)
  | Err e, Ok _ | Ok _, Err e => Err e
  | Err e1, Err e2 => Err (e1 ++ e2)%list
  end.

Module RegisterRequest.
Definition normalize_email_value (value : string) : Result string string :=
  let normalized := normalize_email value in
  if negb (contains_char "@" normalized) then Err "Invalid email" else Ok normalized.
Definition validate (email password : string) : Result (string * string) (list ValidationEntry) :=
  both (validate_field "email" 3 254 normalize_email_value email)
       (validate_field "password" 12 256 validate_password password).
End RegisterRequest.

Module LoginRequest.
Definition validate (email password : string) : Result (string * string) (list ValidationEntry) :=
  both (validate_field "email" 3 254 normalize_email_value email)
       (validate_field "password" 1 256 no_validator password).
End LoginRequest.

Module PasswordForgotRequest.
Definition validate (email : string) : Result string (list ValidationEntry) :=
  validate_field "email" 3 254 normalize_email_value email.
End PasswordForgotRequest.

Module PasswordResetRequest.
Definition validate (token new_password : string) : Result (string * string) (list ValidationEntry) :=
  both (validate_field "token" 32 512 no_validator token)
       (validate_field "new_password" 12 256 validate_password new_password).
End PasswordResetRequest.

Module EmailVerifyRequest.
Definition validate (token : string) : Result string (list ValidationEntry) :=
  validate_field "token" 32 512 no_validator token.
End EmailVerifyRequest.

Record UserPublic := mkUserPublic {
  up_id : uuid;
  up_email : string;
  up_is_active : bool;
  up_is_verified : bool;
  up_authz_version : Z;
  up_created_at : time;
  up_updated_at : time;
  up_last_login_at : option time;
}.
Record PrincipalPublic := mkPrincipalPublic {
  pp_id : uuid;
  pp_email : string;
  pp_is_active : bool;
  pp_is_verified : bool;
}.

(** The response models. *)
Inductive body :=
  | UserResponse (user : UserPublic)
  | TokenResponse (access_token token_type : string) (expires_in : Z) (user : PrincipalPublic)
  | MessageResponse (message : string)
  | InternalTokenResponse (message : string) (dev_token : option string) (expires_at : option time)
  | PrincipalResponse (principal : PrincipalPublic)
  | ProblemResponse (problem : Problem).

(** [UserPublic.model_validate(user)]. *)
Definition user_public (user : User) : UserPublic :=
  mkUserPublic (u_id user) (u_email user) (u_is_active user) (u_is_verified user) (u_authz_version user)
    (u_created_at user) (u_updated_at user) (u_last_login_at user).

(** ** [errors.py] *)

Definition raise_http_from_auth_error {S A} (exc : AuthError) : M S A :=
  match exc with
  | DuplicateEmailError =>
      raise (app_error 409 "Email already registered" "duplicate_email" ProblemType.GENERIC_CONFLICT [])
  | InvalidCredentialsError =>
      raise (app_error 401 "Invalid credentials" "invalid_credentials" ProblemType.AUTH_INVALID_CREDENTIALS [])
  | StaleTokenError =>
      raise (app_error 401 "Token is stale — re-authentication required" "stale_token" ProblemType.AUTH_TOKEN_STALE [])
  | InvalidTokenError =>
      raise (app_error 401 "Invalid token" "invalid_token" ProblemType.AUTH_TOKEN_INVALID [])
  | InactiveUserError =>
      raise (app_error 403 "Account inactive" "inactive_user" ProblemType.AUTHZ_PERMISSION_DENIED [])
  | EmailNotVerifiedError =>
      raise (app_error 403 "Email not verified" "email_not_verified" ProblemType.AUTH_EMAIL_NOT_VERIFIED [])
  | PermissionDeniedError =>
      raise (app_error 403 "Permission denied" "permission_denied" ProblemType.AUTHZ_PERMISSION_DENIED [])
  | NotFoundError message =>
      raise (app_error 404 (if String.eqb message "" then "Not found" else message) "not_found"
               ProblemType.GENERIC_NOT_FOUND [])
  | TokenAlreadyUsedError =>
      raise (app_error 400 "Token already used" "token_already_used" ProblemType.AUTH_TOKEN_INVALID [])
  | ConflictError message =>
      raise (app_error 409 (if String.eqb message "" then "Conflict" else message) "conflict"
               ProblemType.GENERIC_CONFLICT [])
  | RateLimitExceededError retry_after_seconds =>
      raise (app_error 429 "Rate limit exceeded" "rate_limit_exceeded" ProblemType.AUTH_RATE_LIMITED
               [("Retry-After", pretty retry_after_seconds)])
  | AuthConfigurationError _ =>
      raise (app_error 503 "Authentication is not configured" "auth_not_configured" ProblemType.ABOUT_BLANK [])
  | OtherAuthError message => raise (app_error 400 message "auth_error" ProblemType.ABOUT_BLANK [])
  end.

(** ** The process state *)

(** The settings the routes read. *)
Record HttpSettings := mkHttpSettings {
  environment : string;
  cors_origins : list string;
  auth_rate_limit_enabled : bool;
  auth_cookie_secure : bool;
  auth_cookie_samesite : string;
  auth_settings : AuthSettings;
}.

(** What a rate limiter offers to the routes; its clock is part of its state. *)
Class RateLimiterPort (L : Type) := limiter_check : string → M L (Result unit AuthError).

(** The limiters of [AuthContainer]. *)
Record Limiters (L : Type) := mkLimiters {
  rate_limiter : L;
  per_account_login_limiter : L;
  per_account_reset_limiter : L;
  per_account_verify_limiter : L;
}.
Arguments mkLimiters {L}. Arguments rate_limiter {L}. Arguments per_account_login_limiter {L}.
Arguments per_account_reset_limiter {L}. Arguments per_account_verify_limiter {L}.

(** A [Set-Cookie]; a deletion has an empty value and no lifetime. *)
Record SetCookie := mkSetCookie {
  ck_key : string;
  ck_value : string;
  ck_max_age : Z;
  ck_path : string;
  ck_secure : bool;
  ck_httponly : bool;
  ck_samesite : string;
}.

Record App (C L : Type) := mkApp {
  world : World;
  principal_cache : C;
  limiters : Limiters L;
  response_cookies : list SetCookie;
  actor_id : option uuid;
}.
Arguments mkApp {C L}. Arguments world {C L}. Arguments principal_cache {C L}. Arguments limiters {C L}.
Arguments response_cookies {C L}. Arguments actor_id {C L}.

Section app.
Context {C L : Type}.
Implicit Types a : App C L.

(** A use case that does not touch the cache, and one that does. *)
Definition on_world {A} (m : IO A) : M (App C L) A := λ a,
  let '(r, w) := m (world a) in
  (r, mkApp w (principal_cache a) (limiters a) (response_cookies a) (actor_id a)).
Definition on_auth {A} (m : M (World * C) A) : M (App C L) A := λ a,
  let '(r, (w, c)) := m (world a, principal_cache a) in
  (r, mkApp w c (limiters a) (response_cookies a) (actor_id a)).

Definition set_cookie (k : SetCookie) : M (App C L) unit :=
  modify (λ a, mkApp (world a) (principal_cache a) (limiters a) (response_cookies a ++ [k])%list (actor_id a)).

(** [request_state.py]. *)
Definition set_actor_id (i : option uuid) : M (App C L) unit :=
  modify (λ a, mkApp (world a) (principal_cache a) (limiters a) (response_cookies a) i).

(** A call on one of the limiters. *)
Inductive which := PerIp | Login | Reset | Verify.
Definition get_limiter (i : which) (l : Limiters L) : L :=
  match i with
  | PerIp => rate_limiter l
  | Login => per_account_login_limiter l
  | Reset => per_account_reset_limiter l
  | Verify => per_account_verify_limiter l
  end.
Definition put_limiter (i : which) (x : L) (l : Limiters L) : Limiters L :=
  match i with
  | PerIp => mkLimiters x (per_account_login_limiter l) (per_account_reset_limiter l) (per_account_verify_limiter l)
  | Login => mkLimiters (rate_limiter l) x (per_account_reset_limiter l) (per_account_verify_limiter l)
  | Reset => mkLimiters (rate_limiter l) (per_account_login_limiter l) x (per_account_verify_limiter l)
  | Verify => mkLimiters (rate_limiter l) (per_account_login_limiter l) (per_account_reset_limiter l) x
  end.
Definition on_limiter {A} (i : which) (m : M L A) : M (App C L) A := λ a,
  let '(r, x) := m (get_limiter i (limiters a)) in
  (r, mkApp (world a) (principal_cache a) (put_limiter i x (limiters a)) (response_cookies a) (actor_id a)).
End app.

(** ** [cookies.py] *)

Definition REFRESH_COOKIE_NAME : string := "refresh_token".

(** Starlette's [delete_cookie] sets an empty cookie that has expired. *)
Definition clear_refresh_cookie {C L} (settings : HttpSettings) : M (App C L) unit :=
  set_cookie (mkSetCookie REFRESH_COOKIE_NAME "" 0 "/auth" (auth_cookie_secure settings) false
                (auth_cookie_samesite settings)).

(** ** [dependencies.py] *)

Section routes.
Context `{Env} `{Jwt} `{IpLiterals} (settings : HttpSettings).
Context {C : Type} `{PrincipalCachePort C} {L : Type} `{RateLimiterPort L}.

Abbreviation cfg := (auth_settings settings).
Abbreviation Handler := (M (App C L)).

Definition credentials_exception : exn :=
  http_error 401 "Could not validate credentials" [("WWW-Authenticate", "Bearer")].

(** [Ok] continues with the value, [Err] is translated and raised. *)
Definition match_result {A B} (result : Result A AuthError) (ok : A → Handler B) : Handler B :=
  match result with
  | Ok value => ok value
  | Err exc => raise_http_from_auth_error exc
  end.

Definition get_current_principal (request : Request) : Handler Principal :=
  match creds request with
  | None => raise credentials_exception
  | Some token =>
      result ← on_auth (ResolvePrincipal.execute cfg token);
      match_result result (λ principal,
        set_actor_id (Some (p_user_id principal)) ;;
        mret principal)
  end.

Definition require_active_user (request : Request) : Handler Principal :=
  principal ← get_current_principal request;
  if negb (p_is_active principal) then raise (http_error 403 "Inactive user" []) else mret principal.

(** ** [auth.py]: helpers *)

Definition client_ip (request : Request) : option string := client_host request.
Definition user_agent (request : Request) : option string := headers request !! "user-agent".

(** [identifier or 'unknown']. *)
Definition account_key (action : string) (identifier : option string) : string :=
  "per_account:" +:+ action +:+ ":" +:+
    match identifier with Some "" | None => "unknown" | Some identifier => identifier end.

Definition principal_response (principal : Principal) : PrincipalPublic :=
  mkPrincipalPublic (p_user_id principal) (p_email principal) (p_is_active principal) (p_is_verified principal).

Definition set_refresh_cookie (tokens : IssuedTokens) : Handler unit :=
  set_cookie (mkSetCookie REFRESH_COOKIE_NAME (refresh_token tokens)
                (auth_refresh_token_expire_days cfg * 24 * 60 * 60) "/auth"
                (auth_cookie_secure settings) true (auth_cookie_samesite settings)).

Definition referer_origin (referer : string) : Handler (option string) :=
  match urlsplit referer with
  | None => mret None
  | Some parts =>
      if String.eqb (scheme parts) "" then mret None else
      match hostname parts with
      | None => mret None
      | Some host =>
          p ← port parts;
          let host := match p with Some p => host +:+ ":" +:+ pretty p | None => host end in
          mret (Some (scheme parts +:+ "://" +:+ host))
      end
  end.

Definition untrusted_origin : exn := http_error 403 "Untrusted origin" [].

Definition enforce_cookie_origin (request : Request) : Handler unit :=
  let wildcard := bool_decide ("*" ∈ cors_origins settings) in
  match headers request !! "origin" with
  | Some origin =>
      if wildcard then mret tt else
      if negb (bool_decide (origin ∈ cors_origins settings)) then raise untrusted_origin else mret tt
  | None =>
      match headers request !! "referer" with
      | Some referer =>
          origin ← referer_origin referer;
          match origin with
          | None => raise untrusted_origin
          | Some origin =>
              if wildcard then mret tt else
              if negb (bool_decide (origin ∈ cors_origins settings)) then raise untrusted_origin else mret tt
          end
      | None =>
          if bool_decide (is_Some (cookies request !! REFRESH_COOKIE_NAME)) then raise untrusted_origin else mret tt
      end
  end.

(** A limiter's refusal becomes a 429. *)
Definition limited (i : which) (key : string) : Handler unit :=
  r ← on_limiter i (limiter_check key);
  match r with
  | Ok _ => mret tt
  | Err exc => raise_http_from_auth_error exc
  end.

(** [None] formats as ["None"]. *)
Definition ip_key (request : Request) (key : string) : string :=
  req_path request +:+ ":" +:+ default "None" (client_ip request) +:+ ":" +:+ key.

Definition check_rate_limit (request : Request) (key : string) : Handler unit :=
  if negb (auth_rate_limit_enabled settings) then mret tt else limited PerIp (ip_key request key).

Definition check_per_account_rate_limit (action : string) (identifier : option string) : Handler unit :=
  if negb (auth_rate_limit_enabled settings) then mret tt else
  if String.eqb action "login" then limited Login (account_key action identifier)
  else if String.eqb action "reset" then limited Reset (account_key action identifier)
  else if String.eqb action "verify" then limited Verify (account_key action identifier)
  else raise (ValueError "unknown per-account rate-limit action").

(** ** [auth.py]: routes *)

Definition register (email password : string) (request : Request) : Handler body :=
  check_rate_limit request "registration" ;;
  check_per_account_rate_limit "login" (Some email) ;;
  result ← on_world (RegisterUser.execute email password (client_ip request) (user_agent request));
  match_result result (λ user, mret (UserResponse (user_public user))).

(** The reply of a login and of a rotation. *)
Definition token_reply (issued : IssuedTokens * Principal) : Handler body :=
  let '(tokens, principal) := issued in
  set_refresh_cookie tokens ;;
  mret (TokenResponse (access_token tokens) "bearer" (expires_in tokens) (principal_response principal)).

Definition login (email password : string) (request : Request) : Handler body :=
  check_rate_limit request email ;;
  check_per_account_rate_limit "login" (Some email) ;;
  result ← on_world (LoginUser.execute cfg email password (client_ip request) (user_agent request));
  match_result result token_reply.

Definition refresh (request : Request) : Handler body :=
  enforce_cookie_origin request ;;
  result ← on_world (RotateRefreshToken.execute cfg (cookies request !! REFRESH_COOKIE_NAME)
                       (client_ip request) (user_agent request));
  match_result result token_reply.

Definition logout (request : Request) : Handler body :=
  enforce_cookie_origin request ;;
  on_world (LogoutUser.execute (cookies request !! REFRESH_COOKIE_NAME)) ;;
  clear_refresh_cookie settings ;;
  mret (MessageResponse "Logged out").

Definition logout_all (principal : Principal) (request : Request) : Handler body :=
  result ← on_auth (LogoutAllSessions.execute true (p_user_id principal) (client_ip request) (user_agent request));
  match_result result (λ _,
    clear_refresh_cookie settings ;;
    mret (MessageResponse "All sessions revoked")).

Definition me (principal : Principal) : Handler body := mret (PrincipalResponse (principal_response principal)).

Definition forgot_password (email : string) (request : Request) : Handler body :=
  check_rate_limit request email ;;
  check_per_account_rate_limit "reset" (Some email) ;;
  result ← on_world (RequestPasswordReset.execute cfg email (client_ip request));
  match_result result (λ token_result,
    mret (InternalTokenResponse "If the account exists, a reset token has been created"
            (itr_token token_result) (itr_expires_at token_result))).

Definition reset_password (token new_password : string) (request : Request) : Handler body :=
  let token_key := String.substring 0 32 (sha256_hex token) in
  check_rate_limit request token_key ;;
  result ← on_auth (ConfirmPasswordReset.execute true token new_password);
  match_result result (λ _, mret (MessageResponse "Password reset complete")).

Definition request_email_verify (principal : Principal) (request : Request) : Handler body :=
  check_rate_limit request (uuid_str (p_user_id principal)) ;;
  check_per_account_rate_limit "verify" (Some (uuid_str (p_user_id principal))) ;;
  result ← on_world (RequestEmailVerification.execute cfg (p_user_id principal) (client_ip request));
  match_result result (λ token_result,
    mret (InternalTokenResponse "Email verification token created"
            (itr_token token_result) (itr_expires_at token_result))).

Definition verify_email (token : string) : Handler body :=
  result ← on_auth (ConfirmEmailVerification.execute true token);
  match_result result (λ _, mret (MessageResponse "Email verified")).

(** ** Serving a request *)

Inductive endpoint :=
  | POST_register (email password : string)
  | POST_login (email password : string)
  | POST_refresh
  | POST_logout
  | POST_logout_all
  | GET_me
  | POST_password_forgot (email : string)
  | POST_password_reset (token new_password : string)
  | POST_email_verify_request
  | POST_email_verify (token : string).

Record Response := mkResponse {
  resp_status : Z;
  resp_body : body;
  resp_headers : list (string * string);
  resp_cookies : list SetCookie;
}.

(** The model of the body is validated first; a failure never reaches the
    handler. *)
Definition with_body {A} (model : Result A (list ValidationEntry)) (handler : A → Handler body)
    : Result (Handler body) (list ValidationEntry) := result_map model handler.

(** The handler a request is routed to, with the status of its success. *)
Definition route (e : endpoint) (request : Request) : Z * Result (Handler body) (list ValidationEntry) :=
  match e with
  | POST_register email password =>
      (201, with_body (RegisterRequest.validate email password) (λ '(email, password), register email password request))
  | POST_login email password =>
      (200, with_body (LoginRequest.validate email password) (λ '(email, password), login email password request))
  | POST_refresh => (200, Ok (refresh request))
  | POST_logout => (200, Ok (logout request))
  | POST_logout_all => (200, Ok (principal ← get_current_principal request; logout_all principal request))
  | GET_me => (200, Ok (get_current_principal request ≫= me))
  | POST_password_forgot email =>
      (202, with_body (PasswordForgotRequest.validate email) (λ email, forgot_password email request))
  | POST_password_reset token new_password =>
      (200, with_body (PasswordResetRequest.validate token new_password)
              (λ '(token, new_password), reset_password token new_password request))
  | POST_email_verify_request => (202, Ok (principal ← get_current_principal request; request_email_verify principal request))
  | POST_email_verify token => (200, with_body (EmailVerifyRequest.validate token) (λ token, verify_email token))
  end.

(** A fresh response and request state; an exception replaces the response, with
    the cookies set so far, by a problem. *)
Definition serve (e : endpoint) (request : Request) (a : App C L) : Response * App C L :=
  let a := mkApp (world a) (principal_cache a) (limiters a) [] None in
  match route e request with
  | (_, Err errors) =>
      (mkResponse 422 (ProblemResponse (validation_exception_handler (environment settings) request errors)) [] [], a)
  | (status, Ok handler) =>
      match handler a with
      | (Ret b, a) => (mkResponse status b [] (response_cookies a), a)
      | (Raise e, a) =>
          let '(problem, headers) := exception_handler request e in
          (mkResponse (pr_status problem) (ProblemResponse problem) headers [], a)
      end
  end.
End routes.
