(* ===== verification/AuthHttpFacts.v ===== *)
(** What the authentication endpoints guarantee: the origin guard of the
    cookie-authenticated routes, the per-account budget of password attempts, and
    what a login response tells about accounts. *)

From stdpp Require Import pretty.
From S2P Require Import Prelude PyStr Uuid Store StoreFacts Demo Users UsersFacts AuthRepo AuthRepoFacts Principals DemoAuth PrincipalsFacts Auth RefreshFamilies AuthFacts RateLimit RateLimitFacts Http AuthHttp.
Open Scope string_scope.
Open Scope list_scope.
Open Scope Z_scope.

(** ** What a rate limiter promises to the routes *)

(** [rl_now] is the instant the next call is made at; the ghost [log] holds the
    accepted attempts.  [K] are the keys in use. *)
Class RateLimiterLaws (L : Type) `{RateLimiterPort L} (K : gset string) (window : time) (max : Z) := {
  rl_now : L → time;
  rl_inv : L → gmap string (list time) → Prop;
  rl_check_law key l log : key ∈ K → rl_inv l log →
    ∃ r l', limiter_check key l = (Ret r, l') ∧
      match r with
      | Ok _ => rl_inv l' (<[key := accepted log key ++ [rl_now l]]> log)
      | Err e => rl_inv l' log ∧ ∃ retry_after, e = RateLimitExceededError retry_after
      end;
  rl_budget l log key a : rl_inv l log →
    Z.of_nat (length (filter (λ ts, a <= ts <= a + window) (accepted log key))) <= 0 `max` max;
}.

(** *** The in-process limiter keeps the promise *)

Record Clocked (T : Type) := mkClocked {
  lim_cfg : FixedWindowRateLimiter.Config;
  lim_cache : T;
  lim_clock : nat → FixedWindowRateLimiter.readings;
}.
Arguments mkClocked {T}. Arguments lim_cfg {T}. Arguments lim_cache {T}. Arguments lim_clock {T}.

#[global] Instance clocked_limiter {T} `{AttemptCache T} : RateLimiterPort (Clocked T) := λ key l,
  let '(r, t) := FixedWindowRateLimiter.check (lim_cfg l) (lim_clock l 0%nat) key (lim_cache l) in
  (r, mkClocked (lim_cfg l) t (λ n, lim_clock l (S n))).

Section clocked.
Import FixedWindowRateLimiter.
Context {T : Type} `{AttemptCache T} (cfg : Config) `{!AttemptCacheLaws T (maxsize cfg) (cache_ttl cfg)}.

(** The clock is monotonic, and the cache reads it within the slack. *)
Definition clock_ordered (b : time) (clock : nat → readings) : Prop :=
  b <= at_now (clock 0%nat) ∧
  ∀ n, at_now (clock n) <= at_get (clock n) ∧ at_get (clock n) <= at_set (clock n) ∧
    at_get (clock n) < at_now (clock n) + FIXED_WINDOW_TTL_SLACK_SECONDS * second ∧
    at_set (clock n) <= at_now (clock (S n)).

Definition clocked_inv (K : gset string) (l : Clocked T) (log : gmap string (list time)) : Prop :=
  lim_cfg l = cfg ∧ (∀ k, within_budget true (window_seconds cfg * second) (max_attempts cfg) (accepted log k)) ∧
  ∃ b, clock_ordered b (lim_clock l) ∧ sim cfg K b (lim_cache l) log.

Lemma clocked_check K key l log :
  0 <= window_seconds cfg → (size K <= maxsize cfg)%nat → key ∈ K → clocked_inv K l log →
  ∃ r l', limiter_check key l = (Ret r, l') ∧
    match r with
    | Ok _ => clocked_inv K l' (<[key := accepted log key ++ [at_now (lim_clock l 0%nat)]]> log)
    | Err e => clocked_inv K l' log ∧ ∃ retry_after, e = RateLimitExceededError retry_after
    end.
Proof.
  intros HW HK Hkey (Hc & Hb & b & [Hb0 Hord] & Hsim). destruct (Hord 0%nat) as (H1 & H2 & H3 & H4).
  pose proof (ref_check_budget true (window_seconds cfg * second) (max_attempts cfg) (at_now (lim_clock l 0%nat)) key log Hb) as Hb'.
  destruct (check_sim cfg K b (lim_cache l) log (lim_clock l 0%nat) key) as (r & t' & E & Hr & Hs); [done..|].
  unfold limiter_check, clocked_limiter. rewrite Hc E. eexists r, _. split; [done|].
  assert (He : ∀ e, r = Err e → ∃ retry_after, e = RateLimitExceededError retry_after).
  { intros e ->. revert E. unfold check. destruct (ac_get _ _ _) as [got t1]. case_match; [|done].
    intros [= <- _]. by eexists. }
  unfold ref_check in Hr, Hs, Hb'. destruct (_ <=? _); cbn in Hr, Hs, Hb'; destruct r as [[]|e]; try done.
  - split; [|by apply He]. split_and!; [done..|]. exists (at_set (lim_clock l 0%nat)). split; [|done].
    split; [done|]. intros n. apply (Hord (S n)).
  - split_and!; [done..|]. exists (at_set (lim_clock l 0%nat)). split; [|done].
    split; [done|]. intros n. apply (Hord (S n)).
Qed.

Lemma clocked_budget K l log key a :
  clocked_inv K l log →
  Z.of_nat (length (filter (λ ts, a <= ts <= a + window_seconds cfg * second) (accepted log key))) <= 0 `max` max_attempts cfg.
Proof.
  intros (_ & Hb & _). specialize (Hb key a).
  rewrite (list_filter_iff _ (λ ts, in_span true (window_seconds cfg * second) a ts = true)); [done|]. intros ts.
  unfold in_span, after. by rewrite andb_true_iff !Z.leb_le.
Qed.

Definition clocked_laws (K : gset string) (HW : 0 <= window_seconds cfg) (HK : (size K <= maxsize cfg)%nat)
    : RateLimiterLaws (Clocked T) K (window_seconds cfg * second) (max_attempts cfg) := {|
  rl_now l := at_now (lim_clock l 0%nat);
  rl_inv := clocked_inv K;
  rl_check_law key l log Hkey := clocked_check K key l log HW HK Hkey;
  rl_budget l log key a := clocked_budget K l log key a;
|}.
End clocked.

(** ** Handlers *)

Section routes.
Context `{Env} `{Jwt} `{IpLiterals} (settings : HttpSettings).
Context {C : Type} `{PrincipalCachePort C} {L : Type} `{RateLimiterPort L}.
Abbreviation AppCL := (App C L).
Implicit Types a : AppCL.

Definition with_limiters a (l : Limiters L) : AppCL :=
  mkApp (world a) (principal_cache a) l (response_cookies a) (actor_id a).

(** *** Procedures that only read and write the limiters *)

Definition limiter_only {A} (m : M AppCL A) : Prop :=
  (∀ a, (m a).2 = with_limiters a (limiters (m a).2)) ∧
  (∀ a1 a2, limiters a1 = limiters a2 → (m a1).1 = (m a2).1 ∧ limiters (m a1).2 = limiters (m a2).2).

Lemma with_limiters_id a : with_limiters a (limiters a) = a.
Proof. by destruct a. Qed.

Lemma limiter_only_ret {A} (x : A) : limiter_only (mret x).
Proof. split; [|done]. intros a. by rewrite with_limiters_id. Qed.

Lemma limiter_only_raise {A} e : limiter_only (raise e : M AppCL A).
Proof. split; [|done]. intros a. by rewrite with_limiters_id. Qed.

Lemma limiter_only_bind {A B} (m : M AppCL A) (k : A → M AppCL B) :
  limiter_only m → (∀ x, limiter_only (k x)) → limiter_only (m ≫= k).
Proof.
  intros [Hm1 Hm2] Hk. split.
  - intros a. rewrite run_bind. specialize (Hm1 a). destruct (m a) as [[x|e] a']; cbn in *; [|done].
    rewrite (proj1 (Hk x) a') /=. rewrite {1}Hm1. by destruct a.
  - intros a1 a2 Hl. rewrite !run_bind. destruct (Hm2 a1 a2 Hl) as [E El].
    destruct (m a1) as [o1 a1'], (m a2) as [o2 a2']. cbn in *. subst o2. destruct o1 as [x|e]; [|done].
    by apply (proj2 (Hk x)).
Qed.

Lemma limiter_only_on_limiter {A} i (m : M L A) : limiter_only (on_limiter i m).
Proof.
  split.
  - intros a. unfold on_limiter. by destruct (m _).
  - intros a1 a2 Hl. unfold on_limiter. rewrite Hl. by destruct (m _).
Qed.

Lemma limiter_only_error {A} e : limiter_only (raise_http_from_auth_error e : M AppCL A).
Proof. destruct e; apply limiter_only_raise. Qed.

Lemma limiter_only_limited i key : limiter_only (limited i key).
Proof.
  apply limiter_only_bind; [apply limiter_only_on_limiter|].
  intros []; [apply limiter_only_ret|apply limiter_only_error].
Qed.

Lemma limiter_only_ip request key : limiter_only (check_rate_limit settings request key).
Proof. unfold check_rate_limit. case_match; [apply limiter_only_ret|apply limiter_only_limited]. Qed.

Lemma limiter_only_account action identifier : limiter_only (check_per_account_rate_limit settings action identifier).
Proof.
  unfold check_per_account_rate_limit.
  repeat case_match; first [apply limiter_only_ret|apply limiter_only_limited|apply limiter_only_raise].
Qed.

(** *** Validated bodies *)

Lemma both_ok {A B} (x : Result A (list ValidationEntry)) (y : Result B (list ValidationEntry)) p :
  both x y = Ok p → x = Ok p.1 ∧ y = Ok p.2.
Proof. destruct x, y; try done. by intros [= <-]. Qed.

Lemma validate_field_ok name lo hi v s r : validate_field name lo hi v s = Ok r → v s = Ok r.
Proof. unfold validate_field. do 2 (case_match; [done|]). destruct (v s); congruence. Qed.

(** The address the handler works with is the normalized one. *)
Lemma login_body email password e p :
  LoginRequest.validate email password = Ok (e, p) → e = normalize_email email ∧ p = password.
Proof.
  intros [He Hp]%both_ok. apply validate_field_ok in He, Hp. cbn in *.
  injection He as ->. by injection Hp as ->.
Qed.

Lemma register_body email password e p :
  RegisterRequest.validate email password = Ok (e, p) → e = normalize_email email.
Proof.
  intros [He _]%both_ok. apply validate_field_ok in He. cbn in He. unfold RegisterRequest.normalize_email_value in He.
  case_match; congruence.
Qed.

(** *** Where a cookie-authenticated request comes from *)

Lemma referer_pure referer : ∃ x, ∀ a, referer_origin referer a = (x, a).
Proof.
  unfold referer_origin. destruct (urlsplit referer) as [parts|]; [|by eexists].
  case_match; [by eexists|]. destruct (hostname parts) as [host|]; [|by eexists].
  unfold port. destruct (hostinfo parts).2 as [|c s]; [by eexists|].
  case_match; [by eexists|]. case_match; by eexists.
Qed.

Definition trusted (origin : string) : Prop := "*" ∈ cors_origins settings ∨ origin ∈ cors_origins settings.

(** The request names a trusted origin in [Origin] or, without one, in
    [Referer]; or it names none and carries no refresh cookie. *)
Definition provenance (request : Request) a : Prop :=
  match headers request !! "origin", headers request !! "referer" with
  | Some origin, _ => trusted origin
  | None, Some referer => ∃ origin, referer_origin referer a = (Ret (Some origin), a) ∧ trusted origin
  | None, None => cookies request !! REFRESH_COOKIE_NAME = None
  end.

(** The [Referer] of a request without [Origin] has a port that is not one. *)
Definition bad_port (request : Request) a : Prop :=
  headers request !! "origin" = None ∧
  ∃ referer e, headers request !! "referer" = Some referer ∧ referer_origin referer a = (Raise e, a).

Lemma origin_test origin a :
  ((if bool_decide ("*" ∈ cors_origins settings) then mret tt else
    if negb (bool_decide (origin ∈ cors_origins settings)) then raise untrusted_origin else mret tt) : M AppCL unit) a =
  (if bool_decide (trusted origin) then Ret tt else Raise untrusted_origin, a).
Proof.
  unfold trusted. destruct (decide ("*" ∈ cors_origins settings)) as [Hw|Hw].
  - by rewrite !bool_decide_eq_true_2; [|left|].
  - rewrite (bool_decide_eq_false_2 ("*" ∈ _)) //.
    destruct (decide (origin ∈ cors_origins settings)) as [Ho|Ho].
    + by rewrite !bool_decide_eq_true_2; [|right|].
    + by rewrite !bool_decide_eq_false_2; [|intros []|].
Qed.

Lemma cookie_guard request a :
  (provenance request a ∧ enforce_cookie_origin settings request a = (Ret tt, a)) ∨
  (¬ provenance request a ∧ ∃ e, enforce_cookie_origin settings request a = (Raise e, a) ∧
     (e = untrusted_origin ∨ bad_port request a ∧ ∃ what, e = ValueError what)).
Proof.
  unfold enforce_cookie_origin, provenance, bad_port.
  destruct (headers request !! "origin") as [origin|].
  { rewrite origin_test. case_bool_decide; [by left|right]. split; [done|]. eexists. eauto. }
  destruct (headers request !! "referer") as [referer|]; last first.
  { case_bool_decide as Hc.
    - right. split; [by destruct Hc as [? ->]|]. eexists. eauto.
    - left. split; [by apply eq_None_not_Some|done]. }
  rewrite run_bind. destruct (referer_pure referer) as [x Hx]. rewrite Hx.
  destruct x as [[origin|]|e].
  - rewrite origin_test. case_bool_decide as Ht; [left|right].
    + split; [by exists origin|done].
    + split; [|eexists; eauto]. intros (o & [= ->] & ?). done.
  - right. split; [by intros (o & ? & _)|]. eexists. eauto.
  - right. split; [by intros (o & ? & _)|]. exists e. split; [done|]. right. split; [eauto|].
    revert Hx. unfold referer_origin. destruct (urlsplit referer); [|by intros Hx; specialize (Hx a)].
    case_match; [by intros Hx; specialize (Hx a)|]. destruct (hostname _); [|by intros Hx; specialize (Hx a)].
    intros Hx. specialize (Hx a). rewrite run_bind in Hx. unfold port in Hx.
    repeat (case_match; unfold raise in *; cbn in *; try done); simplify_eq; eauto.
Qed.

(** The routes that read the refresh cookie, and the use case each runs. *)
Definition cookie_route (e : endpoint) : Prop := e = POST_refresh ∨ e = POST_logout.
Definition cookie_use_case (e : endpoint) (request : Request) (w : World) : World :=
  match e with
  | POST_refresh => state_of (RotateRefreshToken.execute (auth_settings settings)
      (cookies request !! REFRESH_COOKIE_NAME) (client_ip request) (user_agent request)) w
  | POST_logout => state_of (LogoutUser.execute (cookies request !! REFRESH_COOKIE_NAME)) w
  | _ => w
  end.

(** The state a request starts from: nothing written to the exchange yet. *)
Definition exchange a : AppCL := mkApp (world a) (principal_cache a) (limiters a) [] None.

(** A refusal by a guard that leaves the state alone. *)
Lemma serve_raises e request handler status a exc a' :
  route settings e request = (status, Ok handler) → handler (exchange a) = (Raise exc, a') →
  serve settings e request a =
    (let '(problem, hs) := exception_handler request exc in
     mkResponse (pr_status problem) (ProblemResponse problem) hs [], a').
Proof. intros Hr Hh. unfold serve. rewrite Hr. fold (exchange a). rewrite Hh. by destruct (exception_handler request exc). Qed.

Lemma raise_world {A} e a : ((raise_http_from_auth_error e : M AppCL A) a).2 = a.
Proof. by destruct e. Qed.

(** Translating the use case's result keeps the world it left. *)
Lemma match_result_world {A B} (m : IO (Result A AuthError)) (k : A → M AppCL B) a :
  (∀ x a, world (k x a).2 = world a) →
  world ((on_world m ≫= λ r, match_result r k) a).2 = state_of m (world a).
Proof.
  intros Hk. rewrite run_bind. unfold on_world, state_of. destruct (m (world a)) as [[[x|e]|exc] w]; cbn; [by rewrite Hk| |done].
  by rewrite raise_world.
Qed.

Lemma token_reply_world x a : world (token_reply settings x a).2 = world a.
Proof. by destruct x. Qed.

(** C10. Cross-site requests cannot use the refresh cookie.  A refresh or logout
    request is served exactly when it names a trusted origin in Origin or, if
    that header is absent, in Referer, or names none and carries no cookie; then
    the use case runs on the cookie.  Otherwise it is answered 403 (500 if the
    Referer's port cannot be parsed), sets no cookie, and no row, cache entry or
    limiter changes. *)
Theorem cookie_origin_guard e request a :
  cookie_route e →
  let '(resp, a') := serve settings e request a in
  (provenance request (exchange a) → world a' = cookie_use_case e request (world a)) ∧
  (¬ provenance request (exchange a) →
     (resp_status resp = 403 ∨ resp_status resp = 500 ∧ bad_port request (exchange a)) ∧
     resp_cookies resp = [] ∧ a' = exchange a).
Proof.
  intros He. destruct (cookie_guard request (exchange a)) as [[Hp Eg]|(Hnp & x & Eg & Hx)].
  - destruct He as [-> | ->]; unfold serve; cbn [route]; fold (exchange a).
    + unfold refresh. rewrite run_bind Eg.
      pose proof (match_result_world (RotateRefreshToken.execute (auth_settings settings)
        (cookies request !! REFRESH_COOKIE_NAME) (client_ip request) (user_agent request)) (token_reply settings)
        (exchange a) token_reply_world) as Hw.
      match goal with |- context [match ?m with _ => _ end] => destruct m as [[b|exc] a1] end;
        cbn in Hw; [|destruct (exception_handler request exc)]; by split.
    + unfold logout. rewrite run_bind Eg run_bind. unfold on_world, cookie_use_case, state_of. cbn [world exchange].
      destruct (LogoutUser.execute _ (world a)) as [[b|exc] w1]; cbn; [|destruct (exception_handler request exc)]; by split.
  - assert (∃ status handler, route settings e request = (status, Ok handler) ∧
      handler (exchange a) = (Raise x, exchange a)) as (status & handler & Hr & Hh).
    { destruct He as [-> | ->]; (do 2 eexists; split; [done|]);
        unfold refresh, logout; by rewrite run_bind Eg. }
    rewrite (serve_raises _ _ _ _ _ _ _ Hr Hh).
    destruct Hx as [-> | [Hb [what ->]]]; cbn; (split; [done|intros _; split_and!; [|done|done]]); auto.
Qed.

(** *** Login *)

(** The two limiters a login passes, and what follows. *)
Definition login_guards (email : string) (request : Request) : M AppCL unit :=
  check_rate_limit settings request email ;;
  check_per_account_rate_limit settings "login" (Some email).
Definition login_rest (email password : string) (request : Request) : M AppCL body :=
  result ← on_world (LoginUser.execute (auth_settings settings) email password (client_ip request) (user_agent request));
  match_result result (token_reply settings).

Lemma login_run email password request a :
  login settings email password request a =
    match login_guards email request a with
    | (Ret _, a') => login_rest email password request a'
    | (Raise e, a') => (Raise e, a')
    end.
Proof.
  unfold login, login_guards. rewrite !run_bind. destruct (check_rate_limit _ _ _ _) as [[[]|] a1]; [|done].
  rewrite run_bind. by destruct (check_per_account_rate_limit _ _ _ a1) as [[[]|] a2].
Qed.

Lemma limiter_only_guards email request : limiter_only (login_guards email request).
Proof. apply limiter_only_bind; [apply limiter_only_ip|intros []; apply limiter_only_account]. Qed.

Definition credential_accepts (email password : string) (d : Db) : Prop :=
  ∃ u i c, find_email (normalize_email email) d = Some u ∧
    credentials d !! i = Some c ∧ cred_user_id c = u_id u ∧ cred_algorithm c = "argon2" ∧
    argon2_verify (cred_hash c) password = true.

Lemma run_login_mismatch email password ip ua w :
  db_ok (w_db w) → drawn_fresh w → argon2_verify FIXED_DUMMY_ARGON2_HASH password = false →
  ¬ credential_accepts email password (w_db w) →
  ∃ w', LoginUser.execute (auth_settings settings) email password ip ua w = (Ret (Err InvalidCredentialsError), w') ∧
    verifications (w_trace w') = S (verifications (w_trace w)).
Proof.
  intros Hok Hfr Hdummy Hno. rewrite run_login_prefix //. cbv zeta.
  assert (∀ u, (∀ i, u = Some i → is_Some (users (w_db w) !! i)) → ∃ w',
    LoginUser.reject u "invalid_credentials" ip ua InvalidCredentialsError (log_event EvPasswordVerify w) =
      (Ret (Err InvalidCredentialsError), w') ∧ verifications (w_trace w') = S (verifications (w_trace w))) as Hrej.
  { intros u Hu. destruct (run_reject u "invalid_credentials" ip ua InvalidCredentialsError
      (log_event EvPasswordVerify w)) as (w' & E & _ & Htr & _); [done|by destruct Hfr|done|].
    exists w'. split; [done|]. by rewrite Htr. }
  destruct (find_email (normalize_email email) (w_db w)) as [u|] eqn:Hu; unfold login_tail; [|by apply Hrej].
  destruct (argon2_verify (stored_hash (Some u) (w_db w)) password) eqn:Hv.
  - apply stored_hash_spec in Hv as (i & c & Hc); [|done..]. destruct Hno. by exists u, i, c.
  - cbn [negb]. apply Hrej. intros i [= <-]. destruct (find_email_user _ _ _ Hu) as (r & Hr & _). by rewrite Hr.
Qed.

Lemma serve_login email password e p request a :
  LoginRequest.validate email password = Ok (e, p) →
  serve settings (POST_login email password) request a =
    match login settings e p request (exchange a) with
    | (Ret b, a') => (mkResponse 200 b [] (response_cookies a'), a')
    | (Raise x, a') =>
        (let '(problem, hs) := exception_handler request x in
         mkResponse (pr_status problem) (ProblemResponse problem) hs [], a')
    end.
Proof.
  intros Hv. unfold serve. cbn [route with_body]. rewrite Hv. cbn [result_map with_body]. fold (exchange a).
  destruct (login settings e p request (exchange a)) as [[b|x] a']; [done|]. by destruct (exception_handler request x).
Qed.

(** C25. A failed login tells nothing about accounts.  In any two states of the
    process with the same rate-limiter state, in which the password does not
    match a credential of the address (because there is no such account, because
    it has no password, or because the password is wrong), the same login request
    gets the same response, headers and cookies included, and costs the same
    number of password evaluations. *)
Theorem login_hides_accounts email password request a1 a2 :
  limiters a1 = limiters a2 →
  db_ok (w_db (world a1)) → db_ok (w_db (world a2)) → drawn_fresh (world a1) → drawn_fresh (world a2) →
  argon2_verify FIXED_DUMMY_ARGON2_HASH password = false →
  ¬ credential_accepts email password (w_db (world a1)) → ¬ credential_accepts email password (w_db (world a2)) →
  let '(resp1, a1') := serve settings (POST_login email password) request a1 in
  let '(resp2, a2') := serve settings (POST_login email password) request a2 in
  resp1 = resp2 ∧
  ∃ n, verifications (w_trace (world a1')) = (n + verifications (w_trace (world a1)))%nat ∧
       verifications (w_trace (world a2')) = (n + verifications (w_trace (world a2)))%nat.
Proof.
  intros Hl Hok1 Hok2 Hfr1 Hfr2 Hd Hn1 Hn2.
  destruct (LoginRequest.validate email password) as [[e p]|errs] eqn:Hv; last first.
  { unfold serve. cbn [route]. rewrite Hv. cbn. split; [done|]. by exists 0%nat. }
  rewrite !(serve_login _ _ _ _ _ _ Hv) !login_run. apply login_body in Hv as [-> ->].
  destruct (limiter_only_guards (normalize_email email) request) as [Hw Hs].
  destruct (Hs (exchange a1) (exchange a2) Hl) as [E El]. pose proof (Hw (exchange a1)) as Hw1. pose proof (Hw (exchange a2)) as Hw2.
  destruct (login_guards _ _ (exchange a1)) as [o1 b1], (login_guards _ _ (exchange a2)) as [o2 b2].
  cbn in E, El, Hw1, Hw2. subst o2. destruct o1 as [[]|x]; last first.
  { destruct (exception_handler request x). split; [done|]. exists 0%nat. by rewrite Hw1 Hw2. }
  unfold login_rest. rewrite !run_bind. unfold on_world. rewrite Hw1 Hw2. cbn [world with_limiters exchange].
  destruct (run_login_mismatch (normalize_email email) password (client_ip request) (user_agent request) (world a1)) as (w1 & -> & H1v);
    [done..|by unfold credential_accepts; rewrite normalize_email_idemp|].
  destruct (run_login_mismatch (normalize_email email) password (client_ip request) (user_agent request) (world a2)) as (w2 & -> & H2v);
    [done..|by unfold credential_accepts; rewrite normalize_email_idemp|].
  cbn. split; [done|]. exists 1%nat. by rewrite H1v H2v.
Qed.

(** *** The budget of password attempts per account *)

Abbreviation login_limiter a := (per_account_login_limiter (limiters a)).

(** Procedures that leave the login limiter alone. *)
Definition keeps_login {A} (m : M AppCL A) : Prop := ∀ a, login_limiter (m a).2 = login_limiter a.

Lemma login_keeps_ret {A} (x : A) : keeps_login (mret x).
Proof. done. Qed.
Lemma login_keeps_raise {A} e : keeps_login (raise e : M AppCL A).
Proof. done. Qed.
Lemma login_keeps_bind {A B} (m : M AppCL A) (k : A → M AppCL B) :
  keeps_login m → (∀ x, keeps_login (k x)) → keeps_login (m ≫= k).
Proof.
  intros Hm Hk a. rewrite run_bind. specialize (Hm a). destruct (m a) as [[x|e] a']; cbn in *; [|done]. by rewrite Hk.
Qed.
Lemma keeps_world {A} (m : IO A) : keeps_login (on_world m).
Proof. intros a. unfold on_world. by destruct (m _). Qed.
Lemma keeps_auth {A} (m : M (World * C) A) : keeps_login (on_auth m).
Proof. intros a. unfold on_auth. by destruct (m _) as [? []]. Qed.
Lemma keeps_cookie k : keeps_login (set_cookie k).
Proof. done. Qed.
Lemma keeps_actor i : keeps_login (set_actor_id i).
Proof. done. Qed.
Lemma keeps_error {A} e : keeps_login (raise_http_from_auth_error e : M AppCL A).
Proof. by destruct e. Qed.
Lemma keeps_match {A B} (r : Result A AuthError) (k : A → M AppCL B) :
  (∀ x, keeps_login (k x)) → keeps_login (match_result r k).
Proof. intros Hk. destruct r; [apply Hk|apply keeps_error]. Qed.
Lemma keeps_limited i key : i ≠ Login → keeps_login (limited i key).
Proof.
  intros Hi. apply login_keeps_bind; [|intros []; [apply login_keeps_ret|apply keeps_error]].
  intros a. unfold on_limiter. by destruct (limiter_check _ _), i.
Qed.
Lemma keeps_ip request key : keeps_login (check_rate_limit settings request key).
Proof. unfold check_rate_limit. case_match; [done|by apply keeps_limited]. Qed.
Lemma keeps_account action i : action ≠ "login" → keeps_login (check_per_account_rate_limit settings action i).
Proof.
  intros Ha. unfold check_per_account_rate_limit. case_match; [done|].
  rewrite (proj2 (String.eqb_neq _ _) Ha). repeat case_match; first [by apply keeps_limited|done].
Qed.
Lemma keeps_origin request : keeps_login (enforce_cookie_origin settings request).
Proof. intros a. by destruct (cookie_guard request a) as [[_ ->]|(_ & ? & -> & _)]. Qed.

Create HintDb keeps.
#[local] Hint Resolve login_keeps_ret login_keeps_raise login_keeps_bind keeps_world keeps_auth keeps_cookie keeps_actor keeps_error
  keeps_match keeps_ip keeps_origin : keeps.
#[local] Hint Extern 1 (keeps_login (check_per_account_rate_limit _ _ _)) => by apply keeps_account : keeps.

Lemma keeps_principal request : keeps_login (get_current_principal settings request).
Proof. unfold get_current_principal. case_match; eauto 7 with keeps. Qed.
Lemma keeps_reply x : keeps_login (token_reply settings x).
Proof. destruct x. unfold token_reply, set_refresh_cookie. eauto with keeps. Qed.
#[local] Hint Resolve keeps_principal keeps_reply : keeps.

(** The address whose budget an endpoint draws on. *)
Definition login_address (e : endpoint) : option string :=
  match e with
  | POST_login email _ | POST_register email _ => Some (normalize_email email)
  | _ => None
  end.

Lemma keeps_route e request status handler :
  login_address e = None → route settings e request = (status, Ok handler) → keeps_login handler.
Proof.
  destruct e; try done; intros _; cbn [route with_body].
  all: repeat match goal with
    | |- context [PasswordForgotRequest.validate ?x] => destruct (PasswordForgotRequest.validate x)
    | |- context [PasswordResetRequest.validate ?x ?y] => destruct (PasswordResetRequest.validate x y) as [[]|]
    | |- context [EmailVerifyRequest.validate ?x] => destruct (EmailVerifyRequest.validate x)
    end; cbn [result_map]; try done; intros [= <- <-].
  all: unfold refresh, logout, logout_all, me, forgot_password, reset_password, request_email_verify, verify_email, clear_refresh_cookie.
  all: eauto 8 with keeps.
Qed.

Section budget.
Context (K : gset string) (window : time) (max : Z) `{!RateLimiterLaws L K window max}.
Implicit Types log : gmap string (list time).

Lemma account_step e a log :
  auth_rate_limit_enabled settings = true → account_key "login" (Some e) ∈ K → rl_inv (login_limiter a) log →
  ∃ o a', check_per_account_rate_limit settings "login" (Some e) a = (o, a') ∧
    match o with
    | Ret _ => rl_inv (login_limiter a')
                 (<[account_key "login" (Some e) := accepted log (account_key "login" (Some e)) ++ [rl_now (login_limiter a)]]> log)
    | Raise _ => rl_inv (login_limiter a') log
    end.
Proof.
  intros Hen HK Hinv. unfold check_per_account_rate_limit. rewrite Hen. cbn [negb String.eqb Ascii.eqb Bool.eqb].
  unfold limited. rewrite run_bind. unfold on_limiter. cbn [get_limiter].
  destruct (rl_check_law _ _ _ HK Hinv) as (r & l' & -> & Hr).
  destruct r as [[]|exc]; cbn; [by do 2 eexists|]. destruct Hr as [Hr [n ->]]. do 2 eexists. split; [done|]. done.
Qed.

(** Whether a request made the server evaluate a password of [e]'s account. *)
Definition attempted (e : string) (ep : endpoint) a a' : bool :=
  match ep with
  | POST_login email _ => String.eqb (normalize_email email) e &&
      (verifications (w_trace (world a)) <? verifications (w_trace (world a')))%nat
  | _ => false
  end.

(** The instants at which that happened. *)
Fixpoint password_attempts (e : string) (requests : list (endpoint * Request)) a : list time :=
  match requests with
  | [] => []
  | (ep, request) :: requests =>
      let a' := (serve settings ep request a).2 in
      (if attempted e ep a a' then [rl_now (login_limiter a)] else []) ++ password_attempts e requests a'
  end.

Lemma sublist_count (P : time → Prop) `{!∀ x, Decision (P x)} l1 l2 :
  l1 `sublist_of` l2 → (length (filter P l1) <= length (filter P l2))%nat.
Proof.
  induction 1 as [|x l1 l2 _ IH|x l1 l2 _ IH]; [done|..]; rewrite ?filter_cons; repeat case_decide; cbn; lia.
Qed.

(** The part of a login or a registration after the limiters. *)
Lemma guarded_step e (pre : M AppCL unit) (k : M AppCL body) a log :
  auth_rate_limit_enabled settings = true → account_key "login" (Some e) ∈ K → rl_inv (login_limiter a) log →
  keeps_login pre → keeps_login k →
  ∃ o a', (pre ;; check_per_account_rate_limit settings "login" (Some e) ;; k) a = (o, a') ∧
    (rl_inv (login_limiter a') log ∧
       (∃ x, (pre ;; check_per_account_rate_limit settings "login" (Some e)) a = (Raise x, a')) ∨
     rl_inv (login_limiter a')
       (<[account_key "login" (Some e) := accepted log (account_key "login" (Some e)) ++ [rl_now (login_limiter a)]]> log)).
Proof.
  intros Hen HK Hinv Hpre Hk. rewrite !run_bind. specialize (Hpre a).
  destruct (pre a) as [[[]|x] a1]; cbn in Hpre; last first.
  { do 2 eexists. split; [done|]. left. rewrite Hpre. eauto. }
  rewrite run_bind. rewrite -Hpre in Hinv. destruct (account_step e a1 log Hen HK Hinv) as (o & a2 & -> & Ho).
  destruct o as [[]|x]; last first.
  { do 2 eexists. split; [done|]. left. eauto. }
  specialize (Hk a2). destruct (k a2) as [o a3]. cbn in Hk. do 2 eexists. split; [done|]. right. by rewrite Hk -Hpre.
Qed.

(** The accepted attempts on [key] grow by the password attempts at least. *)
Definition grown (key : string) (now : time) (b : bool) (log log' : gmap string (list time)) : Prop :=
  (accepted log key ++ (if b then [now] else [])) `sublist_of` accepted log' key.

Lemma grown_same key now log : grown key now false log log.
Proof. unfold grown. by rewrite app_nil_r. Qed.

Lemma grown_insert key key' now b log :
  (b = true → key = key') → grown key now b log (<[key' := accepted log key' ++ [now]]> log).
Proof.
  intros Hb. unfold grown, accepted at 2. destruct (decide (key = key')) as [->|Hne].
  - rewrite lookup_insert_eq. cbn. apply sublist_app; [done|]. destruct b; [done|apply sublist_nil_l].
  - rewrite lookup_insert_ne //. destruct b; [by destruct Hne; apply Hb|]. by rewrite app_nil_r.
Qed.

Lemma keeps_login_rest email password request : keeps_login (login_rest email password request).
Proof. unfold login_rest. eauto with keeps. Qed.

Lemma attempted_idle e ep a a' : world a' = world a → attempted e ep a a' = false.
Proof. intros Hw. unfold attempted. rewrite Hw. destruct ep; try done. by rewrite Nat.ltb_irrefl andb_false_r. Qed.

Lemma serve_state ep request a :
  (serve settings ep request a).2 =
    match route settings ep request with (_, Ok handler) => (handler (exchange a)).2 | (_, Err _) => exchange a end.
Proof.
  unfold serve. fold (exchange a). destruct (route settings ep request) as [status [handler|errs]]; [|done].
  destruct (handler (exchange a)) as [[b|x] a']; [done|]. by destruct (exception_handler request x).
Qed.

Lemma serve_step e ep request a log :
  auth_rate_limit_enabled settings = true → rl_inv (login_limiter a) log →
  (∀ e', login_address ep = Some e' → account_key "login" (Some e') ∈ K) →
  let a' := (serve settings ep request a).2 in
  ∃ log', rl_inv (login_limiter a') log' ∧
    grown (account_key "login" (Some e)) (rl_now (login_limiter a)) (attempted e ep a a') log log'.
Proof.
  intros Hen Hinv HK a'. subst a'. rewrite serve_state.
  destruct (login_address ep) as [e'|] eqn:Ha; last first.
  { exists log. assert (∀ a', attempted e ep a a' = false) as ->; [by destruct ep|]. split; [|apply grown_same].
    destruct (route settings ep request) as [status [handler|errs]] eqn:Hr; [|done].
    by rewrite (keeps_route _ _ _ _ Ha Hr). }
  specialize (HK e' eq_refl). destruct ep as [email password|email password| | | | | | | |]; try done;
    cbn [login_address] in Ha; injection Ha as <-; cbn [route]; unfold with_body.
  - destruct (RegisterRequest.validate email password) as [[x p]|errs] eqn:Hv; cbn [result_map attempted];
      [|by exists log; split; [|apply grown_same]].
    apply register_body in Hv as ->. unfold register.
    destruct (guarded_step (normalize_email email) (check_rate_limit settings request "registration")
      (result ← on_world (RegisterUser.execute (normalize_email email) p (client_ip request) (user_agent request));
       match_result result (λ user, mret (UserResponse (user_public user)))) (exchange a) log)
      as (o & a' & -> & Ho); [done..|apply keeps_ip|eauto with keeps|].
    destruct Ho as [[Ho _]|Ho]; [exists log|eexists]; (split; [exact Ho|]); [apply grown_same|by apply grown_insert].
  - destruct (LoginRequest.validate email password) as [[x p]|errs] eqn:Hv; cbn [result_map];
      [|exists log; rewrite attempted_idle //; split; [done|apply grown_same]].
    apply login_body in Hv as [-> ->]. unfold login.
    destruct (guarded_step (normalize_email email) (check_rate_limit settings request (normalize_email email))
      (login_rest (normalize_email email) password request) (exchange a) log) as (o & a' & E & Ho);
      [done..|apply keeps_ip|apply keeps_login_rest|].
    unfold login_rest in E. rewrite E. destruct Ho as [[Ho [x Hg]]|Ho].
    + exists log. rewrite attempted_idle; [by split; [|apply grown_same]|].
      pose proof (proj1 (limiter_only_guards (normalize_email email) request) (exchange a)) as Hw.
      unfold login_guards in Hw. rewrite Hg in Hw. cbn in Hw. cbn. by rewrite Hw.
    + eexists. split; [exact Ho|]. apply grown_insert. cbn. by intros [->%String.eqb_eq _]%andb_true_iff.
Qed.

Lemma attempts_logged e requests a log :
  auth_rate_limit_enabled settings = true → rl_inv (login_limiter a) log →
  (∀ r e', r ∈ requests → login_address r.1 = Some e' → account_key "login" (Some e') ∈ K) →
  ∃ l log', rl_inv l log' ∧
    (accepted log (account_key "login" (Some e)) ++ password_attempts e requests a)
      `sublist_of` accepted log' (account_key "login" (Some e)).
Proof.
  intros Hen. revert a log. induction requests as [|[ep request] requests IH]; intros a log Hinv HK.
  { exists (login_limiter a), log. cbn. by rewrite app_nil_r. }
  destruct (serve_step e ep request a log) as (log1 & Hinv1 & Hg); [done..| |].
  { intros e' He. apply (HK (ep, request)); [left|done]. }
  destruct (IH (serve settings ep request a).2 log1) as (l & log' & Hinv' & Hs); [done| |].
  { intros r e' Hr. apply HK. by right. }
  exists l, log'. split; [done|]. cbn [password_attempts]. etrans; [|exact Hs]. rewrite app_assoc.
  by apply sublist_app.
Qed.

(** C9. The endpoints serve any requests, in any order and from any client addresses,
    with rate limiting on, and the limiter keeps its promise to the login keys that
    occur: the in-process limiter does when it starts empty, the keys ever tried
    number at most its maxsize (a full cache evicts the least recently used key, whose
    budget starts again) and its clock is ordered, each check reading it within the 60
    second slack. Then no window of the configured length contains more evaluations of
    passwords sent to the login route for one account than the per-account budget,
    over all client addresses and all spellings of the account's address, since the
    request models normalize it before the key is built. *)
Theorem login_attempts_bounded e requests a t :
  auth_rate_limit_enabled settings = true → rl_inv (login_limiter a) ∅ →
  (∀ r e', r ∈ requests → login_address r.1 = Some e' → account_key "login" (Some e') ∈ K) →
  Z.of_nat (length (filter (λ ts, t <= ts <= t + window) (password_attempts e requests a))) <= 0 `max` max.
Proof.
  intros Hen Hinv HK. destruct (attempts_logged e requests a ∅ Hen Hinv HK) as (l & log' & Hinv' & Hs).
  pose proof (rl_budget l log' (account_key "login" (Some e)) t Hinv') as Hb.
  rewrite {1}/accepted lookup_empty in Hs. cbn [default from_option app] in Hs.
  apply (sublist_count (λ ts, t <= ts <= t + window)) in Hs. lia.
Qed.
End budget.
End routes.

(** ** Evaluated *)

#[global] Instance demo_ip_literals : IpLiterals := λ s, String.eqb s "::1".

Definition demo_http : HttpSettings :=
  mkHttpSettings "production" ["https://app.example.com"] true true "lax" demo_settings.

(** A limiter read once a second. *)
Abbreviation demo_limiter := (mkClocked FixedWindowRateLimiter.default_config (∅ : gmap string (time * list time))
  (λ n, FixedWindowRateLimiter.mkReadings (Z.of_nat n * second) (Z.of_nat n * second) (Z.of_nat n * second))).
Abbreviation demo_app w := (mkApp w demo_cache (mkLimiters demo_limiter demo_limiter demo_limiter demo_limiter) [] None).

Definition demo_request (ip : string) (hs cs : gmap string string) : Request :=
  mkRequest "/auth/login" "https://api.example.com/auth/login" (Some ip) hs cs None None.

(** Eight guesses from eight addresses, in two spellings. *)
Definition demo_guesses : list (endpoint * Request) :=
  (λ ip, (POST_login (if String.eqb ip "10.0.0.3" then " ADA@example.com" else "ada@example.com") "Wrong-horse-1",
          demo_request ip ∅ ∅))
    <$> ["10.0.0.1"; "10.0.0.2"; "10.0.0.3"; "10.0.0.4"; "10.0.0.5"; "10.0.0.6"; "10.0.0.7"; "10.0.0.8"].

Definition demo_keys : gset string := {[ "per_account:login:ada@example.com" ]}.
Lemma demo_keys_fit : (size demo_keys <= FixedWindowRateLimiter.maxsize FixedWindowRateLimiter.default_config)%nat.
Proof. apply Nat.leb_le. vm_compute. reflexivity. Defined.
Definition demo_laws : RateLimiterLaws (Clocked (gmap string (time * list time))) demo_keys (60 * second) 5 :=
  clocked_laws FixedWindowRateLimiter.default_config demo_keys ltac:(vm_compute; congruence) demo_keys_fit.

(** Five of the eight guesses are evaluated. *)
Lemma login_attempts_bounded_witness :
  let attempts := @password_attempts _ _ _ demo_http _ _ _ _ demo_keys (60 * second) 5 demo_laws
                    "ada@example.com" demo_guesses (demo_app demo_registered) in
  length attempts = 5%nat ∧ Z.of_nat (length (filter (λ ts, 0 <= ts <= 0 + 60 * second) attempts)) <= 0 `max` 5.
Proof.
  split; [vm_compute; reflexivity|].
  apply (login_attempts_bounded demo_http demo_keys (60 * second) 5 (RateLimiterLaws0 := demo_laws)).
  - reflexivity.
  - split_and!; [reflexivity|intros k; apply within_budget_nil|]. exists 0. split.
    + split; [vm_compute; congruence|]. intros n. cbn. unfold FIXED_WINDOW_TTL_SLACK_SECONDS, second. lia.
    + split; [cbn; rewrite dom_empty_L; apply empty_subseteq|]. intros k. cbn. rewrite lookup_empty. intros ts Hts. by apply not_elem_of_nil in Hts.
  - intros r e' Hr He. apply elem_of_singleton.
    assert (Forall (λ r : endpoint * Request, login_address r.1 = Some "ada@example.com") demo_guesses) as Hall
      by (repeat constructor).
    rewrite Forall_forall in Hall. rewrite (Hall r Hr) in He. by injection He as <-.
Defined.

(** A refresh from a foreign page. *)
Definition demo_cross_site : Request :=
  demo_request "10.0.0.1" {[ "origin" := "https://evil.example" ]} {[ "refresh_token" := "opaque" ]}.

Lemma cookie_origin_guard_witness :
  let '(resp, a') := serve demo_http POST_refresh demo_cross_site (demo_app demo_registered) in
  resp_status resp = 403 ∧ a' = demo_app demo_registered.
Proof.
  pose proof (cookie_origin_guard demo_http POST_refresh demo_cross_site (demo_app demo_registered) (or_introl eq_refl)) as Hg.
  destruct (serve _ _ _ _) as [resp a']. destruct Hg as [_ Hg]. destruct Hg as (Hs & _ & Ha).
  - intros [Hw|Hw]; revert Hw; by_eval.
  - split; [|exact Ha]. destruct Hs as [Hs|[_ [Hb _]]]; [exact Hs|discriminate Hb].
Defined.

Lemma login_hides_accounts_witness :
  (serve demo_http (POST_login "ada@example.com" "Wrong-horse-1") (demo_request "10.0.0.1" ∅ ∅) (demo_app init_world)).1 =
  (serve demo_http (POST_login "ada@example.com" "Wrong-horse-1") (demo_request "10.0.0.1" ∅ ∅) (demo_app demo_registered)).1.
Proof.
  pose proof (login_hides_accounts demo_http "ada@example.com" "Wrong-horse-1" (demo_request "10.0.0.1" ∅ ∅)
    (demo_app init_world) (demo_app demo_registered) eq_refl) as Hh.
  assert (Hno : ∀ w, map_Forall (λ _ c, argon2_verify (cred_hash c) "Wrong-horse-1" = false) (credentials (w_db w)) →
    ¬ credential_accepts "ada@example.com" "Wrong-horse-1" (w_db w)).
  { intros w Hf (u & i & c & _ & Hc & _ & _ & Hv). rewrite (Hf i c Hc) in Hv. discriminate Hv. }
  specialize (Hh ltac:(by_eval) ltac:(by_eval) ltac:(apply demo_drawn_fresh; by_eval) ltac:(apply demo_drawn_fresh; by_eval)
    ltac:(vm_compute; reflexivity) ltac:(apply Hno; by_eval) ltac:(apply Hno; by_eval)).
  destruct (serve _ _ _ (demo_app init_world)), (serve _ _ _ (demo_app demo_registered)). exact (proj1 Hh).
Defined.

(** A known address gets an expiry back from the forgotten-password route, an
    unknown one does not. *)
Lemma forgot_password_reveals :
  let ask := POST_password_forgot "ada@example.com" in
  let shown a := match resp_body (serve demo_http ask (demo_request "10.0.0.1" ∅ ∅) a).1 with
                 | InternalTokenResponse _ _ expires_at => Some (bool_decide (expires_at = None))
                 | _ => None
                 end in
  shown (demo_app init_world) = Some true ∧ shown (demo_app demo_registered) = Some false.
Proof. split; vm_compute; reflexivity. Qed.

(** A malformed port in [Referer] is answered as an internal error. *)
Lemma referer_port_unhandled :
  resp_status (serve demo_http POST_refresh
    (demo_request "10.0.0.1" {[ "referer" := "https://app.example.com:http/x" ]} ∅) (demo_app demo_registered)).1 = 500.
Proof. vm_compute. reflexivity. Qed.
