(* ===== verification/UsersHttp.v ===== *)
(** The platform's authorization dependencies
    ([app_platform/api/authorization.py]) and the HTTP surface of the users
    feature ([features/users/adapters/inbound/http/]: [errors.py], [me.py] and the
    erasure route of [admin.py]).

    The process state of the authentication routes is extended by the state of
    the job queue. *)

From Stdlib Require Import String.
From S2P Require Import Prelude PyStr Uuid Store Outbox Users Authz Principals AuthRepo Auth Jobs Http AuthHttp.
Open Scope string_scope.
Open Scope Z_scope.

(** ** Response models ([schemas.py]) *)

(** The self view of an account: the public fields without [authz_version]. *)
Record UserPublicSelf := mkUserPublicSelf {
  us_id : uuid;
  us_email : string;
  us_is_active : bool;
  us_is_verified : bool;
  us_created_at : time;
  us_updated_at : time;
}.
Definition user_public_self (user : User) : UserPublicSelf :=
  mkUserPublicSelf (u_id user) (u_email user) (u_is_active user) (u_is_verified user)
    (u_created_at user) (u_updated_at user).

Inductive users_body :=
  | SelfResponse (user : UserPublicSelf)
  | NoContent
  | ErasureAccepted (status job_id : string) (estimated_completion_seconds : Z) (location : string).

Definition ERASE_ESTIMATED_COMPLETION_SECONDS : Z := 60.

(** ** [errors.py] *)

Definition raise_http_from_user_error {S A} (exc : UserError) : M S A :=
  match exc with
  | UserNotFoundError => raise (app_error 404 "User not found" "user_not_found" ProblemType.GENERIC_NOT_FOUND [])
  | UserAlreadyExistsError =>
      raise (app_error 409 "Email already in use" "user_already_exists" ProblemType.GENERIC_CONFLICT [])
  end.

Section routes.
Context `{Env} `{Jwt} (settings : HttpSettings).
Context {C : Type} `{PrincipalCachePort C} {L Q : Type}.
(** The job queue port; an in-process queue works on the database itself. *)
Context (job_queue_enqueue : string → payload → M (World * Q) unit).
(** The hash computed at start-up that stands in for a missing credential. *)
Context (dummy_hash : string).

Abbreviation cfg := (auth_settings settings).
Abbreviation Site := (App C L * Q)%type.
Abbreviation Handler := (M Site).

Definition on_app {A} (m : M (App C L) A) : Handler A := on_fst m.
Definition on_jobs {A} (m : M (World * Q) A) : Handler A := λ s,
  let '(a, q) := s in
  let '(r, (w, q)) := m (world a, q) in
  (r, (mkApp w (principal_cache a) (limiters a) (response_cookies a) (actor_id a), q)).

(** ** [app_platform/api/authorization.py] *)

Definition platform_credentials_exception : exn :=
  app_error 401 "Could not validate credentials" "invalid_credentials" ProblemType.AUTH_TOKEN_INVALID [].
Definition forbidden : exn :=
  app_error 403 "Permission denied" "permission_denied" ProblemType.AUTHZ_PERMISSION_DENIED [].

(** The resolver registered at start-up is the authentication feature's. *)
Definition platform_current_principal (request : Request) : Handler Principal :=
  match creds request with
  | None => raise platform_credentials_exception
  | Some token =>
      result ← on_app (on_auth (ResolvePrincipal.execute cfg token));
      match result with
      | Ok principal =>
          on_app (set_actor_id (Some (p_user_id principal))) ;;
          mret principal
      | Err _ => raise platform_credentials_exception
      end
  end.

(** [require_authorization(action, resource_type, None)] for the [system] type,
    a leaf of the registry. *)
Definition require_system_authorization (action : string) (request : Request) : Handler Principal :=
  principal ← platform_current_principal request;
  allowed ← on_app (on_world (check system_registry engine_scopes 0 (p_user_id principal) action "system" "main"));
  if negb (bool_decide (allowed = Some true)) then raise forbidden else mret principal.

(** ** [composition/container.py:_verify_user_password] *)

Definition verify_user_password (user_id : uuid) (password : string) : IO bool :=
  credential ← AuthRepository.get_credential_for_user user_id;
  match credential with
  | None => verify_password dummy_hash password ;; mret false
  | Some (_, c) => verify_password (cred_hash c) password
  end.

(** ** [me.py] *)

Definition match_user {A B} (result : Result A UserError) (ok : A → Handler B) : Handler B :=
  match result with
  | Ok value => ok value
  | Err err => raise_http_from_user_error err
  end.

Definition get_me (principal : Principal) : Handler users_body :=
  result ← on_app (on_world (GetUserById.execute (p_user_id principal)));
  match_user result (λ user, mret (SelfResponse (user_public_self user))).

Definition patch_me (email : option string) (principal : Principal) : Handler users_body :=
  result ← on_app (on_world (UpdateProfile.execute (p_user_id principal) email));
  match_user result (λ user, mret (SelfResponse (user_public_self user))).

Definition delete_me (principal : Principal) : Handler users_body :=
  result ← on_app (on_auth (DeactivateUser.execute (Some revoke_all_refresh_tokens) true (p_user_id principal)));
  match_user result (λ _,
    on_app (clear_refresh_cookie settings) ;;
    mret NoContent).

(** The payload both erasure routes enqueue. *)
Definition erase_payload (user_id : uuid) (reason job_id : string) (trace_carrier : payload) : payload :=
  let p : payload := {[ "user_id" := JStr (uuid_str user_id); "reason" := JStr reason; "job_id" := JStr job_id ]} in
  if bool_decide (trace_carrier = ∅) then p else <[TRACE_KEY := JObj (map_to_list trace_carrier)]> p.

(** The part both erasure routes share. *)
Definition enqueue_erasure (user_id : uuid) (reason location : string) : Handler users_body :=
  job_uuid ← on_app (on_world uuid4);
  let job_id := uuid_str job_uuid in
  trace_carrier ← on_app (gets (λ a, trace_carrier_at (w_clock (world a))));
  on_jobs (job_queue_enqueue ERASE_USER_JOB (erase_payload user_id reason job_id trace_carrier)) ;;
  mret (ErasureAccepted "accepted" job_id ERASE_ESTIMATED_COMPLETION_SECONDS (location +:+ job_id)).

(** The verifier and the queue are always wired by the process entry points. *)
Definition erase_me (password : string) (principal : Principal) : Handler users_body :=
  ok ← on_app (on_world (verify_user_password (p_user_id principal) password));
  if negb ok
  then raise (app_error 401 "Invalid credentials" "invalid_credentials" ProblemType.AUTH_INVALID_CREDENTIALS [])
  else enqueue_erasure (p_user_id principal) "self_request" "/me/erase/status/".

(** ** [admin.py] *)

Definition admin_erase_user (user_id : uuid) : Handler users_body :=
  enqueue_erasure user_id "admin_request" ("/admin/users/" +:+ uuid_str user_id +:+ "/erase/status/").

(** ** Serving a request *)

Inductive users_endpoint :=
  | GET_users_me
  | PATCH_me (email : option string)
  | DELETE_me
  | DELETE_me_erase (password : string)
  | POST_admin_erase (user_id : uuid).

Definition users_route (e : users_endpoint) (request : Request) : Z * Handler users_body :=
  match e with
  | GET_users_me => (200, platform_current_principal request ≫= get_me)
  | PATCH_me email => (200, platform_current_principal request ≫= patch_me email)
  | DELETE_me => (204, platform_current_principal request ≫= delete_me)
  | DELETE_me_erase password => (202, platform_current_principal request ≫= erase_me password)
  | POST_admin_erase user_id => (202, require_system_authorization "manage_users" request ;; admin_erase_user user_id)
  end.

Record UsersResponse := mkUsersResponse {
  ur_status : Z;
  ur_body : users_body + Problem;
  ur_cookies : list SetCookie;
}.

Definition users_serve (e : users_endpoint) (request : Request) (s : Site) : UsersResponse * Site :=
  let '(a, q) := s in
  let s := (mkApp (world a) (principal_cache a) (limiters a) [] None, q) in
  let '(status, handler) := users_route e request in
  match handler s with
  | (Ret b, s) => (mkUsersResponse status (inl b) (response_cookies s.1), s)
  | (Raise e, s) =>
      let problem := (exception_handler request e).1 in
      (mkUsersResponse (pr_status problem) (inr problem) [], s)
  end.
End routes.
