(* ===== verification/UsersHttpFacts.v ===== *)
(** Who can erase an account over HTTP: its owner with the current password, or a
    system administrator; and what a request to do so leaves behind. *)

From Stdlib Require Import String.
From S2P Require Import Prelude PyStr Uuid Store StoreFacts Demo Outbox Users UsersFacts Authz AuthzFacts AuthRepo AuthRepoFacts Principals DemoAuth PrincipalsFacts Auth Gdpr GdprFacts RefreshFamilies AuthFacts AuthTokens Bootstrap Files Jobs JobsFacts RateLimit RateLimitFacts Http AuthHttp AuthHttpFacts UsersHttp.
Open Scope string_scope.
Open Scope list_scope.
Open Scope Z_scope.

Section facts.
Context `{Env} `{Jwt} (settings : HttpSettings).
Context {C : Type} `{PrincipalCachePort C} {L P : Type}.
Context (send : json → json → json → M P (Result unit string)) (del : uuid → M P (Result unit AssetsCleanupError)).
Context (dummy_hash : string).

Abbreviation cfg := (auth_settings settings).
Abbreviation queue := (InProcessJobQueueAdapter.enqueue (worker_registry send del)).
Implicit Types (w : World) (c : C) (a : App C L).

(** The rows are the same; identifiers and tokens may have been drawn. *)
Definition later w w' : Prop :=
  w_db w' = w_db w ∧ (w_uuids w <= w_uuids w')%nat ∧ (w_tokens w <= w_tokens w')%nat.
Lemma later_drawn_fresh w w' : later w w' → drawn_fresh w → drawn_fresh w'.
Proof.
  intros (Hdb & Hu & Ht) []. constructor; rewrite Hdb; first [intros k i r Hk | intros k Hk]; eauto with lia.
Qed.

(** *** Resolving the caller *)

Lemma resolve_total token w c :
  (∃ key, auth_jwt_secret_key cfg = Some key ∧ key ≠ "") → cache_ok c →
  ∃ res w' c', ResolvePrincipal.execute cfg token (w, c) = (Ret res, (w', c')) ∧ later w w'.
Proof.
  intros (key & Hkey & Hne) Hc.
  assert (∃ r, AccessTokenService.decode cfg token w = (Ret r, tick w)) as [r Hr].
  { unfold AccessTokenService.decode. rewrite run_bind (run_secret _ key) // run_bind run_utc_now. by eexists. }
  destruct r as [p|e].
  - destruct (resolve_cases cfg token p w c Hc) as (res & c' & E & _); [by unfold result_of; rewrite Hr|].
    exists res, (tick w), c'. split; [|done]. rewrite E. unfold state_of. by rewrite Hr.
  - exists (Err e), (tick w), c. split; [|done]. unfold ResolvePrincipal.execute.
    rewrite run_bind. unfold on_fst at 1. cbn [fst snd]. by rewrite Hr.
Qed.

(** The request carries a token that resolves to [p]. *)
Definition caller (request : Request) a (p : Principal) : Prop :=
  ∃ token s, creds request = Some token ∧
    ResolvePrincipal.execute cfg token (world a, principal_cache a) = (Ret (Ok p), s).

Lemma caller_token request a t p :
  creds request = Some t → caller request a p →
  (ResolvePrincipal.execute cfg t (world a, principal_cache a)).1 = Ret (Ok p).
Proof. intros Ht (t' & s & Ht' & E). rewrite Ht in Ht'. injection Ht' as <-. by rewrite E. Qed.

Lemma caller_unique request a p p' : caller request a p → caller request a p' → p = p'.
Proof. intros (t & s & Ht & E) (t' & s' & Ht' & E'). rewrite Ht in Ht'. injection Ht' as <-. rewrite E in E'. by simplify_eq. Qed.

Lemma run_current_principal request a (q : P) :
  (∃ key, auth_jwt_secret_key cfg = Some key ∧ key ≠ "") → cache_ok (principal_cache a) →
  ∃ o a1, platform_current_principal settings request (a, q) = (o, (a1, q)) ∧ later (world a) (world a1) ∧
    match o with
    | Ret p => caller request a p
    | Raise e => e = platform_credentials_exception ∧ ∀ p, ¬ caller request a p
    end.
Proof.
  intros Hkey Hc. unfold platform_current_principal, caller. destruct (creds request) as [token|]; last first.
  { do 2 eexists. split; [done|]. split_and!; [done|done|]. by intros p (t & s & ? & _). }
  destruct (resolve_total token (world a) (principal_cache a) Hkey Hc) as (res & w' & c' & E & Hdb).
  rewrite run_bind. unfold on_app, on_fst at 1, on_auth. cbn [fst snd]. rewrite E.
  destruct res as [p|e]; (do 2 eexists; split; [done|]); (split; [done|]).
  - by exists token, (w', c').
  - split; [done|]. intros p (t & s & [= <-] & E'). rewrite E in E'. simplify_eq.
Qed.

(** *** The erasure job, run by the worker's handler *)

Lemma erase_payload_lookup i reason job carrier :
  erase_payload i reason job carrier !! "user_id" = Some (JStr (uuid_str i)) ∧
  erase_payload i reason job carrier !! "reason" = Some (JStr reason) ∧
  erase_payload i reason job carrier !! OUTBOX_MESSAGE_ID_KEY = None.
Proof. unfold erase_payload. case_bool_decide; [done|]. split_and!; by rewrite lookup_insert_ne. Qed.

Definition erase_reason_ok (reason : string) : Prop := reason = "self_request" ∨ reason = "admin_request".

Lemma run_erase_job i reason job carrier w (f : P) :
  uuid_ok i → erase_reason_ok reason →
  queue ERASE_USER_JOB (erase_payload i reason job carrier) (w, f) =
    let '(o, w') := EraseUser.execute i reason (log_event (EvMetric JOBS_ENQUEUED_TOTAL ERASE_USER_JOB) w) in
    (match o with Ret (Ok _) => Ret tt | Ret (Err _) => Raise (RuntimeError "erase_user failed: ") | Raise e => Raise e end,
     (w', f)).
Proof.
  intros Hi Hr. destruct (erase_payload_lookup i reason job carrier) as (Hu & Hre & Hid).
  unfold InProcessJobQueueAdapter.enqueue.
  assert (InProcessJobQueueAdapter.resolve (worker_registry send del) ERASE_USER_JOB =
    Ret (erase_user_handler (Some dedupe) EraseUser.execute)) as -> by done.
  cbv beta iota. rewrite run_bind. unfold on_fst at 1. cbn [fst snd]. rewrite run_metric. set (w1 := log_event _ w).
  unfold erase_user_handler. rewrite run_bind. unfold on_fst at 1, goes_on. rewrite Hid. cbn [fst snd]. rewrite run_ret. cbn [negb].
  rewrite run_bind. unfold item. rewrite Hu run_ret. cbn [uuid_of_json]. rewrite uuid_parse_str //.
  assert (erase_reason (erase_payload i reason job carrier) = Some reason) as ->.
  { unfold erase_reason. rewrite Hre. by destruct Hr as [-> | ->]. }
  rewrite run_bind. unfold on_fst. cbn [fst snd]. by destruct (EraseUser.execute i reason w1) as [[[[]|e]|x] w2].
Qed.

(** What the job makes of the database [d], and the status of the answer: an account
    that is not there fails the job, one that is erased already stays as it is. *)
Definition erased_by (i : uuid) (reason : string) (status : Z) (d d' : Db) : Prop :=
  match users d !! i with
  | None => status = 500 ∧ d' = d
  | Some r =>
      status = 202 ∧
      if user_is_erased r then d' = d
      else pii_free i d' ∧ others_kept i d d' ∧ trail_kept i reason d d' ∧ cleanup_queued i d d'
  end.

(** The target can be erased: no other account has its placeholder address. *)
Definition erasable (i : uuid) (d : Db) : Prop :=
  uuid_ok i ∧ ∀ j x, users d !! j = Some x → user_email x = erased_email i → j = i.

Lemma run_enqueue_erasure i reason location request a (q : P) :
  erasable i (w_db (world a)) → erase_reason_ok reason → db_ok (w_db (world a)) → drawn_fresh (world a) →
  ∃ o a', enqueue_erasure queue i reason location (a, q) = (o, (a', q)) ∧
    erased_by i reason (match o with Ret _ => 202 | Raise e => pr_status (exception_handler request e).1 end)
      (w_db (world a)) (w_db (world a')).
Proof.
  intros [Hi Hu] Hr Hok Hfr. unfold enqueue_erasure. rewrite run_bind. unfold on_app, on_fst at 1, on_world. cbn [fst snd].
  rewrite run_uuid4. rewrite run_bind. unfold on_fst at 1. cbn [fst snd]. rewrite run_gets run_bind. unfold on_jobs at 1. cbn [world].
  rewrite run_erase_job //. set (w1 := log_event _ _).
  assert (drawn_fresh w1) as Hfr1 by (apply (later_drawn_fresh (world a)); [by split_and!; cbn; [|lia|]|done]).
  pose proof (erase_cases i reason w1 Hok Hfr1 Hu) as He.
  destruct (EraseUser.execute i reason w1) as [o w2]. unfold erased_by. change (w_db w1) with (w_db (world a)) in He.
  destruct (users (w_db (world a)) !! i) as [r|] eqn:Er; destruct He as [-> He]; (do 2 eexists; split; [done|]).
  - split; [done|]. destruct (user_is_erased r); [by rewrite He|]. destruct He as (_ & ? & ? & ? & ? & _). by split_and!.
  - split; [done|]. by rewrite He.
Qed.

(** *** The routes *)

Definition erase_route (e : users_endpoint) : Prop :=
  match e with DELETE_me_erase _ | POST_admin_erase _ => True | _ => False end.

(** Whom [p] may have erased by the request, and the reason it is recorded with. *)
Definition may_erase (e : users_endpoint) (p : Principal) (d : Db) (target : uuid) (reason : string) : Prop :=
  match e with
  | DELETE_me_erase password =>
      target = p_user_id p ∧ reason = "self_request" ∧ password_matches (p_user_id p) password d = true
  | POST_admin_erase i => target = i ∧ reason = "admin_request" ∧ is_admin (p_user_id p) d = true
  | _ => False
  end.

Lemma run_verify_user_password i password w :
  db_ok (w_db w) → ∃ w', verify_user_password dummy_hash i password w = (Ret (password_matches i password (w_db w)), w') ∧
    later w w'.
Proof.
  intros Hok. unfold verify_user_password, password_matches. rewrite run_bind run_get_credential //.
  destruct (credential_of i (w_db w)) as [[k c]|]; by eexists.
Qed.

(** How a handler of an erasure route may end. *)
Definition outcome_status (request : Request) (o : outcome users_body) : Z :=
  match o with Ret _ => 202 | Raise e => pr_status (exception_handler request e).1 end.
Definition verdict (e : users_endpoint) (request : Request) a (status : Z) (d' : Db) : Prop :=
  (∃ p target reason, caller request a p ∧ may_erase e p (w_db (world a)) target reason ∧
     erased_by target reason status (w_db (world a)) d') ∨
  ((∀ p target reason, caller request a p → ¬ may_erase e p (w_db (world a)) target reason) ∧
   (status = 401 ∨ status = 403) ∧ d' = w_db (world a)).

Definition targets_ok (e : users_endpoint) (request : Request) a : Prop :=
  ∀ p target reason, caller request a p → may_erase e p (w_db (world a)) target reason → erasable target (w_db (world a)).

Lemma erase_me_verdict password request a a1 p (q : P) :
  db_ok (w_db (world a)) → drawn_fresh (world a1) → targets_ok (DELETE_me_erase password) request a → caller request a p →
  w_db (world a1) = w_db (world a) →
  ∃ o a', erase_me queue dummy_hash password p (a1, q) = (o, (a', q)) ∧
    verdict (DELETE_me_erase password) request a (outcome_status request o) (w_db (world a')).
Proof.
  intros Hok Hfr Hto Hp Hdb. unfold erase_me. rewrite run_bind. unfold on_app, on_fst at 1, on_world. cbn [fst snd].
  destruct (run_verify_user_password (p_user_id p) password (world a1)) as (w' & -> & Hl); [by rewrite Hdb|].
  pose proof (later_drawn_fresh _ _ Hl Hfr) as Hfr'. destruct Hl as [Hw _]. rewrite Hdb in Hw |- *. destruct (password_matches (p_user_id p) password (w_db (world a))) eqn:Hm; cbn [negb].
  - assert (Hmay : may_erase (DELETE_me_erase password) p (w_db (world a)) (p_user_id p) "self_request") by done.
    set (a2 := mkApp w' _ _ _ _).
    destruct (run_enqueue_erasure (p_user_id p) "self_request" "/me/erase/status/" request a2 q)
      as (o & a' & -> & Hby); cbn [world a2]; rewrite ?Hw; [by eapply Hto|by left|done|done|].
    exists o, a'. split; [done|]. left. exists p, (p_user_id p), "self_request". split_and!; [done..|].
    by rewrite -Hw.
  - do 2 eexists. split; [done|]. right. split_and!; [|by left|done].
    intros p' t r Hp' (_ & _ & Hm'). rewrite (caller_unique _ _ _ _ Hp' Hp) in Hm'. congruence.
Qed.

Lemma admin_erase_verdict i request a a1 p (q : P) :
  db_ok (w_db (world a)) → drawn_fresh (world a1) →
  targets_ok (POST_admin_erase i) request a → caller request a p → w_db (world a1) = w_db (world a) →
  ∃ o a', ((allowed ← on_app (on_world (check system_registry engine_scopes 0 (p_user_id p) "manage_users" "system" "main"));
            if negb (bool_decide (allowed = Some true)) then raise forbidden else mret p) ≫=
           λ _, admin_erase_user queue i) (a1, q) = (o, (a', q)) ∧
    verdict (POST_admin_erase i) request a (outcome_status request o) (w_db (world a')).
Proof.
  intros Hok Hfr Hto Hp Hdb. rewrite run_bind run_bind. unfold on_app, on_fst at 1, on_world. cbn [fst snd].
  rewrite run_check_system. rewrite Hdb. destruct (is_admin (p_user_id p) (w_db (world a))) eqn:Ha.
  - assert (Hmay : may_erase (POST_admin_erase i) p (w_db (world a)) i "admin_request") by done.
    rewrite bool_decide_eq_true_2 //. cbn [negb]. rewrite run_ret. set (a2 := mkApp _ _ _ _ _).
    destruct (run_enqueue_erasure i "admin_request" ("/admin/users/" +:+ uuid_str i +:+ "/erase/status/") request a2 q)
      as (o & a' & E & Hby); cbn [world a2]; rewrite ?Hdb; [by eapply Hto|by right|done|done|].
    exists o, a'. split; [exact E|]. left. exists p, i, "admin_request". split_and!; [done..|].
    by rewrite -Hdb.
  - rewrite bool_decide_eq_false_2 //. cbn [negb]. do 2 eexists. split; [done|]. right. split_and!; [|by right|done].
    intros p' t r Hp' (_ & _ & Ha'). rewrite (caller_unique _ _ _ _ Hp' Hp) in Ha'. congruence.
Qed.

Lemma erase_handler_verdict e request a (q : P) :
  (∃ key, auth_jwt_secret_key cfg = Some key ∧ key ≠ "") → cache_ok (principal_cache a) →
  db_ok (w_db (world a)) → drawn_fresh (world a) → erase_route e → targets_ok e request a →
  ∃ handler o a', users_route settings queue dummy_hash e request = (202, handler) ∧
    handler (mkApp (world a) (principal_cache a) (limiters a) [] None, q) = (o, (a', q)) ∧
    verdict e request a (outcome_status request o) (w_db (world a')).
Proof.
  intros Hkey Hc Hok Hfr0 He Hto. set (a0 := mkApp _ _ _ _ _).
  destruct (run_current_principal request a0 q Hkey Hc) as (o & a1 & E & Hl & Ho).
  pose proof (later_drawn_fresh _ _ Hl Hfr0) as Hfr. destruct Hl as [Hdb _].
  assert (Hrefused : (∀ p, ¬ caller request a0 p) → verdict e request a 401 (w_db (world a1))).
  { intros Hno. right. split_and!; [|by left|exact Hdb]. intros p t r Hp. by destruct (Hno p). }
  destruct e as [| | |password|i]; try done; destruct o as [p|x].
  - destruct (erase_me_verdict password request a a1 p q Hok Hfr Hto Ho Hdb) as (o & a' & Ea & Hv).
    eexists _, o, a'. split; [done|]. rewrite run_bind E. by split.
  - destruct Ho as [-> Hno]. eexists _, _, _. split; [done|]. rewrite run_bind E. split; [done|]. by apply Hrefused.
  - destruct (admin_erase_verdict i request a a1 p q Hok Hfr Hto Ho Hdb) as (o & a' & Ea & Hv).
    eexists _, o, a'. split; [done|]. unfold require_system_authorization. rewrite run_bind run_bind E.
    rewrite run_bind in Ea. by split.
  - destruct Ho as [-> Hno]. eexists _, _, _. split; [done|]. unfold require_system_authorization.
    rewrite run_bind run_bind E. split; [done|]. by apply Hrefused.
Qed.

(** C7. An account is erased over HTTP only by its owner with the current
    password or by a system administrator.  If the bearer token of an erasure
    request resolves to a principal whose stored credential accepts the password
    (for the own account) or who holds the admin relation (for any account), the
    request decides about exactly that account: an account that is there is erased
    (its personal data gone, the trail kept with the route's reason, the clean-up
    queued, nobody else's rows touched) and the answer is 202, likewise 202 without
    any change when it was erased before; an account that is not there fails the
    job, so the answer is 500 and no row changes.  In every other case the answer is
    401 or 403 and no row changes. *)
Theorem erasure_is_authorized e request a (q : P) :
  (∃ key, auth_jwt_secret_key cfg = Some key ∧ key ≠ "") → cache_ok (principal_cache a) →
  db_ok (w_db (world a)) → drawn_fresh (world a) → erase_route e →
  (∀ p target reason, caller request a p → may_erase e p (w_db (world a)) target reason → erasable target (w_db (world a))) →
  let '(resp, (a', q')) := users_serve settings queue dummy_hash e request (a, q) in
  q' = q ∧
  ((∃ p target reason, caller request a p ∧ may_erase e p (w_db (world a)) target reason ∧
      erased_by target reason (ur_status resp) (w_db (world a)) (w_db (world a'))) ∨
   ((∀ p target reason, caller request a p → ¬ may_erase e p (w_db (world a)) target reason) ∧
    (ur_status resp = 401 ∨ ur_status resp = 403) ∧ w_db (world a') = w_db (world a))).
Proof.
  intros Hkey Hc Hok Hfr He Hto.
  destruct (erase_handler_verdict e request a q Hkey Hc Hok Hfr He Hto) as (handler & o & a' & Hr & Hh & Hv).
  unfold users_serve. rewrite Hr Hh. by destruct o.
Qed.
End facts.

(** ** Evaluated *)

Definition demo_send (_ _ _ : json) : M unit (Result unit string) := mret (Ok tt).
Definition demo_del (_ : uuid) : M unit (Result unit AssetsCleanupError) := mret (Ok tt).
Definition demo_bearer : string := Eval vm_compute in demo_access.
Definition demo_erase_request : Request :=
  mkRequest "/me/erase" "https://api.example.com/me/erase" (Some "10.0.0.1") ∅ ∅ (Some demo_bearer) None.

Definition demo_ada : Principal := mkPrincipal 1000 "ada@example.com" true false 1.

(** Ada erases her own account. *)
Lemma erasure_is_authorized_witness :
  let '(resp, (a', q')) := users_serve demo_http (InProcessJobQueueAdapter.enqueue (worker_registry demo_send demo_del)) "dummy"
    (DELETE_me_erase "Correct-horse-1") demo_erase_request (demo_app demo_logged_in, tt) in
  q' = tt ∧ ur_status resp = 202 ∧
  verdict demo_http (DELETE_me_erase "Correct-horse-1") demo_erase_request (demo_app demo_logged_in) (ur_status resp) (w_db (world a')).
Proof.
  pose proof (erasure_is_authorized demo_http demo_send demo_del "dummy" (DELETE_me_erase "Correct-horse-1")
    demo_erase_request (demo_app demo_logged_in) tt) as Hw.
  assert (Hs : ur_status (users_serve demo_http (InProcessJobQueueAdapter.enqueue (worker_registry demo_send demo_del)) "dummy"
    (DELETE_me_erase "Correct-horse-1") demo_erase_request (demo_app demo_logged_in, tt)).1 = 202) by (vm_compute; reflexivity).
  destruct (users_serve _ _ _ _ _ _) as [resp [a' q']]. cbn in Hs.
  destruct Hw as [Hq Hv]; [exists "secret"; split; [reflexivity|discriminate]| |by_eval|apply demo_drawn_fresh; by_eval|exact I| |].
  - intros k p Hk. vm_compute in Hk. discriminate Hk.
  - intros p t r Hp (-> & _). apply (caller_token _ _ _ demo_bearer) in Hp; [|reflexivity].
    assert (E : (ResolvePrincipal.execute (auth_settings demo_http) demo_bearer (demo_logged_in, demo_cache)).1 = Ret (Ok demo_ada))
      by (vm_compute; reflexivity).
    assert (@Ret (Result Principal AuthError) (Ok demo_ada) = Ret (Ok p)) as [= <-]; [exact (eq_trans (eq_sym E) Hp)|].
    split; [vm_compute; reflexivity|]. intros j x Hj He. exfalso.
    assert (Hall : map_Forall (λ _ x, user_email x ≠ erased_email 1000%N) (users (w_db demo_logged_in))) by by_eval.
    exact (Hall j x Hj He).
  - split; [exact Hq|]. split; [exact Hs|exact Hv].
Defined.
