(* ===== verification/Calendar.v ===== *)
(** [datetime] of the Python standard library: the proleptic Gregorian calendar,
    [isoformat] and [fromisoformat], and that the one undoes the other. *)

From Stdlib Require Import Ascii String.
From S2P Require Import Prelude PyStr Json.
Open Scope string_scope.
Open Scope Z_scope.

(** ** Dates *)

Definition is_leap (year : Z) : bool :=
  (year mod 4 =? 0) && (negb (year mod 100 =? 0) || (year mod 400 =? 0)).
Definition days_before_year (year : Z) : Z :=
  let y := year - 1 in y * 365 + y / 4 - y / 100 + y / 400.
Definition month_lengths : list Z := [31; 28; 31; 30; 31; 30; 31; 31; 30; 31; 30; 31].
Definition days_in_month (leap : bool) (month : Z) : Z :=
  nth (Z.to_nat (month - 1)) month_lengths 0 + (if (month =? 2) && leap then 1 else 0).
Definition days_before_month (leap : bool) (month : Z) : Z :=
  foldr Z.add 0 (firstn (Z.to_nat (month - 1)) month_lengths) + (if (2 <? month) && leap then 1 else 0).

(** Days since the 31st of December of the year 0. *)
Definition ymd2ord (year month day : Z) : Z :=
  days_before_year year + days_before_month (is_leap year) month + day.

(** The month and the day of the month of the [n]-th day of a year, from 0. *)
Definition month_day (leap : bool) (n : Z) : Z * Z :=
  let month := Z.shiftr (n + 50) 5 in
  let preceding := days_before_month leap month in
  let '(month, preceding) :=
    if n <? preceding then (month - 1, preceding - days_in_month leap (month - 1)) else (month, preceding) in
  (month, n - preceding + 1).

(** Cycles of 400, 100, 4 and 1 years; the last day of a cycle counts as the day
    after the year before the next one. *)
Definition ord2ymd (n : Z) : Z * Z * Z :=
  let n := n - 1 in
  let n400 := n / 146097 in let n := n mod 146097 in
  let n100 := n / 36524 in let n := n mod 36524 in
  let n4 := n / 1461 in let n := n mod 1461 in
  let n1 := n / 365 in let n := n mod 365 in
  let year := n400 * 400 + 1 + n100 * 100 + n4 * 4 + n1 in
  if (n1 =? 4) || (n100 =? 4) then (year - 1, 12, 31) else
  let leap := (n1 =? 3) && (negb (n4 =? 24) || (n100 =? 3)) in
  let '(month, day) := month_day leap n in
  (year, month, day).

(** ** [datetime] *)

(** The wall clock in microseconds since the start of 1970, and the offset from UTC
    when there is one. *)
Record datetime := mkDatetime { dt_local : Z; dt_utcoffset : option Z }.

Definition MICROSECONDS_PER_DAY : Z := 86400000000.
Definition EPOCH_ORDINAL : Z := 719163.
Definition MAXORDINAL : Z := 3652059.

Definition datetime_valid (d : datetime) : bool :=
  (-62135596800000000 <=? dt_local d) && (dt_local d <? 253402300800000000) &&
  match dt_utcoffset d with
  | Some o => (- MICROSECONDS_PER_DAY <? o) && (o <? MICROSECONDS_PER_DAY)
  | None => true
  end.

(** The instant an aware [datetime] denotes, and an instant as the clocks at an offset
    show it. *)
Definition instant (d : datetime) : option Z := o ← dt_utcoffset d; Some (dt_local d - o).
Definition at_offset (t o : Z) : datetime := mkDatetime (t + o) (Some o).

(** ** [isoformat] *)

Definition digit (d : Z) : ascii := ascii_of_nat (Z.to_nat (48 + d)).
(** [f"{x:0nd}"] of a number of at most [n] digits. *)
Fixpoint dec (n : nat) (x : Z) : string :=
  match n with
  | O => ""
  | S n => dec n (x / 10) +:+ String (digit (x mod 10)) ""
  end.

Definition format_microseconds (us : Z) : string := if us =? 0 then "" else "." +:+ dec 6 us.
Definition format_offset (o : Z) : string :=
  let sign := if o <? 0 then "-" else "+" in
  let o := Z.abs o in
  let s := o / 1000000 in
  sign +:+ dec 2 (s / 3600) +:+ ":" +:+ dec 2 (s / 60 mod 60) +:+
  (if o mod 60000000 =? 0 then "" else ":" +:+ dec 2 (s mod 60) +:+ format_microseconds (o mod 1000000)).

Definition isoformat (d : datetime) : string :=
  let '(year, month, day) := ord2ymd (dt_local d / MICROSECONDS_PER_DAY + EPOCH_ORDINAL) in
  let us := dt_local d mod MICROSECONDS_PER_DAY in
  let s := us / 1000000 in
  dec 4 year +:+ "-" +:+ dec 2 month +:+ "-" +:+ dec 2 day +:+ "T" +:+
  dec 2 (s / 3600) +:+ ":" +:+ dec 2 (s / 60 mod 60) +:+ ":" +:+ dec 2 (s mod 60) +:+
  format_microseconds (us mod 1000000) +:+
  match dt_utcoffset d with None => "" | Some o => format_offset o end.

(** ** [fromisoformat] *)

(** Exactly [n] digits. *)
Fixpoint take_digits (n : nat) (acc : Z) (s : string) : option (Z * string) :=
  match n, s with
  | O, _ => Some (acc, s)
  | S n, String c s => if is_digit c then take_digits n (10 * acc + (Z.of_nat (code c) - 48)) s else None
  | S _, "" => None
  end.

Definition char_is (a : ascii) (n : nat) (s : string) : bool :=
  match String.get n s with Some c => Ascii.eqb a c | None => false end.
Definition digit_at (n : nat) (s : string) : bool :=
  match String.get n s with Some c => is_digit c | None => false end.

(** Where the date ends; none for a text that cannot be told apart. *)
Definition find_separator (s : string) : option nat :=
  let len := String.length s in
  if (len =? 7)%nat then Some 7%nat
  else if char_is "-" 4 s then
    if char_is "W" 5 s then
      if char_is "-" 8 s then
        if (len =? 9)%nat then None else if digit_at 10 s then Some 8%nat else Some 10%nat
      else Some 8%nat
    else Some 10%nat
  else if char_is "W" 4 s then
    let pos := (7 + String.length (span is_digit (String.substring 7 len s)).1)%nat in
    if (pos <? 9)%nat then Some pos else if Nat.even pos then Some 7%nat else Some 8%nat
  else Some 8%nat.

Definition in_bounds (lo x hi : Z) : bool := (lo <=? x) && (x <=? hi).

(** The Monday of the first ISO week, and the days of ISO weeks. *)
Definition iso_week1_monday (year : Z) : Z :=
  let first_day := ymd2ord year 1 1 in
  let first_weekday := (first_day + 6) mod 7 in
  first_day - first_weekday + (if 3 <? first_weekday then 7 else 0).
Definition iso_ordinal (year week day : Z) : option Z :=
  let first_weekday := (ymd2ord year 1 1 + 6) mod 7 in
  let long := (first_weekday =? 3) || (first_weekday =? 2) && is_leap year in
  let n := iso_week1_monday year + (week - 1) * 7 + (day - 1) in
  if in_bounds 1 year 9999 && in_bounds 1 week (if long then 53 else 52) && in_bounds 1 day 7 && in_bounds 1 n MAXORDINAL
  then Some n else None.
Definition ymd_ordinal (year month day : Z) : option Z :=
  if in_bounds 1 year 9999 && in_bounds 1 month 12 && in_bounds 1 day (days_in_month (is_leap year) month)
  then Some (ymd2ord year month day) else None.

(** [YYYY-MM-DD], [YYYYMMDD], [YYYY-Www[-D]], [YYYYWww[D]]; dashes at both places or
    at none. *)
Definition parse_date (s : string) : option Z :=
  '(year, s) ← take_digits 4 0 s;
  let '(dash, s) := sign_of (λ c, Ascii.eqb c "-") s in
  match after_prefix "W" s with
  | Some s =>
      '(week, s) ← take_digits 2 0 s;
      if String.eqb s "" then iso_ordinal year week 1 else
      s ← after_prefix dash s;
      '(day, s) ← take_digits 1 0 s;
      if String.eqb s "" then iso_ordinal year week day else None
  | None =>
      '(month, s) ← take_digits 2 0 s;
      s ← after_prefix dash s;
      '(day, s) ← take_digits 2 0 s;
      if String.eqb s "" then ymd_ordinal year month day else None
  end.

(** The digits after a decimal mark: at least one, the first six of them count. *)
Definition parse_fraction (s : string) : option Z :=
  let '(digits, rest) := span is_digit s in
  if String.eqb digits "" || negb (String.eqb rest "") then None
  else fst <$> take_digits 6 0 (digits +:+ "00000").

(** [HH[:MM[:SS[.ffffff]]]], the colons at both places or at none. *)
Definition parse_hms (s : string) : option (Z * Z * Z * Z) :=
  '(hour, s) ← take_digits 2 0 s;
  if String.eqb s "" then Some (hour, 0, 0, 0) else
  let '(colon, s) := sign_of (λ c, Ascii.eqb c ":") s in
  '(minute, s) ← take_digits 2 0 s;
  if String.eqb s "" then Some (hour, minute, 0, 0) else
  s ← after_prefix colon s;
  '(second, s) ← take_digits 2 0 s;
  match s with
  | "" => Some (hour, minute, second, 0)
  | String c s =>
      if Ascii.eqb c "." || Ascii.eqb c "," then us ← parse_fraction s; Some (hour, minute, second, us)
      else None
  end.
Definition microseconds (hms : Z * Z * Z * Z) : Z :=
  let '(h, m, s, us) := hms in ((h * 60 + m) * 60 + s) * 1000000 + us.

(** The offset: [Z], or a sign and a duration of less than a day. *)
Definition parse_offset (s : string) : option (option Z) :=
  match s with
  | "" => Some None
  | String c s =>
      if Ascii.eqb c "Z" then (if String.eqb s "" then Some (Some 0) else None) else
      hms ← parse_hms s;
      let o := (if Ascii.eqb c "-" then -1 else 1) * microseconds hms in
      if (- MICROSECONDS_PER_DAY <? o) && (o <? MICROSECONDS_PER_DAY) then Some (Some o) else None
  end.

Definition offset_mark (c : ascii) : bool := existsb (Ascii.eqb c) ["+"; "-"; "Z"]%char.
Definition parse_time (s : string) : option (Z * option Z) :=
  let '(clock, offset) := span (λ c, negb (offset_mark c)) s in
  '(h, m, s, us) ← parse_hms clock;
  o ← parse_offset offset;
  if (h <? 24) && (m <? 60) && (s <? 60) then Some (microseconds (h, m, s, us), o) else None.

(** The bytes of the separator, any one character. *)
Definition separator_width (c : ascii) : nat :=
  let n := code c in
  if (n <? 128)%nat then 1%nat
  else if (n <? 224)%nat then 2%nat else if (n <? 240)%nat then 3%nat else 4%nat.

(** [datetime.fromisoformat(s)]; [None] is the [ValueError]. *)
Definition fromisoformat (s : string) : option datetime :=
  n ← find_separator s;
  let len := String.length s in
  ordinal ← parse_date (String.substring 0 n s);
  let midnight := (ordinal - EPOCH_ORDINAL) * MICROSECONDS_PER_DAY in
  match String.substring n len s with
  | "" | String _ "" => Some (mkDatetime midnight None)
  | String c _ as rest =>
      '(us, o) ← parse_time (String.substring (separator_width c) len rest);
      Some (mkDatetime (midnight + us) o)
  end.
