(* ===== verification/CalendarFacts.v ===== *)
(** [fromisoformat] undoes [isoformat], by the arithmetic of the calendar. *)

From Stdlib Require Import Ascii String.
From S2P Require Import Prelude PyStr Json JsonFacts Calendar.
Open Scope string_scope.
Open Scope Z_scope.

(** ** The calendar *)

Ltac div_Z := Z.to_euclidean_division_equations; lia.

Definition month_day_ok (leap : bool) (n : Z) : bool :=
  let '(m, d) := month_day leap n in
  in_bounds 1 m 12 && in_bounds 1 d (days_in_month leap m) && (days_before_month leap m + d =? n + 1).

Lemma month_day_spec (leap : bool) n :
  0 <= n < 365 + (if leap then 1 else 0) → month_day_ok leap n = true.
Proof.
  intros Hn. assert (forallb (month_day_ok leap) (Z.of_nat <$> seq 0 (365 + if leap then 1 else 0)%nat) = true) as H
    by (destruct leap; vm_compute; reflexivity).
  rewrite forallb_forall in H. apply H. apply list_elem_of_In, list_elem_of_fmap.
  exists (Z.to_nat n). split; [lia|]. apply elem_of_seq. destruct leap; lia.
Qed.

Lemma in_bounds_spec lo x hi : in_bounds lo x hi = true ↔ lo <= x <= hi.
Proof. unfold in_bounds. by rewrite andb_true_iff !Z.leb_le. Qed.

Lemma is_leap_spec y : is_leap y = true ↔ y mod 4 = 0 ∧ (y mod 100 ≠ 0 ∨ y mod 400 = 0).
Proof. unfold is_leap. by rewrite andb_true_iff orb_true_iff negb_true_iff !Z.eqb_eq Z.eqb_neq. Qed.

Lemma bool_iff (b : bool) (P : Prop) (b' : bool) : (b = true ↔ P) → (b' = true ↔ P) → b = b'.
Proof. destruct b, b'; naive_solver. Qed.

(** A year as its place in the cycles. *)
Lemma leap_cycles a b c e :
  0 <= b <= 3 → 0 <= c <= 24 → 0 <= e <= 3 →
  is_leap (a * 400 + 1 + b * 100 + c * 4 + e) = (e =? 3) && (negb (c =? 24) || (b =? 3)).
Proof.
  intros Hb Hc He. eapply bool_iff; [apply is_leap_spec|].
  rewrite andb_true_iff orb_true_iff negb_true_iff !Z.eqb_eq Z.eqb_neq. div_Z.
Qed.

Lemma before_cycles a b c e :
  0 <= b <= 3 → 0 <= c <= 24 → 0 <= e <= 3 →
  days_before_year (a * 400 + 1 + b * 100 + c * 4 + e) = 146097 * a + 36524 * b + 1461 * c + 365 * e.
Proof. intros Hb Hc He. unfold days_before_year. div_Z. Qed.

(** The day after the last of a cycle of four or four hundred years. *)
Lemma last_of_cycle y :
  y mod 4 = 0 → (y mod 100 ≠ 0 ∨ y mod 400 = 0) → 1 <= y <= 9999 →
  ymd_ordinal y 12 31 = Some (days_before_year (y + 1)).
Proof.
  intros H4 H100 Hy. unfold ymd_ordinal. rewrite (proj2 (is_leap_spec y)) //.
  change (days_in_month true 12) with 31. rewrite (proj2 (in_bounds_spec 1 y 9999)) //. cbn.
  f_equal. unfold ymd2ord. rewrite (proj2 (is_leap_spec y)) //. change (days_before_month true 12) with 335.
  unfold days_before_year. div_Z.
Qed.

(** The calendar date of an ordinal has that ordinal. *)
Lemma ord2ymd_ordinal n : 1 <= n <= MAXORDINAL →
  let '(y, m, d) := ord2ymd n in ymd_ordinal y m d = Some n ∧ 1 <= y <= 9999 ∧ 1 <= m <= 12 ∧ 1 <= d <= 31.
Proof.
  unfold MAXORDINAL. intros Hn. unfold ord2ymd.
  remember ((n - 1) / 146097) as a eqn:Ea. remember ((n - 1) mod 146097) as n1 eqn:En1.
  assert (n - 1 = 146097 * a + n1 ∧ 0 <= n1 < 146097) as [E1 H1] by div_Z. clear Ea En1.
  remember (n1 / 36524) as b eqn:Eb. remember (n1 mod 36524) as n2 eqn:En2.
  assert (n1 = 36524 * b + n2 ∧ 0 <= n2 < 36524) as [E2 H2] by div_Z. clear Eb En2.
  remember (n2 / 1461) as c eqn:Ec. remember (n2 mod 1461) as n3 eqn:En3.
  assert (n2 = 1461 * c + n3 ∧ 0 <= n3 < 1461) as [E3 H3] by div_Z. clear Ec En3.
  remember (n3 / 365) as e eqn:Ee. remember (n3 mod 365) as r eqn:Er.
  assert (n3 = 365 * e + r ∧ 0 <= r < 365) as [E4 H4] by div_Z. clear Ee Er.
  destruct (Z.eqb_spec e 4) as [He|He]; [|destruct (Z.eqb_spec b 4) as [Hb|Hb]]; cbn [orb].
  - assert (c <= 23 ∧ 0 <= c ∧ b <= 3 ∧ 0 <= b) as (? & ? & ? & ?) by lia. split; [|lia].
    rewrite last_of_cycle; [f_equal; unfold days_before_year; div_Z|div_Z|left; div_Z|lia].
  - assert (c = 0 ∧ e = 0 ∧ r = 0) as (-> & -> & ->) by lia. split; [|lia].
    rewrite last_of_cycle; [f_equal; unfold days_before_year; div_Z|div_Z|right; div_Z|lia].
  - assert (0 <= b <= 3 ∧ 0 <= c <= 24 ∧ 0 <= e <= 3 ∧ 1 <= a * 400 + 1 + b * 100 + c * 4 + e <= 9999) as (Hb' & Hc' & He' & Hy) by lia.
    rewrite -(leap_cycles a) //. set (y := a * 400 + 1 + b * 100 + c * 4 + e) in *.
    pose proof (before_cycles a b c e Hb' Hc' He') as Hbefore. fold y in Hbefore.
    pose proof (month_day_spec (is_leap y) r ltac:(destruct (is_leap y); lia)) as Hm. unfold month_day_ok in Hm.
    destruct (month_day (is_leap y) r) as [m d]. 
    apply andb_true_iff in Hm as [[Hm Hd]%andb_true_iff Hs%Z.eqb_eq]. apply in_bounds_spec in Hm, Hd. unfold ymd_ordinal. rewrite !(proj2 (in_bounds_spec _ _ _)) //. cbn. split.
    + unfold ymd2ord. f_equal. lia.
    + split; [done|]. split; [done|]. enough (days_in_month (is_leap y) m <= 31) by lia.
      assert (m = 1 ∨ m = 2 ∨ m = 3 ∨ m = 4 ∨ m = 5 ∨ m = 6 ∨ m = 7 ∨ m = 8 ∨ m = 9 ∨ m = 10 ∨ m = 11 ∨ m = 12) as Hc by lia.
      clear -Hc. destruct_or! Hc; subst; destruct (is_leap y); by vm_compute.
Qed.

(** ** Digits *)

Lemma digit_spec d : 0 <= d < 10 → is_digit (digit d) = true ∧ Z.of_nat (code (digit d)) - 48 = d.
Proof.
  intros Hd. assert (d = 0 ∨ d = 1 ∨ d = 2 ∨ d = 3 ∨ d = 4 ∨ d = 5 ∨ d = 6 ∨ d = 7 ∨ d = 8 ∨ d = 9) as Hc by lia.
  destruct_or! Hc; by subst.
Qed.

Lemma take_dec_more n m acc x s :
  0 <= x < 10 ^ Z.of_nat n → take_digits (n + m) acc (dec n x +:+ s) = take_digits m (acc * 10 ^ Z.of_nat n + x) s.
Proof.
  revert m x s. induction n as [|n IH]; intros m x s Hx.
  - cbn in Hx |- *. rewrite app_nil_string. f_equal. lia.
  - rewrite Nat2Z.inj_succ Z.pow_succ_r in Hx |- *; [|lia..]. cbn [dec]. rewrite app_string_assoc app_cons app_nil_string.
    rewrite (_ : S n + m = n + S m)%nat; [|lia]. rewrite IH; [|div_Z]. cbn [take_digits].
    destruct (digit_spec (x mod 10)) as [-> Hd]; [div_Z|]. f_equal. rewrite Hd.
    pose proof (Z.div_mod x 10 ltac:(lia)). lia.
Qed.

(** What is written with leading zeros is read back. *)
Lemma take_dec n x s : 0 <= x < 10 ^ Z.of_nat n → take_digits n 0 (dec n x +:+ s) = Some (x, s).
Proof. intros Hx. rewrite -{1}(Nat.add_0_r n) take_dec_more //. Qed.

Lemma dec_digits n x : str_forall is_digit (dec n x) = true.
Proof.
  revert x. induction n as [|n IH]; intros x; [done|]. cbn [dec]. rewrite str_forall_app IH. cbn [str_forall andb].
  destruct (digit_spec (x mod 10)) as [-> _]; [div_Z|done].
Qed.

Lemma dec_length n x : String.length (dec n x) = n.
Proof. revert x. induction n as [|n IH]; intros x; [done|]. cbn [dec]. rewrite length_app_string IH. cbn. lia. Qed.

Lemma take_dec_end n x : 0 <= x < 10 ^ Z.of_nat n → take_digits n 0 (dec n x) = Some (x, "").
Proof. intros Hx. rewrite -{1}(app_string_nil_r (dec n x)). by apply take_dec. Qed.

(** ** Times and offsets *)

(** What stands behind the seconds. *)
Definition clock_text (h m s us : Z) : string :=
  dec 2 h +:+ ":" +:+ dec 2 m +:+ ":" +:+ dec 2 s +:+ format_microseconds us.

Lemma dec_nonempty n x : n ≠ O → String.eqb (dec n x) "" = false.
Proof. intros Hn. apply String.eqb_neq. intros E. apply (f_equal String.length) in E. by rewrite dec_length in E. Qed.

Lemma parse_fraction_dec us : 0 <= us < 1000000 → parse_fraction (dec 6 us) = Some us.
Proof.
  intros Hus. unfold parse_fraction. rewrite -(app_string_nil_r (dec 6 us)) span_all //; [|apply dec_digits].
  cbv beta iota. rewrite dec_nonempty //. cbn [String.eqb orb negb]. by rewrite take_dec.
Qed.

Lemma parse_hms_minutes h m :
  0 <= h < 100 → 0 <= m < 100 → parse_hms (dec 2 h +:+ ":" +:+ dec 2 m) = Some (h, m, 0, 0).
Proof.
  intros Hh Hm. unfold parse_hms. rewrite take_dec //. cbn [mbind option_bind]. rewrite app_cons app_nil_string.
  cbn [String.eqb sign_of]. change (Ascii.eqb ":" ":") with true. cbn iota. by rewrite take_dec_end.
Qed.

Lemma parse_hms_clock h m s us :
  0 <= h < 100 → 0 <= m < 100 → 0 <= s < 100 → 0 <= us < 1000000 → parse_hms (clock_text h m s us) = Some (h, m, s, us).
Proof.
  intros Hh Hm Hs Hus. unfold parse_hms, clock_text. rewrite take_dec //. cbn [mbind option_bind]. rewrite app_cons app_nil_string.
  cbn [String.eqb sign_of]. change (Ascii.eqb ":" ":") with true. cbn iota. rewrite take_dec //. cbn [mbind option_bind].
  rewrite app_cons app_nil_string. cbn [String.eqb after_prefix]. change (Ascii.eqb ":" ":") with true. cbn iota. cbn [mbind option_bind].
  rewrite take_dec //. cbn [mbind option_bind]. unfold format_microseconds. destruct (Z.eqb_spec us 0) as [->|Hne]; [done|].
  rewrite app_cons app_nil_string. cbn [orb]. change (Ascii.eqb "." ".") with true. cbn iota. by rewrite parse_fraction_dec.
Qed.

Lemma avoid_clock P h m s us :
  (∀ c, implb (is_digit c || existsb (Ascii.eqb c) [":"; "."]%char) (P c) = true) → str_forall P (clock_text h m s us) = true.
Proof.
  intros HP. assert (∀ n x, str_forall P (dec n x) = true) as Hdec.
  { intros n x. eapply str_forall_impl; [|apply dec_digits]. intros c Hc. specialize (HP c). by rewrite Hc in HP. }
  assert (P ":"%char = true ∧ P "."%char = true) as [H1 H2] by (split; [exact (HP ":"%char)|exact (HP "."%char)]).
  unfold clock_text, format_microseconds. destruct (us =? 0); rewrite !(str_forall_app, Hdec) /= ?H1 ?H2 ?(Hdec 6%nat); done.
Qed.

Lemma parse_offset_format o :
  - MICROSECONDS_PER_DAY < o < MICROSECONDS_PER_DAY → parse_offset (format_offset o) = Some (Some o).
Proof.
  unfold MICROSECONDS_PER_DAY. intros Ho. unfold format_offset.
  set (a := Z.abs o). set (s := a / 1000000).
  assert (∃ sign, (if o <? 0 then "-" else "+") = String sign "" ∧ Ascii.eqb sign "Z" = false ∧
            (if Ascii.eqb sign "-" then -1 else 1) * a = o) as (sign & -> & Hz & Hsign).
  { unfold a. destruct (Z.ltb_spec o 0); eexists; (split; [done|split; [done|]]); cbn -[Z.mul]; lia. }
  rewrite app_cons app_nil_string. cbn [parse_offset]. rewrite Hz.
  assert (0 <= a < 86400000000) as Ha by lia. clearbody a.
  assert (parse_hms (dec 2 (s / 3600) +:+ ":" +:+ dec 2 (s / 60 mod 60) +:+
            (if a mod 60000000 =? 0 then "" else ":" +:+ dec 2 (s mod 60) +:+ format_microseconds (a mod 1000000))) =
          Some (s / 3600, s / 60 mod 60, s mod 60, a mod 1000000)) as ->.
  { destruct (Z.eqb_spec (a mod 60000000) 0) as [E|E].
    - rewrite app_string_nil_r parse_hms_minutes; [|unfold s; div_Z..]. do 2 f_equal; [f_equal|]; unfold s; div_Z.
    - apply parse_hms_clock; unfold s; div_Z. }
  cbn [mbind option_bind].
  assert (microseconds (s / 3600, s / 60 mod 60, s mod 60, a mod 1000000) = a) as ->.
  { unfold microseconds. assert (s * 1000000 + a mod 1000000 = a) as Ea by (unfold s; div_Z). clearbody s.
    assert (s / 3600 * 60 + s / 60 mod 60 = s / 60) as -> by div_Z. assert (s / 60 * 60 + s mod 60 = s) as -> by div_Z. done. }
  rewrite Hsign. unfold MICROSECONDS_PER_DAY. by rewrite !(proj2 (Z.ltb_lt _ _)); [|lia..].
Qed.

(** ** The round trip *)

Definition date_text (y m d : Z) : string := dec 4 y +:+ "-" +:+ dec 2 m +:+ "-" +:+ dec 2 d.

Lemma parse_date_text y m d :
  0 <= y < 10000 → 0 <= m < 100 → 0 <= d < 100 → parse_date (date_text y m d) = ymd_ordinal y m d.
Proof.
  intros Hy Hm Hd. unfold parse_date, date_text. rewrite take_dec //. cbn [mbind option_bind].
  rewrite app_cons app_nil_string. cbn [sign_of]. change (Ascii.eqb "-" "-") with true. cbn iota.
  assert (∃ t, dec 2 m +:+ "-" +:+ dec 2 d = String (digit (m / 10 mod 10)) t) as (t & Et) by by eexists.
  assert (after_prefix "W" (dec 2 m +:+ "-" +:+ dec 2 d) = None) as ->.
  { rewrite Et. cbn [after_prefix]. destruct (Ascii.eqb_spec "W" (digit (m / 10 mod 10))) as [E|]; [|done].
    destruct (digit_spec (m / 10 mod 10)) as [Hdig _]; [div_Z|]. by rewrite -E in Hdig. }
  rewrite take_dec //. cbn [mbind option_bind]. rewrite app_cons app_nil_string.
  cbn [after_prefix]. change (Ascii.eqb "-" "-") with true. cbn iota. cbn [mbind option_bind].
  by rewrite take_dec_end.
Qed.

Lemma substring_app s t n : String.length s = n → String.substring 0 n (s +:+ t) = s.
Proof.
  intros <-. induction s as [|c s IH]; [by destruct t|]. rewrite app_cons. cbn [String.length String.substring]. by rewrite IH.
Qed.
Lemma substring_all t n : (String.length t <= n)%nat → String.substring 0 n t = t.
Proof.
  revert n. induction t as [|c t IH]; intros [|n] Hn; cbn in *; [done..|lia|]. rewrite IH //. lia.
Qed.
Lemma substring_drop s t n k :
  String.length s = n → (String.length t <= k)%nat → String.substring n k (s +:+ t) = t.
Proof.
  intros <- Hk. induction s as [|c s IH]; [by rewrite app_nil_string substring_all|]. rewrite app_cons. cbn [String.length String.substring]. done.
Qed.

Lemma find_separator_text y m d t :
  0 <= m < 100 → find_separator (date_text y m d +:+ String "T" t) = Some 10%nat.
Proof.
  intros Hm. unfold find_separator.
  assert (String.length (date_text y m d +:+ String "T" t) <> 7)%nat as Hlen.
  { rewrite (length_app_string (date_text y m d)). change (String.length (date_text y m d)) with 10%nat. lia. }
  apply Nat.eqb_neq in Hlen. rewrite Hlen.
  assert (∃ t', date_text y m d +:+ String "T" t =
    String (digit (y / 10 / 10 / 10 mod 10)) (String (digit (y / 10 / 10 mod 10)) (String (digit (y / 10 mod 10))
      (String (digit (y mod 10)) (String "-" (String (digit (m / 10 mod 10)) t')))))) as (t' & E) by by eexists.
  rewrite E. unfold char_is. cbn [String.get]. change (Ascii.eqb "-" "-") with true. cbn iota.
  destruct (Ascii.eqb_spec "W" (digit (m / 10 mod 10))) as [EW|]; [|done].
  destruct (digit_spec (m / 10 mod 10)) as [Hdig _]; [div_Z|]. by rewrite -EW in Hdig.
Qed.

Lemma parse_time_text h m s us (o : option Z) :
  0 <= h < 24 → 0 <= m < 60 → 0 <= s < 60 → 0 <= us < 1000000 →
  (∀ o', o = Some o' → - MICROSECONDS_PER_DAY < o' < MICROSECONDS_PER_DAY) →
  parse_time (clock_text h m s us +:+ match o with None => "" | Some o => format_offset o end) =
    Some (microseconds (h, m, s, us), o).
Proof.
  intros Hh Hm Hs Hus Ho. unfold parse_time. rewrite span_all.
  - rewrite parse_hms_clock; [|lia..]. cbn [mbind option_bind].
    assert (parse_offset (match o with None => "" | Some o => format_offset o end) = Some o) as ->.
    { destruct o as [o|]; [|done]. apply parse_offset_format. by apply Ho. }
    cbn [mbind option_bind]. by rewrite !(proj2 (Z.ltb_lt _ _)); [|lia..].
  - apply avoid_clock. by_chars.
  - destruct o as [o|]; [|done]. unfold format_offset. by destruct (o <? 0).
Qed.

(** What [isoformat] writes, [fromisoformat] reads back: the same wall clock to
    the microsecond and the same offset, from the year 1 to the year 9999. *)
Lemma fromisoformat_isoformat d :
  datetime_valid d = true → fromisoformat (isoformat d) = Some d.
Proof.
  destruct d as [l o]. unfold datetime_valid. cbn [dt_local dt_utcoffset].
  intros [[Hlo%Z.leb_le Hhi%Z.ltb_lt]%andb_true_iff Ho]%andb_true_iff.
  assert (∀ o', o = Some o' → - MICROSECONDS_PER_DAY < o' < MICROSECONDS_PER_DAY) as Ho'.
  { intros o' ->. by apply andb_true_iff in Ho as [?%Z.ltb_lt ?%Z.ltb_lt]. }
  unfold isoformat. cbn [dt_local dt_utcoffset].
  pose proof (ord2ymd_ordinal (l / MICROSECONDS_PER_DAY + EPOCH_ORDINAL)) as Hord.
  destruct (ord2ymd _) as [[y m] d]. destruct Hord as (Hord & Hy & Hm & Hd).
  { unfold MICROSECONDS_PER_DAY, EPOCH_ORDINAL, MAXORDINAL. div_Z. }
  set (us := l mod MICROSECONDS_PER_DAY). set (s := us / 1000000).
  assert (0 <= us < 86400000000) as Hus by (unfold us, MICROSECONDS_PER_DAY; div_Z).
  assert (l = l / MICROSECONDS_PER_DAY * MICROSECONDS_PER_DAY + us) as Hl by (unfold us, MICROSECONDS_PER_DAY; div_Z).
  clearbody us. set (clock := clock_text (s / 3600) (s / 60 mod 60) (s mod 60) (us mod 1000000)).
  set (offset := match o with None => "" | Some o => format_offset o end).
  assert (dec 4 y +:+ "-" +:+ dec 2 m +:+ "-" +:+ dec 2 d +:+ "T" +:+ dec 2 (s / 3600) +:+ ":" +:+ dec 2 (s / 60 mod 60) +:+ ":" +:+
    dec 2 (s mod 60) +:+ format_microseconds (us mod 1000000) +:+ offset = date_text y m d +:+ String "T" (clock +:+ offset)) as ->.
  { unfold date_text, clock, clock_text. by rewrite !(app_string_assoc, app_cons, app_nil_string). }
  unfold fromisoformat. rewrite find_separator_text; [|lia]. cbn [mbind option_bind].
  assert (String.length (date_text y m d) = 10)%nat as Hlen by done.
  rewrite substring_app // parse_date_text; [|lia..]. rewrite Hord. cbn [mbind option_bind].
  rewrite substring_drop //; [|rewrite (length_app_string (date_text y m d)); lia].
  remember (clock +:+ offset) as text eqn:Et. destruct text as [|c t]; [done|].
  change (separator_width "T") with 1%nat. change (String "T" (String c t)) with ("T" +:+ String c t).
  rewrite substring_drop //; [|rewrite (length_app_string (date_text y m d)) (length_app_string "T"); lia].
  rewrite Et.
  unfold clock, offset. rewrite parse_time_text //; [|unfold s; div_Z..]. cbn [mbind option_bind]. do 2 f_equal.
  rewrite {2}Hl. unfold microseconds. assert (s * 1000000 + us mod 1000000 = us) as Ea by (unfold s; div_Z). clearbody s.
  assert (s / 3600 * 60 + s / 60 mod 60 = s / 60) as -> by div_Z. assert (s / 60 * 60 + s mod 60 = s) as -> by div_Z. lia.
Qed.

(** ** What is read is a date *)

Lemma take_digits_bound n acc s x rest :
  take_digits n acc s = Some (x, rest) → 0 <= acc → 0 <= x < (acc + 1) * 10 ^ Z.of_nat n.
Proof.
  revert acc s. induction n as [|n IH]; intros acc s; [destruct s; intros [= <- <-]; cbn; lia|].
  destruct s as [|c s]; [done|]. cbn [take_digits]. destruct (is_digit c) eqn:Hc; [|done]. intros H Hacc.
  assert (0 <= Z.of_nat (code c) - 48 <= 9) as Hd.
  { unfold is_digit, between in Hc. apply andb_true_iff in Hc as [?%Nat.leb_le ?%Nat.leb_le]. lia. }
  apply IH in H; [|lia]. rewrite Nat2Z.inj_succ Z.pow_succ_r; [|lia].
  pose proof (Z.pow_pos_nonneg 10 (Z.of_nat n)). nia.
Qed.

Lemma ymd_ordinal_bound y m d n : ymd_ordinal y m d = Some n → 1 <= n <= MAXORDINAL.
Proof.
  unfold ymd_ordinal. destruct (in_bounds 1 y 9999 && in_bounds 1 m 12 && _) eqn:E; [|done]. intros [= <-].
  apply andb_true_iff in E as [[Hy Hm]%andb_true_iff Hd]. apply in_bounds_spec in Hy, Hm, Hd.
  unfold ymd2ord, MAXORDINAL.
  assert (0 <= days_before_month (is_leap y) m ∧ days_before_month (is_leap y) m + days_in_month (is_leap y) m <= 365 + Z.b2z (is_leap y)) as Hb.
  { assert (m = 1 ∨ m = 2 ∨ m = 3 ∨ m = 4 ∨ m = 5 ∨ m = 6 ∨ m = 7 ∨ m = 8 ∨ m = 9 ∨ m = 10 ∨ m = 11 ∨ m = 12) as Hc by lia.
    clear -Hc. destruct_or! Hc; subst; destruct (is_leap y); by vm_compute. }
  assert (0 <= days_before_year y ∧ (y <= 9998 → days_before_year y + 366 <= 3652059) ∧ (y = 9999 → days_before_year y = 3651694 ∧ is_leap y = false)) as (? & ? & Hlast).
  { split; [unfold days_before_year; div_Z|]. split; [intros; unfold days_before_year; div_Z|]. by intros ->. }
  destruct (decide (y = 9999)) as [E|]; [destruct (Hlast E) as [E1 E2]; rewrite E2 in Hb Hd |- *; cbn in Hb; lia|].
  destruct (is_leap y); cbn in Hb; lia.
Qed.

Lemma iso_ordinal_bound y w d n : iso_ordinal y w d = Some n → 1 <= n <= MAXORDINAL.
Proof.
  unfold iso_ordinal. cbv zeta. destruct (_ && in_bounds 1 (iso_week1_monday y + _ + _) MAXORDINAL) eqn:E; [|done]. intros [= <-].
  apply andb_true_iff in E as [_ E]. by apply in_bounds_spec in E.
Qed.

Lemma parse_date_bound s n : parse_date s = Some n → 1 <= n <= MAXORDINAL.
Proof.
  unfold parse_date. destruct (take_digits 4 0 s) as [[y s1]|]; cbn [mbind option_bind]; [|done]. destruct (sign_of _ s1) as [dash s2].
  destruct (after_prefix "W" s2) as [s3|].
  - destruct (take_digits 2 0 s3) as [[w s4]|]; cbn [mbind option_bind]; [|done]. destruct (String.eqb s4 ""); [apply iso_ordinal_bound|].
    destruct (after_prefix dash s4) as [s5|]; cbn [mbind option_bind]; [|done]. destruct s5 as [|c s5]; cbn [take_digits mbind option_bind]; [done|].
    destruct (is_digit c); cbn [mbind option_bind]; [|done]. destruct s5; cbn [String.eqb]; [apply iso_ordinal_bound|done].
  - destruct (take_digits 2 0 s2) as [[m s3]|]; cbn [mbind option_bind]; [|done]. destruct (after_prefix dash s3) as [s4|]; cbn [mbind option_bind]; [|done].
    destruct (take_digits 2 0 s4) as [[d s5]|]; cbn [mbind option_bind]; [|done]. destruct (String.eqb s5 ""); [apply ymd_ordinal_bound|done].
Qed.

Lemma parse_hms_bound s h m sec us :
  parse_hms s = Some (h, m, sec, us) → 0 <= h ∧ 0 <= m ∧ 0 <= sec ∧ 0 <= us < 1000000.
Proof.
  unfold parse_hms. destruct (take_digits 2 0 s) as [[h' s1]|] eqn:Eh; cbn [mbind option_bind]; [|done]. apply take_digits_bound in Eh; [|lia].
  destruct (String.eqb s1 ""); [intros [= <- <- <- <-]; lia|]. destruct (sign_of _ s1) as [colon s2].
  destruct (take_digits 2 0 s2) as [[m' s3]|] eqn:Em; cbn [mbind option_bind]; [|done]. apply take_digits_bound in Em; [|lia].
  destruct (String.eqb s3 ""); [intros [= <- <- <- <-]; lia|]. destruct (after_prefix colon s3) as [s4|]; cbn [mbind option_bind]; [|done].
  destruct (take_digits 2 0 s4) as [[sec' s5]|] eqn:Es; cbn [mbind option_bind]; [|done]. apply take_digits_bound in Es; [|lia].
  destruct s5 as [|c s5]; [intros [= <- <- <- <-]; lia|]. destruct (_ || _); [|done].
  unfold parse_fraction. destruct (span is_digit s5) as [digits rest]. destruct (_ || _); [done|].
  destruct (take_digits 6 0 _) as [[us' s6]|] eqn:Eu; cbn [mbind option_bind fmap option_fmap option_map fst]; [|done]. apply take_digits_bound in Eu; [|lia].
  intros [= <- <- <- <-]. cbn in Eu. lia.
Qed.

(** Only a wall clock and an offset that Python has are ever read. *)
Lemma fromisoformat_valid s d : fromisoformat s = Some d → datetime_valid d = true.
Proof.
  unfold fromisoformat. destruct (find_separator s) as [n|]; cbn [mbind option_bind]; [|done].
  destruct (parse_date _) as [ord|] eqn:Ed; cbn [mbind option_bind]; [|done]. apply parse_date_bound in Ed. unfold MAXORDINAL in Ed.
  assert (∀ us o, 0 <= us < MICROSECONDS_PER_DAY → (∀ o', o = Some o' → - MICROSECONDS_PER_DAY < o' < MICROSECONDS_PER_DAY) →
            datetime_valid (mkDatetime ((ord - EPOCH_ORDINAL) * MICROSECONDS_PER_DAY + us) o) = true) as Hok.
  { unfold datetime_valid, MICROSECONDS_PER_DAY, EPOCH_ORDINAL. cbn [dt_local dt_utcoffset]. intros us o Hus Ho.
    rewrite (proj2 (Z.leb_le _ _)); [|lia]. rewrite (proj2 (Z.ltb_lt _ _)); [|lia]. cbn [andb]. destruct o as [o|]; [|done].
    specialize (Ho _ eq_refl). by rewrite !(proj2 (Z.ltb_lt _ _)); [|lia..]. }
  assert (datetime_valid (mkDatetime ((ord - EPOCH_ORDINAL) * MICROSECONDS_PER_DAY) None) = true) as Hmid.
  { rewrite -(Z.add_0_r (_ * _)). by apply Hok. }
  destruct (String.substring n _ s) as [|c [|c' rest]]; [by intros [= <-]..|].
  destruct (parse_time _) as [[us o]|] eqn:Et; cbn [mbind option_bind]; [|done]. intros [= <-]. revert Et. unfold parse_time.
  destruct (span _ _) as [clock offset]. destruct (parse_hms clock) as [[[[h m] sec] us']|] eqn:Eh; cbn [mbind option_bind]; [|done].
  apply parse_hms_bound in Eh. destruct (parse_offset offset) as [o'|] eqn:Eo; cbn [mbind option_bind]; [|done].
  destruct (_ && _) eqn:E; [|done]. intros [= <- <-]. apply andb_true_iff in E as [[?%Z.ltb_lt ?%Z.ltb_lt]%andb_true_iff ?%Z.ltb_lt].
  apply Hok; [unfold microseconds, MICROSECONDS_PER_DAY; lia|]. intros o ->. revert Eo. unfold parse_offset. destruct offset as [|z offset]; [done|].
  destruct (Ascii.eqb z "Z"); [destruct (String.eqb offset ""); [|done]; intros [= <-]; unfold MICROSECONDS_PER_DAY; lia|].
  destruct (parse_hms offset) as [hms|]; cbn [mbind option_bind]; [|done]. destruct (_ && _) eqn:E'; [|done]. intros [= <-].
  by apply andb_true_iff in E' as [?%Z.ltb_lt ?%Z.ltb_lt].
Qed.
