(* ===== verification/Cursor.v ===== *)
(** The keyset cursors of the two listing routes
    ([features/users/adapters/inbound/http/cursor.py] and its twin of the
    authentication feature): base64 of the standard library and the codec. *)

From Stdlib Require Import Ascii String.
From S2P Require Import Prelude PyStr Uuid Json Calendar.
Open Scope string_scope.
Open Scope N_scope.

(** ** [base64] *)

(** The URL-safe alphabet. *)
Definition b64_char (x : N) : ascii :=
  if x <? 26 then ascii_of_N (65 + x)
  else if x <? 52 then ascii_of_N (71 + x)
  else if x <? 62 then ascii_of_N (x - 4)
  else if x =? 62 then "-"%char else "_"%char.

(** Decoding first replaces [-_] by [+/], so it takes both alphabets. *)
Definition b64_value (c : ascii) : option N :=
  let n := N_of_ascii c in
  if is_upper c then Some (n - 65)
  else if is_lower c then Some (n - 71)
  else if is_digit c then Some (n + 4)
  else if Ascii.eqb c "-" || Ascii.eqb c "+" then Some 62
  else if Ascii.eqb c "_" || Ascii.eqb c "/" then Some 63
  else None.

Fixpoint urlsafe_b64encode (s : string) : string :=
  match s with
  | "" => ""
  | String a "" =>
      let a := N_of_ascii a in
      String (b64_char (a / 4)) (String (b64_char (a mod 4 * 16)) "==")
  | String a (String b "") =>
      let a := N_of_ascii a in let b := N_of_ascii b in
      String (b64_char (a / 4)) (String (b64_char (a mod 4 * 16 + b / 16)) (String (b64_char (b mod 16 * 4)) "="))
  | String a (String b (String c s)) =>
      let a := N_of_ascii a in let b := N_of_ascii b in let c := N_of_ascii c in
      String (b64_char (a / 4)) (String (b64_char (a mod 4 * 16 + b / 16))
        (String (b64_char (b mod 16 * 4 + c / 64)) (String (b64_char (c mod 64)) (urlsafe_b64encode s))))
  end.

(** [binascii.a2b_base64] without its strict mode: what is not of the alphabet is
    skipped; [quad] counts the digits of the current group, [left] holds the bits not
    yet written, [pads] the padding characters in a row.  [None] is
    [binascii.Error]. *)
Fixpoint a2b_base64 (quad : nat) (left : N) (pads : nat) (s : string) : option string :=
  match s with
  | "" => match quad with O => Some "" | _ => None end
  | String c s =>
      if Ascii.eqb c "=" then
        if (2 <=? quad)%nat then
          if (4 <=? quad + S pads)%nat then Some "" else a2b_base64 quad left (S pads) s
        else a2b_base64 quad left pads s
      else
        match b64_value c with
        | None => a2b_base64 quad left pads s
        | Some x =>
            match quad with
            | 0 => a2b_base64 1 x 0 s
            | 1 => String (ascii_of_N (left * 4 + x / 16)) <$> a2b_base64 2 (x mod 16) 0 s
            | 2 => String (ascii_of_N (left * 16 + x / 4)) <$> a2b_base64 3 (x mod 4) 0 s
            | _ => String (ascii_of_N (left * 64 + x)) <$> a2b_base64 0 0 0 s
            end%nat
        end
  end.
Definition urlsafe_b64decode (s : string) : option string := a2b_base64 0 0 0 s.

(** ** The codec *)

Section codec.
(** What is left of the recursion limit where a request is served. *)
Context (recursion_limit : nat).

Definition encode_cursor (created_at : datetime) (id : uuid) : string :=
  urlsafe_b64encode (dumps compact (JObj [("created_at", JStr (isoformat created_at)); ("id", JStr (uuid_str id))])).

(** [except (UnicodeDecodeError, json.JSONDecodeError)]: another [ValueError] of the
    parser, or [RecursionError], passes. *)
Definition decode_payload (raw : string) : outcome json :=
  match utf8_decode raw with
  | Raise _ => Raise (InvalidCursorError "cursor payload is not valid JSON")
  | Ret text =>
      match loads recursion_limit text with
      | Raise JSONDecodeError => Raise (InvalidCursorError "cursor payload is not valid JSON")
      | r => r
      end
  end.

Definition decode_cursor {S} (token : string) : M S (datetime * uuid) :=
  if String.eqb token "" then raise (InvalidCursorError "cursor must not be empty") else
  match (if str_forall is_ascii token then urlsafe_b64decode token else None) with
  | None => raise (InvalidCursorError "cursor is not valid base64")
  | Some raw =>
      payload ← lift (decode_payload raw);
      match payload with
      | JObj payload =>
          match dict_get payload "created_at", dict_get payload "id" with
          | Some (JStr created_raw), Some (JStr id_raw) =>
              match fromisoformat created_raw with
              | None => raise (InvalidCursorError "cursor created_at is not a valid datetime")
              | Some created_at =>
                  match uuid_parse id_raw with
                  | None => raise (InvalidCursorError "cursor id is not a valid UUID")
                  | Some id => mret (created_at, id)
                  end
              end
          | _, _ => raise (InvalidCursorError "cursor missing required fields")
          end
      | _ => raise (InvalidCursorError "cursor payload must be a JSON object")
      end
  end.
End codec.
