(* ===== verification/CursorFacts.v ===== *)
(** A cursor is decoded to what it was made of; what else decoding can do. *)

From Stdlib Require Import Ascii String.
From stdpp Require Import pretty.
From S2P Require Import Prelude PyStr Uuid Json JsonFacts Calendar CalendarFacts Cursor.
Open Scope string_scope.
Open Scope N_scope.

(** ** Base64 *)

Lemma below_64 (P : N → Prop) : Forall P (N.of_nat <$> seq 0 64) → ∀ n, n < 64 → P n.
Proof.
  rewrite Forall_fmap Forall_forall. intros H n Hn. rewrite -(N2Nat.id n).
  apply (H (N.to_nat n)), elem_of_seq. lia.
Qed.

Lemma b64_char_value x : x < 64 → b64_value (b64_char x) = Some x ∧ Ascii.eqb (b64_char x) "=" = false.
Proof. revert x. apply below_64. repeat (apply Forall_cons_2; [done|]). apply Forall_nil_2. Qed.

Lemma b64_char_ascii x : x < 64 → is_ascii (b64_char x) = true.
Proof. revert x. apply below_64. repeat (apply Forall_cons_2; [done|]). apply Forall_nil_2. Qed.

Lemma byte_bound c : N_of_ascii c < 256.
Proof. apply N_ascii_bounded. Qed.

Lemma ascii_of_code x c : x = N_of_ascii c → ascii_of_N x = c.
Proof. intros ->. apply ascii_N_embedding. Qed.

(** One digit of a group. *)
Lemma a2b_char quad left pads x s :
  x < 64 → a2b_base64 quad left pads (String (b64_char x) s) =
    match quad with
    | 0 => a2b_base64 1 x 0 s
    | 1 => String (ascii_of_N (left * 4 + x / 16)) <$> a2b_base64 2 (x mod 16) 0 s
    | 2 => String (ascii_of_N (left * 16 + x / 4)) <$> a2b_base64 3 (x mod 4) 0 s
    | _ => String (ascii_of_N (left * 64 + x)) <$> a2b_base64 0 0 0 s
    end%nat.
Proof. intros Hx. cbn [a2b_base64]. by destruct (b64_char_value x Hx) as [-> ->]. Qed.

Lemma string_ind3 (P : string → Prop) :
  P "" → (∀ a, P (String a "")) → (∀ a b, P (String a (String b ""))) →
  (∀ a b c s, P s → P (String a (String b (String c s)))) → ∀ s, P s.
Proof.
  intros H0 H1 H2 H3 s. remember (String.length s) as n eqn:Hn. revert s Hn.
  induction (lt_wf n) as [n _ IH]. intros [|a [|b [|c s]]] ->; auto. apply H3. eapply IH; [|done]. cbn. lia.
Qed.

Lemma b64_decode_encode pads s : a2b_base64 0 0 pads (urlsafe_b64encode s) = Some s.
Proof.
  revert pads. induction s as [|a|a b|a b c s IH] using string_ind3; intros pads; [done|..]; cbn [urlsafe_b64encode].
  - pose proof (byte_bound a). do 2 (rewrite a2b_char; [|div_lia]). cbn. do 2 f_equal.
    apply ascii_of_code. div_lia.
  - pose proof (byte_bound a). pose proof (byte_bound b). do 3 (rewrite a2b_char; [|div_lia]). cbn. do 2 f_equal.
    + apply ascii_of_code. div_lia.
    + f_equal. apply ascii_of_code. div_lia.
  - pose proof (byte_bound a). pose proof (byte_bound b). pose proof (byte_bound c). do 4 (rewrite a2b_char; [|div_lia]).
    rewrite IH. cbn. do 2 f_equal; [|f_equal; [|f_equal]].
    + apply ascii_of_code. div_lia.
    + apply ascii_of_code. div_lia.
    + apply ascii_of_code. div_lia.
Qed.

Lemma b64_encode_ascii s : str_forall is_ascii (urlsafe_b64encode s) = true.
Proof.
  induction s as [|a|a b|a b c s IH] using string_ind3; [done|..]; cbn [urlsafe_b64encode str_forall];
    repeat match goal with
    | a : ascii |- _ => lazymatch goal with H : N_of_ascii a < 256 |- _ => fail | _ => pose proof (byte_bound a) end
    end; rewrite !b64_char_ascii; try div_lia; done.
Qed.

(** ** The codec *)

Lemma format_microseconds_ascii us : str_forall is_ascii (format_microseconds us) = true.
Proof.
  unfold format_microseconds. destruct (us =? 0)%Z; [done|]. rewrite str_forall_app.
  rewrite (ascii_of_class is_digit (dec 6 us)); [done|by_chars|apply dec_digits].
Qed.

Lemma isoformat_ascii d : str_forall is_ascii (isoformat d) = true.
Proof.
  assert (∀ n x, str_forall is_ascii (dec n x) = true) as Hdec
    by (intros n x; apply (ascii_of_class is_digit); [by_chars|apply dec_digits]).
  unfold isoformat, format_offset. destruct (ord2ymd _) as [[y m] dd].
  rewrite !(str_forall_app, Hdec, format_microseconds_ascii). cbn [str_forall andb].
  destruct (dt_utcoffset d) as [o|]; [|done]. rewrite !(str_forall_app, Hdec).
  destruct (o <? 0)%Z, (Z.abs o mod 60000000 =? 0)%Z; rewrite ?(str_forall_app, Hdec, format_microseconds_ascii); done.
Qed.

Lemma uuid_str_ascii u : str_forall is_ascii (uuid_str u) = true.
Proof. apply (ascii_of_class is_hexdash); [by_chars|apply uuid_str_chars]. Qed.

Lemma cursor_printable d i depth :
  printable (S depth) (JObj [("created_at", JStr (isoformat d)); ("id", JStr (uuid_str i))]).
Proof.
  cbn [printable]. split; [by apply (bool_decide_unpack (NoDup ["created_at"; "id"]))|].
  assert (∀ k v, str_forall is_ascii k = true → str_forall is_ascii v = true → is_text k ∧ printable depth (JStr v)) as H.
  { intros k v Hk Hv. split; [by apply is_text_ascii|]. destruct depth; by apply is_text_ascii. }
  apply Forall_cons_2; [apply H; [done|apply isoformat_ascii]|].
  apply Forall_cons_2; [apply H; [done|apply uuid_str_ascii]|]. apply Forall_nil_2.
Qed.

Section codec.
Context (recursion_limit : nat).

(** A cursor is decoded to the timestamp and the identifier it was made of. *)
Lemma decode_encode_cursor {S} d i (s : S) :
  datetime_valid d = true → uuid_ok i → (0 < recursion_limit)%nat →
  decode_cursor recursion_limit (encode_cursor d i) s = (Ret (d, i), s).
Proof.
  intros Hd Hi Hlimit. destruct recursion_limit as [|limit] eqn:El; [lia|]. pose proof (cursor_printable d i limit) as Hp.
  unfold decode_cursor, encode_cursor. set (payload := JObj _) in *.
  assert (urlsafe_b64encode (dumps compact payload) ≠ "") as Hne.
  { intros E. assert (urlsafe_b64decode (urlsafe_b64encode (dumps compact payload)) = Some "") as E' by by rewrite E.
    unfold urlsafe_b64decode in E'. rewrite b64_decode_encode in E'. 
    pose proof (dumps_starts compact _ _ Hp) as Hst. destruct (dumps compact payload); done. }
  rewrite eqb_neq_string // b64_encode_ascii. unfold urlsafe_b64decode. rewrite b64_decode_encode.
  unfold decode_payload. rewrite utf8_decode_text; [|eapply is_text_ascii, dumps_ascii; [apply compact_ok|done]].
  rewrite loads_dumps //; [|apply compact_ok]. rewrite (ordered_id compact (Datatypes.S limit)) //.
  rewrite run_bind. cbn [lift]. subst payload. cbn -[fromisoformat isoformat uuid_str uuid_parse].
  by rewrite fromisoformat_isoformat // uuid_parse_str.
Qed.

(** What the parser raises beside [JSONDecodeError]. *)
Definition parser_escape (e : exn) : Prop := (∃ what, e = ValueError what) ∨ e = RecursionError.

Lemma decode_cursor_total {S} token (s : S) :
  ∃ r, decode_cursor recursion_limit token s = (r, s) ∧
    match r with
    | Ret (created_at, id) => datetime_valid created_at = true ∧ uuid_ok id
    | Raise e => (∃ what, e = InvalidCursorError what) ∨ parser_escape e
    end.
Proof.
  unfold decode_cursor. destruct (String.eqb token ""); [eexists; split; [done|]; left; by eexists|].
  destruct (if str_forall is_ascii token then _ else _) as [raw|]; [|eexists; split; [done|]; left; by eexists].
  rewrite run_bind. unfold lift, decode_payload.
  destruct (utf8_decode raw) as [text|]; [|eexists; split; [done|]; left; by eexists].
  destruct (loads recursion_limit text) as [j|e] eqn:E.
  2: { apply loads_raises in E as [->|[[what ->]| ->]]; eexists; (split; [done|]); [left; by eexists|right; left; by eexists|by right; right]. }
  destruct j as [| | | | | |d]; try (eexists; split; [done|]; left; by eexists).
  destruct (dict_get d "created_at") as [[| | | |c| |]|]; try (eexists; split; [done|]; left; by eexists).
  destruct (dict_get d "id") as [[| | | |i| |]|]; try (eexists; split; [done|]; left; by eexists).
  destruct (fromisoformat c) as [created_at|] eqn:Ec; [|eexists; split; [done|]; left; by eexists].
  destruct (uuid_parse i) as [id|] eqn:Ei; [|eexists; split; [done|]; left; by eexists].
  eexists. split; [done|]. split; [by eapply fromisoformat_valid|by eapply uuid_parse_ok].
Qed.

Definition urlsafe (c : ascii) : bool := is_alnum c || existsb (Ascii.eqb c) ["-"; "_"; "="]%char.

Lemma b64_encode_urlsafe s : str_forall urlsafe (urlsafe_b64encode s) = true.
Proof.
  assert (∀ x, x < 64 → urlsafe (b64_char x) = true) as Hc
    by (apply below_64; repeat (apply Forall_cons_2; [done|]); apply Forall_nil_2).
  induction s as [|a|a b|a b c s IH] using string_ind3; [done|..]; cbn [urlsafe_b64encode str_forall];
    repeat match goal with
    | a : ascii |- _ => lazymatch goal with H : N_of_ascii a < 256 |- _ => fail | _ => pose proof (byte_bound a) end
    end; rewrite !Hc; try div_lia; done.
Qed.

(** C34. A cursor is written in characters that need no quoting in a query string and
    is decoded to the timestamp, with its offset, and the identifier it was made of;
    so two rows have one cursor only if they have the same timestamp, offset and
    identifier. *)
Theorem cursor_roundtrip {S} d i d' i' (s : S) :
  datetime_valid d = true → uuid_ok i → datetime_valid d' = true → uuid_ok i' → (0 < recursion_limit)%nat →
  str_forall urlsafe (encode_cursor d i) = true ∧
  decode_cursor recursion_limit (encode_cursor d i) s = (Ret (d, i), s) ∧
  (encode_cursor d i = encode_cursor d' i' → d = d' ∧ i = i').
Proof.
  intros Hd Hi Hd' Hi' Hl. split; [apply b64_encode_urlsafe|]. split; [by apply decode_encode_cursor|].
  intros E. pose proof (decode_encode_cursor d i tt Hd Hi Hl) as E1. rewrite E decode_encode_cursor // in E1. by simplify_eq.
Qed.

(** A token that is not a cursor is refused with [InvalidCursorError], and what is
    accepted is a date and an identifier; but an integer of more than 4300 digits
    and nesting beyond the recursion limit, both of which some token has, leave the
    decoder as other exceptions, against its documentation. *)
Theorem decode_cursor_outcomes {S} token (s : S) :
  (∃ r, decode_cursor recursion_limit token s = (r, s) ∧
    match r with
    | Ret (created_at, id) => datetime_valid created_at = true ∧ uuid_ok id
    | Raise e => (∃ what, e = InvalidCursorError what) ∨ parser_escape e
    end) ∧
  (∃ deep, decode_cursor recursion_limit deep s = (Raise RecursionError, s)) ∧
  (∃ long what, decode_cursor recursion_limit long s = (Raise (ValueError what), s)).
Proof.
  split; [apply decode_cursor_total|split].
  - set (deep := String.concat "" (replicate (Datatypes.S recursion_limit) "[")).
    assert (str_forall is_ascii deep = true) as Ha.
    { unfold deep. clear. induction recursion_limit as [|n IH]; [done|].
      change (String.concat "" (replicate (Datatypes.S (Datatypes.S n)) "[")) with ("[" +:+ "" +:+ String.concat "" (replicate (Datatypes.S n) "[")).
      by rewrite !str_forall_app IH. }
    assert (urlsafe_b64encode deep ≠ "") as Hne.
    { unfold deep. destruct recursion_limit as [|[|[|n]]]; done. }
    exists (urlsafe_b64encode deep). unfold decode_cursor. rewrite eqb_neq_string // b64_encode_ascii.
    unfold urlsafe_b64decode. rewrite b64_decode_encode. unfold decode_payload.
    rewrite utf8_decode_text; [|by apply is_text_ascii]. unfold deep. by rewrite loads_too_deep.
  - exists (urlsafe_b64encode (String.concat "" (replicate 4301 "1"))). eexists. destruct recursion_limit; vm_compute; reflexivity.
Qed.
End codec.

Lemma cursor_roundtrip_witness :
  let d := at_offset 1700000000123456 0 in
  decode_cursor 1 (encode_cursor d 255) tt = (Ret (d, 255), tt) ∧ (encode_cursor d 255 = encode_cursor d 254 → 255 = 254).
Proof.
  destruct (cursor_roundtrip 1 (at_offset 1700000000123456 0) 255 (at_offset 1700000000123456 0) 254 tt) as (_ & E & Hinj);
    [vm_compute; reflexivity..|lia|].
  split; [exact E|]. intros Eq. by apply Hinj.
Defined.
