(* ===== verification/Listing.v ===== *)
(** The two listing routes of the administrators: [GET /admin/users]
    ([features/users/adapters/inbound/http/admin.py]) and [GET /admin/audit-log]
    ([features/authentication/adapters/inbound/http/admin.py]), from the bearer token
    to the page and the cursor of the next one. *)

From Stdlib Require Import String.
From S2P Require Import Prelude PyStr Uuid Json Calendar Cursor Store Users Authz Principals AuthRepo Auth Http AuthHttp UsersHttp.
Open Scope string_scope.
Open Scope Z_scope.

(** ** Response models *)

(** [schemas.py:UserPublic] of the users feature. *)
Module UserSchemas.
Record UserPublic := mkUserPublic {
  id : uuid;
  email : string;
  is_active : bool;
  is_verified : bool;
  authz_version : Z;
  created_at : time;
  updated_at : time;
}.
Definition model_validate (u : User) : UserPublic :=
  mkUserPublic (u_id u) (u_email u) (u_is_active u) (u_is_verified u) (u_authz_version u) (u_created_at u) (u_updated_at u).
End UserSchemas.

(** [schemas.py:AuditEventRead]. *)
Record AuditEventRead := mkAuditEventRead {
  ar_id : uuid;
  ar_user_id : option uuid;
  ar_event_type : string;
  ar_metadata : payload;
  ar_created_at : time;
}.
Definition audit_event_read (e : AuditEvent) : AuditEventRead :=
  mkAuditEventRead e.1 (ae_user_id e.2) (ae_event_type e.2) (ae_metadata e.2) (ae_created_at e.2).

(** [UserListPage] and [AuditLogRead]: a page, its length, the limit and the cursor
    of the next page. *)
Record Page A := mkPage { items : list A; count : Z; page_limit : Z; next_cursor : option string }.
Arguments mkPage {A}. Arguments items {A}. Arguments count {A}. Arguments page_limit {A}. Arguments next_cursor {A}.

Section routes.
Context `{Env} `{Jwt} (settings : HttpSettings).
Context {C : Type} `{PrincipalCachePort C} {L Q : Type}.
(** The recursion limit left to a request, and the offset of the time zone of the
    database sessions: in it the driver returns timestamps and PostgreSQL reads the
    ones without an offset. *)
Context (recursion_limit : nat) (session_utcoffset : Z).

Abbreviation Site := (App C L * Q)%type.
Abbreviation Handler := (M Site).

(** A [datetime] as a query parameter of a [timestamptz] comparison. *)
Definition db_instant (d : datetime) : time := default (dt_local d - session_utcoffset) (instant d).
(** A timestamp as the driver returns it. *)
Definition db_datetime (t : time) : datetime := at_offset t session_utcoffset.

(** [try: decode_cursor(token) except InvalidCursorError as exc: raise refused(str(exc))]. *)
Definition decode_or_refuse (refused : string → exn) (token : option string) : Handler (option (time * uuid)) :=
  match token with
  | None => mret None
  | Some token =>
      '(created_at, id) ← try_except (decode_cursor recursion_limit token)
        (λ e, match e with InvalidCursorError what => raise (refused what) | e => raise e end);
      mret (Some (db_instant created_at, id))
  end.

(** A full page may not be the last one: its last row is the next cursor. *)
Definition page_of {R A} (f : R → A) (key : R → time * uuid) (rows : list R) (limit : Z) : Page A :=
  let items := map f rows in
  mkPage items (Z.of_nat (length items)) limit
    (if Z.of_nat (length items) =? limit
     then r ← last rows; Some (encode_cursor (db_datetime (key r).1) (key r).2)
     else None).

Definition admin_list_users (cursor : option string) (limit : Z) : Handler (Page UserSchemas.UserPublic) :=
  decoded_cursor ← decode_or_refuse (λ what, app_error 400 what "invalid_cursor" ProblemType.ABOUT_BLANK []) cursor;
  result ← on_app (on_world (ListUsers.execute decoded_cursor limit));
  match_user result (λ users, mret (page_of UserSchemas.model_validate (λ u, (u_created_at u, u_id u)) users limit)).

Definition admin_list_audit_events (user_id : option uuid) (event_type : option string) (since : option datetime)
    (before : option string) (limit : Z) : Handler (Page AuditEventRead) :=
  decoded_before ← decode_or_refuse (λ what, http_error 400 what []) before;
  result ← on_app (on_world (ListAuditEvents.execute user_id event_type (db_instant <$> since) decoded_before limit));
  match result with
  | Ok events => mret (page_of audit_event_read AuthRepository.audit_key events limit)
  | Err exc => raise_http_from_auth_error exc
  end.

(** ** Serving a request *)

(** The query parameters of the two routes; [Query(ge=1, le=500)] and
    [Query(min_length=1, max_length=150)] hold of what reaches the handlers. *)
Inductive listing_endpoint :=
  | GET_admin_users (cursor : option string) (limit : Z)
  | GET_admin_audit_log (user_id : option uuid) (event_type : option string) (since : option datetime)
      (before : option string) (limit : Z).

Definition listing_query_ok (e : listing_endpoint) : bool :=
  match e with
  | GET_admin_users _ limit => in_bounds 1 limit 500
  | GET_admin_audit_log _ event_type _ _ limit =>
      in_bounds 1 limit 500 &&
      match event_type with
      | Some t => (1 <=? String.length t)%nat && (String.length t <=? 150)%nat
      | None => true
      end
  end.

Definition listing_route (e : listing_endpoint) (request : Request) : Handler (Page UserSchemas.UserPublic + Page AuditEventRead) :=
  match e with
  | GET_admin_users cursor limit =>
      require_system_authorization settings "manage_users" request ;;
      page ← admin_list_users cursor limit;
      mret (inl page)
  | GET_admin_audit_log user_id event_type since before limit =>
      require_system_authorization settings "read_audit" request ;;
      page ← admin_list_audit_events user_id event_type since before limit;
      mret (inr page)
  end.

Definition listing_serve (e : listing_endpoint) (request : Request) (s : Site) :
    (Page UserSchemas.UserPublic + Page AuditEventRead + Problem) * Site :=
  let '(a, q) := s in
  match listing_route e request (mkApp (world a) (principal_cache a) (limiters a) [] None, q) with
  | (Ret page, s) => (inl page, s)
  | (Raise e, s) => (inr (exception_handler request e).1, s)
  end.
End routes.
