(* ===== verification/ListingFacts.v ===== *)
(** Following the cursors of the listing routes visits every row once, in order;
    only administrators get a page, and a token that is no cursor reaches no query. *)

From Stdlib Require Import String.
From S2P Require Import Prelude PyStr Uuid Json JsonFacts Calendar CalendarFacts Cursor CursorFacts Store StoreFacts Demo Users UsersFacts Authz AuthzFacts AuthRepo AuthRepoFacts Principals DemoAuth PrincipalsFacts Auth RefreshFamilies Http AuthHttp AuthHttpFacts UsersHttp UsersHttpFacts Listing.
Open Scope string_scope.
Open Scope list_scope.
Open Scope Z_scope.

(** ** A client that follows the cursors *)

(** It stops at a page without a cursor; [None] when the fuel runs out. *)
Fixpoint browse {S A} (fuel : nat) (page : option string → M S (Page A)) (cursor : option string) : M S (option (list A)) :=
  match fuel with
  | O => mret None
  | S fuel =>
      p ← page cursor;
      match next_cursor p with
      | None => mret (Some (items p))
      | Some cursor =>
          rest ← browse fuel page (Some cursor);
          mret (app (items p) <$> rest)
      end
  end.

(** Pages of a list whose cursors name the last row they hold. *)
Lemma browse_all {S R A} (f : R → A) (token : R → string) (limit : nat) (page : option string → M S (Page A)) (all : list R) (s : S) :
  (0 < limit)%nat →
  (∀ pre post, all = pre ++ post →
     ∃ c n, page (token <$> last pre) s =
       (Ret (mkPage (f <$> take limit post) c n
          (if (length (take limit post) =? limit)%nat then token <$> last (take limit post) else None)), s)) →
  ∀ fuel, (length all < fuel)%nat → browse fuel page None s = (Ret (Some (f <$> all)), s).
Proof.
  intros Hlimit Hpage. enough (∀ fuel pre post, all = pre ++ post → (length post < fuel)%nat →
    browse fuel page (token <$> last pre) s = (Ret (Some (f <$> post)), s)) as H by (intros fuel; apply (H fuel [] all); done).
  induction fuel as [|fuel IH]; intros pre post E Hf; [lia|]. cbn [browse]. rewrite run_bind.
  destruct (Hpage pre post E) as (c & n & ->). cbn [next_cursor items].
  destruct (Nat.eqb_spec (length (take limit post)) limit) as [Hfull|Hpart].
  - destruct (last (take limit post)) as [x|] eqn:Hl; cbn [fmap option_fmap option_map].
    + rewrite run_bind. assert (Some (token x) = token <$> last (pre ++ take limit post)) as -> by by rewrite last_app Hl.
      rewrite (IH (pre ++ take limit post) (drop limit post)).
      * rewrite run_ret. cbn [fmap option_fmap option_map]. by rewrite -fmap_app take_drop.
      * by rewrite -app_assoc take_drop.
      * rewrite length_drop. rewrite length_take in Hfull. lia.
    + apply last_None in Hl. rewrite Hl in Hfull. cbn in Hfull. lia.
  - rewrite run_ret take_ge //. rewrite length_take in Hpart. lia.
Qed.

Section facts.
Context `{Env} `{Jwt} (settings : HttpSettings).
Context {C : Type} `{PrincipalCachePort C} {L Q : Type}.
Context (recursion_limit : nat) (session_utcoffset : Z).
Implicit Types (w : World) (a : App C L) (q : Q).

Abbreviation db_datetime := (db_datetime session_utcoffset).
Abbreviation list_users := (admin_list_users (C:=C) (L:=L) (Q:=Q) recursion_limit session_utcoffset).
Abbreviation list_events := (admin_list_audit_events (C:=C) (L:=L) (Q:=Q) recursion_limit session_utcoffset).

(** *** Both routes read through the same steps *)

Lemma on_app_read {A} (m : IO A) x a q : m (world a) = (Ret x, world a) → on_app (on_world m) (a, q) = (Ret x, (a, q)) :> outcome A * (App C L * Q).
Proof. intros E. unfold on_app, on_fst, on_world. cbn [fst snd]. rewrite E. by destruct a. Qed.

(** The cursor of a row as the route writes it, and what the next request makes of it. *)
Definition token {R} (k : uuid * R → time * uuid) (ir : uuid * R) : string := encode_cursor (db_datetime (k ir).1) (k ir).2.

Definition row_ok (key : time * uuid) : Prop := datetime_valid (db_datetime key.1) = true ∧ uuid_ok key.2.

Lemma decode_token {R} (k : uuid * R → time * uuid) refused ir a q :
  (0 < recursion_limit)%nat → row_ok (k ir) →
  decode_or_refuse recursion_limit session_utcoffset refused (Some (token k ir)) (a, q) = (Ret (Some (k ir)), (a, q)).
Proof.
  intros Hlimit [Hd Hi]. unfold decode_or_refuse, token. rewrite run_bind. unfold try_except.
  rewrite decode_encode_cursor //. unfold db_instant, Listing.db_datetime, at_offset. cbn. rewrite run_ret.
  destruct (k ir). cbn. do 4 f_equal. lia.
Qed.

Lemma decode_page {R} (k : uuid * R → time * uuid) refused pre a q :
  (0 < recursion_limit)%nat → Forall (λ ir, row_ok (k ir)) pre →
  decode_or_refuse recursion_limit session_utcoffset refused (token k <$> last pre) (a, q) = (Ret (k <$> last pre), (a, q)).
Proof.
  intros Hlimit Hpre. destruct (last pre) as [ir|] eqn:Hl; [|done]. apply decode_token; [done|].
  apply last_Some in Hl as [l ->]. by apply Forall_app in Hpre as [_ [? _]%Forall_cons].
Qed.

Lemma page_of_rows {R B A} (f : B → A) (key : B → time * uuid) (g : uuid * R → B) (k : uuid * R → time * uuid) limit l :
  (∀ ir, key (g ir) = k ir) → 1 <= limit →
  page_of session_utcoffset f key (g <$> l) limit =
    mkPage ((f ∘ g) <$> l) (Z.of_nat (length l)) limit (if (length l =? Z.to_nat limit)%nat then token k <$> last l else None).
Proof.
  intros Hk Hlimit. unfold page_of. change (map f (g <$> l)) with (f <$> (g <$> l)).
  rewrite -list_fmap_compose !length_fmap. f_equal.
  destruct (Z.eqb_spec (Z.of_nat (length l)) limit) as [E|E], (Nat.eqb_spec (length l) (Z.to_nat limit)) as [E'|E']; [|lia|lia|done].
  rewrite fmap_last. destruct (last l) as [ir|]; [|done]. cbn. unfold token. by rewrite Hk.
Qed.

(** *** The users *)

Lemma list_users_page limit pre post a q :
  1 <= limit <= 500 → (0 < recursion_limit)%nat → Forall (λ ir, row_ok (user_key ir)) pre →
  all_users (users (w_db (world a))) = pre ++ post →
  ∃ c n, list_users (token user_key <$> last pre) limit (a, q) =
    (Ret (mkPage (UserSchemas.model_validate ∘ to_domain <$> take (Z.to_nat limit) post) c n
       (if (length (take (Z.to_nat limit) post) =? Z.to_nat limit)%nat then token user_key <$> last (take (Z.to_nat limit) post) else None)),
     (a, q)).
Proof.
  intros Hlimit Hrec Hpre E. unfold admin_list_users. rewrite run_bind (decode_page user_key) // run_bind.
  unfold ListUsers.execute, ListUsers.bounded_limit. rewrite (_ : 1 `max` (limit `min` 500) = limit); [|lia].
  erewrite on_app_read; [|rewrite run_bind run_list_paginated (user_page_at _ pre post) //].
  cbn [match_user]. rewrite run_ret. erewrite page_of_rows; [by do 2 eexists|by intros []|lia].
Qed.

(** *** The audit log *)

Definition all_events (user_id : option uuid) (event_type : option string) (since : option datetime) (m : gmap uuid AuditRow) :
    list (uuid * AuditRow) :=
  reverse (rows AuthRepository.audit_key
    (AuthRepository.audit_matches user_id event_type (db_instant session_utcoffset <$> since) None) m).

Lemma run_list_events user_id event_type since before limit w :
  ListAuditEvents.execute user_id event_type since before limit w =
    (Ret (Ok (Store.limit (1 `max` (limit `min` 500)) (reverse (order_by AuthRepository.audit_key
       (select_where (AuthRepository.audit_matches user_id event_type since before) (audit_events (w_db w))))))), w).
Proof.
  unfold ListAuditEvents.execute, AuthRepository.list_audit_events. rewrite run_bind.
  match goal with |- context [with_session (sess ?f) _] => by rewrite (run_with_session_read (sess f) f) end.
Qed.

Lemma list_events_page user_id event_type since limit pre post a q :
  1 <= limit <= 500 → (0 < recursion_limit)%nat → Forall (λ ir, row_ok (AuthRepository.audit_key ir)) pre →
  all_events user_id event_type since (audit_events (w_db (world a))) = pre ++ post →
  ∃ c n, list_events user_id event_type since (token AuthRepository.audit_key <$> last pre) limit (a, q) =
    (Ret (mkPage (audit_event_read <$> take (Z.to_nat limit) post) c n
       (if (length (take (Z.to_nat limit) post) =? Z.to_nat limit)%nat
        then token AuthRepository.audit_key <$> last (take (Z.to_nat limit) post) else None)), (a, q)).
Proof.
  intros Hlimit Hrec Hpre E. unfold admin_list_audit_events. rewrite run_bind (decode_page AuthRepository.audit_key) // run_bind.
  erewrite on_app_read; [|apply run_list_events]. cbv beta iota. rewrite run_ret.
  rewrite (_ : 1 `max` (limit `min` 500) = limit); [|lia]. set (since' := db_instant _ <$> since) in *.
  assert (Store.limit limit (reverse (order_by AuthRepository.audit_key
    (select_where (AuthRepository.audit_matches user_id event_type since' (AuthRepository.audit_key <$> last pre))
       (audit_events (w_db (world a)))))) = take (Z.to_nat limit) post) as ->.
  { unfold Store.limit. f_equal.
    unfold all_events in E. fold since' in E. set (P := AuthRepository.audit_matches user_id event_type since' None) in *.
    destruct (last pre) as [ir|] eqn:Hl; cbn [fmap option_fmap option_map].
    - apply last_Some in Hl as [pre' ->]. rewrite -app_assoc in E. cbn [app] in E.
      apply (f_equal reverse) in E. rewrite reverse_involutive reverse_app reverse_cons -app_assoc in E. cbn [app] in E.
      apply (rows_before AuthRepository.audit_key (λ _, eq_refl)) in E.
      rewrite -(reverse_involutive post) -E. f_equal. unfold rows. f_equal. unfold select_where. apply list_filter_iff.
      intros [i r]. unfold P, AuthRepository.audit_matches. cbn [fst snd]. by rewrite andb_true_r.
    - apply last_None in Hl as ->. by rewrite app_nil_l in E. }
  rewrite -{1}(list_fmap_id (take _ post)). erewrite page_of_rows; [by do 2 eexists|by intros []|lia].
Qed.

(** The cursor of any row can be written and read: what Python can represent. *)
Definition stored_ok {R} (k : uuid * R → time * uuid) (m : gmap uuid R) : Prop := map_Forall (λ i r, row_ok (k (i, r))) m.

Lemma stored_ok_list {R} (k : uuid * R → time * uuid) (m : gmap uuid R) l :
  stored_ok k m → (∀ ir, ir ∈ l → ir ∈ map_to_list m) → Forall (λ ir, row_ok (k ir)) l.
Proof. intros Hm Hl. apply Forall_forall. intros [i r] Hin%Hl. apply elem_of_map_to_list in Hin. by apply (Hm i r). Qed.

(** C14. An administrator who follows [next_cursor] (or [next_before]) from the first
    page, with any page size, gets every account once in the order of creation, or
    every matching audit event once, newest first; the last page has no cursor, and
    the walk ends.  The tokens go through JSON, base64 and the decoder. *)
Theorem browsing_is_complete user_id event_type since limit fuel a q :
  1 <= limit <= 500 → (0 < recursion_limit)%nat →
  stored_ok user_key (users (w_db (world a))) → stored_ok AuthRepository.audit_key (audit_events (w_db (world a))) →
  (size (users (w_db (world a))) < fuel)%nat → (size (audit_events (w_db (world a))) < fuel)%nat →
  browse fuel (λ cursor, list_users cursor limit) None (a, q) =
    (Ret (Some (UserSchemas.model_validate ∘ to_domain <$> all_users (users (w_db (world a))))), (a, q)) ∧
  all_users (users (w_db (world a))) ≡ₚ map_to_list (users (w_db (world a))) ∧
  browse fuel (λ before, list_events user_id event_type since before limit) None (a, q) =
    (Ret (Some (audit_event_read <$> all_events user_id event_type since (audit_events (w_db (world a))))), (a, q)) ∧
  (∀ i r, (i, r) ∈ all_events user_id event_type since (audit_events (w_db (world a))) ↔
     audit_events (w_db (world a)) !! i = Some r ∧
     AuthRepository.audit_matches user_id event_type (db_instant session_utcoffset <$> since) None i r = true).
Proof.
  intros Hlimit Hrec Hu He Hfu Hfe.
  assert (∀ i r, (i, r) ∈ all_events user_id event_type since (audit_events (w_db (world a))) ↔
    audit_events (w_db (world a)) !! i = Some r ∧
    AuthRepository.audit_matches user_id event_type (db_instant session_utcoffset <$> since) None i r = true) as Hev.
  { intros i r. unfold all_events, rows. by rewrite elem_of_reverse elem_of_order_by elem_of_select_where. }
  split_and!; [|apply order_by_perm| |done].
  - apply (browse_all _ (token user_key) (Z.to_nat limit)); [lia| |by unfold all_users; rewrite order_by_perm length_map_to_list].
    intros pre post E. apply list_users_page; [done..| |done]. apply (stored_ok_list _ _ _ Hu). intros ir Hin.
    assert (ir ∈ all_users (users (w_db (world a)))) as Hin' by (rewrite E; set_solver). unfold all_users in Hin'. by rewrite order_by_perm in Hin'.
  - apply (browse_all _ (token AuthRepository.audit_key) (Z.to_nat limit)); [lia| |].
    + intros pre post E. apply list_events_page; [done..| |done]. apply (stored_ok_list _ _ _ He). intros [i r] Hin.
      apply elem_of_map_to_list. apply (Hev i r). rewrite E. set_solver.
    + unfold all_events, rows. rewrite length_reverse order_by_perm. unfold select_where.
      eapply Nat.le_lt_trans; [apply length_filter|]. by rewrite length_map_to_list.
Qed.

(** *** Who gets a page *)

Definition listing_token (e : listing_endpoint) : option string :=
  match e with GET_admin_users cursor _ => cursor | GET_admin_audit_log _ _ _ before _ => before end.

Lemma decode_anywhere {S} t (s : S) : decode_cursor recursion_limit t s = ((decode_cursor recursion_limit t tt).1, s).
Proof.
  unfold decode_cursor, lift, raise. destruct (String.eqb t ""); [done|]. case_match; [|done]. rewrite !run_bind.
  repeat (case_match; try done).
Qed.

(** The answer to an administrator: a page, or what the decoder makes of the token. *)
Definition listing_answer (e : listing_endpoint)
    (resp : Page UserSchemas.UserPublic + Page AuditEventRead + Problem) : Prop :=
  match (λ t, (decode_cursor recursion_limit t tt).1) <$> listing_token e with
  | None | Some (Ret _) => ∃ page, resp = inl page
  | Some (Raise (InvalidCursorError what)) =>
      ∃ problem, resp = inr problem ∧ pr_status problem = 400 ∧ pr_detail problem = Some what
  | Some (Raise _) => ∃ problem, resp = inr problem ∧ pr_status problem = 500
  end.

(** What a handler that reads after decoding its token does. *)
Definition answers {A} (e : listing_endpoint) (request : Request) (o : outcome A) : Prop :=
  match (λ t, (decode_cursor recursion_limit t tt).1) <$> listing_token e with
  | None | Some (Ret _) => ∃ page, o = Ret page
  | Some (Raise (InvalidCursorError what)) =>
      ∃ x, o = Raise x ∧ pr_status (exception_handler request x).1 = 400 ∧ pr_detail (exception_handler request x).1 = Some what
  | Some (Raise _) => ∃ x, o = Raise x ∧ pr_status (exception_handler request x).1 = 500
  end.

Lemma decode_or_refuse_answers {A} e request refused (k : option (time * uuid) → M (App C L * Q) A) s :
  (∀ what, pr_status (exception_handler request (refused what)).1 = 400 ∧ pr_detail (exception_handler request (refused what)).1 = Some what) →
  (∀ c s, ∃ x, k c s = (Ret x, s)) →
  ∃ o, (decode_or_refuse recursion_limit session_utcoffset refused (listing_token e) ≫= k) s = (o, s) ∧ answers e request o.
Proof.
  intros Hrefused Hk. rewrite run_bind. unfold answers, decode_or_refuse. destruct (listing_token e) as [t|]; cbn [fmap option_fmap option_map].
  2: { destruct (Hk None s) as [x E]. exists (Ret x). split; [exact E|by eexists]. }
  rewrite run_bind. unfold try_except. rewrite decode_anywhere.
  pose proof (decode_cursor_total recursion_limit t tt) as (r & Er & Hr). rewrite Er. cbn [fst].
  destruct r as [[d i]|x].
  - rewrite run_ret. destruct (Hk (Some (db_instant session_utcoffset d, i)) s) as [x E]. exists (Ret x). split; [exact E|by eexists].
  - destruct Hr as [[what ->]|[[what ->]| ->]]; (eexists; split; [done|]); eexists; by split.
Qed.

(** C26. Only an administrator is shown accounts or audit events: any other request is
    answered 401 or 403. An administrator's request is answered with a page, with 400
    and the decoder's reason when the decoder refuses the token as no cursor, and with
    500 when the JSON parser fails on the token instead (nesting beyond the recursion
    limit, an integer of more than 4300 digits), contrary to the decoder's docstring.
    No request changes a row. *)
Theorem listings_are_for_admins e request a q :
  (∃ key, auth_jwt_secret_key (auth_settings settings) = Some key ∧ key ≠ "") → cache_ok (principal_cache a) →
  let '(resp, (a', q')) := listing_serve settings recursion_limit session_utcoffset e request (a, q) in
  q' = q ∧ w_db (world a') = w_db (world a) ∧
  ((∃ p, caller settings request a p ∧ is_admin (p_user_id p) (w_db (world a)) = true ∧ listing_answer e resp) ∨
   (∃ problem, resp = inr problem ∧ (pr_status problem = 401 ∨ pr_status problem = 403) ∧
      ∀ p, caller settings request a p → is_admin (p_user_id p) (w_db (world a)) = false)).
Proof.
  intros Hkey Hc. set (a0 := mkApp (world a) (principal_cache a) (limiters a) [] None).
  destruct (run_current_principal settings request a0 q Hkey Hc) as (o & a1 & E & [Hdb _] & Ho).
  assert (∃ action (B : Type) (k : option (time * uuid) → M (App C L * Q) B) refused (wrap : B → Page UserSchemas.UserPublic + Page AuditEventRead),
    relations_for system_registry "system" action = Ret ({[ "admin" ]} : gset string) ∧
    listing_route settings recursion_limit session_utcoffset e request =
      (require_system_authorization settings action request ;;
       page ← (decode_or_refuse recursion_limit session_utcoffset refused (listing_token e) ≫= k);
       mret (wrap page)) ∧
    (∀ what, pr_status (exception_handler request (refused what)).1 = 400 ∧ pr_detail (exception_handler request (refused what)).1 = Some what) ∧
    (∀ c s, ∃ x, k c s = (Ret x, s))) as (action & B & k & refused & wrap & Haction & Hroute & Hrefused & Hk).
  { destruct e as [cursor limit|uid et since before limit]; eexists _, _, _, _, _; (split; [|split; [reflexivity|split]]).
    - reflexivity.
    - done.
    - intros c [a2 q2]. rewrite run_bind. unfold ListUsers.execute. erewrite on_app_read; [|by rewrite run_bind run_list_paginated]. by eexists.
    - reflexivity.
    - done.
    - intros c [a2 q2]. rewrite run_bind. erewrite on_app_read; [|apply run_list_events]. by eexists. }
  unfold listing_serve. rewrite Hroute. fold a0. unfold require_system_authorization. rewrite run_bind run_bind E.
  destruct o as [p|x]; cbn [mbind].
  2: { destruct Ho as [-> Hno]. split_and!; [done..|]. right. eexists. split; [done|]. split; [by left|]. intros p Hp. by destruct (Hno p). }
  rewrite run_bind. rewrite (on_app_read _ (Some (is_admin (p_user_id p) (w_db (world a1))))); [|by apply run_check_system_action].
  rewrite Hdb. destruct (is_admin (p_user_id p) (w_db (world a0))) eqn:Ha.
  - rewrite bool_decide_eq_true_2 //. cbn [negb]. rewrite run_ret run_bind.
    destruct (decode_or_refuse_answers e request refused k (a1, q) Hrefused Hk) as (o & -> & Hans).
    assert (∀ (resp : Page UserSchemas.UserPublic + Page AuditEventRead + Problem),
      resp = match o with Ret x => inl (wrap x) | Raise x => inr (exception_handler request x).1 end → listing_answer e resp) as Hresp.
    { intros resp ->. unfold listing_answer, answers in *. repeat case_match; naive_solver. }
    destruct o as [x|x]; (split_and!; [done..|]; left; exists p; split_and!; [done..|]; by apply Hresp).
  - rewrite bool_decide_eq_false_2 //. cbn [negb]. split_and!; [done..|]. right. eexists. split; [done|]. split; [by right|].
    intros p' Hp'. by rewrite (caller_unique settings request a p' p).
Qed.
End facts.

(** ** Evaluated *)

(** Ada is made an administrator and logs in; Bob registers. *)
Definition demo_granted_admin : World :=
  state_of (write_relationships engine_scopes [BootstrapSystemAdmin.admin_tuple 1000];;
            RegisterUser.execute "bob@example.com" "Correct-horse-2" None None) demo_registered.
Definition demo_admin_login := LoginUser.execute demo_settings "ada@example.com" "Correct-horse-1" None None demo_granted_admin.
Definition demo_admin_request : Request :=
  mkRequest "/admin/users" "https://api.example.com/admin/users" None ∅ ∅
    (Some (match demo_admin_login.1 with Ret (Ok (issued, _)) => access_token issued | _ => "" end)) None.
Definition demo_admin_site := (demo_app demo_admin_login.2, tt).

(** Pages of one account, and of two of the three audit events, over sessions at UTC+2. *)
Lemma browsing_is_complete_witness :
  ∃ us es,
    browse 10 (λ cursor, admin_list_users 100 (7200 * second) cursor 1) None demo_admin_site = (Ret (Some us), demo_admin_site) ∧
    browse 10 (λ before, admin_list_audit_events 100 (7200 * second) None None None before 2) None demo_admin_site = (Ret (Some es), demo_admin_site) ∧
    length us = 2%nat ∧ length es = 3%nat.
Proof.
  destruct (browsing_is_complete 100 (7200 * second) None None None 1 10 demo_admin_site.1 tt) as (Hu & _ & _);
    [lia|lia|unfold stored_ok, row_ok, uuid_ok; by_eval|unfold stored_ok, row_ok, uuid_ok; by_eval|vm_compute; lia|vm_compute; lia|].
  destruct (browsing_is_complete 100 (7200 * second) None None None 2 10 demo_admin_site.1 tt) as (_ & _ & He & _);
    [lia|lia|unfold stored_ok, row_ok, uuid_ok; by_eval|unfold stored_ok, row_ok, uuid_ok; by_eval|vm_compute; lia|vm_compute; lia|].
  do 2 eexists. split_and!; [exact Hu|exact He|vm_compute; reflexivity|vm_compute; reflexivity].
Defined.

(** Ada's listing, and the answer to a token that is no base64. *)
Lemma listings_are_for_admins_witness :
  let '(resp, (a', q')) := listing_serve demo_http 100 (7200 * second) (GET_admin_users (Some "!") 1) demo_admin_request demo_admin_site in
  q' = tt ∧ w_db (world a') = w_db (world demo_admin_site.1) ∧ (∃ problem, resp = inr problem ∧ pr_status problem = 400) ∧
  ((∃ p, caller demo_http demo_admin_request demo_admin_site.1 p ∧ is_admin (p_user_id p) (w_db (world demo_admin_site.1)) = true ∧
      listing_answer 100 (GET_admin_users (Some "!") 1) resp) ∨
   (∃ problem, resp = inr problem ∧ (pr_status problem = 401 ∨ pr_status problem = 403) ∧
      ∀ p, caller demo_http demo_admin_request demo_admin_site.1 p → is_admin (p_user_id p) (w_db (world demo_admin_site.1)) = false)).
Proof.
  pose proof (listings_are_for_admins demo_http 100 (7200 * second) (GET_admin_users (Some "!") 1) demo_admin_request demo_admin_site.1 tt) as Hw.
  assert (Hs : match (listing_serve demo_http 100 (7200 * second) (GET_admin_users (Some "!") 1) demo_admin_request demo_admin_site).1 with
               | inr problem => pr_status problem = 400 | inl _ => False end) by (vm_compute; reflexivity).
  change (demo_admin_site.1, tt) with demo_admin_site in Hw.
  destruct (listing_serve _ _ _ _ _ _) as [resp [a' q']]. cbn [fst] in Hs.
  destruct Hw as (Hq & Hdb & Hv); [exists "secret"; split; [reflexivity|discriminate]| |].
  - intros k p Hk. vm_compute in Hk. discriminate Hk.
  - split; [exact Hq|]. split; [exact Hdb|]. split; [|exact Hv]. destruct resp as [|problem]; [destruct Hs|]. exists problem. split; [reflexivity|exact Hs].
Defined.
