(* ===== verification/Export.v ===== *)
(** The data export of the users feature
    ([features/users/application/use_cases/export_user_data.py]), the audit reader of
    the authentication feature that it uses, and its two routes. *)

From Stdlib Require Import String.
From S2P Require Import Prelude PyStr Uuid Json Calendar Store Users Principals AuthRepo Files Http AuthHttp UsersHttp.
Open Scope string_scope.
Open Scope list_scope.
Open Scope Z_scope.

Definition _EXPORT_URL_TTL_SECONDS : Z := 900.
Definition _DEFAULT_EXPORT_LIMIT : Z := 500.

(** What the use case can return as an error. *)
Inductive ExportError :=
  | ExportUserError (error : UserError)
  | StorageWriteFailed (reason : string)
  | SignedUrlFailed (reason : string).

Record ExportContract := mkContract { download_url : string; contract_expires_at : time }.

Section export.
Context `{Env} {F : Type} `{FileStoragePort F}.
(** The offset of the time zone of the database sessions, in which the driver returns
    timestamps. *)
Context (session_utcoffset : Z).

Abbreviation Exporting := (M (World * F)).

Definition stored_isoformat (t : time) : json := JStr (isoformat (at_offset t session_utcoffset)).
Definition opt_json {A} (f : A → json) (x : option A) : json := match x with Some a => f a | None => JNull end.

(** ** [SQLModelUserAuditReaderAdapter] *)

Definition _to_jsonable (event : AuditEvent) : json :=
  JObj [("id", JStr (uuid_str event.1)); ("user_id", opt_json (JStr ∘ uuid_str) (ae_user_id event.2));
        ("event_type", JStr (ae_event_type event.2)); ("ip_address", opt_json JStr (ae_ip_address event.2));
        ("user_agent", opt_json JStr (ae_user_agent event.2)); ("metadata", JObj (map_to_list (ae_metadata event.2)));
        ("created_at", stored_isoformat (ae_created_at event.2))].

Definition list_for_user (user_id : uuid) : IO (list json) :=
  events ← AuthRepository.list_audit_events (Some user_id) None None None _DEFAULT_EXPORT_LIMIT;
  mret (map _to_jsonable events).

(** ** [ExportUserData] *)

(** A backend that cannot list leaves the files out. *)
Definition _list_user_files (user_id : uuid) : M F (list json) :=
  result ← storage_list (user_prefix user_id);
  match result with
  | Err _ => mret []
  | Ok keys => mret (map (λ k, JObj [("key", JStr k)]) keys)
  end.

Definition _build_export_payload (user : User) (audit_events file_keys : list json) (now : time) : json :=
  JObj [("user", JObj [("id", JStr (uuid_str (u_id user))); ("email", JStr (u_email user));
                       ("is_active", JBool (u_is_active user)); ("is_verified", JBool (u_is_verified user));
                       ("created_at", stored_isoformat (u_created_at user)); ("updated_at", stored_isoformat (u_updated_at user));
                       ("last_login_at", opt_json stored_isoformat (u_last_login_at user))]);
        ("profile", JObj [("email", JStr (u_email user))]);
        ("audit_events", JList audit_events);
        ("files", JList file_keys);
        ("exported_at", JStr (isoformat (at_offset now 0)))].

(** [json.dumps(blob, sort_keys=True)]; [default=str] has nothing to do. *)
Definition export_options : DumpOptions := mkDump ", " ": " true.
Definition export_prefix (user_id : uuid) : string := "exports/" +:+ uuid_str user_id +:+ "/".

Definition execute (user_id : uuid) : Exporting (Result ExportContract ExportError) :=
  existing ← on_fst (EngineUsers.get_raw_by_id user_id);
  match existing with
  | None => mret (Err (ExportUserError UserNotFoundError))
  | Some existing =>
      audit_events ← on_fst (list_for_user user_id);
      file_keys ← on_snd (_list_user_files user_id);
      exported_at ← on_fst utc_now;
      let content := dumps export_options (_build_export_payload existing audit_events file_keys exported_at) in
      blob_id ← on_fst uuid4;
      let key := export_prefix user_id +:+ uuid_str blob_id +:+ ".json" in
      put_result ← on_snd (storage_put key content "application/json");
      match put_result with
      | Err error => mret (Err (StorageWriteFailed (storage_error_str error)))
      | Ok _ =>
          url_result ← on_snd (storage_signed_url key _EXPORT_URL_TTL_SECONDS);
          match url_result with
          | Err error => mret (Err (SignedUrlFailed (storage_error_str error)))
          | Ok url =>
              now ← on_fst utc_now;
              expires_at ← datetime_add now (_EXPORT_URL_TTL_SECONDS * second);
              mret (Ok (mkContract url expires_at))
          end
      end
  end.
End export.

(** ** The routes *)

Definition export_error_str (e : ExportError) : string :=
  match e with
  | ExportUserError _ => ""
  | StorageWriteFailed reason => "Export storage write failed: " +:+ reason
  | SignedUrlFailed reason => "Export signed-url issuance failed: " +:+ reason
  end.

(** [raise_http_from_user_error], with its fallback for other subclasses. *)
Definition raise_http_from_export_error {S A} (exc : ExportError) : M S A :=
  match exc with
  | ExportUserError exc => raise_http_from_user_error exc
  | exc => raise (app_error 400 (export_error_str exc) "user_error" ProblemType.ABOUT_BLANK [])
  end.

Section routes.
Context `{Env} `{Jwt} (settings : HttpSettings).
Context {C : Type} `{PrincipalCachePort C} {L Q F : Type} `{FileStoragePort F}.
Context (session_utcoffset : Z).

Abbreviation Site := (App C L * Q)%type.
Abbreviation Handler := (M (Site * F)).

Definition on_export {A} (m : M (World * F) A) : Handler A := λ s,
  let '((a, q), f) := s in
  let '(r, (w, f)) := m (world a, f) in
  (r, ((mkApp w (principal_cache a) (limiters a) (response_cookies a) (actor_id a), q), f)).

(** The pipeline is always wired by the process entry points. *)
Definition export_response (user_id : uuid) : Handler ExportContract :=
  result ← on_export (execute session_utcoffset user_id);
  match result with
  | Ok contract => mret contract
  | Err err => raise_http_from_export_error err
  end.
Definition export_me (principal : Principal) : Handler ExportContract := export_response (p_user_id principal).
Definition admin_export_user (user_id : uuid) : Handler ExportContract := export_response user_id.

Inductive export_endpoint := GET_me_export | GET_admin_export (user_id : uuid).

Definition export_route (e : export_endpoint) (request : Request) : Handler ExportContract :=
  match e with
  | GET_me_export => principal ← on_fst (platform_current_principal settings request); export_me principal
  | GET_admin_export user_id =>
      on_fst (require_system_authorization settings "manage_users" request) ;;
      admin_export_user user_id
  end.

Definition export_serve (e : export_endpoint) (request : Request) (s : Site * F) : (ExportContract + Problem) * (Site * F) :=
  let '((a, q), f) := s in
  match export_route e request ((mkApp (world a) (principal_cache a) (limiters a) [] None, q), f) with
  | (Ret contract, s) => (inl contract, s)
  | (Raise e, s) => (inr (exception_handler request e).1, s)
  end.
End routes.
