(* ===== verification/ExportFacts.v ===== *)
(** An export is a JSON document of one account's rows and of nothing else, whatever
    backend stores it; and the clean-up of the account does not delete it. *)

From Stdlib Require Import Ascii String.
From S2P Require Import Prelude PyStr Uuid Json JsonFacts Calendar CalendarFacts Cursor CursorFacts Store StoreFacts Demo Users UsersFacts Authz AuthzFacts AuthRepo AuthRepoFacts Principals DemoAuth PrincipalsFacts Auth Gdpr GdprFacts RefreshFamilies Files FilesFacts Http AuthHttp AuthHttpFacts UsersHttp UsersHttpFacts ListingFacts Export.
Open Scope string_scope.
Open Scope list_scope.
Open Scope Z_scope.

Lemma prefix_app s t : String.prefix s (s +:+ t) = true.
Proof. induction s as [|c s IH]; [by destruct t|]. rewrite app_cons. cbn. by destruct (ascii_dec c c). Qed.

Section facts.
Context `{Env} {F : Type} `{FileStorageLaws F} (session_utcoffset : Z).
Implicit Types (w : World) (f : F).

Abbreviation to_jsonable := (_to_jsonable session_utcoffset).
Abbreviation stored_isoformat := (stored_isoformat session_utcoffset).

(** ** The document *)

Definition file_entry (k : string) : json := JObj [("key", JStr k)].
(** The newest events recorded of an account, as many as a document holds. *)
Definition exported_events (user_id : uuid) (d : Db) : list AuditEvent :=
  take 500 (all_events session_utcoffset (Some user_id) None None (audit_events d)).
Definition export_document (user : User) (events : list AuditEvent) (files : list string) (now : time) : json :=
  _build_export_payload session_utcoffset user (map to_jsonable events) (map file_entry files) now.

(** What JSON text can carry: no lone surrogates, and metadata of [depth] levels. *)
Definition opt_text (x : option string) : Prop := match x with Some s => is_text s | None => True end.
Definition event_printable (depth : nat) (e : AuditEvent) : Prop :=
  is_text (ae_event_type e.2) ∧ opt_text (ae_ip_address e.2) ∧ opt_text (ae_user_agent e.2) ∧
  map_Forall (λ k v, is_text k ∧ printable depth v) (ae_metadata e.2).

Lemma ascii_text s : str_forall is_ascii s = true → is_text s.
Proof. apply is_text_ascii. Qed.
Lemma uuid_text u : is_text (uuid_str u).
Proof. apply ascii_text, uuid_str_ascii. Qed.
Lemma iso_text t : is_text (isoformat t).
Proof. apply ascii_text, isoformat_ascii. Qed.
Lemma str_printable depth s : is_text s → printable depth (JStr s).
Proof. by destruct depth. Qed.
Lemma bool_printable depth b : printable depth (JBool b).
Proof. by destruct depth. Qed.
Lemma opt_printable {A} depth (g : A → json) x : (∀ a, x = Some a → printable depth (g a)) → printable depth (opt_json g x).
Proof. intros Hx. destruct x as [a|]; [by apply Hx|by destruct depth]. Qed.

(** An object whose keys are written in the program. *)
Lemma object_printable depth d :
  bool_decide (NoDup (dict_keys d)) = true → Forall (λ kv, str_forall is_ascii kv.1 = true ∧ printable depth kv.2) d →
  printable (S depth) (JObj d).
Proof.
  intros Hnd Hd. split; [by apply bool_decide_eq_true in Hnd|]. eapply Forall_impl; [done|].
  intros kv [Hk Hv]. split; [by apply ascii_text|done].
Qed.
Ltac solve_object :=
  apply object_printable; [vm_compute; reflexivity|];
  repeat (apply Forall_cons_2; [split; [reflexivity|cbn [snd]]|]); [..|apply Forall_nil_2].
#[local] Hint Resolve str_printable bool_printable uuid_text iso_text : export.

Lemma event_ok depth e : event_printable depth e → printable (S (S depth)) (to_jsonable e).
Proof.
  intros (Ht & Hip & Hua & Hm). unfold _to_jsonable. solve_object; try (by eauto with export).
  - apply opt_printable. intros u _. apply str_printable, uuid_text.
  - apply opt_printable. intros s E. rewrite E in Hip. by apply str_printable.
  - apply opt_printable. intros s E. rewrite E in Hua. by apply str_printable.
  - split; [apply NoDup_fst_map_to_list|]. apply Forall_forall. intros [k v] Hin%elem_of_map_to_list. by apply (Hm k v).
  - apply str_printable, iso_text.
Qed.

Lemma entry_ok depth k : is_text k → printable (S depth) (file_entry k).
Proof. intros Hk. unfold file_entry. solve_object. by apply str_printable. Qed.

Lemma document_ok depth user events files now :
  is_text (u_email user) → Forall (event_printable depth) events → Forall is_text files →
  printable (S (S (S (S depth)))) (export_document user events files now).
Proof.
  intros Hu He Hf. unfold export_document, _build_export_payload. solve_object.
  - solve_object; try (by eauto with export); [apply str_printable, iso_text..|].
    apply opt_printable. intros t _. apply str_printable, iso_text.
  - solve_object. by apply str_printable.
  - apply Forall_map. eapply Forall_impl; [done|]. intros e. apply event_ok.
  - apply Forall_map. eapply Forall_impl; [done|]. intros k. apply (entry_ok (S depth)).
  - apply str_printable, iso_text.
Qed.

(** ** The run *)

Lemma run_list_for_user i w :
  list_for_user session_utcoffset i w = (Ret (map to_jsonable (exported_events i (w_db w))), w).
Proof.
  unfold list_for_user, exported_events, all_events, rows. rewrite run_bind. unfold AuthRepository.list_audit_events.
  match goal with |- context [with_session (sess ?g) _] => by rewrite (run_with_session_read (sess g) g) end.
Qed.

Lemma exported_events_of i d : Forall (λ e, ae_user_id e.2 = Some i) (exported_events i d).
Proof.
  apply Forall_take, Forall_forall. intros [j r]. unfold all_events, rows. rewrite elem_of_reverse elem_of_order_by elem_of_select_where.
  intros [_ Hm]. unfold AuthRepository.audit_matches in Hm. rewrite !andb_true_iff bool_decide_eq_true in Hm. cbn. tauto.
Qed.

(** The files a document names: the keys the backend lists under the account's prefix,
    which are the account's, or none when the backend says it cannot list. *)
Definition files_listed i f (files : list string) : Prop :=
  match (storage_list (user_prefix i) f).1 with
  | Ret (Ok keys) => files = keys ∧ ∀ k, k ∈ files ↔ k ∈ storage_keys f ∧ owned_by i k
  | _ => files = []
  end.
Lemma files_listed_keys i f files k : files_listed i f files → k ∈ files → k ∈ storage_keys f.
Proof.
  unfold files_listed. destruct (storage_list _ f).1 as [[keys|e]|e]; [|by intros -> ?%not_elem_of_nil..].
  intros [_ Hf] Hk. by apply Hf.
Qed.

Lemma run_list_user_files i f :
  storage_ok f → ∃ files f', _list_user_files i f = (Ret (map file_entry files), f') ∧ storage_ok f' ∧
    storage_keys f' = storage_keys f ∧ (∀ k, storage_at f' k = storage_at f k) ∧ files_listed i f files.
Proof.
  intros Hok. unfold _list_user_files, files_listed. rewrite run_bind. destruct (list_law (user_prefix i) f Hok) as (r & f' & -> & Hok' & Hk & Ha & Hr).
  destruct r as [keys|e]; [exists keys, f'|exists [], f']; by split_and!.
Qed.

(** The blob of one run: its key, and where in the run it was made. *)
Definition blob_of i w f (key content : string) : Prop :=
  ∃ row files now, users (w_db w) !! i = Some row ∧ files_listed i f files ∧
    key = export_prefix i +:+ uuid_str (uuid4_at (w_uuids w)) +:+ ".json" ∧ now = now_at (w_clock w) ∧
    content = dumps export_options (export_document (to_domain (i, row)) (exported_events i (w_db w)) files now).

Lemma run_export i w f :
  storage_ok f → ∃ r w' f', execute session_utcoffset i (w, f) = (r, (w', f')) ∧ w_db w' = w_db w ∧ storage_ok f' ∧
    (∀ k, k ≠ export_prefix i +:+ uuid_str (uuid4_at (w_uuids w)) +:+ ".json" →
       storage_at f' k = storage_at f k ∧ (k ∈ storage_keys f' ↔ k ∈ storage_keys f)) ∧
    (users (w_db w) !! i = None → r = Ret (Err (ExportUserError UserNotFoundError)) ∧ f' = f) ∧
    ∀ contract, r = Ret (Ok contract) → ∃ key content f1, blob_of i w f key content ∧
      key ∈ storage_keys f' ∧ storage_at f' key = Some content ∧
      storage_signed_url key _EXPORT_URL_TTL_SECONDS f1 = (Ret (Ok (download_url contract)), f') ∧
      contract_expires_at contract = now_at (S (w_clock w)) + 900 * second.
Proof.
  intros Hok. unfold execute. rewrite run_bind. unfold on_fst at 1. cbn [fst snd]. rewrite run_get_raw_by_id.
  destruct (users (w_db w) !! i) as [row|] eqn:Hrow; cbn [fmap option_fmap option_map].
  2: { do 3 eexists. split; [done|]. split_and!; try done. }
  rewrite run_bind. unfold on_fst at 1. cbn [fst snd]. rewrite run_list_for_user run_bind. unfold on_snd at 1. cbn [fst snd].
  destruct (run_list_user_files i f Hok) as (files & f1 & -> & Hok1 & Hk1 & Ha1 & Hfiles).
  rewrite run_bind. unfold on_fst at 1. cbn [fst snd]. rewrite run_utc_now run_bind. unfold on_fst at 1. cbn [fst snd].
  rewrite run_uuid4. set (content := dumps export_options _). set (key := export_prefix i +:+ _). rewrite run_bind. unfold on_snd at 1. cbn [fst snd].
  destruct (put_law key content "application/json" f1 Hok1) as (r & f2 & -> & Hok2 & Ho2 & Hput).
  assert (∀ k, k ≠ key → storage_at f2 k = storage_at f k ∧ (k ∈ storage_keys f2 ↔ k ∈ storage_keys f)) as Ho.
  { intros k Hk. rewrite -Ha1 -Hk1. by apply Ho2. }
  destruct r as [[]|e]; [|do 3 eexists; split; [done|]; split_and!; try done].
  rewrite run_bind. unfold on_snd at 1. cbn [fst snd].
  destruct (signed_url_law key _EXPORT_URL_TTL_SECONDS f2 Hok2) as (r & f3 & E & Hok3 & Hk3 & Ha3 & Hurl). rewrite E.
  assert (∀ k, k ≠ key → storage_at f3 k = storage_at f k ∧ (k ∈ storage_keys f3 ↔ k ∈ storage_keys f)) as Ho'.
  { intros k Hk. rewrite Ha3 Hk3. by apply Ho. }
  destruct r as [url|e]; [|do 3 eexists; split; [done|]; split_and!; try done].
  rewrite run_bind. unfold on_fst at 1. cbn [fst snd]. rewrite run_utc_now run_bind. unfold datetime_add.
  destruct (datetime_ok _) eqn:Hd; [|do 3 eexists; split; [done|]; split_and!; try done].
  do 3 eexists. split; [done|]. split_and!; try done. intros contract [= <-].
  destruct (Hput eq_refl) as [Hin Hat]. exists key, content, f2. split; [by exists row, files, (now_at (w_clock w))|].
  rewrite Hk3 Ha3. by split_and!.
Qed.

(** ** The shape of the document *)

Inductive schema :=
  | TBool
  | TStr
  | TNullableStr
  | TDict   (* any object *)
  | TList (t : schema)
  | TObj (fields : list (string * schema)).

(** An object has the fields of its schema, each of its type, and no other. *)
Fixpoint has_type (t : schema) (j : json) : Prop :=
  match t, j with
  | TBool, JBool _ | TStr, JStr _ | TNullableStr, (JNull | JStr _) | TDict, JObj _ => True
  | TList t, JList l => Forall (has_type t) l
  | TObj fields, JObj d =>
      length d = length fields ∧
      (fix all fields := match fields with
       | [] => True
       | (k, t) :: fields => match dict_get d k with Some v => has_type t v | None => False end ∧ all fields
       end) fields
  | _, _ => False
  end.

Definition event_schema : schema :=
  TObj [("id", TStr); ("user_id", TNullableStr); ("event_type", TStr); ("ip_address", TNullableStr);
        ("user_agent", TNullableStr); ("metadata", TDict); ("created_at", TStr)].
Definition export_schema : schema :=
  TObj [("user", TObj [("id", TStr); ("email", TStr); ("is_active", TBool); ("is_verified", TBool); ("created_at", TStr);
                       ("updated_at", TStr); ("last_login_at", TNullableStr)]);
        ("profile", TObj [("email", TStr)]); ("audit_events", TList event_schema); ("files", TList (TObj [("key", TStr)]));
        ("exported_at", TStr)].

Lemma document_typed user events files now : has_type export_schema (export_document user events files now).
Proof.
  assert (∀ {A} (g : A → string) x, has_type TNullableStr (opt_json (JStr ∘ g) x)) as Hopt by by intros A g [].
  cbn -[event_schema _to_jsonable]. split_and!; try done.
  - apply (Hopt _ (λ t, isoformat (at_offset t session_utcoffset))).
  - apply Forall_map, Forall_true. intros e. cbn. split_and!; try done; [apply (Hopt _ uuid_str)|by destruct (ae_ip_address e.2)|by destruct (ae_user_agent e.2)].
  - apply Forall_map, Forall_true. done.
Qed.

(** What is read back keeps its type: the order of the members does not matter. *)
Lemma dict_get_spec d k v : NoDup (dict_keys d) → dict_get d k = Some v ↔ (k, v) ∈ d.
Proof.
  induction d as [|[k' v'] d IH]; cbn; intros Hnd; [split; [done|by intros ?%not_elem_of_nil]|].
  apply NoDup_cons in Hnd as [Hk Hnd]. rewrite elem_of_cons -IH //. destruct (String.eqb_spec k' k) as [->|Hne].
  - split; [by intros [= ->]; left|]. intros [[= ->]|Hin]; [done|]. destruct Hk. apply IH in Hin; [|done].
    apply list_elem_of_fmap. by exists (k, v).
  - split; [by right|]. intros [[= -> ->]|Hin]; done.
Qed.
Lemma dict_get_permutation d1 d2 k : NoDup (dict_keys d1) → d1 ≡ₚ d2 → dict_get d1 k = dict_get d2 k.
Proof.
  intros Hnd Hp. assert (NoDup (dict_keys d2)) as Hnd2.
  { eapply NoDup_Permutation_proper; [|exact Hnd]. unfold dict_keys. by apply Permutation_map. }
  apply option_eq. intros v. by rewrite !dict_get_spec // Hp.
Qed.
Lemma dict_get_map_to_list (m : payload) k : dict_get (map_to_list m) k = m !! k.
Proof.
  apply option_eq. intros v. rewrite dict_get_spec; [|by apply NoDup_fst_map_to_list]. by rewrite elem_of_map_to_list.
Qed.

Lemma dict_get_map (g : json → json) d k : dict_get (map (λ '(k, v), (k, g v)) d) k = g <$> dict_get d k.
Proof. induction d as [|[k' v] d IH]; cbn; [done|]. by destruct (String.eqb k' k). Qed.

Lemma get_ordered o d k :
  NoDup (dict_keys d) → dict_get (dump_items o (map (λ '(key, value), (key, ordered o value)) d)) k = ordered o <$> dict_get d k.
Proof.
  intros Hnd. rewrite -(dict_get_permutation (map (λ '(key, value), (key, ordered o value)) d)).
  - apply (dict_get_map (ordered o)).
  - unfold dict_keys. rewrite map_map. erewrite map_ext; [exact Hnd|]. by intros [].
  - by rewrite dump_items_Permutation.
Qed.
Lemma printable_get depth d k v :
  Forall (λ kv, is_text kv.1 ∧ printable depth kv.2) d → NoDup (dict_keys d) → dict_get d k = Some v → printable depth v.
Proof. intros Hd Hnd Hk%dict_get_spec; [|done]. by apply (proj1 (Forall_forall _ _) Hd) in Hk as [_ Hv]. Qed.

Lemma has_type_ordered o depth t j : printable depth j → has_type t j → has_type t (ordered o j).
Proof.
  revert t j. induction depth as [|depth IH]; intros t j Hj Ht; destruct j as [| | | | |l|d]; try (by destruct t); cbn [printable] in Hj.
  - destruct t; try done. cbn in Ht |- *. apply Forall_map. rewrite !Forall_forall in Ht Hj |- *. auto.
  - destruct Hj as [Hnd Hd]. destruct t as [| | | | |fields]; try done. cbn [has_type ordered] in Ht |- *. destruct Ht as [Hlen Hf].
    split; [by rewrite dump_items_Permutation length_map|]. clear Hlen. induction fields as [|[k t] fields IHf]; [done|].
    destruct Hf as [Hk Hf]. split; [|by apply IHf]. clear IHf Hf.
    rewrite get_ordered //. destruct (dict_get d k) as [v|] eqn:E; [|done]. cbn. apply IH; [|done]. by eapply printable_get.
Qed.

Lemma blob_reads depth i w f key content :
  (∀ row, users (w_db w) !! i = Some row → is_text (user_email row)) →
  Forall (event_printable depth) (exported_events i (w_db w)) →
  (∀ k, k ∈ storage_keys f → is_text k) →
  blob_of i w f key content → ∃ row files,
    printable (4 + depth) (export_document (to_domain (i, row)) (exported_events i (w_db w)) files (now_at (w_clock w))) ∧
    users (w_db w) !! i = Some row ∧ files_listed i f files ∧
    loads (4 + depth) content =
      Ret (ordered export_options (export_document (to_domain (i, row)) (exported_events i (w_db w)) files (now_at (w_clock w)))).
Proof.
  intros Hemail Hevents Hkeys (row & files & now & Hrow & Hfiles & _ & -> & ->).
  assert (printable (4 + depth) (export_document (to_domain (i, row)) (exported_events i (w_db w)) files (now_at (w_clock w)))) as Hp.
  { apply document_ok; [by apply Hemail|done|]. apply Forall_forall. intros k Hk. by eapply Hkeys, files_listed_keys. }
  exists row, files. split_and!; [done..|]. apply loads_dumps; [apply (default_ok true)|done].
Qed.

(** ** What a document says *)

(** The value at a path of keys. *)
Fixpoint at_path (path : list string) (j : json) : option json :=
  match path with
  | [] => Some j
  | key :: path => match j with JObj d => dict_get d key ≫= at_path path | _ => None end
  end.

Lemma at_path_ordered o depth path j : printable depth j → at_path path (ordered o j) = ordered o <$> at_path path j.
Proof.
  revert depth j. induction path as [|k path IH]; intros depth j Hj; [done|]. destruct j as [| | | | | |d]; try done.
  destruct depth as [|depth]; [done|]. destruct Hj as [Hnd Hd]. cbn [at_path ordered]. rewrite get_ordered //.
  destruct (dict_get d k) as [v|] eqn:E; [|done]. cbn. apply (IH depth). by eapply printable_get.
Qed.

Abbreviation instant_text t := (JStr (isoformat (at_offset t session_utcoffset))).

Definition account_shown (i : uuid) (row : UserRow) (j : json) : Prop :=
  at_path ["user"; "id"] j = Some (JStr (uuid_str i)) ∧
  at_path ["user"; "email"] j = Some (JStr (user_email row)) ∧
  at_path ["user"; "is_active"] j = Some (JBool (user_is_active row)) ∧
  at_path ["user"; "is_verified"] j = Some (JBool (user_is_verified row)) ∧
  at_path ["user"; "created_at"] j = Some (instant_text (user_created_at row)) ∧
  at_path ["user"; "updated_at"] j = Some (instant_text (user_updated_at row)) ∧
  at_path ["user"; "last_login_at"] j =
    Some (match user_last_login_at row with Some t => instant_text t | None => JNull end) ∧
  at_path ["profile"; "email"] j = Some (JStr (user_email row)).

(** Metadata values as they are, with the members of objects sorted. *)
Definition event_shown (e : AuditEvent) (j : json) : Prop :=
  at_path ["id"] j = Some (JStr (uuid_str e.1)) ∧
  at_path ["user_id"] j = Some (match ae_user_id e.2 with Some u => JStr (uuid_str u) | None => JNull end) ∧
  at_path ["event_type"] j = Some (JStr (ae_event_type e.2)) ∧
  at_path ["ip_address"] j = Some (match ae_ip_address e.2 with Some s => JStr s | None => JNull end) ∧
  at_path ["user_agent"] j = Some (match ae_user_agent e.2 with Some s => JStr s | None => JNull end) ∧
  at_path ["created_at"] j = Some (instant_text (ae_created_at e.2)) ∧
  ∀ key, at_path ["metadata"; key] j = ordered export_options <$> ae_metadata e.2 !! key.

(** [events] are the newest 500 recorded of the account, or all there are, newest
    first, and nobody else's. *)
Definition newest_events (i : uuid) (d : Db) (events : list AuditEvent) : Prop :=
  Forall (λ e, audit_events d !! e.1 = Some e.2 ∧ ae_user_id e.2 = Some i) events ∧ NoDup events.*1 ∧
  StronglySorted (λ e e', ae_created_at e'.2 <= ae_created_at e.2) events ∧ (length events <= 500)%nat ∧
  ∀ j r, audit_events d !! j = Some r → ae_user_id r = Some i → (j, r) ∈ events ∨
    (length events = 500%nat ∧ Forall (λ e, ae_created_at r <= ae_created_at e.2) events).

Definition document_shown (i : uuid) (row : UserRow) (events : list AuditEvent) (files : list string) (now : time) (j : json) : Prop :=
  account_shown i row j ∧
  (∃ l, at_path ["audit_events"] j = Some (JList l) ∧ Forall2 event_shown events l) ∧
  at_path ["files"] j = Some (JList (map (λ key, JObj [("key", JStr key)]) files)) ∧
  at_path ["exported_at"] j = Some (JStr (isoformat (at_offset now 0))).

Lemma event_reads depth e : event_printable depth e → event_shown e (ordered export_options (to_jsonable e)).
Proof.
  intros He. pose proof (event_ok depth e He) as Hp. unfold event_shown.
  split_and!; [..|intros key]; rewrite (at_path_ordered _ _ _ _ Hp); try done.
  - cbn -[uuid_str]. by destruct (ae_user_id e.2).
  - cbn. by destruct (ae_ip_address e.2).
  - cbn. by destruct (ae_user_agent e.2).
  - cbn [at_path _to_jsonable dict_get String.eqb Ascii.eqb Bool.eqb]. cbn. rewrite dict_get_map_to_list. by destruct (ae_metadata e.2 !! key).
Qed.

Lemma document_reads depth i row events files now :
  is_text (user_email row) → Forall (event_printable depth) events → Forall is_text files →
  document_shown i row events files now (ordered export_options (export_document (to_domain (i, row)) events files now)).
Proof.
  intros Hemail Hevents Hfiles.
  pose proof (document_ok depth (to_domain (i, row)) events files now Hemail Hevents Hfiles) as Hp.
  unfold document_shown, account_shown. split_and!; try (rewrite (at_path_ordered _ _ _ _ Hp); done).
  - rewrite (at_path_ordered _ _ _ _ Hp). cbn. by destruct (user_last_login_at row).
  - exists (map (ordered export_options) (map to_jsonable events)). split; [by rewrite (at_path_ordered _ _ _ _ Hp)|].
    rewrite map_map. clear Hp. induction Hevents as [|e events He _ IH]; [constructor|].
    assert (∀ e events, map (λ x, ordered export_options (to_jsonable x)) (e :: events) =
      ordered export_options (to_jsonable e) :: map (λ x, ordered export_options (to_jsonable x)) events) as -> by done.
    constructor; [by eapply event_reads|done].
  - rewrite (at_path_ordered _ _ _ _ Hp). cbn [at_path export_document _build_export_payload dict_get]. cbn. rewrite map_map. done.
Qed.

Lemma exported_events_newest i d : newest_events i d (exported_events i d).
Proof.
  unfold newest_events, exported_events. set (P := AuthRepository.audit_matches (Some i) None None None).
  change (all_events session_utcoffset (Some i) None None (audit_events d))
    with (reverse (order_by AuthRepository.audit_key (select_where P (audit_events d)))).
  set (l := order_by AuthRepository.audit_key (select_where P (audit_events d))).
  assert (∀ j r, (j, r) ∈ reverse l ↔ audit_events d !! j = Some r ∧ ae_user_id r = Some i) as Hin.
  { intros j r. unfold l. rewrite elem_of_reverse elem_of_order_by elem_of_select_where. unfold P, AuthRepository.audit_matches.
    by rewrite !andb_true_r bool_decide_eq_true. }
  assert (StronglySorted (λ e e' : AuditEvent, ae_created_at e'.2 <= ae_created_at e.2) (reverse l)) as Hs.
  { pose proof (order_by_sorted AuthRepository.audit_key (select_where P (audit_events d))) as Hs. fold l in Hs. clearbody l. clear Hin.
    induction Hs as [|e l Hs IH Hall]; [constructor|]. rewrite reverse_cons. apply StronglySorted_app. split_and!; [|done|by repeat constructor].
    intros x y Hx ->%list_elem_of_singleton. rewrite elem_of_reverse in Hx. apply (proj1 (Forall_forall _ _) Hall) in Hx.
    unfold by_key, key_le, AuthRepository.audit_key in Hx. cbn in Hx. lia. }
  assert (NoDup (reverse l).*1) as Hnd.
  { unfold l. rewrite reverse_Permutation order_by_perm. apply NoDup_select_where. }
  rewrite -(take_drop 500 (reverse l)) in Hin Hs Hnd. set (old := drop 500 (reverse l)) in *.
  apply StronglySorted_app in Hs as (Hold & Hs & _). split_and!.
  - apply Forall_forall. intros [j r] Hj. apply Hin, elem_of_app. by left.
  - rewrite fmap_app in Hnd. by apply NoDup_app in Hnd as [? _].
  - done.
  - rewrite length_take. lia.
  - intros j r Hj Hr. assert ((j, r) ∈ take 500 (reverse l) ++ old) as [Hnew|Hdropped]%elem_of_app by (by apply Hin); [by left|right].
    split.
    + rewrite length_take. assert (length old ≠ 0%nat) as Hne by (destruct old; [by apply not_elem_of_nil in Hdropped|done]).
      unfold old in Hne. rewrite length_drop in Hne. apply Nat.min_l, (Nat.le_trans _ (length (reverse l))); [lia|done].
    + apply Forall_forall. intros e He. by apply (Hold e (j, r)).
Qed.

(** C15. An export over a storage that keeps its laws, of texts that are valid UTF-8
    (metadata that JSON can write), writes no row and at most one blob, under the
    account's export prefix and the identifier it draws; without an account it writes
    nothing. If it succeeds, that blob is a JSON document that, read back, has at
    their paths the fields of the account's row, the newest 500 audit events recorded
    of this account (all there are, if fewer, and no other account's) with all their
    fields, as files exactly the keys the backend lists under the account's prefix,
    which are all of the account's (none only when the backend fails to list them),
    and the instant it was made; the link is the backend's for that blob and expires
    in 900 seconds. *)
Theorem export_contents depth i w f :
  storage_ok f →
  (∀ row, users (w_db w) !! i = Some row → is_text (user_email row)) →
  (∀ j r, audit_events (w_db w) !! j = Some r → ae_user_id r = Some i → event_printable depth (j, r)) →
  (∀ k, k ∈ storage_keys f → is_text k) →
  let key := "exports/" +:+ uuid_str i +:+ "/" +:+ uuid_str (uuid4_at (w_uuids w)) +:+ ".json" in
  ∃ r w' f', execute session_utcoffset i (w, f) = (r, (w', f')) ∧ w_db w' = w_db w ∧
    (∀ k, k ≠ key → storage_at f' k = storage_at f k ∧ (k ∈ storage_keys f' ↔ k ∈ storage_keys f)) ∧
    (users (w_db w) !! i = None → r = Ret (Err (ExportUserError UserNotFoundError)) ∧ f' = f) ∧
    ∀ contract, r = Ret (Ok contract) → ∃ content j row events files f1,
      storage_at f' key = Some content ∧ loads (4 + depth) content = Ret j ∧
      users (w_db w) !! i = Some row ∧ newest_events i (w_db w) events ∧ files_listed i f files ∧
      document_shown i row events files (now_at (w_clock w)) j ∧
      storage_signed_url key 900 f1 = (Ret (Ok (download_url contract)), f') ∧
      contract_expires_at contract = now_at (S (w_clock w)) + 900 * second.
Proof.
  intros Hok Hemail Hevents Hkeys key. destruct (run_export i w f Hok) as (r & w' & f' & E & Hdb & _ & Ho & Hnone & Hr).
  assert (export_prefix i +:+ uuid_str (uuid4_at (w_uuids w)) +:+ ".json" = key) as Hkey.
  { unfold export_prefix, key. by rewrite !app_string_assoc. }
  rewrite Hkey in Ho. exists r, w', f'. split_and!; try done.
  intros contract Hc. destruct (Hr contract Hc) as (key' & content & f1 & Hblob & _ & Hat & Hurl & Hexp).
  assert (Forall (event_printable depth) (exported_events i (w_db w))) as Hprintable.
  { destruct (exported_events_newest i (w_db w)) as [Hall _]. eapply Forall_impl; [exact Hall|]. intros [j e] [Hj He]. by apply Hevents. }
  destruct (blob_reads depth i w f key' content Hemail Hprintable Hkeys Hblob) as (row & files & _ & Hrow & Hfiles & Hl).
  destruct Hblob as (? & ? & ? & _ & _ & -> & _). rewrite Hkey in Hat, Hurl.
  eexists content, _, row, _, files, f1. split_and!; [exact Hat|exact Hl|done|apply exported_events_newest|done| |exact Hurl|done].
  apply (document_reads depth); [by apply Hemail|done|]. apply Forall_forall. intros k Hk. by eapply Hkeys, files_listed_keys.
Qed.


Lemma export_not_owned i j t : ¬ owned_by j (export_prefix i +:+ t).
Proof. unfold owned_by, user_prefix, export_prefix. by vm_compute. Qed.

(** The clean-up of an account's files does not reach its exports: after an export,
    the clean-up leaves the stored document, with the address and the audit events
    of the account, where it is. *)
Theorem export_survives_cleanup i w f contract :
  storage_ok f → result_of (execute session_utcoffset i) (w, f) = Ret (Ok contract) →
  ∃ key content, let f' := (state_of (execute session_utcoffset i) (w, f)).2 in
    blob_of i w f key content ∧ storage_at f' key = Some content ∧
    storage_at (state_of (FileStorageUserAssetsAdapter.delete_user_assets i) f') key = Some content.
Proof.
  intros Hok Hr. destruct (run_export i w f Hok) as (r & w' & f' & E & _ & Hok' & _ & _ & Hc).
  unfold result_of, state_of in *. rewrite E in Hr |- *. cbn [fst snd] in *.
  destruct (Hc contract Hr) as (key & content & f1 & Hblob & _ & Hat & _). exists key, content. split_and!; [done..|].
  destruct (run_delete_user_assets i f' Hok') as (r2 & f2 & E2 & _ & _ & Ho & _). rewrite E2. cbn [snd].
  destruct (Ho key) as [-> _]; [|done]. destruct Hblob as (? & ? & ? & _ & _ & -> & _). apply export_not_owned.
Qed.

(** ** Who gets an export *)

Section routes.
Context `{Jwt} (settings : HttpSettings) {C : Type} `{PrincipalCachePort C} {L Q : Type}.
Implicit Types (a : App C L) (q : Q).

(** Whose data a request of [p] may export. *)
Definition may_export (e : export_endpoint) (p : Principal) (d : Db) (target : uuid) : Prop :=
  match e with
  | GET_me_export => target = p_user_id p
  | GET_admin_export i => target = i ∧ is_admin (p_user_id p) d = true
  end.

Definition only_exports_of target f f' : Prop :=
  ∀ k, String.prefix (export_prefix target) k = false → storage_at f' k = storage_at f k ∧ (k ∈ storage_keys f' ↔ k ∈ storage_keys f).

Lemma run_export_response target a q f :
  storage_ok f → ∃ o a' f', export_response session_utcoffset target ((a, q), f) = (o, ((a', q), f')) ∧
    w_db (world a') = w_db (world a) ∧ only_exports_of target f f' ∧ (∀ c, o = Ret c → is_Some (users (w_db (world a)) !! target)).
Proof.
  intros Hok. unfold export_response. rewrite run_bind. unfold on_export.
  destruct (run_export target (world a) f Hok) as (r & w' & f' & -> & Hdb & _ & Ho & Hnone & _).
  assert (only_exports_of target f f') as Honly.
  { intros k Hk. apply Ho. intros ->. by rewrite prefix_app in Hk. }
  destruct r as [[contract|e]|x].
  - do 3 eexists. split; [done|]. split_and!; [done..|]. intros _ _. destruct (users (w_db (world a)) !! target) eqn:E; [done|].
    by destruct (Hnone eq_refl) as [[=] _].
  - destruct e as [[]| |]; do 3 eexists; (split; [done|]); by split_and!.
  - do 3 eexists. split; [done|]. by split_and!.
Qed.

(** C8. Only the account itself and administrators have an account's data exported:
    any other request is answered 401 or 403 and stores nothing; a request that is
    allowed touches no blob but exports of that account. *)
Theorem exports_are_authorized e request a q f :
  (∃ key, auth_jwt_secret_key (auth_settings settings) = Some key ∧ key ≠ "") → cache_ok (principal_cache a) → storage_ok f →
  let '(resp, ((a', q'), f')) := export_serve settings session_utcoffset e request ((a, q), f) in
  q' = q ∧ w_db (world a') = w_db (world a) ∧
  ((∃ p target, caller settings request a p ∧ may_export e p (w_db (world a)) target ∧ only_exports_of target f f' ∧
      (∀ contract, resp = inl contract → is_Some (users (w_db (world a)) !! target))) ∨
   (∃ problem, resp = inr problem ∧ (pr_status problem = 401 ∨ pr_status problem = 403) ∧ f' = f ∧
      ∀ p target, caller settings request a p → ¬ may_export e p (w_db (world a)) target)).
Proof.
  intros Hkey Hc Hok. set (a0 := mkApp (world a) (principal_cache a) (limiters a) [] None).
  destruct (run_current_principal settings request a0 q Hkey Hc) as (o & a1 & E & [Hdb _] & Ho).
  assert (∀ target a1 p, w_db (world a1) = w_db (world a) → caller settings request a p → may_export e p (w_db (world a)) target →
    let '(resp, ((a', q'), f')) :=
      match export_response session_utcoffset target ((a1, q), f) with
      | (Ret contract, s) => (inl contract, s)
      | (Raise x, s) => (inr (exception_handler request x).1, s)
      end in
    q' = q ∧ w_db (world a') = w_db (world a) ∧
    ((∃ p target, caller settings request a p ∧ may_export e p (w_db (world a)) target ∧ only_exports_of target f f' ∧
        (∀ contract, resp = inl contract → is_Some (users (w_db (world a)) !! target))) ∨
     (∃ problem, resp = inr problem ∧ (pr_status problem = 401 ∨ pr_status problem = 403) ∧ f' = f ∧
        ∀ p target, caller settings request a p → ¬ may_export e p (w_db (world a)) target))) as Hallowed.
  { intros target a2 p Hd Hp Hmay. destruct (run_export_response target a2 q f Hok) as (r & a' & f' & -> & Hdb' & Honly & Hsome).
    rewrite Hd in Hdb', Hsome. destruct r as [c|x]; (split_and!; [done..|]; left; exists p, target; split_and!; try done).
    intros c' _. by eapply Hsome. }
  unfold export_serve. fold a0. destruct e as [|i]; cbn [export_route].
  - rewrite run_bind. unfold on_fst at 1. cbn [fst snd]. rewrite E. destruct o as [p|x].
    + by apply (Hallowed (p_user_id p) a1 p).
    + destruct Ho as [-> Hno]. split_and!; [done..|]. right. eexists. split_and!; [done|by left|done|]. intros p t Hp. by destruct (Hno p).
  - unfold require_system_authorization. rewrite run_bind. unfold on_fst at 1. cbn [fst snd]. rewrite run_bind E. destruct o as [p|x].
    2: { destruct Ho as [-> Hno]. split_and!; [done..|]. right. eexists. split_and!; [done|by left|done|]. intros p t Hp. by destruct (Hno p). }
    rewrite run_bind (on_app_read _ (Some (is_admin (p_user_id p) (w_db (world a1))))); [|by apply run_check_system].
    rewrite Hdb. change (w_db (world a0)) with (w_db (world a)). destruct (is_admin (p_user_id p) (w_db (world a))) eqn:Ha.
    + rewrite bool_decide_eq_true_2 //. cbn [negb]. rewrite run_ret. by apply (Hallowed i a1 p).
    + rewrite bool_decide_eq_false_2 //. cbn [negb]. split_and!; [done..|]. right. eexists. split_and!; [done|by right|done|].
      intros p' t Hp' [_ Ha']. rewrite (caller_unique settings request a p' p) // in Ha'. congruence.
Qed.
End routes.
End facts.

(** ** Evaluated *)

Lemma demo_texts :
  (∀ row, users (w_db demo_admin_login.2) !! 1000%N = Some row → is_text (user_email row)) ∧
  Forall (event_printable 0) (exported_events (7200 * second) 1000 (w_db demo_admin_login.2)) ∧
  (∀ k, k ∈ storage_keys demo_disk → is_text k).
Proof.
  split_and!.
  - intros row E. apply ascii_text. vm_compute in E. injection E as <-. reflexivity.
  - assert (exported_events (7200 * second) 1000 (w_db demo_admin_login.2) =
      [(1010%N, mkAuditRow (Some 1000%N) "auth.login_succeeded" None None ∅ 1700000014000000);
       (1002%N, mkAuditRow (Some 1000%N) "auth.user_registered" None None ∅ 1700000003000000)]) as -> by (vm_compute; reflexivity).
    repeat (apply Forall_cons_2; [split_and!; [by apply ascii_text|done|done|apply map_Forall_empty]|]). apply Forall_nil_2.
  - intros k Hk. apply ascii_text. revert k Hk.
    assert (Forall (λ k, str_forall is_ascii k = true) (elements (storage_keys demo_disk))) as Hall by by_eval.
    intros k Hk. by apply (Forall_forall (λ k, str_forall is_ascii k = true) (elements (storage_keys demo_disk))), elem_of_elements.
Qed.

(** Ada has uploaded a picture, and exports her data. *)
Definition demo_picture : string := "users/" +:+ uuid_str 1000 +:+ "/avatar.png".
Definition demo_album : LocalFs := state_of (storage_put demo_picture "PNG" "image/png") demo_disk.
Lemma demo_album_ok : storage_ok demo_album.
Proof.
  unfold demo_album, state_of.
  by destruct (put_law demo_picture "PNG" "image/png" demo_disk demo_disk_ok) as (r & f' & -> & Hok & _).
Qed.
Lemma demo_album_texts k : k ∈ storage_keys demo_album → is_text k.
Proof.
  intros Hk. apply ascii_text. revert k Hk.
  assert (Forall (λ k, str_forall is_ascii k = true) (elements (storage_keys demo_album))) as Hall by by_eval.
  intros k Hk. by apply (Forall_forall (λ k, str_forall is_ascii k = true) (elements (storage_keys demo_album))), elem_of_elements.
Qed.
Lemma demo_events_printable j r :
  audit_events (w_db demo_admin_login.2) !! j = Some r → ae_user_id r = Some 1000%N → event_printable 0 (j, r).
Proof.
  assert (map_Forall (λ _ r, str_forall is_ascii (ae_event_type r) = true ∧ ae_ip_address r = None ∧ ae_user_agent r = None ∧
    size (ae_metadata r) = 0%nat) (audit_events (w_db demo_admin_login.2))) as Hall by by_eval.
  intros Hj _. destruct (Hall j r Hj) as (Ht & Hip & Hua & Hm%map_size_empty_inv). unfold event_printable. cbn [snd].
  rewrite Hip Hua Hm. split_and!; [by apply ascii_text|done|done|apply map_Forall_empty].
Qed.

Lemma export_contents_witness :
  ∃ content j events,
    storage_at (state_of (execute (7200 * second) 1000) (demo_admin_login.2, demo_album)).2
      ("exports/" +:+ uuid_str 1000 +:+ "/" +:+ uuid_str (uuid4_at (w_uuids demo_admin_login.2)) +:+ ".json") = Some content ∧
    loads 4 content = Ret j ∧ newest_events 1000 (w_db demo_admin_login.2) events ∧
    at_path ["user"; "email"] j = Some (JStr "ada@example.com") ∧
    at_path ["files"] j = Some (JList [JObj [("key", JStr demo_picture)]]).
Proof.
  destruct (export_contents (7200 * second) 0 1000 demo_admin_login.2 demo_album demo_album_ok (proj1 demo_texts)
    demo_events_printable demo_album_texts) as (r & w' & f' & E & _ & _ & _ & Hr).
  assert (match (execute (7200 * second) 1000 (demo_admin_login.2, demo_album)).1 with Ret (Ok _) => True | _ => False end) as Hs
    by (vm_compute; exact I).
  unfold state_of. rewrite E in Hs |- *. cbn [fst snd] in *. destruct r as [[contract|]|]; [|destruct Hs..].
  destruct (Hr contract eq_refl) as (content & j & row & events & files & f1 & Hat & Hl & Hrow & Hevents & Hfiles & Hdoc & _).
  destruct Hdoc as ((_ & Hemail & _) & _ & Hshown & _).
  exists content, j, events. split; [exact Hat|]. split; [exact Hl|]. split; [exact Hevents|]. split.
  - rewrite Hemail. vm_compute in Hrow. injection Hrow as <-. reflexivity.
  - rewrite Hshown. unfold files_listed in Hfiles.
    assert ((storage_list (user_prefix 1000) demo_album).1 = Ret (Ok [demo_picture])) as El by (vm_compute; reflexivity).
    rewrite El in Hfiles. destruct Hfiles as [-> _]. reflexivity.
Defined.


Lemma export_survives_cleanup_witness :
  ∃ contract key content, result_of (execute (7200 * second) 1000) (demo_admin_login.2, demo_disk) = Ret (Ok contract) ∧
    storage_at (state_of (FileStorageUserAssetsAdapter.delete_user_assets 1000)
      (state_of (execute (7200 * second) 1000) (demo_admin_login.2, demo_disk)).2) key = Some content.
Proof.
  assert (∃ contract, result_of (execute (7200 * second) 1000) (demo_admin_login.2, demo_disk) = Ret (Ok contract)) as [contract E]
    by (eexists; vm_compute; reflexivity).
  destruct (export_survives_cleanup (7200 * second) 1000 demo_admin_login.2 demo_disk contract demo_disk_ok E) as (key & content & _ & _ & Hat).
  exists contract, key, content. split; [exact E|exact Hat].
Defined.

(** Bob has no token of an administrator. *)
Lemma exports_are_authorized_witness :
  let '(resp, ((a', q'), f')) := export_serve demo_http (7200 * second) (GET_admin_export 1004)
    (mkRequest "/admin/users" "https://api.example.com/admin/users" None ∅ ∅ None None) (demo_admin_site, demo_disk) in
  f' = demo_disk ∧ ∃ problem, resp = inr problem ∧ pr_status problem = 401.
Proof.
  pose proof (exports_are_authorized (7200 * second) demo_http (GET_admin_export 1004)
    (mkRequest "/admin/users" "https://api.example.com/admin/users" None ∅ ∅ None None) demo_admin_site.1 tt demo_disk) as Hw.
  change ((demo_admin_site.1, tt), demo_disk) with (demo_admin_site, demo_disk) in Hw.
  assert (match (export_serve demo_http (7200 * second) (GET_admin_export 1004)
    (mkRequest "/admin/users" "https://api.example.com/admin/users" None ∅ ∅ None None) (demo_admin_site, demo_disk)).1 with
    | inr problem => pr_status problem = 401 | inl _ => False end) as Hs by (vm_compute; reflexivity).
  destruct (export_serve _ _ _ _ _) as [resp [[a' q'] f']]. cbn [fst] in Hs.
  destruct Hw as (_ & _ & [(p & target & (token & s & Ht & _) & _)|(problem & -> & _ & Hf & _)]).
  - exists "secret". split; [reflexivity|discriminate].
  - intros k p Hk. vm_compute in Hk. discriminate Hk.
  - exact demo_disk_ok.
  - discriminate Ht.
  - split; [exact Hf|]. exists problem. split; [reflexivity|exact Hs].
Defined.
