(* ===== verification/RedisCache.v ===== *)
(** The Redis-backed principal cache
    ([features/authentication/application/cache.py], [RedisPrincipalCache]).  The
    server is a parameter with the documented behaviour of the commands as laws;
    a value the cache stores is kept as the JSON tree whose text is stored. *)

From Stdlib Require Import String.
From S2P Require Import Prelude PyStr Uuid Store Principals.
Open Scope string_scope.
Open Scope Z_scope.

(** ** Redis *)

(** String keys and set keys; a command runs at the server's time, in
    milliseconds.  [rc_strings now r] and [rc_set now r key] are what a client
    sees at [now], an expired key being absent. *)
Class RedisStore (R : Type) := {
  rc_strings : Z → R → gmap string json;
  rc_set : Z → R → string → gset string;
  setex : Z → string → Z → json → R → R;
  sadd : Z → string → string → R → R;
  rexpire : Z → string → Z → R → R;
  del : Z → list string → R → R;
}.

Class RedisStoreLaws (R : Type) `{RedisStore R} : Prop := {
  (* keys only disappear as time passes *)
  strings_expire now now' r k v : now <= now' → rc_strings now' r !! k = Some v → rc_strings now r !! k = Some v;
  set_expires now now' r k : now <= now' → rc_set now' r k ⊆ rc_set now r k;
  setex_strings now key secs v r now' k : now <= now' → 0 < secs → rc_strings now' (setex now key secs v r) !! k =
    if decide (k = key) then (if now' <? now + 1000 * secs then Some v else None) else rc_strings now' r !! k;
  setex_set now key secs v r now' k : now <= now' → k ≠ key → rc_set now' (setex now key secs v r) k = rc_set now' r k;
  (* a key that holds a string refuses the set commands *)
  sadd_set now key m r k : rc_strings now r !! key = None → rc_set now (sadd now key m r) k =
    if decide (k = key) then {[ m ]} ∪ rc_set now r k else rc_set now r k;
  sadd_set_other now key m r now' k : now <= now' → k ≠ key → rc_set now' (sadd now key m r) k = rc_set now' r k;
  sadd_strings now key m r now' k : now <= now' → rc_strings now' (sadd now key m r) !! k = rc_strings now' r !! k;
  expire_set now key secs r now' k : now <= now' → rc_set now' (rexpire now key secs r) k =
    if decide (k = key) then (if now' <? now + 1000 * secs then rc_set now r k else ∅) else rc_set now' r k;
  expire_strings now key secs r now' k : now <= now' → rc_strings now' (rexpire now key secs r) !! k =
    if decide (k = key) then (if now' <? now + 1000 * secs then rc_strings now r !! k else None)
    else rc_strings now' r !! k;
  del_strings now keys r now' k : now <= now' → rc_strings now' (del now keys r) !! k =
    if decide (k ∈ keys) then None else rc_strings now' r !! k;
  del_set now keys r now' k : now <= now' → rc_set now' (del now keys r) k =
    if decide (k ∈ keys) then ∅ else rc_set now' r k;
}.

(** ** [RedisPrincipalCache] *)

Module RedisPrincipalCache.
(** The connection, with the server's times at the commands still to be sent;
    the commands of a transaction run at one time. *)
Record RedisPrincipalCache (R : Type) := mkCache {
  redis : R;
  times : nat → Z;
}.
Arguments mkCache {R}. Arguments redis {R}. Arguments times {R}.

Definition key (token_id : string) : string := "auth:principal:" +:+ token_id.
Definition user_key (user_id : string) : string := "auth:user_tokens:" +:+ user_id.

Definition encode (principal : Principal) : json :=
  JObj [("user_id", JStr (uuid_str (p_user_id principal))); ("email", JStr (p_email principal));
        ("is_active", JBool (p_is_active principal)); ("is_verified", JBool (p_is_verified principal));
        ("authz_version", JInt (p_authz_version principal))].

(** The keys of a JSON object; of a key that occurs twice the last value counts. *)
Definition loads (raw : json) : option (gmap string json) :=
  match raw with JObj fields => Some (list_to_map (reverse fields)) | _ => None end.

(** A missing key or a text that is no UUID raises.  The other values are stored as
    they come; the model has no principal for one of another type. *)
Definition decode (raw : json) : option Principal :=
  data ← loads raw;
  match data !! "user_id", data !! "email", data !! "is_active", data !! "is_verified", data !! "authz_version" with
  | Some (JStr user_id), Some (JStr email), Some (JBool is_active), Some (JBool is_verified), Some (JInt authz_version) =>
      user_id ← uuid_parse user_id;
      Some (mkPrincipal user_id email is_active is_verified authz_version)
  | _, _, _, _, _ => None
  end.

Section cache.
Context {R : Type} `{RedisStore R} (ttl : Z).
Implicit Types c : RedisPrincipalCache R.

(** One round trip to the server. *)
Definition send {A} (command : Z → R → A * R) : M (RedisPrincipalCache R) A := λ c,
  let '(a, r) := command (times c 0%nat) (redis c) in (Ret a, mkCache r (λ n, times c (S n))).

Definition get (token_id : string) : M (RedisPrincipalCache R) (option Principal) :=
  raw ← send (λ now r, (rc_strings now r !! key token_id, r));
  match raw with
  | None => mret None
  | Some raw =>
      match decode raw with
      | Some principal => mret (Some principal)
      | None => raise (ValueError "malformed cache entry")
      end
  end.

(** In a transaction the server refuses SETEX with a lifetime that is not positive,
    runs the other commands, and the client raises at the end. *)
Definition set (token_id : string) (principal : Principal) : M (RedisPrincipalCache R) unit :=
  let uid := uuid_str (p_user_id principal) in
  ok ← send (λ now r,
    let r := if 0 <? ttl then setex now (key token_id) ttl (encode principal) r else r in
    let r := sadd now (user_key uid) token_id r in
    (0 <? ttl, rexpire now (user_key uid) ttl r));
  if (ok : bool) then mret tt else raise (ExternalError "invalid expire time in 'setex' command").

Definition pop (token_id : string) : M (RedisPrincipalCache R) unit :=
  send (λ now r, (tt, del now [key token_id] r)).

Definition invalidate_user (user_id : uuid) : M (RedisPrincipalCache R) unit :=
  let user_key := user_key (uuid_str user_id) in
  token_ids ← send (λ now r, (rc_set now r user_key, del now [user_key] r));
  if bool_decide (token_ids = ∅) then mret tt
  else send (λ now r, (tt, del now (key <$> elements token_ids) r)).
End cache.
End RedisPrincipalCache.

(** ** A client's session with a cache *)

Inductive CacheOp :=
  | Get (token_id : string)
  | Set_ (token_id : string) (principal : Principal)
  | Pop (token_id : string)
  | Invalidate (user_id : uuid).

Section session.
Context {C : Type} `{PrincipalCachePort C}.

(** The operations in order; what each [get] answers. *)
Fixpoint run_ops (ops : list CacheOp) : M C (list (option Principal)) :=
  match ops with
  | [] => mret []
  | Get t :: ops => o ← cache_get t; os ← run_ops ops; mret (o :: os)
  | Set_ t p :: ops => cache_set t p ;; run_ops ops
  | Pop t :: ops => cache_pop t ;; run_ops ops
  | Invalidate u :: ops => Principals.invalidate_user u ;; run_ops ops
  end.
End session.

(** The same session with a plain map that never forgets on its own. *)
Definition without_user (u : uuid) (m : gmap string Principal) : gmap string Principal :=
  filter (λ kp, p_user_id kp.2 ≠ u) m.
Fixpoint map_ops (ops : list CacheOp) (m : gmap string Principal) : list (option Principal) :=
  match ops with
  | [] => []
  | Get t :: ops => m !! t :: map_ops ops m
  | Set_ t p :: ops => map_ops ops (<[t := p]> m)
  | Pop t :: ops => map_ops ops (delete t m)
  | Invalidate u :: ops => map_ops ops (without_user u m)
  end.

(** A principal's id is a UUID. *)
Definition op_ok (op : CacheOp) : Prop :=
  match op with Set_ _ p => uuid_ok (p_user_id p) | _ => True end.

(** A miss, or the answer of the map. *)
Definition serves (o e : option Principal) : Prop := o = None ∨ o = e.

(** ** A server *)

(** One name space, a value with the time it expires. *)
Module DemoRedis.
Inductive rvalue := RStr (v : json) | RSet (s : gset string).
Abbreviation store := (gmap string (rvalue * option Z)).

Definition live (now : Z) (e : option Z) : bool := match e with Some t => now <? t | None => true end.
Definition view (now : Z) (r : store) (k : string) : option (rvalue * option Z) :=
  x ← r !! k; if live now x.2 then Some x else None.
Definition string_of (now : Z) (x : rvalue * option Z) : option json :=
  match x with (RStr v, e) => if live now e then Some v else None | _ => None end.

#[global] Instance demo_redis : RedisStore store := {|
  rc_strings now r := omap (string_of now) r;
  rc_set now r k := match view now r k with Some (RSet s, _) => s | _ => ∅ end;
  setex now key secs v r := <[key := (RStr v, Some (now + 1000 * secs))]> r;
  sadd now key m r :=
    match view now r key with
    | None => <[key := (RSet {[ m ]}, None)]> r
    | Some (RSet s, e) => <[key := (RSet ({[ m ]} ∪ s), e)]> r
    | Some (RStr _, _) => r
    end;
  rexpire now key secs r :=
    match view now r key with None => r | Some (v, _) => <[key := (v, Some (now + 1000 * secs))]> r end;
  del _ keys r := foldr delete r keys;
|}.
End DemoRedis.
