(* ===== verification/RedisCacheFacts.v ===== *)
(** The Redis-backed cache implements the cache port; and whatever implements the
    port serves only what a map that forgets on demand would serve. *)

From Stdlib Require Import String.
From S2P Require Import Prelude PyStr Uuid Store Principals RedisCache.
Open Scope string_scope.
Open Scope Z_scope.

(** ** Keys *)

(** What follows a prefix. *)
Fixpoint drop_prefix (p s : string) : option string :=
  match p, s with
  | EmptyString, _ => Some s
  | String a p, String b s => if Ascii.eqb a b then drop_prefix p s else None
  | String _ _, EmptyString => None
  end.

Lemma drop_prefix_Some p s t : drop_prefix p s = Some t ↔ s = p +:+ t.
Proof.
  revert s. induction p as [|a p IH]; intros s; [cbn; naive_solver|]. destruct s as [|b s]; [done|].
  cbn [drop_prefix]. rewrite app_cons. destruct (Ascii.eqb_spec a b) as [->|Hne]; [|naive_solver].
  rewrite IH. naive_solver.
Qed.

Lemma app_string_inj (a s t : string) : a +:+ s = a +:+ t → s = t.
Proof. induction a as [|c a IH]; [done|]. rewrite !app_cons. intros [= E]. by apply IH. Qed.

(** A law at another key. *)
Ltac other_key := destruct (decide (_ = _)); [by exfalso; eauto using eq_sym|].
Ltac same_key := destruct (decide (_ = _)); [|done].

Section redis.
Context {R : Type} `{RedisStoreLaws R} (ttl : Z) (ttl_positive : 0 < ttl).
Import RedisPrincipalCache.
Abbreviation Cache := (RedisPrincipalCache R).
Implicit Types (c : Cache) (r : R).

Lemma principal_key_inj s t : key s = key t → s = t.
Proof. apply app_string_inj. Qed.
Lemma index_key_inj s t : user_key s = user_key t → s = t.
Proof. apply app_string_inj. Qed.
Lemma key_not_user_key s t : key s ≠ user_key t.
Proof. unfold key, user_key. rewrite !app_cons. intros [=]. Qed.

Lemma decode_encode p : uuid_ok (p_user_id p) → decode (encode p) = Some p.
Proof.
  intros Hp. transitivity (i ← uuid_parse (uuid_str (p_user_id p));
    Some (mkPrincipal i (p_email p) (p_is_active p) (p_is_verified p) (p_authz_version p))).
  - unfold encode. generalize (uuid_str (p_user_id p)) as s, (p_email p), (p_is_active p), (p_is_verified p), (p_authz_version p).
    intros s e a v z. reflexivity.
  - rewrite uuid_parse_str //. by destruct p.
Qed.

(** ** The entries of a server *)

(** The principals the server holds at [now], by token id. *)
Definition principal_entry (kv : string * json) : option (string * Principal) :=
  t ← drop_prefix "auth:principal:" kv.1; p ← decode kv.2; Some (t, p).
Definition server_entries (now : Z) r : gmap string Principal :=
  list_to_map (omap principal_entry (map_to_list (rc_strings now r))).

Lemma principal_entry_Some k v t p : principal_entry (k, v) = Some (t, p) ↔ k = key t ∧ decode v = Some p.
Proof.
  unfold principal_entry, key. cbn [fst snd]. split.
  - intros (t' & ->%drop_prefix_Some & (p' & Hd & [= -> ->])%bind_Some)%bind_Some. done.
  - intros [E%drop_prefix_Some Hd]. by rewrite E Hd.
Qed.

Lemma lookup_server_entries now r t p :
  server_entries now r !! t = Some p ↔ ∃ v, rc_strings now r !! key t = Some v ∧ decode v = Some p.
Proof.
  assert (Hin : ∀ q, (t, q) ∈ omap principal_entry (map_to_list (rc_strings now r)) ↔
      ∃ v, rc_strings now r !! key t = Some v ∧ decode v = Some q).
  { intros q. rewrite list_elem_of_omap. split.
    - intros ([k v] & Hkv%elem_of_map_to_list & [-> Hd]%principal_entry_Some). by exists v.
    - intros (v & Hv & Hd). exists (key t, v). by rewrite elem_of_map_to_list principal_entry_Some. }
  unfold server_entries. rewrite -Hin. split; [apply elem_of_list_to_map_2|].
  intros Hp. apply elem_of_list_to_map_1'; [|done]. intros q Hq.
  apply Hin in Hp as (v & Hv & Hd). apply Hin in Hq as (v' & Hv' & Hd'). congruence.
Qed.

Lemma server_entries_later now now' r : now <= now' → server_entries now' r ⊆ server_entries now r.
Proof.
  intros Hle. apply map_subseteq_spec. intros t p (v & Hv & Hd)%lookup_server_entries.
  apply lookup_server_entries. exists v. split; [by eapply strings_expire|done].
Qed.

(** From [now] on the cache's keys hold principals only, each indexed under its
    user for as long as it lives; and none outlives the configured lifetime. *)
Definition server_ok (now : Z) r : Prop := ∀ now', now <= now' →
  (∀ s, rc_strings now' r !! user_key s = None) ∧
  (∀ t v, rc_strings now' r !! key t = Some v → now' < now + 1000 * ttl ∧
     ∃ p, decode v = Some p ∧ t ∈ rc_set now' r (user_key (uuid_str (p_user_id p)))).

Lemma server_ok_later now now' r : now <= now' → server_ok now r → server_ok now' r.
Proof.
  intros Hle Hr n Hn. destruct (Hr n) as [Hu Hk]; [lia|]. split; [done|].
  intros t v Ht. destruct (Hk t v Ht) as [? ?]. split; [lia|done].
Qed.

(** ** The operations on the server *)

Definition set_server (now : Z) (token_id : string) (p : Principal) r : R :=
  let uid := uuid_str (p_user_id p) in
  rexpire now (user_key uid) ttl (sadd now (user_key uid) token_id (setex now (key token_id) ttl (encode p) r)).

Lemma set_server_strings now now' t p r k : now <= now' → k ≠ user_key (uuid_str (p_user_id p)) →
  rc_strings now' (set_server now t p r) !! k =
    if decide (k = key t) then (if now' <? now + 1000 * ttl then Some (encode p) else None) else rc_strings now' r !! k.
Proof. intros Hle Hne. unfold set_server. rewrite expire_strings //. other_key. by rewrite sadd_strings // setex_strings. Qed.

Lemma set_server_user_key now now' t p r s : now <= now' → server_ok now r →
  rc_strings now' (set_server now t p r) !! user_key s = None.
Proof.
  intros Hle Hr. assert (Hne : user_key s ≠ key t) by (intros E; by eapply key_not_user_key).
  unfold set_server. set (r' := sadd _ _ _ _).
  assert (Hn : ∀ n, now <= n → rc_strings n r' !! user_key s = None).
  { intros n Hn. destruct (Hr n) as [Hu _]; [done|]. unfold r'. rewrite sadd_strings // setex_strings //. by other_key. }
  rewrite expire_strings //. repeat split_match; [by apply Hn|done|by apply Hn].
Qed.

Lemma set_server_set now now' t p r u : now <= now' → now' < now + 1000 * ttl → server_ok now r →
  (if decide (u = uuid_str (p_user_id p)) then {[ t ]} else ∅) ∪ rc_set now' r (user_key u)
    ⊆ rc_set now' (set_server now t p r) (user_key u).
Proof.
  intros Hle Hlt Hr. assert (Hne : user_key u ≠ key t) by (intros E; by eapply key_not_user_key).
  destruct (Hr now) as [Hu0 _]; [lia|].
  unfold set_server. rewrite expire_set //. destruct (decide (u = _)) as [->|Hne'].
  - rewrite decide_True // (proj2 (Z.ltb_lt _ _)) // sadd_set.
    + same_key. rewrite setex_set //. pose proof (set_expires now now' r (user_key (uuid_str (p_user_id p))) Hle). set_solver.
    + rewrite setex_strings //. by other_key.
  - destruct (decide (_ = _)) as [?%index_key_inj|_]; [done|]. rewrite sadd_set_other //; last by intros ?%index_key_inj.
    rewrite setex_set //. set_solver.
Qed.

Lemma set_server_ok now t p r : server_ok now r → uuid_ok (p_user_id p) → server_ok now (set_server now t p r).
Proof.
  intros Hr Hp now' Hle. split; [intros s; by apply set_server_user_key|]. intros t' v.
  rewrite set_server_strings //. destruct (decide (key t' = key t)) as [->%principal_key_inj|Hne].
  - destruct (Z.ltb_spec now' (now + 1000 * ttl)) as [Hlt|]; [|done]. intros [= <-]. split; [done|].
    exists p. split; [by apply decode_encode|]. eapply elem_of_weaken; [|by apply set_server_set].
    same_key. by apply elem_of_union_l, elem_of_singleton.
  - intros Hv. destruct (Hr now' Hle) as [_ Hk]. destruct (Hk t' v Hv) as (Hlt & q & Hq & Hin).
    split; [done|]. exists q. split; [done|]. eapply elem_of_weaken; [|by apply set_server_set].
    by apply elem_of_union_r.
Qed.

Lemma set_server_entries now t p r : uuid_ok (p_user_id p) →
  server_entries now (set_server now t p r) = <[t := p]> (server_entries now r).
Proof.
  intros Hp. apply map_eq. intros t'. apply option_eq. intros q.
  rewrite lookup_server_entries set_server_strings //.
  rewrite (proj2 (Z.ltb_lt now _)); [|lia]. rewrite lookup_insert_Some lookup_server_entries.
  destruct (decide (key t' = key t)) as [->%principal_key_inj|Hne].
  - pose proof (decode_encode p Hp). naive_solver.
  - assert (t ≠ t') by congruence. naive_solver.
Qed.

Lemma del_server_ok now keys r : server_ok now r → (∀ k, k ∈ keys → ∃ t, k = key t) → server_ok now (del now keys r).
Proof.
  intros Hr Hkeys now' Hle. destruct (Hr now' Hle) as [Hu Hk]. split; [intros s|intros t v]; rewrite del_strings //.
  - by destruct (decide _).
  - destruct (decide _); [done|]. intros Hv. destruct (Hk t v Hv) as (Hlt & q & Hq & Hin).
    split; [done|]. exists q. split; [done|]. rewrite del_set // decide_False //.
    intros (t' & E)%Hkeys. by eapply key_not_user_key.
Qed.

Lemma del_server_entries now keys r t :
  server_entries now (del now keys r) !! t = if decide (key t ∈ keys) then None else server_entries now r !! t.
Proof.
  apply option_eq. intros p. rewrite lookup_server_entries del_strings //.
  destruct (decide _); [naive_solver|]. by rewrite lookup_server_entries.
Qed.

(** What [invalidate_user] leaves: the keys of the user's set are gone, and so is
    the set. *)
Lemma invalidated_server now now1 u r r' :
  now <= now1 → server_ok now r →
  (∀ n k, now1 <= n → rc_strings n r' !! k =
     if decide (k ∈ key <$> elements (rc_set now r (user_key u))) then None else rc_strings n r !! k) →
  (∀ n s, now1 <= n → s ≠ u → rc_set n r' (user_key s) = rc_set n r (user_key s)) →
  server_ok now1 r' ∧ server_entries now1 r' ⊆ server_entries now r ∧
  (∀ t p, server_entries now1 r' !! t = Some p → uuid_str (p_user_id p) ≠ u).
Proof.
  intros Hle Hr Hstrings Hsets.
  assert (Hlive : ∀ n t v, now1 <= n → rc_strings n r' !! key t = Some v → rc_strings n r !! key t = Some v ∧
    n < now + 1000 * ttl ∧ ∃ p, decode v = Some p ∧ uuid_str (p_user_id p) ≠ u ∧
      t ∈ rc_set n r (user_key (uuid_str (p_user_id p)))).
  { intros n t v Hn. rewrite Hstrings //. destruct (decide _) as [|Hout]; [done|]. intros Hv. split; [done|].
    destruct (Hr n) as [_ Hk]; [lia|]. destruct (Hk t v Hv) as (Hlt & p & Hp & Hin).
    split; [done|]. exists p. split_and!; [done| |done]. intros Eu. apply Hout, list_elem_of_fmap_2, elem_of_elements.
    rewrite -Eu. eapply set_expires; [|done]. lia. }
  split_and!.
  - intros n Hn. split.
    + intros s. rewrite Hstrings //. destruct (Hr n) as [Hu _]; [lia|]. by destruct (decide _).
    + intros t v Hv. destruct (Hlive n t v Hn Hv) as (_ & Hlt & p & Hp & Hne & Hin). split; [lia|].
      exists p. split; [done|]. by rewrite Hsets.
  - apply map_subseteq_spec. intros t p (v & Hv & Hd)%lookup_server_entries.
    apply Hlive in Hv as (Hv & _); [|lia]. apply lookup_server_entries. exists v. split; [by eapply strings_expire|done].
  - intros t p (v & Hv & Hd)%lookup_server_entries. destruct (Hlive now1 t v) as (_ & _ & q & Hq & Hne & _); [lia|done|].
    congruence.
Qed.

(** The first round trip of [invalidate_user] drops the set and nothing else. *)
Lemma invalidated_first now u r : server_ok now r →
  (∀ n k, now <= n → rc_strings n (del now [user_key u] r) !! k = rc_strings n r !! k) ∧
  (∀ n s, now <= n → s ≠ u → rc_set n (del now [user_key u] r) (user_key s) = rc_set n r (user_key s)).
Proof.
  intros Hr. split.
  - intros n k Hn. rewrite del_strings //. destruct (decide _) as [->%list_elem_of_singleton|]; [|done].
    destruct (Hr n Hn) as [Hu _]. by rewrite Hu.
  - intros n s Hn Hs. rewrite del_set //. by destruct (decide _) as [?%list_elem_of_singleton%index_key_inj|].
Qed.

(** ** The port *)

Lemma run_set t p c : set ttl t p c = (Ret tt, mkCache (set_server (times c 0) t p (redis c)) (λ n, times c (S n))).
Proof. unfold set. destruct (Z.ltb_spec 0 ttl); [done|lia]. Qed.

Definition redis_ok c : Prop := (∀ n, times c n <= times c (S n)) ∧ server_ok (times c 0) (redis c).

#[global] Program Instance redis_port : PrincipalCachePort Cache := {|
  cache_ok := redis_ok;
  entries c := server_entries (times c 0) (redis c);
  cache_get := get;
  cache_set := set ttl;
  cache_pop := pop;
  Principals.invalidate_user := invalidate_user;
|}.
Next Obligation.
  intros t c [Ht Hr]. unfold get. rewrite run_bind. cbn.
  assert (Hok : redis_ok (mkCache (redis c) (λ n, times c (S n)))).
  { split; [intros n; apply Ht|]. eapply server_ok_later; [apply (Ht 0%nat)|done]. }
  destruct (rc_strings _ _ !! key t) as [v|] eqn:Ev.
  - destruct (Hr (times c 0)) as [_ Hk]; [lia|]. destruct (Hk t v Ev) as (_ & p & Hp & _). rewrite Hp.
    eexists _, _. split_and!; [done|done|apply server_entries_later, (Ht 0%nat)|]. intros q [= <-].
    apply lookup_server_entries. by exists v.
  - eexists _, _. split_and!; [done|done|apply server_entries_later, (Ht 0%nat)|done].
Qed.
Next Obligation.
  intros t p c [Ht Hr] Hp. eexists. rewrite run_set. split_and!; [done| |].
  - split; [intros n; apply Ht|]. eapply server_ok_later; [apply (Ht 0%nat)|]. by apply set_server_ok.
  - etrans; [apply server_entries_later, (Ht 0%nat)|]. by rewrite -set_server_entries.
Qed.
Next Obligation.
  intros t c [Ht Hr]. eexists. split_and!; [done| |].
  - split; [intros n; apply Ht|]. eapply server_ok_later; [apply (Ht 0%nat)|].
    apply del_server_ok; [done|]. intros k ->%list_elem_of_singleton. by exists t.
  - etrans; [apply server_entries_later, (Ht 0%nat)|]. apply map_subseteq_spec. intros t' p. cbn.
    rewrite del_server_entries lookup_delete_Some. destruct (decide _) as [|Hne]; [done|]. intros Hp.
    split; [|done]. intros ->. apply Hne. by apply list_elem_of_singleton.
Qed.
Next Obligation.
  intros u c [Ht Hr]. unfold invalidate_user. rewrite run_bind. cbn.
  set (ids := rc_set _ _ _). set (r1 := del _ _ _). pose proof (Ht 0%nat) as H1. pose proof (Ht 1%nat) as H2.
  destruct (invalidated_first (times c 0) (uuid_str u) (redis c) Hr) as [Hs1 Hsets1]. fold ids r1 in Hs1, Hsets1.
  destruct (bool_decide_reflect (ids = ∅)) as [Hempty|Hids]; cbn; eexists; (split; [done|]); cbn.
  - destruct (invalidated_server (times c 0) (times c 1) (uuid_str u) (redis c) r1) as (Hok & Hsub & Hne); [done|done|..].
    + intros n k Hn. fold ids. rewrite Hs1; [|lia]. rewrite Hempty elements_empty. by destruct (decide _) as [?%elem_of_nil|].
    + intros n s Hn Hs. apply Hsets1; [lia|done].
    + split_and!; [split; [intros n; apply Ht|done]|done|]. intros t p Hp E. eapply Hne; [done|by rewrite E].
  - destruct (invalidated_server (times c 0) (times c 2) (uuid_str u) (redis c)
      (del (times c 1) (key <$> elements ids) r1)) as (Hok & Hsub & Hne); [lia|done|..].
    + intros n k Hn. fold ids. rewrite del_strings; [|lia]. rewrite Hs1; [|lia]. by destruct (decide _).
    + intros n s Hn Hs. rewrite del_set; [|lia]. rewrite (Hsets1 n s); [|lia|done].
      destruct (decide _) as [(t & E & _)%list_elem_of_fmap|]; [|done]. by destruct (key_not_user_key t s).
    + split_and!; [split; [intros n; apply Ht|done]|done|]. intros t p Hp E. eapply Hne; [done|by rewrite E].
Qed.
End redis.

(** A lifetime of zero does not switch the cache off: storing a principal raises,
    so every request that has to be answered from its account fails. *)
Lemma zero_lifetime_raises {R} `{RedisStore R} ttl t p (c : RedisPrincipalCache.RedisPrincipalCache R) :
  ttl <= 0 → ∃ e c', RedisPrincipalCache.set ttl t p c = (Raise e, c').
Proof. intros Hle. unfold RedisPrincipalCache.set. destruct (Z.ltb_spec 0 ttl); [lia|]. by eexists _, _. Qed.

(** ** A client's session *)

Section session.
Context {C : Type} `{PrincipalCachePort C}.

Lemma without_user_sub u (m1 m2 : gmap string Principal) :
  m1 ⊆ m2 → (∀ k p, m1 !! k = Some p → p_user_id p ≠ u) → m1 ⊆ without_user u m2.
Proof.
  intros Hsub Hne. apply map_subseteq_spec. intros k p Hk. apply map_lookup_filter_Some.
  split; [by eapply lookup_weaken|by eapply Hne].
Qed.

(** Whatever implements the port serves only what the map would serve. *)
Lemma session_refines_map ops : ∀ c m, cache_ok c → entries c ⊆ m → Forall op_ok ops →
  ∃ os c', run_ops ops c = (Ret os, c') ∧ cache_ok c' ∧ Forall2 serves os (map_ops ops m).
Proof.
  induction ops as [|[t|t p|t|u] ops IH]; intros c m Hc Hm Hops; inversion_clear Hops as [|? ? Hop Hops'].
  - by exists [], c.
  - destruct (cache_get_spec t c Hc) as (o & c1 & E & Hc1 & Hsub & Ho).
    destruct (IH c1 m) as (os & c2 & E2 & Hc2 & Hos); [done|by etrans|done|].
    exists (o :: os), c2. cbn. rewrite run_bind E run_bind E2. split_and!; [done..|]. constructor; [|done].
    destruct o as [p|]; [right|by left]. symmetry. by eapply lookup_weaken; [apply Ho|].
  - destruct (cache_set_spec t p c Hc Hop) as (c1 & E & Hc1 & Hsub). cbn. rewrite run_bind E.
    apply IH; [done| |done]. etrans; [done|]. by apply insert_mono.
  - destruct (cache_pop_spec t c Hc) as (c1 & E & Hc1 & Hsub). cbn. rewrite run_bind E.
    apply IH; [done| |done]. etrans; [done|]. by apply delete_mono.
  - destruct (invalidate_user_spec u c Hc) as (c1 & E & Hc1 & Hsub & Hne). cbn. rewrite run_bind E.
    apply IH; [done| |done]. apply without_user_sub; [by etrans|done].
Qed.
End session.

(** ** A server *)

Section demo.
Import DemoRedis.

Definition string_view (x : option (rvalue * option Z)) : option json :=
  match x with Some (RStr v, _) => Some v | _ => None end.
Definition set_view (x : option (rvalue * option Z)) : gset string :=
  match x with Some (RSet s, _) => s | _ => ∅ end.

Lemma lookup_strings now (r : store) k : rc_strings now r !! k = string_view (view now r k).
Proof. cbn. rewrite lookup_omap /view. by destruct (r !! k) as [[[v|s] e]|]; cbn; try destruct (live now e). Qed.

Lemma view_later now now' (r : store) k x : now <= now' → view now' r k = Some x → view now r k = Some x.
Proof.
  intros Hle. unfold view. destruct (r !! k) as [[v [t|]]|]; cbn; [|done..].
  destruct (Z.ltb_spec now' t), (Z.ltb_spec now t); [done|lia|done..].
Qed.

Lemma view_live now (r : store) k v e : view now r k = Some (v, e) → live now e = true.
Proof. unfold view. intros (y & _ & Hy)%bind_Some. by destruct y as [w e'], (live now e') eqn:E; cbn in Hy; rewrite ?E in Hy; simplify_eq. Qed.

Lemma view_insert now (r : store) key x k :
  view now (<[key := x]> r) k = if decide (k = key) then (if live now x.2 then Some x else None) else view now r k.
Proof. unfold view. destruct (decide (k = key)) as [->|]; [by rewrite lookup_insert_eq|by rewrite lookup_insert_ne]. Qed.

Lemma view_del now (r : store) keys k :
  view now (foldr delete r keys) k = if decide (k ∈ keys) then None else view now r k.
Proof.
  induction keys as [|j keys IH]; cbn [foldr]; [by destruct (decide _) as [?%elem_of_nil|]|].
  destruct (decide (k = j)) as [->|Hne].
  - transitivity (@None (rvalue * option Z)); [unfold view; by rewrite lookup_delete_eq|].
    destruct (decide (j ∈ j :: keys)) as [|Hj]; [done|]. by destruct Hj; left.
  - transitivity (view now (foldr delete r keys) k); [unfold view; by rewrite lookup_delete_ne|rewrite IH].
    repeat match goal with |- context [decide ?P] => destruct (decide P) end; [done|set_solver|set_solver|done].
Qed.

#[global] Instance demo_redis_store_laws : RedisStoreLaws store.
Proof.
  split.
  - intros now now' r k v Hle. rewrite !lookup_strings. destruct (view now' r k) as [x|] eqn:E; [|done].
    by rewrite (view_later now now' _ _ x).
  - intros now now' r k Hle. cbn. destruct (view now' r k) as [x|] eqn:E; [by rewrite (view_later now now' _ _ x)|set_solver].
  - intros now key secs v r now' k Hle Hs. rewrite !lookup_strings. cbn [setex demo_redis]. rewrite view_insert.
    destruct (decide _); [|done]. cbn. by destruct (_ <? _).
  - intros now key secs v r now' k Hle Hne. cbn. rewrite view_insert. by destruct (decide _).
  - intros now key m r k. rewrite lookup_strings. cbn [rc_set sadd demo_redis].
    destruct (view now r key) as [[[v|s] e]|] eqn:E; cbn; [done|..]; intros _; rewrite view_insert;
      (destruct (decide _) as [->|]; [|done]); rewrite E; cbn; [|set_solver].
    by rewrite (view_live _ _ _ _ _ E).
  - intros now key m r now' k Hle Hne. cbn. destruct (view now r key) as [[[v|s] e]|]; [done|..];
      rewrite view_insert; by destruct (decide _).
  - intros now key m r now' k Hle. rewrite !lookup_strings. cbn [sadd demo_redis].
    destruct (view now r key) as [[[v|s] e]|] eqn:E; [done|..]; rewrite view_insert; (destruct (decide _) as [->|]; [|done]);
      destruct (view now' r key) as [y|] eqn:E'; try apply (view_later now now') in E'; cbn; simplify_eq; try done;
      by destruct (live now' _).
  - intros now key secs r now' k Hle. cbn [rc_set rexpire demo_redis]. destruct (view now r key) as [[v e]|] eqn:E.
    + rewrite view_insert. destruct (decide _) as [->|]; [|done]. rewrite E. cbn. by destruct (_ <? _).
    + destruct (decide _) as [->|]; [|done]. rewrite E. destruct (view now' r key) as [y|] eqn:E'.
      * apply (view_later now now') in E'; [congruence|done].
      * by destruct (_ <? _).
  - intros now key secs r now' k Hle. rewrite !lookup_strings. cbn [rexpire demo_redis].
    destruct (view now r key) as [[v e]|] eqn:E.
    + rewrite view_insert. destruct (decide _) as [->|]; [|done]. rewrite E. cbn. by destruct (_ <? _).
    + destruct (decide _) as [->|]; [|done]. rewrite E. destruct (view now' r key) as [y|] eqn:E'.
      * apply (view_later now now') in E'; [congruence|done].
      * by destruct (_ <? _).
  - intros now keys r now' k Hle. rewrite !lookup_strings. cbn [del demo_redis]. rewrite view_del. by destruct (decide _).
  - intros now keys r now' k Hle. cbn. rewrite view_del. by destruct (decide _).
Qed.
End demo.

(** ** The cache against the map *)

(** C40. With a positive lifetime, over any sequence of gets, sets, pops and
    invalidations, with time passing and entries expiring between any two commands,
    the Redis cache raises nothing and each get misses or answers what a plain map
    that applied the same operations would answer; so an invalidated user's principals
    are not served again until they are set again. With a lifetime of zero every set
    raises ([zero_lifetime_raises]). *)
Theorem redis_cache_refines_map {R} `{RedisStoreLaws R} (ttl : Z) (Httl : 0 < ttl)
    (c : RedisPrincipalCache.RedisPrincipalCache R) m ops :
  redis_ok ttl c → server_entries (RedisPrincipalCache.times c 0) (RedisPrincipalCache.redis c) ⊆ m → Forall op_ok ops →
  ∃ os c', run_ops (H := redis_port ttl Httl) ops c = (Ret os, c') ∧ redis_ok ttl c' ∧ Forall2 serves os (map_ops ops m).
Proof. apply (session_refines_map (H := redis_port ttl Httl)). Qed.

(** An invalidation between two gets, then an entry that outlives its five seconds. *)
Definition demo_principal : Principal := mkPrincipal 1000%N "ada@example.com" true true 1.
Definition demo_ops : list CacheOp :=
  [Set_ "t1" demo_principal; Set_ "t2" demo_principal; Get "t1"; Invalidate 1000%N; Get "t1"; Get "t2";
   Set_ "t2" demo_principal; Pop "t1"; Get "t2"; Get "t2"; Get "t2"].
Definition demo_redis_cache : RedisPrincipalCache.RedisPrincipalCache DemoRedis.store :=
  RedisPrincipalCache.mkCache ∅ (λ n, 1700 * Z.of_nat n).

Lemma redis_cache_refines_map_witness :
  ∃ c', run_ops (H := redis_port 5 eq_refl) demo_ops demo_redis_cache =
    (Ret [Some demo_principal; None; None; Some demo_principal; None; None], c') ∧
  map_ops demo_ops ∅ = [Some demo_principal; None; None; Some demo_principal; Some demo_principal; Some demo_principal].
Proof.
  destruct (redis_cache_refines_map 5 eq_refl demo_redis_cache ∅ demo_ops) as (os & c' & E & _).
  - split; [intros n; cbn; lia|]. intros now _. split; [done|intros t v Ht; vm_compute in Ht; discriminate Ht].
  - vm_compute. done.
  - repeat constructor; vm_compute; done.
  - exists c'. split; [|vm_compute; reflexivity]. rewrite E. f_equal.
    apply (f_equal fst) in E. vm_compute in E. simplify_eq. reflexivity.
Defined.
