(* ===== verification/Settings.v ===== *)
(** The runtime configuration ([app_platform/config]): the flat settings, the
    projections each feature owns, and the validators that decide whether a
    process may start.  A validator appends to the list of errors.

    A number of seconds is kept in microseconds and a ratio in millionths where
    the source has a finite float; a message is kept up to its first clause. *)

From Stdlib Require Import Ascii String.
From S2P Require Import Prelude PyStr Uuid Store Outbox Principals Http.
Open Scope string_scope.
Open Scope list_scope.
Open Scope Z_scope.

Inductive Environment := Development | Test | Production.
#[global] Instance Environment_eq_dec : EqDecision Environment.
Proof. solve_decision. Defined.
Inductive Samesite := Lax | Strict | NoneSite.
#[global] Instance Samesite_eq_dec : EqDecision Samesite.
Proof. solve_decision. Defined.
Inductive EmailBackend := Console.
Inductive JobsBackend := InProcess.
Inductive StorageBackend := Local | S3.
#[global] Instance StorageBackend_eq_dec : EqDecision StorageBackend.
Proof. solve_decision. Defined.

Definition MAX_JWT_LEEWAY_SECONDS : Z := 60.

(** ** [AppSettings] *)

Module AppSettings.
Record AppSettings := mkAppSettings {
  environment : Environment;
  enable_docs : bool;
  app_public_url : string;
  app_display_name : string;
  cors_origins : list string;
  trusted_hosts : list string;
  trusted_proxy_ips : list string;
  log_level : string;
  postgresql_dsn : string;
  db_pool_size : Z;
  db_max_overflow : Z;
  db_pool_recycle_seconds : Z;
  db_pool_pre_ping : bool;
  max_request_bytes : Z;
  auth_jwt_secret_key : option string;
  auth_jwt_algorithm : string;
  auth_jwt_issuer : option string;
  auth_jwt_audience : option string;
  auth_jwt_leeway_seconds : Z;
  auth_access_token_expire_minutes : Z;
  auth_refresh_token_expire_days : Z;
  auth_cookie_secure : bool;
  auth_cookie_samesite : Samesite;
  auth_password_reset_token_expire_minutes : Z;
  auth_email_verify_token_expire_minutes : Z;
  auth_rate_limit_enabled : bool;
  auth_require_distributed_rate_limit : bool;
  auth_per_account_login_max_attempts : Z;
  auth_per_account_login_window_seconds : Z;
  auth_per_account_reset_max_attempts : Z;
  auth_per_account_reset_window_seconds : Z;
  auth_per_account_verify_max_attempts : Z;
  auth_per_account_verify_window_seconds : Z;
  auth_rbac_enabled : bool;
  auth_require_email_verification : bool;
  auth_seed_on_startup : bool;
  auth_bootstrap_super_admin_email : option string;
  auth_bootstrap_super_admin_password : option string;
  auth_bootstrap_promote_existing : bool;
  auth_default_user_role : string;
  auth_super_admin_role : string;
  auth_return_internal_tokens : bool;
  auth_redis_url : option string;
  auth_principal_cache_ttl_seconds : Z;
  auth_token_retention_days : Z;
  auth_token_purge_interval_minutes : Z;
  email_backend : EmailBackend;
  email_from : option string;
  email_console_log_bodies : bool;
  jobs_backend : JobsBackend;
  outbox_enabled : bool;
  outbox_relay_interval_seconds : time;
  outbox_claim_batch_size : Z;
  outbox_max_attempts : Z;
  outbox_retry_base_seconds : time;
  outbox_retry_max_seconds : time;
  outbox_worker_id : option string;
  outbox_retention_delivered_days : Z;
  outbox_retention_failed_days : Z;
  outbox_prune_batch_size : Z;
  storage_enabled : bool;
  storage_backend : StorageBackend;
  storage_local_path : option string;
  storage_s3_bucket : option string;
  storage_s3_region : string;
  otel_exporter_endpoint : option string;
  otel_service_name : string;
  otel_service_version : string;
  otel_traces_sampler_ratio : Z;
  otel_instrument_sqlalchemy : bool;
  otel_instrument_httpx : bool;
  otel_instrument_redis : bool;
  metrics_enabled : bool;
  health_ready_probe_timeout_seconds : time;
  shutdown_timeout_seconds : time;
}.
End AppSettings.
Abbreviation AppSettings := AppSettings.AppSettings (only parsing).

(** ** Validators *)

(** The truth value of an optional string, and of a string. *)
Definition truthy (s : option string) : bool := match s with Some "" | None => false | Some _ => true end.
Definition nonempty (s : string) : bool := negb (String.eqb s "").

(** What is appended to [errors]; the projections may also raise. *)
Definition Validator : Type := M (list string) unit.
Definition append (message : string) : Validator := modify (λ errors, errors ++ [message]).
Definition refuse_if (condition : bool) (message : string) : Validator := when condition (append message).

(** [urllib.parse.urlparse] of a setting. *)
Definition urlparse `{IpLiterals} (url : string) : M (list string) SplitResult :=
  match urlsplit url with
  | None => raise (ValueError "Invalid IPv6 URL")
  | Some parts => mret parts
  end.

(** *** [authentication/composition/settings.py] *)

Module AuthenticationSettings.
Definition MIN_HS_JWT_SECRET_LEN : nat := 32.

Record AuthenticationSettings := mkSettings {
  jwt_secret_key : option string;
  jwt_algorithm : string;
  jwt_issuer : option string;
  jwt_audience : option string;
  jwt_leeway_seconds : Z;
  access_token_expire_minutes : Z;
  refresh_token_expire_days : Z;
  cookie_secure : bool;
  cookie_samesite : Samesite;
  password_reset_token_expire_minutes : Z;
  email_verify_token_expire_minutes : Z;
  rate_limit_enabled : bool;
  require_distributed_rate_limit : bool;
  redis_url : option string;
  require_email_verification : bool;
  seed_on_startup : bool;
  bootstrap_super_admin_email : option string;
  bootstrap_super_admin_password : option string;
  bootstrap_promote_existing : bool;
  default_user_role : string;
  super_admin_role : string;
  return_internal_tokens : bool;
  auth_token_retention_days : Z;
  auth_token_purge_interval_minutes : Z;
  per_account_login_max_attempts : Z;
  per_account_login_window_seconds : Z;
  per_account_reset_max_attempts : Z;
  per_account_reset_window_seconds : Z;
  per_account_verify_max_attempts : Z;
  per_account_verify_window_seconds : Z;
}.

Definition from_app_settings (app : AppSettings) : AuthenticationSettings := {|
  jwt_secret_key := AppSettings.auth_jwt_secret_key app;
  jwt_algorithm := AppSettings.auth_jwt_algorithm app;
  jwt_issuer := AppSettings.auth_jwt_issuer app;
  jwt_audience := AppSettings.auth_jwt_audience app;
  jwt_leeway_seconds := AppSettings.auth_jwt_leeway_seconds app;
  access_token_expire_minutes := AppSettings.auth_access_token_expire_minutes app;
  refresh_token_expire_days := AppSettings.auth_refresh_token_expire_days app;
  cookie_secure := AppSettings.auth_cookie_secure app;
  cookie_samesite := AppSettings.auth_cookie_samesite app;
  password_reset_token_expire_minutes := AppSettings.auth_password_reset_token_expire_minutes app;
  email_verify_token_expire_minutes := AppSettings.auth_email_verify_token_expire_minutes app;
  rate_limit_enabled := AppSettings.auth_rate_limit_enabled app;
  require_distributed_rate_limit := AppSettings.auth_require_distributed_rate_limit app;
  redis_url := AppSettings.auth_redis_url app;
  require_email_verification := AppSettings.auth_require_email_verification app;
  seed_on_startup := AppSettings.auth_seed_on_startup app;
  bootstrap_super_admin_email := AppSettings.auth_bootstrap_super_admin_email app;
  bootstrap_super_admin_password := AppSettings.auth_bootstrap_super_admin_password app;
  bootstrap_promote_existing := AppSettings.auth_bootstrap_promote_existing app;
  default_user_role := AppSettings.auth_default_user_role app;
  super_admin_role := AppSettings.auth_super_admin_role app;
  return_internal_tokens := AppSettings.auth_return_internal_tokens app;
  auth_token_retention_days := AppSettings.auth_token_retention_days app;
  auth_token_purge_interval_minutes := AppSettings.auth_token_purge_interval_minutes app;
  per_account_login_max_attempts := AppSettings.auth_per_account_login_max_attempts app;
  per_account_login_window_seconds := AppSettings.auth_per_account_login_window_seconds app;
  per_account_reset_max_attempts := AppSettings.auth_per_account_reset_max_attempts app;
  per_account_reset_window_seconds := AppSettings.auth_per_account_reset_window_seconds app;
  per_account_verify_max_attempts := AppSettings.auth_per_account_verify_max_attempts app;
  per_account_verify_window_seconds := AppSettings.auth_per_account_verify_window_seconds app;
|}.

Definition validate_production (s : AuthenticationSettings) : Validator :=
  (if negb (truthy (jwt_secret_key s)) then append "APP_AUTH_JWT_SECRET_KEY must be set in production"
   else refuse_if (String.prefix "HS" (jwt_algorithm s) &&
                   (String.length (default "" (jwt_secret_key s)) <? MIN_HS_JWT_SECRET_LEN)%nat)
          "APP_AUTH_JWT_SECRET_KEY must be at least 32 characters when APP_AUTH_JWT_ALGORITHM is an HMAC algorithm") ;;
  refuse_if (negb (truthy (jwt_issuer s))) "APP_AUTH_JWT_ISSUER must be set in production" ;;
  refuse_if (negb (truthy (jwt_audience s))) "APP_AUTH_JWT_AUDIENCE must be set in production" ;;
  refuse_if (negb (cookie_secure s)) "APP_AUTH_COOKIE_SECURE must be True in production" ;;
  refuse_if (bool_decide (cookie_samesite s = NoneSite))
    "APP_AUTH_COOKIE_SAMESITE must be 'lax' or 'strict' in production" ;;
  refuse_if (return_internal_tokens s) "APP_AUTH_RETURN_INTERNAL_TOKENS must be False in production" ;;
  refuse_if (negb (truthy (redis_url s))) "APP_AUTH_REDIS_URL must be set in production".
End AuthenticationSettings.

(** *** [users], [authorization], [email], [background_jobs], [file_storage] *)

Module UsersSettings.
Record UsersSettings := mkSettings {
  default_user_role : string;
  super_admin_role : string;
  require_email_verification : bool;
}.
Definition from_app_settings (app : AppSettings) : UsersSettings := {|
  default_user_role := AppSettings.auth_default_user_role app;
  super_admin_role := AppSettings.auth_super_admin_role app;
  require_email_verification := AppSettings.auth_require_email_verification app;
|}.
Definition validate_production (s : UsersSettings) : Validator := mret tt.
End UsersSettings.

Module AuthorizationSettings.
Record AuthorizationSettings := mkSettings {
  rbac_enabled : bool;
  principal_cache_ttl_seconds : Z;
}.
Definition from_app_settings (app : AppSettings) : AuthorizationSettings := {|
  rbac_enabled := AppSettings.auth_rbac_enabled app;
  principal_cache_ttl_seconds := AppSettings.auth_principal_cache_ttl_seconds app;
|}.
Definition validate_production (s : AuthorizationSettings) : Validator :=
  refuse_if (negb (rbac_enabled s)) "APP_AUTH_RBAC_ENABLED must be True in production".
End AuthorizationSettings.

Module EmailSettings.
Record EmailSettings := mkSettings {
  backend : EmailBackend;
  from_address : option string;
  console_log_bodies : bool;
}.
(** Of an [AppSettings], whose backend is one of the accepted ones. *)
Definition from_app_settings (app : AppSettings) : EmailSettings := {|
  backend := AppSettings.email_backend app;
  from_address := AppSettings.email_from app;
  console_log_bodies := AppSettings.email_console_log_bodies app;
|}.
Definition validate (s : EmailSettings) : Validator := mret tt.
Definition validate_production (s : EmailSettings) : Validator :=
  match backend s with
  | Console => append "APP_EMAIL_BACKEND must not be 'console' in production"
  end.
End EmailSettings.

Module JobsSettings.
Record JobsSettings := mkSettings { backend : JobsBackend }.
Definition from_app_settings (app : AppSettings) : JobsSettings := mkSettings (AppSettings.jobs_backend app).
Definition validate (s : JobsSettings) : Validator := mret tt.
Definition validate_production (s : JobsSettings) : Validator :=
  match backend s with
  | InProcess => append "APP_JOBS_BACKEND must not be 'in_process' in production"
  end.
End JobsSettings.

Module StorageSettings.
Record StorageSettings := mkSettings {
  enabled : bool;
  backend : StorageBackend;
  local_path : option string;
  s3_bucket : option string;
  s3_region : string;
}.
Definition from_app_settings (app : AppSettings) : StorageSettings := {|
  enabled := AppSettings.storage_enabled app;
  backend := AppSettings.storage_backend app;
  local_path := AppSettings.storage_local_path app;
  s3_bucket := AppSettings.storage_s3_bucket app;
  s3_region := or_default (Some (AppSettings.storage_s3_region app)) "us-east-1";
|}.
Definition validate (s : StorageSettings) : Validator :=
  when (enabled s) (
    refuse_if (bool_decide (backend s = Local) && negb (truthy (local_path s)))
      "APP_STORAGE_BACKEND=local requires APP_STORAGE_LOCAL_PATH" ;;
    refuse_if (bool_decide (backend s = S3) && negb (truthy (s3_bucket s)))
      "APP_STORAGE_BACKEND=s3 requires APP_STORAGE_S3_BUCKET").
Definition validate_production (s : StorageSettings) : Validator :=
  refuse_if (enabled s && bool_decide (backend s = Local))
    "APP_STORAGE_BACKEND must not be 'local' in production when APP_STORAGE_ENABLED=true".
End StorageSettings.

(** *** [outbox/composition/settings.py], whose checks [Outbox] holds *)

Definition outbox_kwargs (app : AppSettings) : OutboxKwargs := {|
  kw_enabled := Some (AppSettings.outbox_enabled app);
  kw_relay_interval := Some (AppSettings.outbox_relay_interval_seconds app);
  kw_claim_batch_size := Some (AppSettings.outbox_claim_batch_size app);
  kw_max_attempts := Some (AppSettings.outbox_max_attempts app);
  kw_retry_base := Some (AppSettings.outbox_retry_base_seconds app);
  kw_retry_max := Some (AppSettings.outbox_retry_max_seconds app);
  kw_worker_id := AppSettings.outbox_worker_id app;
  kw_retention_delivered_days := Some (AppSettings.outbox_retention_delivered_days app);
  kw_retention_failed_days := Some (AppSettings.outbox_retention_failed_days app);
  kw_prune_batch_size := Some (AppSettings.outbox_prune_batch_size app);
|}.
Definition no_kwargs : OutboxKwargs := mkOutboxKwargs None None None None None None None None None None.

(** [OutboxSettings.from_app_settings(app)] and a validator of it. *)
Definition on_outbox (default_worker_id : string) (app : AppSettings) (check : OutboxSettings → list string) : Validator :=
  match from_app_settings default_worker_id (Some (outbox_kwargs app)) no_kwargs with
  | Err e => raise e
  | Ok s => modify (λ errors, errors ++ check s)
  end.

(** *** [app_platform/config/sub_settings.py] *)

Module DatabaseSettings.
Record DatabaseSettings := mkSettings {
  dsn : string;
  pool_size : Z;
  max_overflow : Z;
  pool_recycle_seconds : Z;
  pool_pre_ping : bool;
}.
Definition from_app_settings (app : AppSettings) : DatabaseSettings := {|
  dsn := AppSettings.postgresql_dsn app;
  pool_size := AppSettings.db_pool_size app;
  max_overflow := AppSettings.db_max_overflow app;
  pool_recycle_seconds := AppSettings.db_pool_recycle_seconds app;
  pool_pre_ping := AppSettings.db_pool_pre_ping app;
|}.
Definition validate_production (s : DatabaseSettings) : Validator := mret tt.
End DatabaseSettings.

Module ApiSettings.
Record ApiSettings := mkSettings {
  enable_docs : bool;
  cors_origins : list string;
  trusted_hosts : list string;
  trusted_proxy_ips : list string;
  max_request_bytes : Z;
  public_url : string;
  display_name : string;
}.
Definition from_app_settings (app : AppSettings) : ApiSettings := {|
  enable_docs := AppSettings.enable_docs app;
  cors_origins := AppSettings.cors_origins app;
  trusted_hosts := AppSettings.trusted_hosts app;
  trusted_proxy_ips := AppSettings.trusted_proxy_ips app;
  max_request_bytes := AppSettings.max_request_bytes app;
  public_url := AppSettings.app_public_url app;
  display_name := AppSettings.app_display_name app;
|}.

Section validate.
Context `{IpLiterals}.

(** The hosts of the origins that have a scheme, [None] discarded. *)
Fixpoint origin_hosts (origins : list string) : M (list string) (list string) :=
  match origins with
  | [] => mret []
  | o :: origins =>
      if contains "://" o then
        parsed ← urlparse o;
        hosts ← origin_hosts origins;
        mret (match hostname parsed with Some host => host :: hosts | None => hosts end)
      else origin_hosts origins
  end.

Definition validate_public_url (s : ApiSettings) : Validator :=
  if negb (nonempty (public_url s)) then append "APP_APP_PUBLIC_URL must be set in production" else
  parsed ← urlparse (public_url s);
  if negb (String.eqb (scheme parsed) "https")
  then append "APP_APP_PUBLIC_URL must use the https:// scheme in production" else
  match hostname parsed with
  | None => append "APP_APP_PUBLIC_URL must include a non-empty host in production"
  | Some host =>
      hosts ← origin_hosts (cors_origins s);
      refuse_if (negb (bool_decide (host ∈ hosts)))
        "APP_APP_PUBLIC_URL host must appear in APP_CORS_ORIGINS in production"
  end.

Definition validate_production (s : ApiSettings) : Validator :=
  refuse_if (bool_decide (cors_origins s = ["*"]) || bool_decide ("*" ∈ cors_origins s))
    "APP_CORS_ORIGINS must not be ['*'] in production" ;;
  refuse_if (enable_docs s) "APP_ENABLE_DOCS must be False in production" ;;
  refuse_if (existsb (contains "*") (trusted_hosts s))
    "APP_TRUSTED_HOSTS must not contain wildcard entries in production" ;;
  refuse_if (bool_decide (trusted_proxy_ips s = [])) "APP_TRUSTED_PROXY_IPS must be set in production" ;;
  validate_public_url s.
End validate.
End ApiSettings.

Module ObservabilitySettings.
Record ObservabilitySettings := mkSettings {
  log_level : string;
  otel_exporter_endpoint : option string;
  otel_service_name : string;
  otel_service_version : string;
  otel_traces_sampler_ratio : Z;
  otel_instrument_sqlalchemy : bool;
  otel_instrument_httpx : bool;
  otel_instrument_redis : bool;
  metrics_enabled : bool;
  health_ready_probe_timeout_seconds : time;
  shutdown_timeout_seconds : time;
  auth_redis_url : option string;
  environment : Environment;
}.
Definition from_app_settings (app : AppSettings) : ObservabilitySettings := {|
  log_level := AppSettings.log_level app;
  otel_exporter_endpoint := AppSettings.otel_exporter_endpoint app;
  otel_service_name := AppSettings.otel_service_name app;
  otel_service_version := AppSettings.otel_service_version app;
  otel_traces_sampler_ratio := AppSettings.otel_traces_sampler_ratio app;
  otel_instrument_sqlalchemy := AppSettings.otel_instrument_sqlalchemy app;
  otel_instrument_httpx := AppSettings.otel_instrument_httpx app;
  otel_instrument_redis := AppSettings.otel_instrument_redis app;
  metrics_enabled := AppSettings.metrics_enabled app;
  health_ready_probe_timeout_seconds := AppSettings.health_ready_probe_timeout_seconds app;
  shutdown_timeout_seconds := AppSettings.shutdown_timeout_seconds app;
  auth_redis_url := AppSettings.auth_redis_url app;
  environment := AppSettings.environment app;
|}.

Definition validate (s : ObservabilitySettings) : Validator :=
  refuse_if (negb ((0 <=? otel_traces_sampler_ratio s) && (otel_traces_sampler_ratio s <=? 1000000)))
    "APP_OTEL_TRACES_SAMPLER_RATIO must be between 0.0 and 1.0" ;;
  let max_ready_timeout := 30 * second in
  refuse_if (negb ((0 <? health_ready_probe_timeout_seconds s) && (health_ready_probe_timeout_seconds s <=? max_ready_timeout)))
    "APP_HEALTH_READY_PROBE_TIMEOUT_SECONDS must be in (0.0, 30.0]" ;;
  let max_shutdown_timeout := 300 * second in
  refuse_if (negb ((0 <? shutdown_timeout_seconds s) && (shutdown_timeout_seconds s <=? max_shutdown_timeout)))
    "APP_SHUTDOWN_TIMEOUT_SECONDS must be in (0.0, 300.0]".
Definition validate_production (s : ObservabilitySettings) : Validator := mret tt.
End ObservabilitySettings.

(** ** Loading ([AppSettings]'s model validators) *)

Section load.
Context `{IpLiterals} (default_worker_id : string).
Implicit Types app : AppSettings.

Definition always_on app : Validator :=
  refuse_if (negb (bool_decide (AppSettings.auth_jwt_algorithm app ∈ JWT_ALGORITHM_WHITELIST)))
    "APP_AUTH_JWT_ALGORITHM must be one of ['HS256', 'RS256']" ;;
  refuse_if (negb ((0 <=? AppSettings.auth_jwt_leeway_seconds app) &&
                   (AppSettings.auth_jwt_leeway_seconds app <=? MAX_JWT_LEEWAY_SECONDS)))
    "APP_AUTH_JWT_LEEWAY_SECONDS must be between 0 and 60" ;;
  EmailSettings.validate (EmailSettings.from_app_settings app) ;;
  JobsSettings.validate (JobsSettings.from_app_settings app) ;;
  StorageSettings.validate (StorageSettings.from_app_settings app) ;;
  on_outbox default_worker_id app validate_outbox ;;
  ObservabilitySettings.validate (ObservabilitySettings.from_app_settings app).

Definition production_only app : Validator :=
  AuthenticationSettings.validate_production (AuthenticationSettings.from_app_settings app) ;;
  UsersSettings.validate_production (UsersSettings.from_app_settings app) ;;
  AuthorizationSettings.validate_production (AuthorizationSettings.from_app_settings app) ;;
  EmailSettings.validate_production (EmailSettings.from_app_settings app) ;;
  JobsSettings.validate_production (JobsSettings.from_app_settings app) ;;
  StorageSettings.validate_production (StorageSettings.from_app_settings app) ;;
  on_outbox default_worker_id app validate_outbox_production ;;
  DatabaseSettings.validate_production (DatabaseSettings.from_app_settings app) ;;
  ApiSettings.validate_production (ApiSettings.from_app_settings app) ;;
  ObservabilitySettings.validate_production (ObservabilitySettings.from_app_settings app).

Definition newline : string := String (ascii_of_nat 10) "".

(** [errors = []], the checks, and what a non-empty list raises. *)
Definition conclude (checks : Validator) (summary : list string → string) : outcome unit :=
  match checks [] with
  | (Raise e, _) => Raise e
  | (Ret _, []) => Ret tt
  | (Ret _, errors) => Raise (ValueError (summary errors))
  end.

Definition validate_auth_settings app : outcome unit := conclude (always_on app) (String.concat newline).

Definition validate_production_settings app : outcome unit :=
  if negb (bool_decide (AppSettings.environment app = Production)) then Ret tt
  else conclude (production_only app) (λ errors,
    "Production configuration errors:" +:+ newline +:+ String.concat newline ((λ e, "  - " +:+ e) <$> errors)).

(** [AppSettings()] once the fields are parsed: the validators in order. *)
Definition load app : outcome AppSettings :=
  match validate_auth_settings app with
  | Raise e => Raise e
  | Ret _ => match validate_production_settings app with Raise e => Raise e | Ret _ => Ret app end
  end.

(** What the modelled use cases read of the settings object they are given. *)
Definition auth_settings app : AuthSettings := {|
  Principals.auth_jwt_algorithm := AppSettings.auth_jwt_algorithm app;
  Principals.auth_jwt_secret_key := AppSettings.auth_jwt_secret_key app;
  Principals.auth_jwt_issuer := AppSettings.auth_jwt_issuer app;
  Principals.auth_jwt_audience := AppSettings.auth_jwt_audience app;
  Principals.auth_jwt_leeway_seconds := AppSettings.auth_jwt_leeway_seconds app;
  Principals.auth_access_token_expire_minutes := AppSettings.auth_access_token_expire_minutes app;
  Principals.auth_refresh_token_expire_days := AppSettings.auth_refresh_token_expire_days app;
  Principals.auth_password_reset_token_expire_minutes := AppSettings.auth_password_reset_token_expire_minutes app;
  Principals.auth_email_verify_token_expire_minutes := AppSettings.auth_email_verify_token_expire_minutes app;
  Principals.auth_require_email_verification := AppSettings.auth_require_email_verification app;
  Principals.auth_return_internal_tokens := AppSettings.auth_return_internal_tokens app;
  Principals.app_display_name := AppSettings.app_display_name app;
  Principals.app_public_url := AppSettings.app_public_url app;
|}.
End load.
