(* ===== verification/Email.v ===== *)
(** The e-mail feature ([features/email]): the template registry, the console
    adapter, the container, and the templates of the authentication feature
    ([features/authentication/email_templates]).  Jinja2 is a parameter. *)

From stdpp Require Import pretty.
From Stdlib Require Import Ascii String.
From S2P Require Import Prelude PyStr Uuid Json Store Redaction Settings Auth.
Open Scope string_scope.
Open Scope list_scope.
Open Scope Z_scope.

(** ** What the feature runs on *)

(** [pathlib.Path]: the directory and the last component. *)
Record path := mkPath { parent : string; file_name : string }.
Global Instance path_eq_dec : EqDecision path.
Proof. solve_decision. Defined.

(** The files of the deployment; they do not change while the process runs.
    Directories exist without being readable. *)
Class TemplateFiles := {
  path_exists : path → bool;
  path_read : path → option string;
  read_exists : ∀ p s, path_read p = Some s → path_exists p = true;
}.

(** Jinja2.  [compile] takes whether the output is escaped and the source, and fails
    with a message; rendering has the loader for [extends] and [include], and raises
    [TemplateError] or what an expression of the template raises. *)
Class Jinja := {
  Template : Type;
  compile : bool → string → string + Template;
  render_template : (string → option string) → Template → dict → outcome string;
}.

(** ** [application/registry.py] *)

Record _Entry := mkEntry { subject : string; body_path : path }.

Record EmailTemplateRegistry := mkRegistry {
  _entries : gmap string _Entry;
  _sealed : bool;
  _search_paths : list string;
}.
Definition new_registry : EmailTemplateRegistry := mkRegistry ∅ false [].

Record RenderedEmail := mkRenderedEmail { to : json; rendered_subject : string; body : string }.

Definition _guard_unsealed : M EmailTemplateRegistry unit := λ r,
  if _sealed r then (Raise (RuntimeError "EmailTemplateRegistry is sealed; register all templates before composition completes"), r)
  else (Ret tt, r).

(** [repr] of a string; what is not ASCII is taken to be printable. *)
Definition repr_char (quote c : ascii) : string :=
  let n := code c in
  if Ascii.eqb c quote || Ascii.eqb c backslash then String backslash (String c "")
  else if (n =? 9)%nat then String backslash "t"
  else if (n =? 10)%nat then String backslash "n"
  else if (n =? 13)%nat then String backslash "r"
  else if (n <? 32)%nat || (n =? 127)%nat then String backslash (String "x" (hex 2 (N.of_nat n)))
  else String c "".
Fixpoint repr_chars (quote : ascii) (s : string) : string :=
  match s with
  | "" => ""
  | String c s => repr_char quote c +:+ repr_chars quote s
  end.
Definition repr_str (s : string) : string :=
  let q := if contains_char "'" s && negb (contains_char quote s) then quote else "'"%char in
  String q (repr_chars q s +:+ String q "").

Section registry.
Context `{TemplateFiles}.

Definition register_template (name template_subject : string) (template_path : path) : M EmailTemplateRegistry unit :=
  _guard_unsealed ;;
  r ← gets id;
  if bool_decide (is_Some (_entries r !! name)) then raise (ValueError ("Email template " +:+ repr_str name +:+ " is already registered")) else
  if negb (path_exists template_path)
  then raise (FileNotFoundError ("Template file " +:+ parent template_path +:+ "/" +:+ file_name template_path +:+ " for "
                                 +:+ repr_str name +:+ " does not exist")) else
  modify (λ r, mkRegistry (<[name := mkEntry template_subject template_path]> (_entries r)) (_sealed r)
    (if bool_decide (parent template_path ∈ _search_paths r) then _search_paths r else _search_paths r ++ [parent template_path])).

Definition seal : M EmailTemplateRegistry unit := modify (λ r, mkRegistry (_entries r) true (_search_paths r)).

Definition registered_templates (r : EmailTemplateRegistry) : gset string := dom (_entries r).
Definition has (r : EmailTemplateRegistry) (name : string) : bool := bool_decide (is_Some (_entries r !! name)).

(** [FileSystemLoader] over the search paths: the first directory that has the file. *)
Fixpoint load_from (search_paths : list string) (name : string) : option string :=
  match search_paths with
  | [] => None
  | directory :: search_paths =>
      match path_read (mkPath directory name) with
      | Some source => Some source
      | None => load_from search_paths name
      end
  end.

Fixpoint ends_with (suffix s : string) : bool :=
  String.eqb s suffix || match s with "" => false | String _ s => ends_with suffix s end.
(** [select_autoescape(enabled_extensions=("html", "htm", "xml"), default_for_string=False)]. *)
Definition select_autoescape (template_name : option string) : bool :=
  match template_name with
  | None => false
  | Some name => existsb (λ extension, ends_with ("." +:+ extension) (lower name)) ["html"; "htm"; "xml"]
  end.

Context `{Jinja}.

Definition from_string {S} (source : string) : M S Template :=
  match compile (select_autoescape None) source with
  | inl reason => raise (TemplateError reason)
  | inr t => mret t
  end.
(** [TemplateNotFound] has the name as its message. *)
Definition get_template {S} (r : EmailTemplateRegistry) (name : string) : M S Template :=
  match load_from (_search_paths r) name with
  | None => raise (TemplateError name)
  | Some source =>
      match compile (select_autoescape (Some name)) source with
      | inl reason => raise (TemplateError reason)
      | inr t => mret t
      end
  end.
(** [template.render] with the context as keyword arguments. *)
Definition render_with {S} (r : EmailTemplateRegistry) (t : Template) (context : json) : M S string :=
  match context with
  | JObj context => lift (render_template (load_from (_search_paths r)) t context)
  | _ => raise TypeError
  end.

(** [self._entries.get(template_name)]: a value that has no hash raises. *)
Definition get_entry {S} (r : EmailTemplateRegistry) (template_name : json) : M S (option _Entry) :=
  match template_name with
  | JStr name => mret (_entries r !! name)
  | JList _ | JObj _ => raise TypeError
  | _ => mret None
  end.

Definition render {S} (r : EmailTemplateRegistry) (to template_name context : json) : M S RenderedEmail :=
  entry ← get_entry r template_name;
  match entry with
  | None => raise (UnknownTemplateError template_name)
  | Some entry =>
      '(subject_text, body_text) ← try_except
        (subject_template ← from_string (subject entry);
         body_template ← get_template r (file_name (body_path entry));
         subject_text ← render_with r subject_template context;
         body_text ← render_with r body_template context;
         mret (strip subject_text, body_text))
        (λ e, match e with TemplateError reason => raise (TemplateRenderError template_name reason) | e => raise e end);
      mret (mkRenderedEmail to subject_text body_text)
  end.
End registry.

(** ** [application/errors.py] *)

(** [repr] of what can be a key of the registry; a float is shown as it was written. *)
Definition repr (v : json) : string :=
  match v with
  | JNull => "None"
  | JBool true => "True"
  | JBool false => "False"
  | JInt z => pretty z
  | JFloat literal => literal
  | JStr s => repr_str s
  | JList _ | JObj _ => ""
  end.
Definition email_error_str (e : exn) : string :=
  match e with
  | UnknownTemplateError template_name => "Unknown email template: " +:+ repr template_name
  | TemplateRenderError template_name reason => "Failed to render template " +:+ repr template_name +:+ ": " +:+ reason
  | _ => ""
  end.

(** ** [adapters/outbound/console/adapter.py] *)

(** The two log lines, by their arguments. *)
Inductive LogLine :=
  | ConsoleSent (to : string) (template_name : json) (subject : string) (body_len : nat) (body_sha256 : string)
  | ConsoleBody (to : string) (template_name : json) (body : string).

(** [redact_email] of a value that may be no string. *)
Definition redact_address (v : json) : string :=
  match v with JStr addr => redact_email addr | _ => SAFE_EMAIL_FALLBACK end.

(** [len] of a string. *)
Definition str_len (s : string) : nat := length (default [] (codepoints s)).

Module ConsoleEmailAdapter.
Record t := mkConsole { registry : EmailTemplateRegistry; log_bodies : bool; environment : string }.

Section adapter.
Context `{Env} `{TemplateFiles} `{Jinja}.

Definition log (line : LogLine) : M (list LogLine) unit := modify (λ lines, lines ++ [line]).

Definition send (self : t) (to template_name context : json) : M (list LogLine) (Result unit exn) := λ lines,
  match render (registry self) to template_name context lines with
  | (Raise (UnknownTemplateError _ as exc), lines) => (Ret (Err exc), lines)
  | (Raise (TemplateRenderError _ _ as exc), lines) => (Ret (Err exc), lines)
  | (Raise e, lines) => (Raise e, lines)
  | (Ret message, lines) =>
      (log (ConsoleSent (redact_address (Email.to message)) template_name (rendered_subject message)
              (str_len (body message)) (sha256_hex (body message))) ;;
       when (log_bodies self && String.eqb (environment self) "development")
         (log (ConsoleBody (redact_address (Email.to message)) template_name (body message))) ;;
       mret (Ok tt)) lines
  end.

(** The port as the [send_email] handler uses it: of an error, its text. *)
Definition port (self : t) (to template_name context : json) : M (list LogLine) (Result unit string) :=
  result ← send self to template_name context;
  mret (result_map_err result email_error_str).
End adapter.
End ConsoleEmailAdapter.

(** ** [composition/container.py] *)

(** The container around the registry [r] that the features contribute to. *)
Definition build_email_container (settings : EmailSettings.EmailSettings) (environment : string) (r : EmailTemplateRegistry)
    : ConsoleEmailAdapter.t :=
  match EmailSettings.backend settings with
  | Console => ConsoleEmailAdapter.mkConsole r (EmailSettings.console_log_bodies settings) environment
  end.

(** ** [authentication/email_templates] *)

Definition register_authentication_email_templates `{TemplateFiles} (_TEMPLATES_DIR : string) : M EmailTemplateRegistry unit :=
  register_template PASSWORD_RESET_TEMPLATE "Reset your {{ app_name }} password" (mkPath _TEMPLATES_DIR "password_reset.txt") ;;
  register_template VERIFY_EMAIL_TEMPLATE "Verify your {{ app_name }} email" (mkPath _TEMPLATES_DIR "verify_email.txt").
