(* ===== verification/EmailFacts.v ===== *)
(** The mails the authentication feature queues are rendered and handed over by the
    worker's handler; how a template name is resolved to a file. *)

From stdpp Require Import pretty.
From Stdlib Require Import Ascii String.
From S2P Require Import Prelude PyStr Uuid Json JsonFacts Store StoreFacts Outbox Users UsersFacts Redaction Settings Principals Auth AuthRepoFacts AuthFacts RefreshFamilies AuthTokens Files Jobs JobsFacts Demo DemoAuth Email.
Open Scope string_scope.
Open Scope list_scope.
Open Scope Z_scope.

(** ** The language of templates in use *)

(** Text and variables, as in [{{ name }}]. *)
Inductive piece := Text (s : string) | Var (x : string).
Definition piece_source (p : piece) : string := match p with Text s => s | Var x => "{{ " +:+ x +:+ " }}" end.
Definition source (ps : list piece) : string := foldr (λ p s, piece_source p +:+ s) "" ps.

(** No delimiter starts in a text, and a name is none that Jinja2 gives a meaning. *)
Definition reserved : list string :=
  ["true"; "false"; "none"; "not"; "and"; "or"; "if"; "else"; "elif"; "in"; "is"; "for"; "import"; "from"; "as"; "with"; "self";
   "range"; "dict"; "lipsum"; "cycler"; "joiner"; "namespace"; "loop"; "super"; "caller"; "varargs"; "kwargs"].
Definition plain_char (c : ascii) : bool := negb (Ascii.eqb c "{" || (code c =? 13)%nat).
Definition ident_char (c : ascii) : bool := is_lower c || Ascii.eqb c "_".
Definition piece_ok (p : piece) : bool :=
  match p with
  | Text s => str_forall plain_char s
  | Var x => negb (String.eqb x "") && str_forall ident_char x && negb (str_in x reserved)
  end.

(** [str] of a string, and of an integer that is not enormous. *)
Definition value_text (v : json) : option string :=
  match v with
  | JStr s => Some s
  | JInt z => if Z.abs z <? 10 ^ 18 then Some (pretty z) else None
  | _ => None
  end.
Fixpoint expand (context : dict) (ps : list piece) : option string :=
  match ps with
  | [] => Some ""
  | Text s :: ps => (λ t, s +:+ t) <$> expand context ps
  | Var x :: ps => v ← dict_get context x; s ← value_text v; (λ t, s +:+ t) <$> expand context ps
  end.

(** What Jinja2 documents of such templates, unescaped and with [StrictUndefined]. *)
Class JinjaLaws `{Jinja} : Prop := {
  render_plain : ∀ loader context ps s, forallb piece_ok ps = true → dict_get context "self" = None → expand context ps = Some s →
    ∃ t, compile false (source ps) = inr t ∧ render_template loader t context = Ret s;
  render_undefined : ∀ loader context ps x, forallb piece_ok ps = true → dict_get context "self" = None →
    Var x ∈ ps → dict_get context x = None →
    ∃ t reason, compile false (source ps) = inr t ∧ render_template loader t context = Raise (TemplateError reason);
}.

(** The files as deployed. *)
Definition password_reset_txt : list piece := [
  Text "Hi,

We received a request to reset the password for your account ("; Var "email"; Text ").

Use the link below within "; Var "expires_in_minutes"; Text " minutes to choose a new password:

"; Var "reset_url"; Text "

If you did not request a reset you can ignore this message; your password will not be changed.

— "; Var "app_name"; Text "
"].
Definition verify_email_txt : list piece := [
  Text "Hi,

Please confirm the email address for your account ("; Var "email"; Text ").

Click the link below within "; Var "expires_in_minutes"; Text " minutes to verify it:

"; Var "verify_url"; Text "

If you did not create an account you can ignore this message.

— "; Var "app_name"; Text "
"].

(** ** Rendering *)

Section mails.
Context `{Env} `{TemplateFiles} `{Jinja} `{!JinjaLaws}.

Lemma run_render {S} r to name e ps qs context subject_text body_text (s : S) :
  _entries r !! name = Some e → subject e = source ps → load_from (_search_paths r) (file_name (body_path e)) = Some (source qs) →
  select_autoescape (Some (file_name (body_path e))) = false →
  forallb piece_ok ps = true → forallb piece_ok qs = true → dict_get context "self" = None →
  expand context ps = Some subject_text → expand context qs = Some body_text →
  render r to (JStr name) (JObj context) s = (Ret (mkRenderedEmail to (strip subject_text) body_text), s).
Proof.
  intros He Hs Hl Ha Hps Hqs Hself Hsubject Hbody. unfold render, get_entry. rewrite run_bind run_ret He run_bind.
  unfold try_except, from_string, get_template. rewrite Hl Ha Hs. cbn [select_autoescape].
  destruct (render_plain (load_from (_search_paths r)) context ps _ Hps Hself Hsubject) as (t & -> & Ht).
  destruct (render_plain (load_from (_search_paths r)) context qs _ Hqs Hself Hbody) as (u & -> & Hu).
  rewrite run_bind run_ret run_bind run_ret run_bind. unfold render_with, lift. rewrite Ht. rewrite run_bind Hu. done.
Qed.

(** A missing variable is an error of the template, whatever text there is. *)
Lemma run_render_undefined {S} r to name e ps context x (s : S) :
  _entries r !! name = Some e → subject e = source ps → Var x ∈ ps → forallb piece_ok ps = true → dict_get context "self" = None →
  dict_get context x = None →
  ∃ reason, render r to (JStr name) (JObj context) s = (Raise (TemplateRenderError (JStr name) reason), s).
Proof.
  intros He Hs Hx Hps Hself Hno. unfold render, get_entry. rewrite run_bind run_ret He run_bind.
  destruct (render_undefined (load_from (_search_paths r)) context ps x Hps Hself Hx Hno) as (t & reason & Ht & Hr).
  unfold try_except, from_string. rewrite Hs. cbn [select_autoescape]. rewrite Ht run_bind run_ret run_bind.
  unfold get_template. destruct (load_from _ _) as [text|]; [|by eexists].
  destruct (compile _ text) as [|u]; [by eexists|]. rewrite run_ret run_bind. unfold render_with, lift. rewrite Hr. by eexists.
Qed.

(** ** The deployed templates *)

Context (dir : string).
Definition deployed : Prop :=
  path_read (mkPath dir "password_reset.txt") = Some (source password_reset_txt) ∧
  path_read (mkPath dir "verify_email.txt") = Some (source verify_email_txt).

(** The registry after start-up. *)
Definition auth_registry : EmailTemplateRegistry :=
  mkRegistry (<[VERIFY_EMAIL_TEMPLATE := mkEntry "Verify your {{ app_name }} email" (mkPath dir "verify_email.txt")]>
    {[PASSWORD_RESET_TEMPLATE := mkEntry "Reset your {{ app_name }} password" (mkPath dir "password_reset.txt")]}) true [dir].

Lemma run_register_template name subject p r :
  _sealed r = false → _entries r !! name = None → path_exists p = true →
  register_template name subject p r =
    (Ret tt, mkRegistry (<[name := mkEntry subject p]> (_entries r)) false
       (if bool_decide (parent p ∈ _search_paths r) then _search_paths r else _search_paths r ++ [parent p])).
Proof.
  intros Hs Hn Hp. unfold register_template, _guard_unsealed. rewrite run_bind Hs run_bind run_gets. cbn [id].
  rewrite Hn bool_decide_eq_false_2; [|by intros []]. rewrite Hp. cbn. unfold modify. by rewrite Hs.
Qed.
Lemma run_registration :
  deployed → (register_authentication_email_templates dir ;; seal) new_registry = (Ret tt, auth_registry).
Proof.
  intros [Hr Hv]. unfold register_authentication_email_templates. rewrite !run_bind run_register_template //; [|by eapply read_exists].
  rewrite run_register_template; [|done| |by eapply read_exists].
  - cbn. rewrite bool_decide_eq_true_2; [done|set_solver].
  - cbn. by rewrite lookup_insert_ne // lookup_empty.
Qed.

(** ** What is sent *)

Implicit Types (cfg : AuthSettings) (w v : World) (u : User) (c : ConsoleEmailAdapter.t) (lines : list LogLine).

Lemma rstrip_keeps P s a : P a = false → rstrip_by P (s +:+ String a "") = s +:+ String a "".
Proof.
  intros Ha. induction s as [|b s IH]; [change ("" +:+ String a "") with (String a ""); cbn; by rewrite Ha|].
  rewrite app_cons. cbn [rstrip_by]. rewrite IH. by destruct s.
Qed.
Lemma strip_keeps a s b : is_space a = false → is_space b = false → strip (String a (s +:+ String b "")) = String a (s +:+ String b "").
Proof.
  intros Ha Hb. unfold strip, strip_by. cbn [lstrip_by]. rewrite Ha.
  exact (rstrip_keeps is_space (String a s) b Hb).
Qed.

Definition reset_subject (app_name : string) : string := "Reset your " +:+ app_name +:+ " password".
Definition verify_subject (app_name : string) : string := "Verify your " +:+ app_name +:+ " email".
Lemma strip_reset_subject a : strip (reset_subject a) = reset_subject a.
Proof.
  unfold reset_subject. change (strip (String "R" ("eset your " +:+ (a +:+ " password"))) = String "R" ("eset your " +:+ (a +:+ " password"))).
  change " password" with (" passwor" +:+ "d"). rewrite -!app_string_assoc. by apply strip_keeps.
Qed.
Lemma strip_verify_subject a : strip (verify_subject a) = verify_subject a.
Proof.
  unfold verify_subject. change (strip (String "V" ("erify your " +:+ (a +:+ " email"))) = String "V" ("erify your " +:+ (a +:+ " email"))).
  change " email" with (" emai" +:+ "l"). rewrite -!app_string_assoc. by apply strip_keeps.
Qed.

(** The lines of a mail: the link is in the body, of which the log shows the length
    and the digest, and the text only where an operator of a development
    environment asked for it. *)
Definition sent_lines c u template subject body : list LogLine :=
  ConsoleSent (redact_email (u_email u)) (JStr template) subject (str_len body) (sha256_hex body) ::
  if ConsoleEmailAdapter.log_bodies c && String.eqb (ConsoleEmailAdapter.environment c) "development"
  then [ConsoleBody (redact_email (u_email u)) (JStr template) body] else [].

(** One message was queued, and whichever claim it is dispatched by, the worker sends
    that mail at the first delivery and nothing at the next ones. *)
Definition queues_mail c del w w' u template subject body : Prop :=
  ∃ k msg, outbox_messages (w_db w) !! k = None ∧ outbox_messages (w_db w') = <[k := msg]> (outbox_messages (w_db w)) ∧
    ∀ now worker v lines, uuid_ok k → db_ok (w_db v) →
      InProcessJobQueueAdapter.enqueue (worker_registry (ConsoleEmailAdapter.port c) del) (ob_job_name msg)
        (DispatchPending.dispatched_payload (SQLModelOutboxRepository.to_message now worker (k, msg))) (v, lines) =
      let v := log_event (EvMetric JOBS_ENQUEUED_TOTAL SEND_EMAIL_JOB) v in
      match processed_messages (w_db v) !! k with
      | None => (Ret tt, (marked k v, lines ++ sent_lines c u template subject body))
      | Some _ => (Ret tt, (tick v, lines))
      end.

Definition mail_context cfg u (key url : string) (lifetime : Z) : dict :=
  [("app_name", JStr (app_display_name cfg)); ("email", JStr (u_email u)); (key, JStr url); ("expires_in_minutes", JInt lifetime)].

Lemma run_port c u template subject_text body_text context lines :
  (∀ lines, render (ConsoleEmailAdapter.registry c) (JStr (u_email u)) (JStr template) context lines =
     (Ret (mkRenderedEmail (JStr (u_email u)) subject_text body_text), lines)) →
  ConsoleEmailAdapter.port c (JStr (u_email u)) (JStr template) context lines =
    (Ret (Ok tt), lines ++ sent_lines c u template subject_text body_text).
Proof.
  intros Hr. unfold ConsoleEmailAdapter.port, ConsoleEmailAdapter.send, sent_lines. rewrite run_bind Hr.
  unfold when. cbn [rendered_subject body Email.to redact_address]. rewrite run_bind.
  destruct (_ && _); unfold mbind, M_bind, mret, M_ret; cbn; by rewrite -?app_assoc.
Qed.

Lemma dispatched_lookup now worker k msg key :
  key ≠ OUTBOX_MESSAGE_ID_KEY → key ≠ TRACE_KEY →
  DispatchPending.dispatched_payload (SQLModelOutboxRepository.to_message now worker (k, msg)) !! key = ob_payload msg !! key.
Proof.
  intros Hid Htrace. unfold DispatchPending.dispatched_payload. cbn.
  destruct (ob_payload msg !! OUTBOX_MESSAGE_ID_KEY); case_match; rewrite ?lookup_insert_ne //.
Qed.
Lemma dispatched_id now worker k msg :
  ob_payload msg !! OUTBOX_MESSAGE_ID_KEY = None →
  DispatchPending.dispatched_payload (SQLModelOutboxRepository.to_message now worker (k, msg)) !! OUTBOX_MESSAGE_ID_KEY = Some (JStr (uuid_str k)).
Proof.
  intros Hn. unfold DispatchPending.dispatched_payload. cbn. rewrite Hn.
  destruct (_ && _); [rewrite lookup_insert_ne; [|done]|]; by rewrite lookup_insert_eq.
Qed.

Lemma issue_queues_mail cfg c del u purpose event template key url lifetime raw expires ip w0 w subject_text body_text :
  db_ok (w_db w) → drawn_fresh w → is_Some (users (w_db w) !! u_id u) →
  (∀ i r, internal_tokens (w_db w) !! i = Some r → it_token_hash r ≠ hash_token raw) → w_db w0 = w_db w →
  (∀ lines, render (ConsoleEmailAdapter.registry c) (JStr (u_email u)) (JStr template) (JObj (mail_context cfg u key url lifetime)) lines =
     (Ret (mkRenderedEmail (JStr (u_email u)) subject_text body_text), lines)) →
  ∃ w', issue_internal cfg u purpose event template key url lifetime raw expires ip w = (Ret tt, w') ∧
    queues_mail c del w0 w' u template subject_text body_text.
Proof.
  intros Hok Hfr Hu Hraw Hw0 Hrender.
  destruct (run_issue_internal cfg u purpose event template key url lifetime raw expires ip w) as
    (w' & _ & _ & k & msg & E & _ & _ & _ & _ & _ & _ & _ & _ & _ & _ & _ & _ & Hk & Hob & _ & Hjob & _ & _ & Hp); [done..|].
  exists w'. split; [done|]. exists k, msg. rewrite Hw0. split_and!; [done..|]. intros now worker v lines Huuid Hv.
  rewrite Hjob run_enqueue. unfold worker_handler. rewrite String.eqb_refl run_bind run_on_fst run_metric.
  rewrite (deduplicates_send _ k) //.
  2: { apply dispatched_id. by rewrite Hp. }
  destruct (processed_messages _ !! k); [done|]. unfold send_email_handler. rewrite run_bind. cbn [goes_on].
  unfold on_fst at 1. cbn [mret M_ret fst snd negb]. unfold item. rewrite run_bind !dispatched_lookup // Hp.
  change (list_to_map _ !! "to") with (Some (JStr (u_email u))). change (list_to_map _ !! "template_name") with (Some (JStr template)).
  change (list_to_map _ !! "context") with (Some (JObj (mail_context cfg u key url lifetime))).
  cbn [default]. rewrite run_ret run_bind run_ret run_bind. unfold on_snd. cbn [fst snd].
  by rewrite (run_port c u template subject_text body_text).
Qed.

(** ** The property *)

Definition mail_body (txt : list piece) (context : dict) : string := default "" (expand context txt).
Definition has_link (text url : string) : Prop := ∃ before after, text = before +:+ url +:+ after.

Lemma lifetime_text n : timedelta_ok (minutes n) = true → value_text (JInt n) = Some (pretty n).
Proof.
  unfold timedelta_ok, minutes, day, second. intros [Hlo Hhi]%andb_prop. cbn.
  rewrite (proj2 (Z.ltb_lt _ _)); [done|]. lia.
Qed.

Lemma expand_app context ps qs : expand context (ps ++ qs) = s ← expand context ps; t ← expand context qs; Some (s +:+ t).
Proof.
  induction ps as [|[s|x] ps IH]; cbn; [by destruct (expand context qs)|..].
  - rewrite IH. destruct (expand context ps); cbn; [|done]. destruct (expand context qs); cbn; [|done]. by rewrite app_string_assoc.
  - destruct (dict_get context x) as [v|]; cbn; [|done]. destruct (value_text v) as [s|]; cbn; [|done].
    rewrite IH. destruct (expand context ps); cbn; [|done]. destruct (expand context qs); cbn; [|done]. by rewrite app_string_assoc.
Qed.
(** A variable of the template puts its value into the text. *)
Lemma expand_link context ps x qs url text :
  dict_get context x = Some (JStr url) → expand context (ps ++ Var x :: qs) = Some text → has_link text url.
Proof.
  rewrite expand_app. cbn. intros ->. cbn. destruct (expand context ps) as [s|]; cbn; [|done].
  destruct (expand context qs) as [t|]; cbn; [|done]. intros [= <-]. by exists s, t.
Qed.

Lemma link_in_mail cfg u key url n ps qs :
  dict_get (mail_context cfg u key url n) key = Some (JStr url) → is_Some (expand (mail_context cfg u key url n) (ps ++ Var key :: qs)) →
  has_link (mail_body (ps ++ Var key :: qs) (mail_context cfg u key url n)) url.
Proof. intros Hk [text Ht]. unfold mail_body. rewrite Ht. by eapply expand_link. Qed.

(** A request for a mail of the template [qs] with the subject [ps]. *)
Lemma auth_request_sends c cfg del u purpose event template key url lifetime raw expires ip w0 w ps qs file subject_text :
  ConsoleEmailAdapter.registry c = auth_registry → _entries auth_registry !! template = Some (mkEntry (source ps) (mkPath dir file)) →
  path_read (mkPath dir file) = Some (source qs) → select_autoescape (Some file) = false → forallb piece_ok (ps ++ qs) = true →
  dict_get (mail_context cfg u key url lifetime) "self" = None →
  expand (mail_context cfg u key url lifetime) ps = Some subject_text →
  is_Some (expand (mail_context cfg u key url lifetime) qs) →
  db_ok (w_db w) → drawn_fresh w → is_Some (users (w_db w) !! u_id u) →
  (∀ i r, internal_tokens (w_db w) !! i = Some r → it_token_hash r ≠ hash_token raw) → w_db w0 = w_db w →
  ∃ w', issue_internal cfg u purpose event template key url lifetime raw expires ip w = (Ret tt, w') ∧
    queues_mail c del w0 w' u template (strip subject_text) (mail_body qs (mail_context cfg u key url lifetime)).
Proof.
  intros Hc He Hf Ha Hpieces Hself Hs [text Hb] Hok Hfr Hu Hraw Hw0.
  rewrite forallb_app in Hpieces. apply andb_prop in Hpieces as [Hps Hqs].
  apply issue_queues_mail; [done..|]. intros lines. rewrite Hc. unfold mail_body. rewrite Hb.
  eapply run_render; [exact He|done|..|exact Hs|exact Hb]; try done. cbn. by rewrite Hf.
Qed.

Lemma entry_reset : _entries auth_registry !! PASSWORD_RESET_TEMPLATE =
  Some (mkEntry (source [Text "Reset your "; Var "app_name"; Text " password"]) (mkPath dir "password_reset.txt")).
Proof. cbn. by rewrite lookup_insert_ne // lookup_singleton_eq. Qed.
Lemma entry_verify : _entries auth_registry !! VERIFY_EMAIL_TEMPLATE =
  Some (mkEntry (source [Text "Verify your "; Var "app_name"; Text " email"]) (mkPath dir "verify_email.txt")).
Proof. cbn. by rewrite lookup_insert_eq. Qed.

(** C21. The mails of the authentication feature arrive: after start-up on the deployed
    files, each request for a reset or a verification by a known account queues one
    message that the worker renders and sends to the stored address at its first
    delivery, with a link that carries the token, and does not send again.  The log
    has the address redacted and the body only as its length and digest, unless an
    operator asked for bodies in a development environment. *)
Theorem auth_mails_are_sent cfg c del email i ip w :
  deployed → ConsoleEmailAdapter.registry c = auth_registry →
  config_ok cfg → verify_lifetime_ok cfg → db_ok (w_db w) → drawn_fresh w →
  (register_authentication_email_templates dir ;; seal) new_registry = (Ret tt, auth_registry) ∧
  (∀ u, find_email (normalize_email email) (w_db w) = Some u →
     ∃ res w' body, RequestPasswordReset.execute cfg email ip w = (Ret (Ok res), w') ∧
       queues_mail c del w w' u PASSWORD_RESET_TEMPLATE (reset_subject (app_display_name cfg)) body ∧
       has_link body (RequestPasswordReset.reset_url (app_public_url cfg) (token_at (w_tokens w)))) ∧
  (∀ u, find_user i (w_db w) = Some u →
     ∃ res w' body, RequestEmailVerification.execute cfg i ip w = (Ret (Ok res), w') ∧
       queues_mail c del w w' u VERIFY_EMAIL_TEMPLATE (verify_subject (app_display_name cfg)) body ∧
       has_link body (RequestEmailVerification.verify_url (app_public_url cfg) (token_at (w_tokens w)))).
Proof.
  intros Hfiles Hc Hcfg Hlife Hok Hfr. split; [by apply run_registration|]. destruct Hfiles as [Hreset Hverify].
  assert (Hraw : ∀ j r, internal_tokens (w_db (request_drawn w)) !! j = Some r → it_token_hash r ≠ hash_token (token_at (w_tokens w))).
  { intros j r. apply (fresh_internal_hash w Hfr (w_tokens w) j r). done. }
  split; intros u Hu.
  - rewrite (run_request_reset _ _ _ _ u) // run_bind. destruct (find_email_user _ _ _ Hu) as (r & Hr & _).
    pose proof (lifetime_text _ (proj1 (config_reset _ Hcfg))) as Hn.
    match goal with |- context [issue_internal cfg u ?p ?e ?t ?uk ?url ?n ?raw ?ex ip _] =>
      destruct (auth_request_sends c cfg del u p e t uk url n raw ex ip w (request_drawn w) _ _ _ (reset_subject (app_display_name cfg))
        Hc entry_reset Hreset eq_refl eq_refl eq_refl eq_refl) as (w' & E & Hq) end;
      [cbn -[value_text]; by rewrite Hn|exact Hok|by apply drawn_fresh_request|by rewrite Hr|exact Hraw|reflexivity|].
    rewrite strip_reset_subject in Hq.
    rewrite E. eexists _, w', _. split_and!; [done|exact Hq|].
    apply (link_in_mail cfg u "reset_url" _ _ (take 5 password_reset_txt) (drop 6 password_reset_txt)); [reflexivity|cbn -[value_text]; by rewrite Hn].
  - rewrite (run_request_verification _ _ _ _ u) // run_bind.
    assert (is_Some (users (w_db w) !! u_id u)) as Hr.
    { unfold find_user in Hu. destruct (users (w_db w) !! i) as [r|] eqn:Er; [|done]. destruct (user_is_erased r); simplify_eq. by rewrite Er. }
    pose proof (lifetime_text _ (proj1 Hlife)) as Hn.
    match goal with |- context [issue_internal cfg u ?p ?e ?t ?uk ?url ?n ?raw ?ex ip _] =>
      destruct (auth_request_sends c cfg del u p e t uk url n raw ex ip w (request_drawn w) _ _ _ (verify_subject (app_display_name cfg))
        Hc entry_verify Hverify eq_refl eq_refl eq_refl eq_refl) as (w' & E & Hq) end;
      [cbn -[value_text]; by rewrite Hn|exact Hok|by apply drawn_fresh_request|exact Hr|exact Hraw|reflexivity|].
    rewrite strip_verify_subject in Hq.
    rewrite E. eexists _, w', _. split_and!; [done|exact Hq|].
    apply (link_in_mail cfg u "verify_url" _ _ (take 5 verify_email_txt) (drop 6 verify_email_txt)); [reflexivity|cbn -[value_text]; by rewrite Hn].
Qed.

(** ** Files of the same name *)

(** The file of a template is looked up by its bare name in the directories of all
    templates, so of two templates with files of one name in two directories, which
    both register, the second is rendered from the file of the first. *)
Theorem same_file_name_is_shadowed {S} n1 n2 s1 d1 d2 f ps qs other context subject_text body_text to (s : S) :
  n1 ≠ n2 → d1 ≠ d2 → select_autoescape (Some f) = false →
  path_read (mkPath d1 f) = Some (source qs) → path_read (mkPath d2 f) = Some other →
  forallb piece_ok ps = true → forallb piece_ok qs = true → dict_get context "self" = None →
  expand context ps = Some subject_text → expand context qs = Some body_text →
  let registration := register_template n1 s1 (mkPath d1 f) ;; register_template n2 (source ps) (mkPath d2 f) ;; seal in
  result_of registration new_registry = Ret tt ∧
  render (state_of registration new_registry) to (JStr n2) (JObj context) s =
    (Ret (mkRenderedEmail to (strip subject_text) body_text), s).
Proof.
  intros Hn Hd Ha H3 H4 Hps Hqs Hself Hs Hb registration.
  assert (E : registration new_registry =
    (Ret tt, mkRegistry (<[n2 := mkEntry (source ps) (mkPath d2 f)]> {[n1 := mkEntry s1 (mkPath d1 f)]}) true [d1; d2])).
  { unfold registration. rewrite !run_bind run_register_template //; [|by eapply read_exists]. rewrite run_bind run_register_template //; [| |by eapply read_exists].
    - cbn. rewrite bool_decide_eq_false_2; [done|set_solver].
    - cbn. by rewrite lookup_insert_ne // lookup_empty. }
  unfold result_of, state_of. rewrite E. split; [done|].
  eapply run_render; [apply lookup_insert_eq|done|..|exact Hs|exact Hb]; try done. cbn. by rewrite H3.
Qed.
End mails.

(** ** A small template language *)

(** [None] is outside of braces, [Some x] between them with the name read so far. *)
Fixpoint scan (context : dict) (name : option string) (s : string) : option string :=
  match s with
  | "" => Some ""
  | String c s =>
      match name with
      | None => if Ascii.eqb c "{" then scan context (Some "") s else String c <$> scan context None s
      | Some x =>
          if Ascii.eqb c "{" || Ascii.eqb c " " then scan context (Some x) s
          else if Ascii.eqb c "}" then
            match s with
            | String _ s => v ← dict_get context x; t ← value_text v; (λ u, t +:+ u) <$> scan context None s
            | "" => Some ""
            end
          else scan context (Some (x +:+ String c "")) s
      end
  end.

#[global] Instance demo_jinja : Jinja := {|
  Template := string;
  compile _ text := inr text;
  render_template _ text context := match scan context None text with Some s => Ret s | None => Raise (TemplateError "undefined") end;
|}.

Lemma scan_text context s rest :
  str_forall plain_char s = true → scan context None (s +:+ rest) = (λ t, s +:+ t) <$> scan context None rest.
Proof.
  induction s as [|c s IH]; [intros _; rewrite app_nil_string; by destruct (scan context None rest)|].
  intros [Hc Hs]%andb_prop. rewrite app_cons. cbn [scan]. unfold plain_char in Hc. destruct (Ascii.eqb c "{"); [done|].
  rewrite IH //. by destruct (scan context None rest).
Qed.
Lemma scan_name context x y rest :
  str_forall ident_char y = true → scan context (Some x) (y +:+ " }}" +:+ rest) =
    v ← dict_get context (x +:+ y); t ← value_text v; (λ u, t +:+ u) <$> scan context None rest.
Proof.
  revert x. induction y as [|c y IH]; intros x Hy; [by rewrite app_string_nil_r|].
  cbn in Hy. apply andb_prop in Hy as [Hc Hy]. rewrite app_cons. cbn [scan].
  assert (Ascii.eqb c "{" || Ascii.eqb c " " = false ∧ Ascii.eqb c "}" = false) as [-> ->].
  { revert Hc. clear. destruct c as [[] [] [] [] [] [] [] []]; vm_compute; done. }
  rewrite IH //. by rewrite app_string_assoc.
Qed.
Lemma scan_source context ps :
  forallb piece_ok ps = true → scan context None (source ps) = expand context ps.
Proof.
  induction ps as [|[s|x] ps IH]; [done|..]; cbn [forallb piece_ok source foldr piece_source expand]; intros [Hp Hps]%andb_prop.
  - rewrite scan_text // IH //.
  - apply andb_prop in Hp as [[_ Hx]%andb_prop _]. rewrite !app_string_assoc.
    transitivity (scan context (Some "") (x +:+ " }}" +:+ source ps)); [done|]. rewrite scan_name // IH //.
Qed.

#[global] Instance demo_jinja_laws : JinjaLaws.
Proof.
  split.
  - intros loader context ps s Hps _ He. exists (source ps). split; [done|]. cbn -[scan]. rewrite scan_source // He //.
  - intros loader context ps x Hps _ Hx Hn. exists (source ps), "undefined". split; [done|]. cbn -[scan]. rewrite scan_source //.
    assert (expand context ps = None) as ->; [|done].
    induction ps as [|p ps IH]; [by apply not_elem_of_nil in Hx|]. cbn in Hps. apply andb_prop in Hps as [_ Hps].
    apply elem_of_cons in Hx as [<-|Hx]; cbn; [by rewrite Hn|]. rewrite IH //. destruct p as [s|y]; [done|].
    destruct (dict_get context y) as [v|]; [|done]. cbn -[value_text]. by destruct (value_text v).
Qed.

#[global] Instance demo_files : TemplateFiles.
Proof.
  refine {| path_exists p := bool_decide (parent p = "/app/templates");
            path_read p := if bool_decide (parent p = "/app/templates") then
              if String.eqb (file_name p) "password_reset.txt" then Some (source password_reset_txt)
              else if String.eqb (file_name p) "verify_email.txt" then Some (source verify_email_txt) else None
              else None |}.
  intros p s. by destruct (bool_decide _).
Defined.

Definition demo_console : ConsoleEmailAdapter.t := ConsoleEmailAdapter.mkConsole (auth_registry "/app/templates") false "staging".

Lemma demo_verify_lifetime_ok : verify_lifetime_ok demo_settings.
Proof.
  split; [vm_compute; reflexivity|]. intros k. unfold datetime_ok. cbn -[Z.mul Z.add Z.min].
  unfold demo_epoch, minutes, day, second. rewrite andb_true_iff Z.leb_le Z.ltb_lt. lia.
Qed.

Lemma auth_mails_are_sent_witness :
  ∃ res w' body u, RequestPasswordReset.execute demo_settings " ADA@example.com" None demo_registered = (Ret (Ok res), w') ∧
    queues_mail demo_console (λ _, mret (Ok tt)) demo_registered w' u PASSWORD_RESET_TEMPLATE (reset_subject "App") body.
Proof.
  destruct (auth_mails_are_sent "/app/templates" demo_settings demo_console (λ _, mret (Ok tt)) " ADA@example.com" 1000%N None demo_registered)
    as (_ & Hreset & _); [by split|done|exact demo_config_ok|exact demo_verify_lifetime_ok|by_eval|
      apply demo_drawn_fresh; by_eval|].
  destruct (find_email (normalize_email " ADA@example.com") (w_db demo_registered)) as [u|] eqn:Hu; [|vm_compute in Hu; discriminate Hu].
  destruct (Hreset u eq_refl) as (res & w' & body & E & Hq & _). exists res, w', body, u. split; [exact E|exact Hq].
Defined.
