(* ===== verification/Startup.v ===== *)
(** What a web process does with its settings before it serves: the checks and
    choices of the authentication container ([authentication/composition/
    container.py]) and the seeding of an administrator ([main.py]). *)

From Stdlib Require Import String.
From S2P Require Import Prelude PyStr Uuid Store Users Principals AuthRepo Auth Authz Http Settings.
Open Scope string_scope.
Open Scope list_scope.
Open Scope Z_scope.

(** ** [build_auth_container] *)

Module AuthContainer.
(** Where limiters and cache keep their state, and the budgets. *)
Inductive Backend := Redis (url : string) | InMemory.
Record Budget := mkBudget { max_attempts : Z; window_seconds : Z }.
Record AuthBackends := mkBackends {
  backend : Backend;
  rate_limiter : Budget;
  per_account_login_limiter : Budget;
  per_account_reset_limiter : Budget;
  per_account_verify_limiter : Budget;
  principal_cache_ttl : Z;
}.

Section build.
Context {S : Type}.
Implicit Types settings : AppSettings.

Definition check_internal_token_exposure settings : M S unit :=
  if negb (AppSettings.auth_return_internal_tokens settings) then mret tt else
  if bool_decide (AppSettings.environment settings = Production)
  then raise (RuntimeError "APP_AUTH_RETURN_INTERNAL_TOKENS=true is forbidden in production")
  else mret tt.

(** The budgets are the same for both kinds; a limiter without arguments allows
    five attempts a minute. *)
Definition backends_on settings (b : Backend) : AuthBackends := {|
  backend := b;
  rate_limiter := mkBudget 5 60;
  per_account_login_limiter := mkBudget (AppSettings.auth_per_account_login_max_attempts settings)
    (AppSettings.auth_per_account_login_window_seconds settings);
  per_account_reset_limiter := mkBudget (AppSettings.auth_per_account_reset_max_attempts settings)
    (AppSettings.auth_per_account_reset_window_seconds settings);
  per_account_verify_limiter := mkBudget (AppSettings.auth_per_account_verify_max_attempts settings)
    (AppSettings.auth_per_account_verify_window_seconds settings);
  principal_cache_ttl := AppSettings.auth_principal_cache_ttl_seconds settings;
|}.

Definition choose_backends settings : M S AuthBackends :=
  match AppSettings.auth_redis_url settings with
  | Some (String _ _ as url) => mret (backends_on settings (Redis url))
  | _ =>
      when (AppSettings.auth_rate_limit_enabled settings && AppSettings.auth_require_distributed_rate_limit settings &&
            bool_decide (AppSettings.environment settings = Production))
        (raise (RuntimeError
           "APP_AUTH_REQUIRE_DISTRIBUTED_RATE_LIMIT is true but APP_AUTH_REDIS_URL is not configured")) ;;
      mret (backends_on settings InMemory)
  end.

Definition build_auth_container settings : M S AuthBackends :=
  if negb (truthy (AppSettings.auth_jwt_secret_key settings))
  then raise (RuntimeError "APP_AUTH_JWT_SECRET_KEY is required at startup") else
  AccessTokenService.init (auth_settings settings) ;;
  check_internal_token_exposure settings ;;
  choose_backends settings.
End build.
End AuthContainer.

(** ** [main.py] *)

Section main.
Context `{Env} {C : Type}.
(** The bootstrap as the authorization container wires it, for [promote_existing]. *)
Context (bootstrap : bool → string → string → M (World * C) (Result uuid BootstrapError)).
Implicit Types settings : AppSettings.

(** [_run_authz_bootstrap]. *)
Definition run_authz_bootstrap settings : M (World * C) unit :=
  if negb (AppSettings.auth_seed_on_startup settings) then mret tt else
  let email := AppSettings.auth_bootstrap_super_admin_email settings in
  let password := AppSettings.auth_bootstrap_super_admin_password settings in
  if negb (Bool.eqb (truthy email) (truthy password))
  then raise (RuntimeError "APP_AUTH_BOOTSTRAP_SUPER_ADMIN_EMAIL and APP_AUTH_BOOTSTRAP_SUPER_ADMIN_PASSWORD must be set together.")
  else
  match email, password with
  | Some (String _ _ as email), Some (String _ _ as password) =>
      result ← bootstrap (AppSettings.auth_bootstrap_promote_existing settings) email password;
      match result with
      | Ok _ => mret tt
      | Err (BootstrapRefusedExistingUserError _ _) => raise (SystemExit 2)
      | Err (BootstrapPasswordMismatchError _) => raise (SystemExit 2)
      end
  | _, _ => mret tt
  end.

(** The steps of the lifespan that can refuse on account of the settings, in
    their order; between them the features' objects are built. *)
Definition start settings : M (World * C) AuthContainer.AuthBackends :=
  backends ← AuthContainer.build_auth_container settings;
  run_authz_bootstrap settings ;;
  mret backends.
End main.
