(* ===== verification/StartupFacts.v ===== *)
(** Which processes start, and what a start does to the accounts. *)

From Stdlib Require Import String.
From S2P Require Import Prelude PyStr Uuid Store StoreFacts Demo Outbox Users UsersFacts AuthRepo AuthRepoFacts Principals DemoAuth PrincipalsFacts Auth RefreshFamilies Authz AuthzFacts Bootstrap Http Settings SettingsFacts Startup.
Open Scope string_scope.
Open Scope list_scope.
Open Scope Z_scope.

(** ** The container *)

Section container.
Context {S : Type} (s : S).
Import AuthContainer.
Implicit Types settings : AppSettings.

(** A container is built exactly when there is a secret, the algorithm is a known
    one, and production neither shows tokens nor limits attempts per process. *)
Definition buildable settings : Prop :=
  truthy (AppSettings.auth_jwt_secret_key settings) = true ∧
  AppSettings.auth_jwt_algorithm settings ∈ JWT_ALGORITHM_WHITELIST ∧
  (AppSettings.environment settings = Production →
     AppSettings.auth_return_internal_tokens settings = false ∧
     (truthy (AppSettings.auth_redis_url settings) = true ∨ AppSettings.auth_rate_limit_enabled settings = false ∨
      AppSettings.auth_require_distributed_rate_limit settings = false)).

Definition backend_of settings : Backend :=
  match AppSettings.auth_redis_url settings with Some (String _ _ as url) => Redis url | _ => InMemory end.

Lemma run_choose_backends settings :
  choose_backends settings s =
    if negb (truthy (AppSettings.auth_redis_url settings)) && AppSettings.auth_rate_limit_enabled settings &&
       AppSettings.auth_require_distributed_rate_limit settings && bool_decide (AppSettings.environment settings = Production)
    then (Raise (RuntimeError "APP_AUTH_REQUIRE_DISTRIBUTED_RATE_LIMIT is true but APP_AUTH_REDIS_URL is not configured"), s)
    else (Ret (backends_on settings (backend_of settings)), s).
Proof.
  unfold choose_backends, backend_of. destruct (AppSettings.auth_redis_url settings) as [[|c url]|]; cbn; [|done|];
    by destruct (_ && _).
Qed.

Lemma build_decides settings :
  match build_auth_container settings s with
  | (Ret b, s') => s' = s ∧ buildable settings ∧ b = backends_on settings (backend_of settings)
  | (Raise _, s') => s' = s ∧ ¬ buildable settings
  end.
Proof.
  unfold build_auth_container, buildable. destruct (truthy (AppSettings.auth_jwt_secret_key settings)); cbn [negb]; [|naive_solver].
  rewrite run_bind. unfold AccessTokenService.init. cbn [auth_jwt_algorithm auth_settings].
  destruct (bool_decide_reflect (AppSettings.auth_jwt_algorithm settings ∈ JWT_ALGORITHM_WHITELIST)); [|naive_solver].
  cbn. rewrite run_bind. unfold check_internal_token_exposure.
  destruct (AppSettings.auth_return_internal_tokens settings); cbn [negb].
  - destruct (bool_decide_reflect (AppSettings.environment settings = Production)) as [|Hne]; cbn; [naive_solver|].
    rewrite run_choose_backends (bool_decide_eq_false_2 _ Hne) andb_false_r. naive_solver.
  - cbn. rewrite run_choose_backends.
    destruct (bool_decide_reflect (AppSettings.environment settings = Production)); rewrite ?andb_false_r; [|naive_solver].
    destruct (truthy (AppSettings.auth_redis_url settings)), (AppSettings.auth_rate_limit_enabled settings),
      (AppSettings.auth_require_distributed_rate_limit settings); cbn; naive_solver.
Qed.
End container.

(** ** The start *)

Section start.
Context `{Env} `{!UuidsDistinct} {C : Type} `{PrincipalCachePort C}.
Implicit Types (settings : AppSettings) (w : World).

(** The steps with the bootstrap as the authorization container wires it. *)
Definition wired_start settings : M (World * C) AuthContainer.AuthBackends :=
  start (λ promote, bootstrap promote) settings.

(** What the settings ask to seed: nothing, half a request, or an account. *)
Inductive SeedRequest := NoSeed | HalfSeed | Seed (email password : string).
Definition seed_request settings : SeedRequest :=
  if negb (AppSettings.auth_seed_on_startup settings) then NoSeed else
  match AppSettings.auth_bootstrap_super_admin_email settings, AppSettings.auth_bootstrap_super_admin_password settings with
  | Some (String _ _ as email), Some (String _ _ as password) => Seed email password
  | Some (String _ _), _ | _, Some (String _ _) => HalfSeed
  | _, _ => NoSeed
  end.

Lemma run_seeding settings (wc : World * C) :
  run_authz_bootstrap (λ promote, bootstrap promote) settings wc =
  match seed_request settings with
  | NoSeed => (Ret tt, wc)
  | HalfSeed => (Raise (RuntimeError "APP_AUTH_BOOTSTRAP_SUPER_ADMIN_EMAIL and APP_AUTH_BOOTSTRAP_SUPER_ADMIN_PASSWORD must be set together."), wc)
  | Seed email password =>
      let '(res, wc') := bootstrap (AppSettings.auth_bootstrap_promote_existing settings) email password wc in
      (match res with Ret (Ok _) => Ret tt | Ret (Err _) => Raise (SystemExit 2) | Raise e => Raise e end, wc')
  end.
Proof.
  unfold run_authz_bootstrap, seed_request. destruct (AppSettings.auth_seed_on_startup settings); [|done]. cbn [negb].
  destruct (AppSettings.auth_bootstrap_super_admin_email settings) as [[|a email]|],
    (AppSettings.auth_bootstrap_super_admin_password settings) as [[|b password]|]; cbn; try done.
  rewrite run_bind. destruct (bootstrap _ _ _ wc) as [[[i|[]]|e] wc']; done.
Qed.

(** A process whose container refuses the settings, or whose seed request is
    only half set, stops without touching a row or the cache, and one that has
    nothing to seed changes nothing either.  For a seed whose address names an
    account: an administrator is left as it is; otherwise the process exits with
    status 2 and changes nothing, unless promotion is enabled and the account's
    credential accepts the configured password, when it alone becomes an
    administrator. *)
Theorem start_decides settings w c :
  let '(res, (w', c')) := wired_start settings (w, c) in
  if decide (buildable settings) then
    match seed_request settings with
    | NoSeed => res = Ret (AuthContainer.backends_on settings (backend_of settings)) ∧ w' = w ∧ c' = c
    | HalfSeed => (∃ e, res = Raise e) ∧ w' = w ∧ c' = c
    | Seed email password =>
        ∀ u, db_ok (w_db w) → fresh_from (w_uuids w) (relationships (w_db w)) → uuid_ok (u_id u) →
          find_email (normalize_email email) (w_db w) = Some u →
          if is_admin (u_id u) (w_db w) then
            res = Ret (AuthContainer.backends_on settings (backend_of settings)) ∧ w_db w' = w_db w ∧ c' = c
          else if AppSettings.auth_bootstrap_promote_existing settings && password_matches (u_id u) password (w_db w) then
            is_admin (u_id u) (w_db w') = true ∧
            (∀ j, uuid_ok j → j ≠ u_id u → is_admin j (w_db w') = is_admin j (w_db w))
          else res = Raise (SystemExit 2) ∧ w_db w' = w_db w ∧ c' = c
    end
  else (∃ e, res = Raise e) ∧ w' = w ∧ c' = c.
Proof.
  unfold wired_start, start. rewrite run_bind. pose proof (build_decides (w, c) settings) as Hb.
  destruct (AuthContainer.build_auth_container settings (w, c)) as [[b|e] wc'].
  - destruct Hb as (-> & Hok & ->). destruct (decide (buildable settings)); [|done]. rewrite run_bind run_seeding.
    destruct (seed_request settings) as [| |email password]; [done|by split; [eexists|]|].
    destruct (bootstrap _ email password (w, c)) as [res [w' c']] eqn:E.
    destruct res as [[i|err]|e]; intros u Hdb Hfr Hid Hu;
      pose proof (bootstrap_account (AppSettings.auth_bootstrap_promote_existing settings) email password u w c Hdb Hfr Hid Hu) as Ha;
      rewrite E in Ha; destruct (is_admin (u_id u) (w_db w)), (AppSettings.auth_bootstrap_promote_existing settings),
        (password_matches (u_id u) password (w_db w)); cbn in *; naive_solver.
  - destruct Hb as [-> Hn]. destruct (decide (buildable settings)); [done|]. by split; [eexists|].
Qed.
End start.

(** The first start of a deployment whose administrator's address is taken. *)
Definition demo_first_start (promote : bool) : AppSettings :=
  demo_config (mkOperator Development true "http://localhost:8000" ["*"] ["*"] [] None None false false
    (Some ("Ada@example.com", "Correct-horse-1")) promote).

Lemma demo_buildable promote : buildable (demo_first_start promote).
Proof. by_eval. Qed.

(** Without the opt-in the process exits; with it, and the account's password, the
    account becomes an administrator. *)
Lemma start_decides_witness :
  (wired_start (demo_first_start false) (demo_registered, demo_cache)).1 = Raise (SystemExit 2) ∧
  is_admin 1000%N (w_db (wired_start (demo_first_start true) (demo_registered, demo_cache)).2.1) = true.
Proof.
  destruct (find_email (normalize_email "Ada@example.com") (w_db demo_registered)) as [u|] eqn:Hu; [|vm_compute in Hu; discriminate Hu].
  assert (Eu : u_id u = 1000%N) by (vm_compute in Hu; injection Hu as <-; reflexivity).
  assert (Hok : db_ok (w_db demo_registered)) by by_eval.
  assert (Hfr : fresh_from (w_uuids demo_registered) (relationships (w_db demo_registered))) by (apply demo_fresh; by_eval).
  assert (Hid : uuid_ok (u_id u)) by (rewrite Eu; vm_compute; reflexivity).
  split.
  - pose proof (start_decides (demo_first_start false) demo_registered demo_cache) as Hs.
    destruct (wired_start (demo_first_start false) _) as [res [w' c']].
    destruct (decide (buildable (demo_first_start false))) as [_|[]]; [|apply demo_buildable].
    specialize (Hs u Hok Hfr Hid Hu). rewrite Eu in Hs.
    change (is_admin 1000%N (w_db demo_registered)) with false in Hs. exact (proj1 Hs).
  - pose proof (start_decides (demo_first_start true) demo_registered demo_cache) as Hs.
    destruct (wired_start (demo_first_start true) _) as [res [w' c']].
    destruct (decide (buildable (demo_first_start true))) as [_|[]]; [|apply demo_buildable].
    specialize (Hs u Hok Hfr Hid Hu). rewrite Eu in Hs.
    change (is_admin 1000%N (w_db demo_registered)) with false in Hs.
    change (password_matches 1000%N "Correct-horse-1" (w_db demo_registered)) with true in Hs. exact (proj1 Hs).
Defined.
