(* ===== verification/Health.v ===== *)
(** The readiness probe ([app_platform/api/health.py]) and the static routes of
    [app_platform/api/root.py]. *)

From Stdlib Require Import String.
From S2P Require Import Prelude PyStr Json Store Settings.
Open Scope string_scope.
Open Scope list_scope.
Open Scope Z_scope.

(** ** Dependencies as a probe meets them *)

(** An exception: the name of its class, its text as code points, and whether it is a
    [TimeoutError]. *)
Record Exc := mkExc { cls_name : list N; exc_str : list N; is_timeout : bool }.

(** When the call ends, if ever, and how. *)
Record Dependency := mkDependency { latency : option time; failure : option Exc }.

(** The engine, the Redis client and the S3 service at the time of a request. *)
Class Dependencies := {
  _probe_db : Dependency;
  _probe_redis : Dependency;
  _probe_s3 : string → string → Dependency;
}.

(** ** Strings of code points *)

Definition py_space (cp : N) : bool :=
  existsb (λ '(lo, hi), (lo <=? cp)%N && (cp <=? hi)%N)
    [(9, 13); (28, 32); (133, 133); (160, 160); (5760, 5760); (8192, 8202); (8232, 8233); (8239, 8239); (8287, 8287); (12288, 12288)]%N.
Definition py_line_break (cp : N) : bool :=
  existsb (λ '(lo, hi), (lo <=? cp)%N && (cp <=? hi)%N) [(10, 13); (28, 30); (133, 133); (8232, 8233)]%N.

Fixpoint drop_while (P : N → bool) (s : list N) : list N :=
  match s with
  | [] => []
  | c :: s' => if P c then drop_while P s' else s
  end.
Fixpoint take_while (P : N → bool) (s : list N) : list N :=
  match s with
  | [] => []
  | c :: s => if P c then c :: take_while P s else []
  end.
Definition py_strip (s : list N) : list N := rev (drop_while py_space (rev (drop_while py_space s))).
(** [s.splitlines()[0]] of a string that is not empty. *)
Definition first_line (s : list N) : list N := take_while (negb ∘ py_line_break) s.

(** ** [_short_reason] and [_run_probe] *)

Definition _MAX_REASON_LEN : nat := 200.
Definition timeout_reason : list N := [116; 105; 109; 101; 111; 117; 116]%N.

Definition _short_reason (exc : Exc) : list N :=
  if is_timeout exc then timeout_reason else
  let stripped := py_strip (exc_str exc) in
  let message := match stripped with [] => cls_name exc | _ => first_line stripped end in
  let message := if (_MAX_REASON_LEN <? length message)%nat
                 then take (_MAX_REASON_LEN - 3) message ++ [46; 46; 46]%N else message in
  if bool_decide (message = cls_name exc) then message else cls_name exc ++ [58; 32]%N ++ message.

(** What an awaited call takes, and its result. *)
Abbreviation timed A := (time * A)%type (only parsing).

(** [asyncio.wait_for]: the exception of the call, or of the wait. *)
Definition wait_for (dependency : Dependency) (timeout : time) : timed (option Exc) :=
  let timed_out := (Z.max 0 timeout, Some (mkExc timeout_reason [] true)) in
  match latency dependency with
  | Some l => if l <? timeout then (Z.max 0 l, failure dependency) else timed_out
  | None => timed_out
  end.

(** [asyncio.gather]: the calls run at the same time, and the wait is the longest of
    them. *)
Definition gather {A} (tasks : list (timed A)) : timed (list A) :=
  (foldr (λ task, Z.max task.1) 0 tasks, map snd tasks).

Inductive ProbeStatus := ProbeOk | ProbeFail (reason : list N).

Definition _run_probe (name : string) (dependency : Dependency) (timeout : time) : timed (string * ProbeStatus) :=
  let '(elapsed, raised) := wait_for dependency timeout in
  (elapsed,
   (name,
    match raised with
    | None => ProbeOk
    | Some exc => if is_timeout exc then ProbeFail timeout_reason else ProbeFail (_short_reason exc)
    end)).

(** ** [health_ready] *)

(** What the lifespan publishes on [app.state]; an attribute may not be there yet. *)
Record AppState := mkAppState {
  ready : option bool;
  container : option AppSettings;
  redis_client : bool;
  health_db_engine : bool;
}.

(** [dependencies/container.py:get_app_container] *)
Definition get_app_container (state : AppState) : outcome AppSettings :=
  match container state with
  | Some settings => Ret settings
  | None => Raise (DependencyContainerNotReadyError "Application container is not initialized in lifespan")
  end.

Record Response := mkResponse { status_code : Z; content : json; response_headers : list (string * string) }.

Definition starting : Response := mkResponse 503 (JObj [("status", JStr "starting")]) [].

Section health_ready.
Context `{Dependencies}.

Definition probe_tasks (state : AppState) (settings : AppSettings) : list (string * Dependency) :=
  (if health_db_engine state then [("db", _probe_db)] else []) ++
  (if redis_client state then [("redis", _probe_redis)] else []) ++
  (if AppSettings.storage_enabled settings && bool_decide (AppSettings.storage_backend settings = S3) then
     match AppSettings.storage_s3_bucket settings with
     | Some (String _ _ as bucket) => [("s3", _probe_s3 bucket (AppSettings.storage_s3_region settings))]
     | _ => []
     end
   else []).

Definition dep_view (payload : ProbeStatus) : json :=
  match payload with
  | ProbeOk => JStr "ok"
  | ProbeFail reason => JObj [("status", JStr "fail"); ("reason", JStr (utf8 reason))]
  end.
Definition failed (payload : ProbeStatus) : bool := match payload with ProbeOk => false | ProbeFail _ => true end.

(** The request: what it takes, the response, and the dependencies that were called. *)
Definition answer_ready (state : AppState) : timed (Response * list string) :=
  if negb (default false (ready state)) then (0, (starting, [])) else
  match container state with
  | None => (0, (starting, []))
  | Some settings =>
      let timeout := AppSettings.health_ready_probe_timeout_seconds settings in
      let tasks := probe_tasks state settings in
      let '(elapsed, results) := gather (map (λ '(name, dependency), _run_probe name dependency timeout) tasks) in
      let has_failure := existsb (λ '(_, payload), failed payload) results in
      let deps_view := map (λ '(name, payload), (name, dep_view payload)) results in
      (elapsed,
       (if has_failure
        then mkResponse 503 (JObj [("status", JStr "fail"); ("deps", JObj deps_view)]) [("Retry-After", "1")]
        else mkResponse 200 (JObj [("status", JStr "ok"); ("deps", JObj deps_view)]) [],
        map fst tasks))
  end.
Definition health_ready (state : AppState) : Response * list string := (answer_ready state).2.
Definition ready_time (state : AppState) : time := (answer_ready state).1.
End health_ready.

(** ** [root.py] *)

Definition read_root : Response :=
  mkResponse 200 (JObj [("name", JStr "starter-template-fastapi"); ("message", JStr "FastAPI service is running.")]) [].
Definition health_live : Response := mkResponse 200 (JObj [("status", JStr "ok")]) [].
