(* ===== verification/Lifespan.v ===== *)
(** The life of a process: the resources the web process opens, its shutdown
    ([main.py], [app_platform/api/lifespan.py]), the drain of the worker
    ([worker.py]), and the command that makes an administrator
    ([cli/create_super_admin.py]). *)

From Stdlib Require Import String.
From S2P Require Import Prelude Store Settings Authz Health.
Open Scope string_scope.
Open Scope list_scope.
Open Scope Z_scope.

(** ** Resources *)

(** The engine of the repository, the Redis clients of the four limiters, of the
    principal cache and of the probes, and the tracer provider. *)
Inductive Resource :=
  | Engine
  | AddressLimiter | LoginLimiter | ResetLimiter | VerifyLimiter
  | PrincipalCache
  | SharedRedis
  | TracerProvider.
#[global] Instance Resource_eq_dec : EqDecision Resource.
Proof. solve_decision. Defined.

(** [app.state], what is open, the provider that [tracing.py] keeps, and the labels
    of the warnings that were logged. *)
Record Process := mkProcess {
  state : AppState;
  opened : list Resource;
  provider : bool;
  warnings : list string;
}.
Definition set_state (f : AppState → AppState) (p : Process) : Process := mkProcess (f (state p)) (opened p) (provider p) (warnings p).
Definition set_opened (f : list Resource → list Resource) (p : Process) : Process := mkProcess (state p) (f (opened p)) (provider p) (warnings p).
Definition set_provider (b : bool) (p : Process) : Process := mkProcess (state p) (opened p) b (warnings p).
Definition warn (label : string) (p : Process) : Process := mkProcess (state p) (opened p) (provider p) (warnings p ++ [label]).

Section lifespan.
(** What closing a resource raises, if anything. *)
Context (close_error : Resource → option exn).

Abbreviation Proc := (M Process).

Definition open (r : Resource) : Proc unit := modify (set_opened (λ l, l ++ [r])).
Definition close (r : Resource) : Proc unit :=
  match close_error r with
  | Some e => raise e
  | None => modify (set_opened (filter (.≠ r)))
  end.

(** ** [lifespan.py] *)

Definition safe_finalize (label : string) (fn : Proc unit) : Proc unit :=
  try_except fn (λ e, if is_exception e then modify (warn label) else raise e).

(** ** [tracing.py:shutdown_tracing] *)

(** The provider is forgotten however its shutdown ends. *)
Definition shutdown_tracing : Proc unit :=
  has_provider ← gets provider;
  if negb has_provider then mret tt else λ p,
  match close TracerProvider p with
  | (Raise e, p) => ((if is_exception e then Ret tt else Raise e), set_provider false p)
  | (r, p) => (r, set_provider false p)
  end.

(** ** The containers *)

Definition clients_of (redis_url : option string) : list Resource :=
  match redis_url with
  | Some (String _ _) => [AddressLimiter; LoginLimiter; ResetLimiter; VerifyLimiter; PrincipalCache]
  | _ => []
  end.
(** [build_auth_container:_shutdown]; without Redis the limiters and the cache have
    nothing to close. *)
Definition auth_shutdown (redis_url : option string) : Proc unit :=
  close Engine ;;
  for_each (clients_of redis_url) close.

(** The other containers own nothing. *)
Definition outbox_shutdown : Proc unit := mret tt.
Definition jobs_shutdown : Proc unit := mret tt.
Definition users_shutdown : Proc unit := mret tt.
Definition authorization_shutdown : Proc unit := mret tt.

(** ** The finalizer of [create_app:lifespan] *)

Section web.
Context (settings : AppSettings).

Definition shutdown_steps : list (Proc unit) :=
  [ modify (set_state (λ s, mkAppState (Some false) (Health.container s) (redis_client s) (health_db_engine s)));
    safe_finalize "outbox" outbox_shutdown;
    safe_finalize "jobs" jobs_shutdown;
    safe_finalize "users" users_shutdown;
    safe_finalize "authorization" authorization_shutdown;
    safe_finalize "auth" (auth_shutdown (AppSettings.auth_redis_url settings));
    (has_client ← gets (redis_client ∘ state);
     when has_client (safe_finalize "redis" (close SharedRedis)));
    safe_finalize "tracing" shutdown_tracing;
    modify (set_state (λ s, mkAppState (ready s) None false false)) ].
Definition finalize : Proc unit := for_each shutdown_steps id.

(** ** The start *)

(** The steps that open something or publish it; [bootstrap] is the seeding of an
    administrator, which may refuse. *)
Context (bootstrap : Proc unit).

Definition truthy_url (url : option string) : bool := match url with Some (String _ _) => true | _ => false end.

Definition startup_steps : list (Proc unit) :=
  [ open Engine ] ++
  map open (clients_of (AppSettings.auth_redis_url settings)) ++
  [ bootstrap;
    modify (set_state (λ s, mkAppState (ready s) (Some settings) (redis_client s) (health_db_engine s)));
    (if truthy_url (AppSettings.auth_redis_url settings)
     then open SharedRedis ;; modify (set_state (λ s, mkAppState (ready s) (Health.container s) true (health_db_engine s)))
     else modify (set_state (λ s, mkAppState (ready s) (Health.container s) false (health_db_engine s))));
    modify (set_state (λ s, mkAppState (ready s) (Health.container s) (redis_client s) true));
    modify (set_state (λ s, mkAppState (Some true) (Health.container s) (redis_client s) (health_db_engine s))) ].

(** ** Runs *)

(** What is left to do of the start or of the finalizer. *)
Inductive Phase :=
  | Starting (steps : list (Proc unit))
  | Serving
  | Stopping (steps : list (Proc unit))
  | Down.

(** Between two steps of the process, probes are answered. *)
Inductive step `{Dependencies} : Phase * Process → option (Response * list string) → Phase * Process → Prop :=
  | StartStep m steps p p' : m p = (Ret tt, p') → step (Starting (m :: steps), p) None (Starting steps, p')
  | StartFails m steps p e p' : m p = (Raise e, p') → step (Starting (m :: steps), p) None (Down, p')
  | Started p : step (Starting [], p) None (Serving, p)
  | StopSignal p : step (Serving, p) None (Stopping shutdown_steps, p)
  | StopStep m steps p p' : m p = (Ret tt, p') → step (Stopping (m :: steps), p) None (Stopping steps, p')
  | StopFails m steps p e p' : m p = (Raise e, p') → step (Stopping (m :: steps), p) None (Down, p')
  | Stopped p : step (Stopping [], p) None (Down, p)
  | Probe phase p : step (phase, p) (Some (health_ready (state p))) (phase, p).
End web.

(** ** [worker.py] *)

Definition dispose_engine (engine : bool) : Proc unit :=
  if negb engine then mret tt
  else try_except (close Engine) (λ e, if is_exception e then modify (warn "engine.dispose_failed") else raise e).
(** A coroutine is run to its end, so its exception is caught too. *)
Definition close_redis (redis_client : bool) : Proc unit :=
  if negb redis_client then mret tt
  else try_except (close SharedRedis) (λ e, if is_exception e then modify (warn "redis.close_failed") else raise e).
Definition flush_tracing : Proc unit :=
  try_except shutdown_tracing (λ e, if is_exception e then modify (warn "tracing.shutdown_failed") else raise e).
Definition drain_worker (engine redis_client : bool) : Proc unit :=
  dispose_engine engine ;; close_redis redis_client ;; flush_tracing.

(** [build] is [build_worker_scaffold], which opens the engine; there is no runtime, so
    the exit code is 1. *)
Definition worker_main (build : Proc unit) : Proc Z :=
  build ;;
  drain_worker true false ;;
  mret 1.

(** ** [cli/create_super_admin.py] *)

Section cli.
Context {W : Type}.

Definition try_finally {S A} (body : M S A) (final : M S unit) : M S A := λ s,
  let '(r, s) := body s in
  match final s with
  | (Ret _, s) => (r, s)
  | (Raise e, s) => (Raise e, s)
  end.

(** [getenv] reads the environment; [build_containers] opens what it returns, and
    [bootstrap] is the use case. *)
Definition create_super_admin (getenv : string → option string) (build_containers : M (W * Process) (option string))
    (bootstrap : string → string → M (W * Process) (Result uuid BootstrapError)) (email password_env : string) : M (W * Process) unit :=
  match getenv password_env with
  | None | Some "" => raise (SystemExitMessage ("Environment variable " +:+ password_env +:+ " is required"))
  | Some password =>
      redis_url ← build_containers;
      try_finally
        (result ← bootstrap email password;
         match result with
         | Ok _ => mret tt
         | Err (BootstrapRefusedExistingUserError _ _) => raise (SystemExit 2)
         | Err (BootstrapPasswordMismatchError _) => raise (SystemExit 2)
         end)
        (on_snd (authorization_shutdown ;; jobs_shutdown ;; users_shutdown ;; auth_shutdown redis_url))
  end.
End cli.
End lifespan.
