(* ===== verification/LifespanFacts.v ===== *)
(** The readiness probe decides, the finalizer releases what can be released, and no
    probe meets a resource that is being closed. *)

From stdpp Require Import relations.
From Stdlib Require Import String.
From S2P Require Import Prelude Json Store Settings SettingsFacts Authz Health Lifespan.
Open Scope string_scope.
Open Scope list_scope.
Open Scope Z_scope.

(** ** The probe *)

Section health.
Context `{Dependencies}.
Implicit Types (s : AppState) (settings : AppSettings) (d : Dependency).

(** A dependency answers in time. *)
Definition healthy (timeout : time) d : Prop := ∃ l, latency d = Some l ∧ l < timeout ∧ failure d = None.

Lemma wait_for_healthy d timeout : (wait_for d timeout).2 = None ↔ healthy timeout d.
Proof.
  unfold wait_for, healthy. destruct (latency d) as [l|]; [|split; [done|by intros (? & ? & _)]].
  destruct (Z.ltb_spec l timeout); [|split; [done|intros (? & [= ->] & ? & _); lia]]. cbn [snd].
  split; [intros ->; eauto|by intros (? & [= ->] & _ & ->)].
Qed.
Lemma run_probe_failed name d timeout : failed (_run_probe name d timeout).2.2 = false ↔ healthy timeout d.
Proof.
  rewrite -wait_for_healthy. unfold _run_probe. destruct (wait_for d timeout) as [t [e|]]; cbn; [|done].
  by destruct (is_timeout e).
Qed.

Lemma run_probe_name name d timeout : (_run_probe name d timeout).2.1 = name.
Proof. unfold _run_probe. by destruct (wait_for d timeout). Qed.
Lemma run_probe_time name d timeout : 0 <= timeout → 0 <= (_run_probe name d timeout).1 <= timeout.
Proof.
  intros Ht. unfold _run_probe, wait_for. destruct (latency d) as [l|]; [destruct (Z.ltb_spec l timeout)|]; cbn; lia.
Qed.
Lemma gather_bound timeout (l : list (string * Dependency)) :
  0 <= timeout → (gather (map (λ '(n, d), _run_probe n d timeout) l)).1 <= timeout.
Proof.
  intros Ht. unfold gather. cbn [fst]. induction l as [|[n d] l IH]; [done|]. cbn [map foldr]. apply Z.max_lub; [|exact IH].
  by apply run_probe_time.
Qed.

Lemma elem_of_tasks s settings n d :
  (n, d) ∈ probe_tasks s settings ↔
    n = "db" ∧ d = _probe_db ∧ health_db_engine s = true ∨ n = "redis" ∧ d = _probe_redis ∧ redis_client s = true ∨
    n = "s3" ∧ ∃ bucket, AppSettings.storage_enabled settings = true ∧ AppSettings.storage_backend settings = S3 ∧
      AppSettings.storage_s3_bucket settings = Some bucket ∧ bucket ≠ "" ∧ d = _probe_s3 bucket (AppSettings.storage_s3_region settings).
Proof.
  unfold probe_tasks. rewrite !elem_of_app. apply Morphisms_Prop.or_iff_morphism; [|apply Morphisms_Prop.or_iff_morphism].
  - destruct (health_db_engine s); [rewrite list_elem_of_singleton|rewrite elem_of_nil]; naive_solver.
  - destruct (redis_client s); [rewrite list_elem_of_singleton|rewrite elem_of_nil]; naive_solver.
  - destruct (AppSettings.storage_enabled settings); cbn; [|rewrite elem_of_nil; naive_solver].
    destruct (bool_decide_reflect (AppSettings.storage_backend settings = S3)); [|rewrite elem_of_nil; naive_solver].
    destruct (AppSettings.storage_s3_bucket settings) as [[|c b]|]; [rewrite elem_of_nil|rewrite list_elem_of_singleton|rewrite elem_of_nil]; naive_solver.
Qed.

(** C29. A probe is answered 503 without touching a dependency until the process is
    ready; then 200 exactly when the database, Redis and S3, as far as they are
    configured, all answer within the timeout, and otherwise 503 with [Retry-After]
    and, for each dependency, whether it answered.  The wait is at most the timeout. *)
Theorem readiness_decides s :
  match ready s, container s with
  | Some true, Some settings =>
      let timeout := AppSettings.health_ready_probe_timeout_seconds settings in
      let tasks := probe_tasks s settings in
      (∀ n d, (n, d) ∈ tasks ↔ n = "db" ∧ d = _probe_db ∧ health_db_engine s = true ∨ n = "redis" ∧ d = _probe_redis ∧ redis_client s = true ∨
         n = "s3" ∧ ∃ bucket, AppSettings.storage_enabled settings = true ∧ AppSettings.storage_backend settings = S3 ∧
           AppSettings.storage_s3_bucket settings = Some bucket ∧ bucket ≠ "" ∧ d = _probe_s3 bucket (AppSettings.storage_s3_region settings)) ∧
      (0 <= timeout → ready_time s <= timeout) ∧
      ∃ deps, map fst deps = map fst tasks ∧ (health_ready s).2 = map fst tasks ∧
        (∀ n d, (n, d) ∈ tasks → (healthy timeout d ∧ (n, JStr "ok") ∈ deps) ∨
           (¬ healthy timeout d ∧ ∃ reason, (n, JObj [("status", JStr "fail"); ("reason", JStr reason)]) ∈ deps)) ∧
        (Forall (λ '(_, d), healthy timeout d) tasks → (health_ready s).1 = mkResponse 200 (JObj [("status", JStr "ok"); ("deps", JObj deps)]) []) ∧
        (¬ Forall (λ '(_, d), healthy timeout d) tasks →
           (health_ready s).1 = mkResponse 503 (JObj [("status", JStr "fail"); ("deps", JObj deps)]) [("Retry-After", "1")])
  | _, _ => health_ready s = (starting, [])
  end.
Proof.
  unfold health_ready, ready_time, answer_ready.
  destruct (ready s) as [[]|]; cbn [default negb]; [|by destruct (container s)|by destruct (container s)].
  destruct (container s) as [settings|]; [|done]. split_and!; [apply elem_of_tasks|intros Ht; by apply gather_bound|].
  set (timeout := AppSettings.health_ready_probe_timeout_seconds settings). set (tasks := probe_tasks s settings).
  cbn [gather snd]. set (results := map snd (map (λ '(n, d), _run_probe n d timeout) tasks)).
  assert (results = map (λ '(n, d), (_run_probe n d timeout).2) tasks) as Hresults
    by (unfold results; rewrite map_map; apply map_ext; by intros []).
  exists (map (λ '(n, payload), (n, dep_view payload)) results).
  assert (existsb (λ '(_, payload), failed payload) results = false ↔ Forall (λ '(_, d), healthy timeout d) tasks) as Hall.
  { rewrite Hresults Forall_forall. split.
    - intros Hf [n d] Hd. apply (run_probe_failed n). destruct (failed _) eqn:Ef; [|done].
      apply not_true_iff_false in Hf. destruct Hf. apply existsb_exists. exists (_run_probe n d timeout).2.
      split; [|by destruct (_run_probe n d timeout).2].
      apply in_map_iff. exists (n, d). split; [done|]. by apply list_elem_of_In.
    - intros Hh. apply not_true_is_false. intros [r [Hr Hf]]%existsb_exists. apply in_map_iff in Hr as ([n d] & <- & Hd).
      apply list_elem_of_In, Hh, (run_probe_failed n) in Hd. destruct (_run_probe n d timeout).2. cbn in *. congruence. }
  split_and!; [rewrite Hresults !map_map; apply map_ext; intros [n d]; pose proof (run_probe_name n d timeout) as Hn; cbn beta iota; destruct (_run_probe n d timeout).2; exact Hn|done|..].
  - intros n d Hd. assert ((n, dep_view (_run_probe n d timeout).2.2) ∈ map (λ '(n, payload), (n, dep_view payload)) results) as Hin.
    { apply list_elem_of_In, in_map_iff. exists (_run_probe n d timeout).2. rewrite Hresults. split.
      - pose proof (run_probe_name n d timeout) as Hn. destruct (_run_probe n d timeout).2. cbn in Hn |- *. by rewrite Hn.
      - apply in_map_iff. exists (n, d). split; [done|]. by apply list_elem_of_In. }
    destruct (_run_probe n d timeout).2.2 as [|reason] eqn:Er; [left|right]; (split; [|by eauto]); rewrite -(run_probe_failed n) Er //.
  - by intros ->%Hall.
  - rewrite -Hall. by intros ->%not_false_iff_true.
Qed.
End health.

(** ** Reasons *)

Abbreviation one_line := (forallb (negb ∘ py_line_break)).

Lemma one_line_first_line s : one_line (first_line s) = true.
Proof.
  induction s as [|c s IH]; [done|]. cbn -[py_line_break]. destruct (py_line_break c) eqn:Ec; [done|].
  cbn -[py_line_break]. by rewrite Ec.
Qed.
Lemma one_line_take n s : one_line s = true → one_line (take n s) = true.
Proof.
  revert n. induction s as [|c s IH]; intros [|n]; cbn; try done. intros [Hc Hs]%andb_prop.
  unfold compose in Hc. rewrite Hc IH //.
Qed.

(** The first line, shortened. *)
Lemma reason_cases exc :
  is_timeout exc = false →
  ∃ message, (length message ≤ 200)%nat ∧ (one_line (cls_name exc) = true → one_line message = true) ∧
    (_short_reason exc = message ∨ _short_reason exc = cls_name exc ++ [58; 32]%N ++ message).
Proof.
  intros Ht. unfold _short_reason. rewrite Ht.
  set (m0 := match py_strip (exc_str exc) with [] => cls_name exc | _ => first_line (py_strip (exc_str exc)) end).
  assert (one_line (cls_name exc) = true → one_line m0 = true) as Hm0.
  { intros Hc. unfold m0. destruct (py_strip (exc_str exc)) as [|c s]; [done|]. apply one_line_first_line. }
  exists (if (_MAX_REASON_LEN <? length m0)%nat then take (_MAX_REASON_LEN - 3) m0 ++ [46; 46; 46]%N else m0). split_and!.
  - unfold _MAX_REASON_LEN. destruct (Nat.ltb_spec 200 (length m0)); [|lia]. rewrite length_app length_take. cbn [length]. lia.
  - intros Hc. destruct (_ <? _)%nat; [|by apply Hm0]. rewrite forallb_app one_line_take //. by apply Hm0.
  - destruct (py_strip (exc_str exc)); by case_bool_decide; [left|right].
Qed.

(** What a readiness response says of an exception is one line, and the message in
    it is at most 200 characters; but the class name is put before it after it was cut,
    so the text can be longer than the bound it is documented to have. *)
Theorem reasons_are_bounded exc :
  one_line (cls_name exc) = true →
  one_line (_short_reason exc) = true ∧ (length (_short_reason exc) ≤ 202 + length (cls_name exc))%nat ∧
  ((length (cls_name exc) < 200)%nat →
     ∃ exc', cls_name exc' = cls_name exc ∧ length (_short_reason exc') = (202 + length (cls_name exc))%nat).
Proof.
  intros Hc. split_and!.
  - destruct (is_timeout exc) eqn:Ht; [unfold _short_reason; by rewrite Ht|].
    destruct (reason_cases exc Ht) as (m & _ & Hm & [->| ->]); [by apply Hm|]. rewrite !forallb_app Hc Hm //.
  - destruct (is_timeout exc) eqn:Ht; [unfold _short_reason; rewrite Ht; cbn; lia|].
    destruct (reason_cases exc Ht) as (m & Hm & _ & [->| ->]); rewrite ?length_app; cbn [length]; lia.
  - intros Hl. exists (mkExc (cls_name exc) (replicate 201 97%N) false). split; [done|]. unfold _short_reason. cbn [is_timeout exc_str cls_name].
    set (m := if (_MAX_REASON_LEN <? _)%nat then _ else _). assert (length m = 200%nat) as Hm by (vm_compute; reflexivity). clearbody m.
    rewrite bool_decide_eq_false_2; [|intros E; rewrite E in Hm; lia]. rewrite !length_app Hm. cbn [length]. lia.
Qed.

(** ** The finalizer *)

Section shutdown.
Context (close_error : Resource → option exn).
Implicit Types (settings : AppSettings) (p : Process) (l : list Resource).

(** The resources of a list that are closed when each is closed after the ones before
    it, up to the first failure. *)
Fixpoint closed_in_turn l : list Resource :=
  match l with
  | [] => []
  | r :: l => match close_error r with None => r :: closed_in_turn l | Some _ => [] end
  end.
Definition closed_alone (present : bool) (r : Resource) : list Resource :=
  if present then closed_in_turn [r] else [].

Definition closed_by l : list Resource → list Resource := filter (.∉ l).

Lemma closed_by_app l l' o : closed_by l' (closed_by l o) = closed_by (l ++ l') o.
Proof. unfold closed_by. rewrite list_filter_filter. apply list_filter_iff. intros r. set_solver. Qed.
Lemma closed_by_nil o : closed_by [] o = o.
Proof.
  unfold closed_by. induction o as [|r o IH]; [done|]. rewrite filter_cons_True; [by rewrite IH|set_solver].
Qed.

Lemma run_close_until l p :
  ∃ r, for_each l (close close_error) p = (r, set_opened (closed_by (closed_in_turn l)) p) ∧
    match r with Ret _ => closed_in_turn l = l | Raise e => (∃ x, x ∈ l ∧ close_error x = Some e) ∧ closed_in_turn l ≠ l end.
Proof.
  revert p. induction l as [|r l IH]; intros p; cbn [for_each closed_in_turn].
  - exists (Ret tt). split; [|done]. unfold set_opened. rewrite closed_by_nil. by destruct p.
  - rewrite run_bind. unfold close at 1. destruct (close_error r) as [e|] eqn:Er.
    + exists (Raise e). split; [|split; [exists r; split; [set_solver|done]|done]].
      unfold set_opened. rewrite closed_by_nil. by destruct p.
    + rewrite run_modify. destruct (IH (set_opened (filter (.≠ r)) p)) as (res & -> & Hres). exists res. split.
      * unfold set_opened. cbn. do 2 f_equal.
        transitivity (closed_by (closed_in_turn l) (closed_by [r] (opened p))); [|apply closed_by_app]. f_equal. unfold closed_by.
        apply list_filter_iff. intros x. set_solver.
      * destruct res; [by rewrite Hres|]. destruct Hres as [(x & Hx & Ex) Hne].
        split; [exists x; split; [set_solver|done]|]. by intros [= ?].
Qed.
(** Closing raises [Exception]s only. *)
Context (only_exceptions : ∀ r e, close_error r = Some e → is_exception e = true).

Lemma run_close_all l p :
  ∃ r, for_each l (close close_error) p = (r, set_opened (closed_by (closed_in_turn l)) p) ∧
    match r with Ret _ => closed_in_turn l = l | Raise e => is_exception e = true ∧ closed_in_turn l ≠ l end.
Proof.
  destruct (run_close_until l p) as (r & E & Hr). exists r. split; [done|]. destruct r; [done|].
  destruct Hr as [(x & _ & Ex) ?]. split; [by eapply only_exceptions|done].
Qed.

Lemma run_safe_finalize label fn l p :
  (∃ r, fn p = (r, set_opened (closed_by (closed_in_turn l)) p) ∧
    match r with Ret _ => closed_in_turn l = l | Raise e => is_exception e = true ∧ closed_in_turn l ≠ l end) →
  safe_finalize label fn p =
    (Ret tt, (if decide (closed_in_turn l = l) then id else warn label) (set_opened (closed_by (closed_in_turn l)) p)).
Proof.
  intros (r & E & Hr). unfold safe_finalize, try_except. rewrite E. destruct r as [[]|e].
  - by rewrite decide_True.
  - destruct Hr as [-> Hne]. by rewrite decide_False.
Qed.

Lemma run_shutdown_tracing p :
  shutdown_tracing close_error p =
    (Ret tt, set_provider false (set_opened (closed_by (closed_alone (provider p) TracerProvider)) p)).
Proof.
  unfold shutdown_tracing, closed_alone. rewrite run_bind run_gets. destruct (provider p) eqn:Ep; cbn [negb].
  - unfold close. cbn [closed_in_turn]. destruct (close_error TracerProvider) as [e|] eqn:Ee.
    + rewrite run_raise (only_exceptions _ _ Ee). unfold set_opened. rewrite closed_by_nil. by destruct p.
    + rewrite run_modify. do 2 f_equal. unfold set_opened, closed_by. f_equal. apply list_filter_iff. intros x. set_solver.
  - unfold set_opened. rewrite closed_by_nil. destruct p. cbn in *. by subst.
Qed.

Lemma run_close_one r p :
  ∃ res, close close_error r p = (res, set_opened (closed_by (closed_in_turn [r])) p) ∧
    match res with Ret _ => closed_in_turn [r] = [r] | Raise e => is_exception e = true ∧ closed_in_turn [r] ≠ [r] end.
Proof.
  destruct (run_close_all [r] p) as (res & E & Hres). exists res. split; [|done]. rewrite -E. cbn. rewrite run_bind.
  by destruct (close close_error r p) as [[[]|] ?].
Qed.

(** What the finalizer releases: the resources of the authentication container in
    turn, the other two each on its own. *)
Definition released settings p : list Resource :=
  closed_in_turn (Engine :: clients_of (AppSettings.auth_redis_url settings)) ++
  closed_alone (redis_client (state p)) SharedRedis ++ closed_alone (provider p) TracerProvider.
Definition step_warnings settings p : list string :=
  (if decide (closed_in_turn (Engine :: clients_of (AppSettings.auth_redis_url settings)) =
     Engine :: clients_of (AppSettings.auth_redis_url settings)) then [] else ["auth"]) ++
  (if redis_client (state p) && bool_decide (is_Some (close_error SharedRedis)) then ["redis"] else []).

Lemma run_no_op label p : safe_finalize label (mret tt) p = (Ret tt, p).
Proof. done. Qed.
Lemma run_finalize settings p :
  finalize close_error settings p =
    (Ret tt, mkProcess (mkAppState (Some false) None false false) (closed_by (released settings p) (opened p)) false
               (warnings p ++ step_warnings settings p)).
Proof.
  unfold finalize, shutdown_steps, outbox_shutdown, jobs_shutdown, users_shutdown, authorization_shutdown. cbn [for_each id].
  rewrite run_bind run_modify run_bind (run_no_op "outbox") run_bind (run_no_op "jobs") run_bind (run_no_op "users").
  rewrite run_bind (run_no_op "authorization").
  set (auth := Engine :: clients_of (AppSettings.auth_redis_url settings)).
  rewrite run_bind (run_safe_finalize _ _ auth); [|apply (run_close_all auth)].
  set (p1 := (if decide _ then id else warn "auth") _).
  assert (p1 = mkProcess (mkAppState (Some false) (Health.container (state p)) (redis_client (state p)) (health_db_engine (state p)))
    (closed_by (closed_in_turn auth) (opened p)) (provider p)
    (warnings p ++ if decide (closed_in_turn auth = auth) then [] else ["auth"])) as ->.
  { unfold p1. destruct (decide _); [|done]. by rewrite app_nil_r. }
  rewrite run_bind run_bind run_gets. cbn [compose state redis_client].
  match goal with |- context [when _ _ ?q] => set (p2 := q) end.
  assert (when (redis_client (state p)) (safe_finalize "redis" (close close_error SharedRedis)) p2 =
    (Ret tt, mkProcess (state p2) (closed_by (closed_alone (redis_client (state p)) SharedRedis) (opened p2)) (provider p)
       (warnings p2 ++ if redis_client (state p) && bool_decide (is_Some (close_error SharedRedis)) then ["redis"] else []))) as ->.
  { destruct (redis_client (state p)); cbn [when andb closed_alone].
    - rewrite (run_safe_finalize _ _ [SharedRedis]); [|apply run_close_one]. cbn [closed_in_turn].
      destruct (close_error SharedRedis); (case_decide; [try done|try done]); cbn; by rewrite ?app_nil_r.
    - unfold mret, M_ret. rewrite closed_by_nil app_nil_r. done. }
  rewrite run_bind. unfold safe_finalize, try_except. rewrite run_shutdown_tracing run_bind run_modify run_ret.
  unfold set_state, set_provider, set_opened, released, step_warnings. cbn. rewrite !closed_by_app -!app_assoc. done.
Qed.

(** C23. A shutdown always runs to its end.  It first turns readiness off; it releases
    the engine, the shared Redis client and the tracer provider, each unless closing
    that very resource fails, logs the steps that failed and leaves nothing published.
    But the Redis clients of the limiters and of the principal cache are closed in
    turn after the engine, so a failure to close one leaves the later ones open. *)
Theorem shutdown_releases settings p :
  ∃ p', finalize close_error settings p = (Ret tt, p') ∧
    state p' = mkAppState (Some false) None false false ∧ provider p' = false ∧
    warnings p' = warnings p ++ step_warnings settings p ∧
    (∀ r, r ∈ opened p' ↔ r ∈ opened p ∧ r ∉ released settings p) ∧
    (close_error Engine = None → Engine ∉ opened p') ∧
    (redis_client (state p) = true → close_error SharedRedis = None → SharedRedis ∉ opened p') ∧
    (provider p = true → close_error TracerProvider = None → TracerProvider ∉ opened p') ∧
    (∀ e r, close_error Engine = Some e → r ∈ clients_of (AppSettings.auth_redis_url settings) → r ∈ opened p → r ∈ opened p').
Proof.
  eexists. split; [apply run_finalize|]. cbn [state provider warnings opened].
  assert (∀ r, r ∈ closed_by (released settings p) (opened p) ↔ r ∈ opened p ∧ r ∉ released settings p) as Hin.
  { intros r. unfold closed_by. rewrite list_elem_of_filter. tauto. }
  split_and!; [done..|exact Hin| | | |].
  - intros E. rewrite Hin. unfold released. cbn. rewrite E. set_solver.
  - intros Hr E. rewrite Hin. unfold released, closed_alone. rewrite Hr. cbn. rewrite E. set_solver.
  - intros Hr E. rewrite Hin. unfold released, closed_alone. rewrite Hr. cbn. rewrite E. set_solver.
  - intros e r E Hr Ho. rewrite Hin. split; [done|]. unfold released. cbn [closed_in_turn]. rewrite E. cbn [app].
    unfold closed_alone. cbn [closed_in_turn].
    assert (r ≠ SharedRedis ∧ r ≠ TracerProvider) as [? ?].
    { revert Hr. unfold clients_of. destruct (AppSettings.auth_redis_url settings) as [[|]|]; set_solver. }
    repeat case_match; set_solver.
Qed.
End shutdown.

(** ** Runs of a process *)

(** Steps that leave readiness as it is. *)
Definition keeps_ready {A} (m : M Process A) : Prop := ∀ p, ready (state (m p).2) = ready (state p).

Lemma ready_keeps_ret {A} (a : A) : keeps_ready (mret a).
Proof. done. Qed.
Lemma ready_keeps_bind {A B} (m : M Process A) (f : A → M Process B) : keeps_ready m → (∀ a, keeps_ready (f a)) → keeps_ready (m ≫= f).
Proof. intros Hm Hf p. rewrite run_bind. specialize (Hm p). destruct (m p) as [[a|e] q]; [by rewrite Hf|done]. Qed.
Lemma keeps_modify f : (∀ p, ready (state (f p)) = ready (state p)) → keeps_ready (modify f).
Proof. intros Hf p. apply Hf. Qed.
Lemma keeps_gets {A} (f : Process → A) : keeps_ready (gets f).
Proof. done. Qed.
Lemma ready_keeps_try {A} (m : M Process A) h : keeps_ready m → (∀ e, keeps_ready (h e)) → keeps_ready (try_except m h).
Proof. intros Hm Hh p. unfold try_except. specialize (Hm p). destruct (m p) as [[a|e] q]; [done|by rewrite Hh]. Qed.
Lemma keeps_close close_error r : keeps_ready (close close_error r).
Proof. intros p. unfold close. by destruct (close_error r). Qed.
Lemma keeps_for_each {A} (l : list A) f : (∀ a, keeps_ready (f a)) → keeps_ready (for_each l f).
Proof. intros Hf. induction l as [|a l IH]; [done|]. by apply ready_keeps_bind. Qed.
Lemma keeps_safe_finalize label fn : keeps_ready fn → keeps_ready (safe_finalize label fn).
Proof. intros Hf. apply ready_keeps_try; [done|]. intros e. by destruct (is_exception e). Qed.
Lemma keeps_shutdown_tracing close_error : keeps_ready (shutdown_tracing close_error).
Proof.
  apply ready_keeps_bind; [apply keeps_gets|]. intros b p. destruct b; cbn [negb]; [|done]. pose proof (keeps_close close_error TracerProvider p) as Hc.
  by destruct (close close_error TracerProvider p) as [[[]|e] q]; [|destruct (is_exception e)].
Qed.

Section runs.
Context (close_error : Resource → option exn) `{Dependencies} (settings : AppSettings).
Context (bootstrap : M Process unit) (bootstrap_keeps : ∀ p, (bootstrap p).2 = p).
(** The process before the lifespan starts. *)
Context (p0 : Process) (not_ready : ready (state p0) = None).

Abbreviation url := (AppSettings.auth_redis_url settings).
Abbreviation runs := (rtc (λ c c', ∃ label, step close_error settings c label c')).

(** The process when it serves. *)
Definition served : Process :=
  mkProcess (mkAppState (Some true) (Some settings) (truthy_url url) true)
    (opened p0 ++ [Engine] ++ clients_of url ++ (if truthy_url url then [SharedRedis] else [])) (provider p0) (warnings p0).

Lemma run_opens l p : for_each (map open l) id p = (Ret tt, set_opened (λ o, o ++ l) p).
Proof.
  revert p. induction l as [|r l IH]; intros p; cbn [map for_each id].
  - unfold set_opened. rewrite app_nil_r. by destruct p.
  - rewrite run_bind. unfold open. rewrite run_modify IH. unfold set_opened. cbn. by rewrite -app_assoc.
Qed.

Lemma run_bootstrap p : bootstrap p = ((bootstrap p).1, p).
Proof. pose proof (bootstrap_keeps p) as E. destruct (bootstrap p) as [r q]. cbn in *. by subst. Qed.

Lemma run_startup p : for_each (startup_steps settings bootstrap) id p0 = (Ret tt, p) → p = served.
Proof.
  unfold startup_steps. rewrite (for_each_app [open Engine]). rewrite (run_opens [Engine]) for_each_app run_opens.
  cbn [for_each id]. rewrite run_bind run_bootstrap. destruct (bootstrap _).1 as [[]|e]; [|done].
  rewrite run_bind run_modify run_bind. unfold served.
  destruct (truthy_url url); [rewrite run_bind; unfold open; rewrite run_modify|]; rewrite run_modify run_bind run_modify run_bind run_modify run_ret;
    intros [= <-]; unfold set_opened, set_state; cbn [state opened provider warnings Health.container ready redis_client health_db_engine]; by rewrite -?app_assoc ?app_nil_r.
Qed.

(** The start changes readiness with its last step only, the finalizer with its first. *)
Lemma startup_keeps : Forall keeps_ready (removelast (startup_steps settings bootstrap)).
Proof.
  unfold startup_steps. rewrite (app_assoc [open Engine]) removelast_app //. apply Forall_app. split; [apply Forall_app; split|].
  - by apply Forall_singleton.
  - apply Forall_forall. intros m Hm. apply list_elem_of_fmap in Hm as (r & -> & _). by intros p.
  - repeat (apply Forall_cons; split); [|by intros p| |by intros p|by apply Forall_nil].
    + intros p. by rewrite (bootstrap_keeps p).
    + destruct (truthy_url url); [|by intros p]. apply ready_keeps_bind; [by intros p|]. by intros _ p.
Qed.
Lemma shutdown_keeps : Forall keeps_ready (tl (shutdown_steps close_error settings)).
Proof.
  unfold shutdown_steps. cbn [tl]. repeat (apply Forall_cons; split); try (by apply keeps_safe_finalize; intros p); try by intros p.
  - apply keeps_safe_finalize, ready_keeps_bind; [apply keeps_close|]. intros _. apply keeps_for_each. intros r. apply keeps_close.
  - apply ready_keeps_bind; [apply keeps_gets|]. intros b. destruct b; [|done]. apply keeps_safe_finalize, keeps_close.
  - apply keeps_safe_finalize, keeps_shutdown_tracing.
  - by apply Forall_nil.
Qed.

Lemma keeps_steps l p p' : Forall keeps_ready l → for_each l id p = (Ret tt, p') → ready (state p') = ready (state p).
Proof.
  intros Hl. revert p. induction Hl as [|m l Hm _ IH]; intros p; cbn [for_each id]; [by intros [= <-]|].
  rewrite run_bind. specialize (Hm p). destruct (m p) as [[[]|e] q]; [|done]. cbn in Hm. intros E. by rewrite (IH q E).
Qed.

(** Before its last step the start is not ready. *)
Lemma starting_not_ready pre m steps p :
  startup_steps settings bootstrap = pre ++ m :: steps → for_each pre id p0 = (Ret tt, p) →
  ready (state p) = None ∧ ∀ e q, m p = (Raise e, q) → ready (state q) = None.
Proof.
  intros E Hp. pose proof startup_keeps as Hk. rewrite E in Hk.
  destruct (decide (steps = [])) as [->|Hne].
  - rewrite removelast_last in Hk. rewrite (keeps_steps pre p0) //. split; [done|].
    assert (last (startup_steps settings bootstrap) = Some m) as Hlast by (rewrite E; apply last_snoc).
    unfold startup_steps in Hlast. rewrite app_assoc last_app in Hlast. cbn in Hlast. injection Hlast as <-. by intros e q [=].
  - rewrite removelast_app // in Hk. apply Forall_app in Hk as [Hpre Hm].
    rewrite (keeps_steps pre p0) //. split; [done|]. intros e q Eq. destruct steps as [|m' steps]; [done|].
    cbn [removelast] in Hm. apply Forall_cons in Hm as [Hm _]. specialize (Hm p). rewrite Eq in Hm. cbn in Hm.
    by rewrite Hm (keeps_steps pre p0).
Qed.

Definition reaches (c : Phase * Process) : Prop :=
  match c with
  | (Starting steps, p) => ∃ pre, startup_steps settings bootstrap = pre ++ steps ∧ for_each pre id p0 = (Ret tt, p)
  | (Serving, p) => p = served
  | (Stopping steps, p) =>
      (steps = shutdown_steps close_error settings ∧ p = served) ∨ (Forall keeps_ready steps ∧ ready (state p) = Some false)
  | (Down, p) => ready (state p) ≠ Some true
  end.

Lemma step_reaches c label c' : reaches c → step close_error settings c label c' → reaches c'.
Proof.
  intros Hc Hs. destruct Hs as [m steps p p' E|m steps p e p' E|p|p|m steps p p' E|m steps p e p' E|p|phase p]; cbn in *.
  - destruct Hc as (pre & Hpre & Hp). exists (pre ++ [m]). rewrite -app_assoc. split; [done|].
    rewrite for_each_app Hp. cbn [for_each id]. by rewrite run_bind E run_ret.
  - destruct Hc as (pre & Hpre & Hp). destruct (starting_not_ready _ _ _ _ Hpre Hp) as [_ Hr]. by rewrite (Hr _ _ E).
  - destruct Hc as (pre & Hpre & Hp). rewrite app_nil_r in Hpre. subst pre. by apply run_startup.
  - by left.
  - right. destruct Hc as [[[= -> ->] ->]|[Hk Hr]].
    + split; [exact shutdown_keeps|]. cbn in E. by injection E as <-.
    + apply Forall_cons in Hk as [Hm Hk]. split; [done|]. specialize (Hm p). rewrite E in Hm. cbn in Hm. by rewrite Hm.
  - destruct Hc as [[[= -> ->] ->]|[Hk Hr]]; [done|]. apply Forall_cons in Hk as [Hm _]. specialize (Hm p).
    rewrite E in Hm. cbn in Hm. by rewrite Hm Hr.
  - destruct Hc as [[E _]|[_ ->]]; done.
  - exact Hc.
Qed.

(** C30. In every run of a process, whether its start succeeds or fails at any step and
    however far its shutdown got, a readiness probe calls a dependency only after the
    whole start and before the first step of the shutdown; then the engine is open
    and so is the shared Redis client when it is called.  At any other time the answer
    is 503, starting. *)
Theorem probes_meet_open_resources phase p response touched c' :
  runs (Starting (startup_steps settings bootstrap), p0) (phase, p) →
  step close_error settings (phase, p) (Some (response, touched)) c' →
  (response = starting ∧ touched = []) ∨
  ((phase = Starting [] ∨ phase = Serving ∨ phase = Stopping (shutdown_steps close_error settings)) ∧ p = served ∧
   Engine ∈ opened p ∧ ("redis" ∈ touched → SharedRedis ∈ opened p)).
Proof.
  intros Hruns Hs. assert (reaches (phase, p)) as Hr.
  { clear Hs. revert Hruns. generalize (phase, p). apply rtc_ind_r; [by exists []|].
    intros c1 c2 _ [label Hstep] IH. by eapply step_reaches. }
  assert (health_ready (state p) = (response, touched)) as E by (by inversion Hs). clear Hs Hruns c'.
  assert (ready (state p) ≠ Some true → response = starting ∧ touched = []) as Hstart.
  { intros Hn. unfold health_ready, answer_ready in E. destruct (ready (state p)) as [[]|]; [done|..]; by injection E as <- <-. }
  assert (p = served → Engine ∈ opened p ∧ ("redis" ∈ touched → SharedRedis ∈ opened p)) as Hserved.
  { intros ->. split; [cbn; set_solver|]. cbn in E. injection E as _ <-. cbn [fst opened served].
    destruct (truthy_url url) eqn:Eu; [set_solver|]. unfold probe_tasks. cbn. rewrite ?Eu.
    intros Hin. exfalso. revert Hin. repeat case_match; cbn; set_solver. }
  destruct phase as [steps| |steps|]; cbn in Hr.
  - destruct Hr as (pre & Hpre & Hp). destruct steps as [|m steps].
    + rewrite app_nil_r in Hpre. subst pre. pose proof (run_startup _ Hp). right. tauto.
    + left. apply Hstart. destruct (starting_not_ready _ _ _ _ Hpre Hp) as [-> _]. done.
  - right. tauto.
  - destruct Hr as [[-> ->]|[_ Hr]]; [right; tauto|left; apply Hstart; by rewrite Hr].
  - left. by apply Hstart.
Qed.
End runs.

(** ** The worker and the command line *)

Section commands.
Context (close_error : Resource → option exn) (only_exceptions : ∀ r e, close_error r = Some e → is_exception e = true).

(** There is no runtime: the worker process always exits with code 1, after it has
    released the engine and the tracer provider, each unless closing it fails. *)
Theorem worker_exits build p p1 :
  build p = (Ret tt, p1) →
  ∃ p', worker_main close_error build p = (Ret 1, p') ∧
    (close_error Engine = None → Engine ∉ opened p') ∧
    (provider p1 = true → close_error TracerProvider = None → TracerProvider ∉ opened p').
Proof.
  intros E. unfold worker_main, drain_worker, dispose_engine, close_redis, flush_tracing. cbn [negb].
  rewrite run_bind E run_bind run_bind. unfold try_except at 1.
  set (p2 := match close_error Engine with None => set_opened (filter (.≠ Engine)) p1 | Some _ => warn "engine.dispose_failed" p1 end).
  assert ((let (o, s') := match close close_error Engine p1 with
             | (Ret a, s') => (Ret a, s')
             | (Raise e, s') => (if is_exception e then modify (warn "engine.dispose_failed") else raise e) s' end in
           (o, s')) = (Ret tt, p2)) as E2.
  { unfold close, p2. destruct (close_error Engine) as [e|] eqn:Ee; [|done]. rewrite run_raise (only_exceptions _ _ Ee). done. }
  destruct (match close close_error Engine p1 with (Ret _, _) => _ | (Raise _, _) => _ end) as [o q] eqn:Eq.
  injection E2 as -> ->. rewrite run_bind run_ret. unfold try_except. rewrite (run_shutdown_tracing _ only_exceptions) run_ret.
  eexists. split; [done|]. cbn [opened set_opened set_provider]. unfold closed_by. split.
  - intros En. rewrite list_elem_of_filter. unfold p2. rewrite En. cbn. rewrite list_elem_of_filter. naive_solver.
  - intros Ep Et. rewrite list_elem_of_filter. unfold closed_alone.
    assert (provider p2 = true) as -> by (unfold p2; by destruct (close_error Engine)). cbn [closed_in_turn]. rewrite Et. set_solver.
Qed.

(** The command that makes an administrator does nothing without the password in
    the environment.  Otherwise it runs the use case once and ends with its verdict,
    exit code 2 for a refusal; it closes the engine and the Redis clients in turn
    however the use case ends, by a refusal or an exception, and only a failure to
    close replaces the verdict. *)
Theorem admin_command_exits {W} getenv build (bootstrap : string → string → M (W * Process) (Result uuid BootstrapError))
    email password_env (s : W * Process) :
  match getenv password_env with
  | None | Some "" => ∃ what, create_super_admin close_error getenv build bootstrap email password_env s = (Raise (SystemExitMessage what), s)
  | Some password => ∀ url s1 r s2, build s = (Ret url, s1) → bootstrap email password s1 = (r, s2) →
      let resources := Engine :: clients_of url in
      ∃ o s3, create_super_admin close_error getenv build bootstrap email password_env s = (o, s3) ∧ s3.1 = s2.1 ∧
        (∀ x, x ∈ opened s3.2 ↔ x ∈ opened s2.2 ∧ x ∉ closed_in_turn close_error resources) ∧
        (closed_in_turn close_error resources = resources →
           o = match r with Ret (Ok _) => Ret tt | Ret (Err _) => Raise (SystemExit 2) | Raise e => Raise e end) ∧
        (closed_in_turn close_error resources ≠ resources → ∃ x e, x ∈ resources ∧ close_error x = Some e ∧ o = Raise e)
  end.
Proof.
  unfold create_super_admin. destruct (getenv password_env) as [[|c password]|]; [by eexists| |by eexists].
  intros url s1 r s2 Eb Er.
  destruct (run_close_until close_error (Engine :: clients_of url) s2.2) as (res & Ec & Hres).
  assert (∀ s, (authorization_shutdown ;; jobs_shutdown ;; users_shutdown ;; auth_shutdown close_error url) s =
    for_each (Engine :: clients_of url) (close close_error) s) as Hclose by done.
  exists (match res with Ret _ => match r with Ret (Ok _) => Ret tt | Ret (Err _) => Raise (SystemExit 2) | Raise e => Raise e end | Raise e => Raise e end),
    (s2.1, set_opened (closed_by (closed_in_turn close_error (Engine :: clients_of url))) s2.2).
  split_and!.
  - rewrite run_bind Eb. unfold try_finally. rewrite run_bind Er.
    destruct r as [[u|[]]|e]; cbv beta iota; rewrite ?run_ret ?run_raise; unfold on_snd; rewrite Hclose Ec; by destruct res.
  - done.
  - intros x. cbn [opened set_opened snd]. unfold closed_by. rewrite list_elem_of_filter. tauto.
  - intros Hall. destruct res; [done|]. by destruct Hres.
  - intros Hne. destruct res as [|e]; [done|]. destruct Hres as [(x & ? & ?) _]. by exists x, e.
Qed.
End commands.

(** ** The properties on concrete inputs *)

(** Closing the client of a limiter fails. *)
Definition demo_close_error (r : Resource) : option exn :=
  match r with LoginLimiter => Some (ExternalError "redis.exceptions.ConnectionError") | _ => None end.
Lemma demo_only_exceptions r e : demo_close_error r = Some e → is_exception e = true.
Proof. by destruct r; intros [= <-]. Qed.

(** The database answers after a millisecond, Redis hangs. *)
#[global] Instance demo_dependencies : Dependencies := {|
  _probe_db := mkDependency (Some 1000) None;
  _probe_redis := mkDependency None None;
  _probe_s3 _ _ := mkDependency (Some 1000) None;
|}.

Definition demo_boot : Process := mkProcess (mkAppState None None false false) [TracerProvider] true [].
Definition demo_served : Process := served demo_defaults demo_boot.

Lemma shutdown_releases_witness :
  ∃ p', finalize demo_close_error demo_defaults demo_served = (Ret tt, p') ∧ Engine ∉ opened p' ∧ TracerProvider ∉ opened p'.
Proof.
  destruct (shutdown_releases demo_close_error demo_only_exceptions demo_defaults demo_served)
    as (p' & E & _ & _ & _ & _ & He & _ & Ht & _).
  exists p'. split; [exact E|]. split; [exact (He eq_refl)|exact (Ht eq_refl eq_refl)].
Defined.

Lemma demo_run : rtc (λ c c', ∃ label, step demo_close_error demo_defaults c label c')
  (Starting (startup_steps demo_defaults (λ p, (Ret tt, p))), demo_boot) (Serving, demo_served).
Proof.
  repeat (eapply rtc_l; [exists None; first [eapply Started|eapply StartStep; reflexivity]|]). apply rtc_refl.
Qed.

Lemma probes_meet_open_resources_witness :
  (health_ready (state demo_served)).1 = starting ∨ Engine ∈ opened demo_served.
Proof.
  destruct (probes_meet_open_resources demo_close_error demo_defaults (λ p, (Ret tt, p)) (λ p, eq_refl) demo_boot eq_refl Serving demo_served
    (health_ready (state demo_served)).1 (health_ready (state demo_served)).2 (Serving, demo_served) demo_run)
    as [[H1 _]|(_ & _ & H1 & _)].
  - rewrite -surjective_pairing. apply Probe.
  - left. exact H1.
  - right. exact H1.
Defined.

Lemma reasons_are_bounded_witness :
  ∃ exc, (200 < length (_short_reason exc))%nat.
Proof.
  destruct (reasons_are_bounded (mkExc [69; 114; 114]%N [] false) eq_refl) as (_ & _ & He).
  destruct He as (exc & _ & E); [vm_compute; lia|]. exists exc. rewrite E. vm_compute. lia.
Defined.

Lemma worker_exits_witness : ∃ p', worker_main demo_close_error (open Engine) demo_boot = (Ret 1, p') ∧ Engine ∉ opened p'.
Proof.
  destruct (worker_exits demo_close_error demo_only_exceptions (open Engine) demo_boot (set_opened (λ l, l ++ [Engine]) demo_boot) eq_refl)
    as (p' & E & He & _). exists p'. split; [exact E|exact (He eq_refl)].
Defined.

(** The account exists and is refused, while the engine is disposed of. *)
Definition demo_refused : string → string → M (unit * Process) (Result uuid BootstrapError) :=
  λ email _, mret (Err (BootstrapRefusedExistingUserError 1000%N email)).

Lemma admin_command_exits_witness :
  ∃ s', create_super_admin demo_close_error (λ _, Some "Password-1") (on_snd (open Engine) ;; mret None) demo_refused
    "root@example.com" "AUTH_BOOTSTRAP_PASSWORD" (tt, demo_boot) = (Raise (SystemExit 2), s') ∧ Engine ∉ opened s'.2.
Proof.
  destruct (admin_command_exits demo_close_error (λ _, Some "Password-1") (on_snd (open Engine) ;; mret None) demo_refused
    "root@example.com" "AUTH_BOOTSTRAP_PASSWORD" (tt, demo_boot) None _ _ _ eq_refl eq_refl) as (o & s' & E & _ & Hin & Ho & _).
  exists s'. rewrite E (Ho eq_refl). split; [reflexivity|]. rewrite Hin. intros [_ Hn]. apply Hn. set_solver.
Defined.
