(* ===== verification/Schema.v ===== *)
(** The catalogue and the rows of the database, as the migrations change them: the
    operations of Alembic they call, their effect in PostgreSQL, transactions and
    autocommit blocks. *)

From Stdlib Require Import String.
From S2P Require Import Prelude PyStr Uuid Json Store.
Open Scope string_scope.
Open Scope list_scope.
Open Scope Z_scope.

(** ** Tables *)

Inductive Value :=
  | VNull | VUuid (i : uuid) | VStr (s : string) | VBool (b : bool) | VInt (z : Z) | VTime (t : time) | VJson (j : json).
Abbreviation Row := (gmap string Value).

Inductive SqlType := UUID | Varchar (width : option nat) | Boolean | Integer | Timestamptz | Jsonb | Text.
#[global] Instance SqlType_eq_dec : EqDecision SqlType.
Proof. solve_decision. Defined.
Inductive Default := NoDefault | Constant (source : string) | Now.
#[global] Instance Default_eq_dec : EqDecision Default.
Proof. solve_decision. Defined.

Record Column := mkColumn { column : string; type : SqlType; nullable : bool; server_default : Default }.
#[global] Instance Column_eq_dec : EqDecision Column.
Proof. solve_decision. Defined.

Inductive Constraint :=
  | PrimaryKey (columns : list string)
  | Unique (name : string) (columns : list string)
  | CheckThat (name condition : string)
  | ForeignKey (columns : list string) (target : string) (target_columns : list string) (ondelete : string).
#[global] Instance Constraint_eq_dec : EqDecision Constraint.
Proof. solve_decision. Defined.

(** An index built concurrently is not valid until its build is complete; the
    planner and [IF NOT EXISTS] see different things of one that is not. *)
Record Index := mkIndex { on_table : string; index_columns : list string; index_where : option string; is_unique : bool; valid : bool }.
#[global] Instance Index_eq_dec : EqDecision Index.
Proof. solve_decision. Defined.

Record Table := mkTable { columns : list Column; constraints : list Constraint; rows : list Row }.

Record Database := mkDatabase { tables : gmap string Table; indexes : gmap string Index }.
Definition empty_database : Database := mkDatabase ∅ ∅.

(** What a constraint speaks of. *)
Definition constrained (c : Constraint) : list string :=
  match c with PrimaryKey l | Unique _ l | ForeignKey l _ _ _ => l | CheckThat _ _ => [] end.
Definition references (name : string) (c : Constraint) : bool :=
  match c with ForeignKey _ target _ _ => String.eqb target name | _ => false end.

(** ** The operations *)

(** Statements that change rows. *)
Inductive Statement :=
  | RenameStatus (old new : string)
  | BackfillCredentials
  | DeleteThingRelationships.

Inductive Op :=
  | CreateTable (name : string) (columns : list Column) (constraints : list Constraint)
  | DropTable (name : string)
  | CreateIndex (name table : string) (columns : list string) (filter : option string)
  | DropIndex (name table : string)
  | CreateIndexIfNotExists (name table : string) (columns : list string) (filter : option string) (unique : bool)
  | DropIndexIfExists (name : string)
  | AddColumn (table : string) (new : Column)
  | DropColumn (table old : string)
  | RenameColumn (table old new : string)
  | Execute (statement : Statement)
  | Fails (e : exn)
  | EnterAutocommit
  | ExitAutocommit.

Section ops.
(** [now()], and [gen_random_uuid()] by the number of rows it was drawn for. *)
Context (now : time) (gen_random_uuid : nat → uuid).

Abbreviation Ddl := (M Database unit).

Definition refuse {A} (what : string) : M Database A := raise (ExternalError ("ProgrammingError: " +:+ what)).
Definition guard (b : bool) (what : string) : Ddl := if b then mret tt else refuse what.

(** Tables and indexes share their names. *)
Definition name_free (db : Database) (name : string) : bool :=
  bool_decide (tables db !! name = None) && bool_decide (indexes db !! name = None).

Definition get_table (name : string) : M Database Table :=
  t ← gets (λ db, tables db !! name);
  match t with Some t => mret t | None => refuse "undefined table" end.
Definition put_table (name : string) (t : Table) : Ddl :=
  modify (λ db, mkDatabase (<[name := t]> (tables db)) (indexes db)).

(** A foreign key of the table being created refers to it or to a table there is. *)
Definition target_exists (db : Database) (name : string) (c : Constraint) : bool :=
  match c with ForeignKey _ target _ _ => String.eqb target name || bool_decide (is_Some (tables db !! target)) | _ => true end.

(** No other table refers to it. *)
Definition droppable (db : Database) (name : string) : bool :=
  bool_decide (map_Forall (λ other t, other = name ∨ existsb (references name) (constraints t) = false) (tables db)).

Definition has_column (t : Table) (name : string) : bool := existsb (λ c, String.eqb (column c) name) (columns t).

(** The value a new column has in the rows there are; a constant the migrations use. *)
Definition default_value (d : Default) : Value :=
  match d with
  | NoDefault => VNull
  | Now => VTime now
  | Constant "true" => VBool true
  | Constant "false" => VBool false
  | Constant "1" => VInt 1
  | Constant "0" => VInt 0
  | Constant "'{}'::jsonb" => VJson (JObj [])
  | Constant s => VStr s
  end.

Definition rename (old new s : string) : string := if String.eqb s old then new else s.
Definition rename_in (old new : string) (c : Constraint) : Constraint :=
  match c with
  | PrimaryKey l => PrimaryKey (map (rename old new) l)
  | Unique name l => Unique name (map (rename old new) l)
  | ForeignKey l t tl d => ForeignKey (map (rename old new) l) t tl d
  | CheckThat name condition => CheckThat name condition
  end.
Definition rename_key (old new : string) (r : Row) : Row :=
  match r !! old with Some v => <[new := v]> (delete old r) | None => r end.

(** [UPDATE outbox_messages SET status = new WHERE status = old]. *)
Definition set_status (old new : string) (r : Row) : Row :=
  match r !! "status" with
  | Some (VStr s) => if String.eqb s old then <["status" := VStr new]> r else r
  | _ => r
  end.

(** [COALESCE(v, NOW())]. *)
Definition or_now (v : option Value) : Value :=
  match v with Some VNull | None => VTime now | Some v => v end.
(** The rows of [SELECT ... FROM users WHERE password_hash IS NOT NULL AND password_hash <> '']. *)
Definition credential_of (n : nat) (user : Row) : option Row :=
  match user !! "password_hash" with
  | Some (VStr (String _ _ as h)) =>
      Some (list_to_map [("id", VUuid (gen_random_uuid n)); ("user_id", default VNull (user !! "id")); ("algorithm", VStr "argon2");
                         ("hash", VStr h); ("last_changed_at", or_now (user !! "updated_at")); ("created_at", or_now (user !! "created_at"))])
  | _ => None
  end.
Fixpoint credentials_of (n : nat) (users : list Row) : list Row :=
  match users with
  | [] => []
  | u :: users => match credential_of n u with Some c => c :: credentials_of (S n) users | None => credentials_of n users end
  end.

Definition is_thing (r : Row) : bool :=
  match r !! "resource_type" with Some (VStr s) => String.eqb s "thing" | _ => false end.

Definition execute (s : Statement) : Ddl :=
  match s with
  | RenameStatus old new =>
      t ← get_table "outbox_messages";
      put_table "outbox_messages" (mkTable (columns t) (constraints t) (map (set_status old new) (rows t)))
  | BackfillCredentials =>
      users ← get_table "users";
      t ← get_table "credentials";
      put_table "credentials" (mkTable (columns t) (constraints t) (rows t ++ credentials_of (length (rows t)) (rows users)))
  | DeleteThingRelationships =>
      t ← get_table "relationships";
      put_table "relationships" (mkTable (columns t) (constraints t) (filter (λ r, is_thing r = false) (rows t)))
  end.

Definition create_index (name table : string) (cols : list string) (filter : option string) (unique : bool) : Ddl :=
  t ← get_table table;
  guard (forallb (has_column t) cols) "undefined column" ;;
  db ← gets id;
  guard (name_free db name) "duplicate relation" ;;
  modify (λ db, mkDatabase (tables db) (<[name := mkIndex table cols filter unique true]> (indexes db))).
Definition remove_index (name : string) : Ddl := modify (λ db, mkDatabase (tables db) (delete name (indexes db))).

Definition run_op (op : Op) : Ddl :=
  match op with
  | CreateTable name cols cs =>
      db ← gets id;
      guard (name_free db name) "duplicate relation" ;;
      guard (forallb (target_exists db name) cs) "undefined table" ;;
      put_table name (mkTable cols cs [])
  | DropTable name =>
      get_table name ;;
      db ← gets id;
      guard (droppable db name) "dependent objects" ;;
      modify (λ db, mkDatabase (delete name (tables db)) (filter (λ '(_, i), on_table i ≠ name) (indexes db)))
  | CreateIndex name table cols filter => create_index name table cols filter false
  | DropIndex name _ =>
      db ← gets id;
      guard (bool_decide (is_Some (indexes db !! name))) "undefined index" ;;
      remove_index name
  | CreateIndexIfNotExists name table cols filter unique =>
      db ← gets id;
      if bool_decide (is_Some (indexes db !! name)) then mret tt else create_index name table cols filter unique
  | DropIndexIfExists name => remove_index name
  | AddColumn table new =>
      t ← get_table table;
      guard (negb (has_column t (column new))) "duplicate column" ;;
      guard (nullable new || bool_decide (server_default new ≠ NoDefault) || bool_decide (rows t = [])) "null in a column that is not nullable" ;;
      put_table table (mkTable (columns t ++ [new]) (constraints t) (map (<[column new := default_value (server_default new)]>) (rows t)))
  | DropColumn table old =>
      t ← get_table table;
      guard (has_column t old) "undefined column" ;;
      put_table table (mkTable (filter (λ c, column c ≠ old) (columns t)) (filter (λ c, old ∉ constrained c) (constraints t)) (map (delete old) (rows t))) ;;
      modify (λ db, mkDatabase (tables db) (filter (λ '(_, i), ¬ (on_table i = table ∧ old ∈ index_columns i)) (indexes db)))
  | RenameColumn table old new =>
      t ← get_table table;
      guard (has_column t old && negb (has_column t new)) "undefined or duplicate column" ;;
      put_table table (mkTable (map (λ c, mkColumn (rename old new (column c)) (type c) (nullable c) (server_default c)) (columns t))
        (map (rename_in old new) (constraints t)) (map (rename_key old new) (rows t))) ;;
      modify (λ db, mkDatabase (tables db) ((λ i, if String.eqb (on_table i) table
        then mkIndex table (map (rename old new) (index_columns i)) (index_where i) (is_unique i) (valid i) else i) <$> indexes db))
  | Execute s => execute s
  | Fails e => raise e
  | EnterAutocommit | ExitAutocommit => mret tt
  end.
Definition run_ops (ops : list Op) : Ddl := for_each ops run_op.

(** ** A run of Alembic *)

Record Migration := mkMigration {
  revision : string;
  down_revision : option string;
  upgrade : list Op;
  downgrade : list Op;
}.

(** The connection: what it sees, what is committed, both with the revision that
    [alembic_version] holds, and whether statements commit on their own. *)
Record Connection := mkConnection {
  current : Database * option string;
  committed : Database * option string;
  autocommit : bool;
}.
Definition connect (s : Database * option string) : Connection := mkConnection s s false.

Inductive Action := Run (op : Op) | Stamp (revision : string).

Definition perform (a : Action) : M Connection unit := λ c,
  match a with
  | Run EnterAutocommit => (Ret tt, mkConnection (current c) (current c) true)
  | Run ExitAutocommit => (Ret tt, mkConnection (current c) (committed c) false)
  | Run op =>
      match run_op op (current c).1 with
      | (Ret _, db) =>
          let s := (db, (current c).2) in
          (Ret tt, mkConnection s (if autocommit c then s else committed c) (autocommit c))
      | (Raise e, _) => (Raise e, c)
      end
  | Stamp r => (Ret tt, mkConnection ((current c).1, Some r) (committed c) (autocommit c))
  end.

(** [alembic upgrade head]: the revisions behind the one the database is at, in one
    transaction that autocommit blocks commit on the way; an exception rolls back. *)
Fixpoint behind (version : option string) (l : list Migration) : list Migration :=
  match version, l with
  | None, l => l
  | Some _, [] => []
  | Some v, m :: l => if String.eqb (revision m) v then l else behind version l
  end.
Definition upgrade_actions (l : list Migration) : list Action :=
  flat_map (λ m, map Run (upgrade m) ++ [Stamp (revision m)]) l.

Definition run_migrations (versions : list Migration) (s : Database * option string) : outcome unit * (Database * option string) :=
  match for_each (upgrade_actions (behind s.2 versions)) perform (connect s) with
  | (Ret _, c) => (Ret tt, current c)
  | (Raise e, c) => (Raise e, committed c)
  end.

(** What is left when the process dies after [n] actions. *)
Definition crash_after (n : nat) (versions : list Migration) (s : Database * option string) : Database * option string :=
  committed (state_of (for_each (take n (upgrade_actions (behind s.2 versions))) perform) (connect s)).

(** What PostgreSQL leaves of a statement that is interrupted: nothing, unless it was
    building or dropping an index concurrently, which leaves it without being valid. *)
Definition interrupted (a : Action) (db : Database) : Database :=
  match a with
  | Run (CreateIndexIfNotExists name table cols filter unique) =>
      match indexes db !! name with
      | Some _ => db
      | None => mkDatabase (tables db) (<[name := mkIndex table cols filter unique false]> (indexes db))
      end
  | Run (DropIndexIfExists name) =>
      mkDatabase (tables db) (alter (λ i, mkIndex (on_table i) (index_columns i) (index_where i) (is_unique i) false) name (indexes db))
  | _ => db
  end.
(** What is left when it dies in the action after [n]. *)
Definition crash_during (n : nat) (versions : list Migration) (s : Database * option string) : Database * option string :=
  let actions := upgrade_actions (behind s.2 versions) in
  let c := state_of (for_each (take n actions) perform) (connect s) in
  match actions !! n with
  | Some a => if autocommit c then (interrupted a (committed c).1, (committed c).2) else committed c
  | None => committed c
  end.
End ops.
