(* ===== verification/Migrations.v ===== *)
(** The revisions under [src/alembic/versions/], the helpers they call, and the tables
    that the models declare (SQLModel's [metadata], what [--autogenerate] compares a
    database with). *)

From Stdlib Require Import String.
From S2P Require Import Prelude PyStr Uuid Json Store Schema.
Open Scope string_scope.
Open Scope list_scope.
Open Scope Z_scope.

Definition column_ (name : string) (t : SqlType) : Column := mkColumn name t false NoDefault.
Definition nullable_column (name : string) (t : SqlType) : Column := mkColumn name t true NoDefault.

(** ** [migration_helpers.py] *)

Definition create_index_concurrently (name table : string) (columns : list string) (filter : option string) (unique : bool) : list Op :=
  match columns with
  | [] => [Fails (ValueError "create_index_concurrently requires at least one column")]
  | _ => [EnterAutocommit; CreateIndexIfNotExists name table columns filter unique; ExitAutocommit]
  end.
Definition drop_index_concurrently (name : string) : list Op :=
  [EnterAutocommit; DropIndexIfExists name; ExitAutocommit].

(** ** The revisions *)

(** 20260505_0003: add first-party auth and rbac. *)
Module Rev0003.
Definition upgrade : list Op :=
  [ CreateTable "users"
      [column_ "id" UUID;
       column_ "email" (Varchar (Some 320%nat));
       column_ "password_hash" (Varchar (Some 512%nat));
       mkColumn "is_active" Boolean false (Constant "true");
       mkColumn "is_verified" Boolean false (Constant "false");
       mkColumn "authz_version" Integer false (Constant "1");
       column_ "created_at" Timestamptz;
       column_ "updated_at" Timestamptz;
       nullable_column "last_login_at" Timestamptz]
      [CheckThat "ck_users_authz_version_positive" "authz_version >= 1";
       PrimaryKey ["id"];
       Unique "uq_users_email" ["email"]];
    CreateIndex "ix_users_email" "users" ["email"] None;
    CreateTable "roles"
      [column_ "id" UUID;
       column_ "name" (Varchar (Some 100%nat));
       nullable_column "description" (Varchar (Some 500%nat));
       mkColumn "is_active" Boolean false (Constant "true");
       column_ "created_at" Timestamptz;
       column_ "updated_at" Timestamptz]
      [CheckThat "ck_roles_name_normalized" "name ~ '^[a-z][a-z0-9_]*$'";
       PrimaryKey ["id"];
       Unique "uq_roles_name" ["name"]];
    CreateIndex "ix_roles_name" "roles" ["name"] None;
    CreateTable "permissions"
      [column_ "id" UUID;
       column_ "name" (Varchar (Some 150%nat));
       nullable_column "description" (Varchar (Some 500%nat));
       column_ "created_at" Timestamptz;
       column_ "updated_at" Timestamptz]
      [CheckThat "ck_permissions_name_resource_action" "name ~ '^[a-z][a-z0-9_]*:[a-z][a-z0-9_:]*$'";
       PrimaryKey ["id"];
       Unique "uq_permissions_name" ["name"]];
    CreateIndex "ix_permissions_name" "permissions" ["name"] None;
    CreateTable "user_roles"
      [column_ "user_id" UUID;
       column_ "role_id" UUID;
       column_ "created_at" Timestamptz]
      [ForeignKey ["role_id"] "roles" ["id"] "CASCADE";
       ForeignKey ["user_id"] "users" ["id"] "CASCADE";
       PrimaryKey ["user_id"; "role_id"];
       Unique "uq_user_roles_user_role" ["user_id"; "role_id"]];
    CreateIndex "ix_user_roles_user_id" "user_roles" ["user_id"] None;
    CreateIndex "ix_user_roles_role_id" "user_roles" ["role_id"] None;
    CreateTable "role_permissions"
      [column_ "role_id" UUID;
       column_ "permission_id" UUID;
       column_ "created_at" Timestamptz]
      [ForeignKey ["permission_id"] "permissions" ["id"] "CASCADE";
       ForeignKey ["role_id"] "roles" ["id"] "CASCADE";
       PrimaryKey ["role_id"; "permission_id"];
       Unique "uq_role_permissions_role_permission" ["role_id"; "permission_id"]];
    CreateIndex "ix_role_permissions_role_id" "role_permissions" ["role_id"] None;
    CreateIndex "ix_role_permissions_permission_id" "role_permissions" ["permission_id"] None;
    CreateTable "refresh_tokens"
      [column_ "id" UUID;
       column_ "user_id" UUID;
       column_ "token_hash" (Varchar (Some 64%nat));
       column_ "family_id" UUID;
       column_ "expires_at" Timestamptz;
       nullable_column "revoked_at" Timestamptz;
       nullable_column "replaced_by_token_id" UUID;
       column_ "created_at" Timestamptz;
       nullable_column "created_ip" (Varchar (Some 255%nat));
       nullable_column "user_agent" (Varchar (Some 512%nat))]
      [ForeignKey ["replaced_by_token_id"] "refresh_tokens" ["id"] "SET NULL";
       ForeignKey ["user_id"] "users" ["id"] "CASCADE";
       PrimaryKey ["id"];
       Unique "uq_refresh_tokens_hash" ["token_hash"]];
    CreateIndex "ix_refresh_tokens_user_id" "refresh_tokens" ["user_id"] None;
    CreateIndex "ix_refresh_tokens_family_id" "refresh_tokens" ["family_id"] None;
    CreateIndex "ix_refresh_tokens_expires_at" "refresh_tokens" ["expires_at"] None;
    CreateIndex "ix_refresh_tokens_token_hash" "refresh_tokens" ["token_hash"] None;
    CreateTable "auth_audit_events"
      [column_ "id" UUID;
       nullable_column "user_id" UUID;
       column_ "event_type" (Varchar (Some 150%nat));
       nullable_column "ip_address" (Varchar (Some 255%nat));
       nullable_column "user_agent" (Varchar (Some 512%nat));
       column_ "metadata" Jsonb;
       column_ "created_at" Timestamptz]
      [ForeignKey ["user_id"] "users" ["id"] "SET NULL";
       PrimaryKey ["id"]];
    CreateIndex "ix_auth_audit_events_user_id" "auth_audit_events" ["user_id"] None;
    CreateIndex "ix_auth_audit_events_event_type" "auth_audit_events" ["event_type"] None;
    CreateIndex "ix_auth_audit_events_created_at" "auth_audit_events" ["created_at"] None;
    CreateTable "auth_internal_tokens"
      [column_ "id" UUID;
       nullable_column "user_id" UUID;
       column_ "purpose" (Varchar (Some 50%nat));
       column_ "token_hash" (Varchar (Some 64%nat));
       column_ "expires_at" Timestamptz;
       nullable_column "used_at" Timestamptz;
       column_ "created_at" Timestamptz;
       nullable_column "created_ip" (Varchar (Some 255%nat))]
      [CheckThat "ck_auth_internal_tokens_purpose" "purpose in ('password_reset', 'email_verify')";
       ForeignKey ["user_id"] "users" ["id"] "CASCADE";
       PrimaryKey ["id"];
       Unique "uq_auth_internal_tokens_hash" ["token_hash"]];
    CreateIndex "ix_auth_internal_tokens_user_id" "auth_internal_tokens" ["user_id"] None;
    CreateIndex "ix_auth_internal_tokens_purpose" "auth_internal_tokens" ["purpose"] None;
    CreateIndex "ix_auth_internal_tokens_expires_at" "auth_internal_tokens" ["expires_at"] None;
    CreateIndex "ix_auth_internal_tokens_token_hash" "auth_internal_tokens" ["token_hash"] None ].
Definition downgrade : list Op :=
  [ DropIndex "ix_auth_internal_tokens_token_hash" "auth_internal_tokens";
    DropIndex "ix_auth_internal_tokens_expires_at" "auth_internal_tokens";
    DropIndex "ix_auth_internal_tokens_purpose" "auth_internal_tokens";
    DropIndex "ix_auth_internal_tokens_user_id" "auth_internal_tokens";
    DropTable "auth_internal_tokens";
    DropIndex "ix_auth_audit_events_created_at" "auth_audit_events";
    DropIndex "ix_auth_audit_events_event_type" "auth_audit_events";
    DropIndex "ix_auth_audit_events_user_id" "auth_audit_events";
    DropTable "auth_audit_events";
    DropIndex "ix_refresh_tokens_token_hash" "refresh_tokens";
    DropIndex "ix_refresh_tokens_expires_at" "refresh_tokens";
    DropIndex "ix_refresh_tokens_family_id" "refresh_tokens";
    DropIndex "ix_refresh_tokens_user_id" "refresh_tokens";
    DropTable "refresh_tokens";
    DropIndex "ix_role_permissions_permission_id" "role_permissions";
    DropIndex "ix_role_permissions_role_id" "role_permissions";
    DropTable "role_permissions";
    DropIndex "ix_user_roles_role_id" "user_roles";
    DropIndex "ix_user_roles_user_id" "user_roles";
    DropTable "user_roles";
    DropIndex "ix_permissions_name" "permissions";
    DropTable "permissions";
    DropIndex "ix_roles_name" "roles";
    DropTable "roles";
    DropIndex "ix_users_email" "users";
    DropTable "users" ].
Definition migration : Migration := mkMigration "20260505_0003" None upgrade downgrade.
End Rev0003.

(** 20260509_0006: rebac: drop rbac, add relationships. *)
Module Rev0006.
Definition upgrade : list Op :=
  [ DropTable "role_permissions";
    DropTable "user_roles";
    DropTable "permissions";
    DropTable "roles";
    CreateTable "relationships"
      [column_ "id" UUID;
       column_ "resource_type" (Varchar (Some 50%nat));
       column_ "resource_id" (Varchar (Some 64%nat));
       column_ "relation" (Varchar (Some 50%nat));
       column_ "subject_type" (Varchar (Some 50%nat));
       column_ "subject_id" (Varchar (Some 64%nat));
       column_ "created_at" Timestamptz]
      [PrimaryKey ["id"];
       Unique "uq_relationships_tuple" ["resource_type"; "resource_id"; "relation"; "subject_type"; "subject_id"]];
    CreateIndex "ix_relationships_resource" "relationships" ["resource_type"; "resource_id"; "relation"] None;
    CreateIndex "ix_relationships_subject" "relationships" ["subject_type"; "subject_id"; "resource_type"; "relation"] None ].
Definition downgrade : list Op :=
  [ DropIndex "ix_relationships_subject" "relationships";
    DropIndex "ix_relationships_resource" "relationships";
    DropTable "relationships";
    CreateTable "roles"
      [column_ "id" UUID;
       column_ "name" (Varchar (Some 100%nat));
       nullable_column "description" (Varchar (Some 500%nat));
       mkColumn "is_active" Boolean false (Constant "true");
       column_ "created_at" Timestamptz;
       column_ "updated_at" Timestamptz]
      [CheckThat "ck_roles_name_normalized" "name ~ '^[a-z][a-z0-9_]*$'";
       PrimaryKey ["id"];
       Unique "uq_roles_name" ["name"]];
    CreateIndex "ix_roles_name" "roles" ["name"] None;
    CreateTable "permissions"
      [column_ "id" UUID;
       column_ "name" (Varchar (Some 150%nat));
       nullable_column "description" (Varchar (Some 500%nat));
       column_ "created_at" Timestamptz;
       column_ "updated_at" Timestamptz]
      [PrimaryKey ["id"];
       Unique "uq_permissions_name" ["name"]];
    CreateIndex "ix_permissions_name" "permissions" ["name"] None;
    CreateTable "user_roles"
      [column_ "user_id" UUID;
       column_ "role_id" UUID;
       column_ "created_at" Timestamptz]
      [ForeignKey ["user_id"] "users" ["id"] "CASCADE";
       ForeignKey ["role_id"] "roles" ["id"] "CASCADE";
       PrimaryKey ["user_id"; "role_id"]];
    CreateIndex "ix_user_roles_user_id" "user_roles" ["user_id"] None;
    CreateIndex "ix_user_roles_role_id" "user_roles" ["role_id"] None;
    CreateTable "role_permissions"
      [column_ "role_id" UUID;
       column_ "permission_id" UUID;
       column_ "created_at" Timestamptz]
      [ForeignKey ["role_id"] "roles" ["id"] "CASCADE";
       ForeignKey ["permission_id"] "permissions" ["id"] "CASCADE";
       PrimaryKey ["role_id"; "permission_id"]];
    CreateIndex "ix_role_permissions_role_id" "role_permissions" ["role_id"] None;
    CreateIndex "ix_role_permissions_permission_id" "role_permissions" ["permission_id"] None ].
Definition migration : Migration := mkMigration "20260509_0006" (Some "20260505_0003") upgrade downgrade.
End Rev0006.

(** 20260510_0007: relationships: ownership moves from auth feature to platform. *)
Module Rev0007.
Definition upgrade : list Op := [].
Definition downgrade : list Op := [].
Definition migration : Migration := mkMigration "20260510_0007" (Some "20260509_0006") upgrade downgrade.
End Rev0007.

(** 20260511_0008: template feature: create things table. *)
Module Rev0008.
Definition upgrade : list Op :=
  [ CreateTable "things"
      [column_ "id" UUID;
       column_ "name" (Varchar (Some 200%nat));
       column_ "owner_id" UUID;
       column_ "created_at" Timestamptz;
       column_ "updated_at" Timestamptz]
      [PrimaryKey ["id"];
       CheckThat "things_name_not_blank" "char_length(trim(name)) > 0"];
    CreateIndex "ix_things_owner_id" "things" ["owner_id"] None ].
Definition downgrade : list Op :=
  [ DropIndex "ix_things_owner_id" "things";
    DropTable "things" ].
Definition migration : Migration := mkMigration "20260511_0008" (Some "20260510_0007") upgrade downgrade.
End Rev0008.

(** 20260512_0009: authentication: extract credentials into a dedicated table (phase 1). *)
Module Rev0009.
Definition upgrade : list Op :=
  [ CreateTable "credentials"
      [column_ "id" UUID;
       column_ "user_id" UUID;
       column_ "algorithm" (Varchar (Some 32%nat));
       column_ "hash" (Varchar (Some 512%nat));
       column_ "last_changed_at" Timestamptz;
       column_ "created_at" Timestamptz]
      [PrimaryKey ["id"];
       Unique "uq_credentials_user_id_algorithm" ["user_id"; "algorithm"];
       ForeignKey ["user_id"] "users" ["id"] "CASCADE"];
    CreateIndex "ix_credentials_user_id" "credentials" ["user_id"] None;
    Execute BackfillCredentials ].
Definition downgrade : list Op :=
  [ DropIndex "ix_credentials_user_id" "credentials";
    DropTable "credentials" ].
Definition migration : Migration := mkMigration "20260512_0009" (Some "20260511_0008") upgrade downgrade.
End Rev0009.

(** 20260513_0010: authentication: drop users.password_hash (phase 2). *)
Module Rev0010.
Definition upgrade : list Op :=
  [ DropColumn "users" "password_hash" ].
Definition downgrade : list Op :=
  [ Fails NotImplementedError ].
Definition migration : Migration := mkMigration "20260513_0010" (Some "20260512_0009") upgrade downgrade.
End Rev0010.

(** 20260514_0011: template feature: drop things table. *)
Module Rev0011.
Definition upgrade : list Op :=
  [ Execute DeleteThingRelationships;
    DropIndex "ix_things_owner_id" "things";
    DropTable "things" ].
Definition downgrade : list Op :=
  [ CreateTable "things"
      [column_ "id" UUID;
       column_ "name" (Varchar (Some 200%nat));
       column_ "owner_id" UUID;
       column_ "created_at" Timestamptz;
       column_ "updated_at" Timestamptz]
      [PrimaryKey ["id"];
       CheckThat "things_name_not_blank" "char_length(trim(name)) > 0"];
    CreateIndex "ix_things_owner_id" "things" ["owner_id"] None ].
Definition migration : Migration := mkMigration "20260514_0011" (Some "20260513_0010") upgrade downgrade.
End Rev0011.

(** 20260515_0012: outbox: create outbox_messages table. *)
Module Rev0012.
Definition upgrade : list Op :=
  [ CreateTable "outbox_messages"
      [column_ "id" UUID;
       column_ "job_name" (Varchar (Some 128%nat));
       column_ "payload" Jsonb;
       mkColumn "available_at" Timestamptz false Now;
       mkColumn "status" (Varchar (Some 16%nat)) false (Constant "pending");
       mkColumn "attempts" Integer false (Constant "0");
       nullable_column "last_error" Text;
       nullable_column "locked_at" Timestamptz;
       nullable_column "locked_by" (Varchar (Some 128%nat));
       mkColumn "created_at" Timestamptz false Now;
       nullable_column "dispatched_at" Timestamptz]
      [PrimaryKey ["id"]];
    CreateIndex "ix_outbox_pending" "outbox_messages" ["available_at"] (Some "status = 'pending'");
    CreateIndex "ix_outbox_created" "outbox_messages" ["created_at"] None ].
Definition downgrade : list Op :=
  [ DropIndex "ix_outbox_created" "outbox_messages";
    DropIndex "ix_outbox_pending" "outbox_messages";
    DropTable "outbox_messages" ].
Definition migration : Migration := mkMigration "20260515_0012" (Some "20260514_0011") upgrade downgrade.
End Rev0012.

(** 20260516_0013: outbox: rename dispatched -> delivered, add failed_at, processed_outbox_messages. *)
Module Rev0013.
Definition upgrade : list Op :=
  [ RenameColumn "outbox_messages" "dispatched_at" "delivered_at";
    Execute (RenameStatus "dispatched" "delivered");
    AddColumn "outbox_messages" (nullable_column "failed_at" Timestamptz);
    CreateTable "processed_outbox_messages"
      [column_ "id" UUID;
       mkColumn "processed_at" Timestamptz false Now]
      [PrimaryKey ["id"]] ].
Definition downgrade : list Op :=
  [ DropTable "processed_outbox_messages";
    DropColumn "outbox_messages" "failed_at";
    Execute (RenameStatus "delivered" "dispatched");
    RenameColumn "outbox_messages" "delivered_at" "dispatched_at" ].
Definition migration : Migration := mkMigration "20260516_0013" (Some "20260515_0012") upgrade downgrade.
End Rev0013.

(** 20260517_0014: outbox: reshape ix_outbox_pending to (available_at, id) CONCURRENTLY. *)
Module Rev0014.
Definition upgrade : list Op :=
  [ EnterAutocommit;
    DropIndexIfExists "ix_outbox_pending";
    CreateIndexIfNotExists "ix_outbox_pending" "outbox_messages" ["available_at"; "id"] (Some "status = 'pending'") false;
    ExitAutocommit ].
Definition downgrade : list Op :=
  [ EnterAutocommit;
    DropIndexIfExists "ix_outbox_pending";
    CreateIndexIfNotExists "ix_outbox_pending" "outbox_messages" ["available_at"] (Some "status = 'pending'") false;
    ExitAutocommit ].
Definition migration : Migration := mkMigration "20260517_0014" (Some "20260516_0013") upgrade downgrade.
End Rev0014.

(** 20260518_0015: users: add ix_users_created_at CONCURRENTLY for keyset pagination. *)
Module Rev0015.
Definition upgrade : list Op := create_index_concurrently "ix_users_created_at" "users" ["created_at"; "id"] None false.
Definition downgrade : list Op := drop_index_concurrently "ix_users_created_at".
Definition migration : Migration := mkMigration "20260518_0015" (Some "20260517_0014") upgrade downgrade.
End Rev0015.

(** 20260519_0016: users: add is_erased flag for GDPR Art. 17 scrub. *)
Module Rev0016.
Definition upgrade : list Op :=
  [ AddColumn "users" (mkColumn "is_erased" Boolean false (Constant "false")) ].
Definition downgrade : list Op :=
  [ DropColumn "users" "is_erased" ].
Definition migration : Migration := mkMigration "20260519_0016" (Some "20260518_0015") upgrade downgrade.
End Rev0016.

(** 20260520_0017: outbox: add trace_context JSONB for W3C trace propagation. *)
Module Rev0017.
Definition upgrade : list Op :=
  [ AddColumn "outbox_messages" (mkColumn "trace_context" Jsonb false (Constant "'{}'::jsonb")) ].
Definition downgrade : list Op :=
  [ DropColumn "outbox_messages" "trace_context" ].
Definition migration : Migration := mkMigration "20260520_0017" (Some "20260519_0016") upgrade downgrade.
End Rev0017.

(** The chain, oldest first. *)
Definition versions : list Migration :=
  [Rev0003.migration; Rev0006.migration; Rev0007.migration; Rev0008.migration; Rev0009.migration; Rev0010.migration; Rev0011.migration; Rev0012.migration; Rev0013.migration; Rev0014.migration; Rev0015.migration; Rev0016.migration; Rev0017.migration].

(** ** The models

    A [str] field is a VARCHAR without a bound unless [max_length] gives one; a default
    of a field is Python's, the server has one only where [server_default] says so. *)

Definition str : SqlType := Varchar None.
Definition str_max (n : nat) : SqlType := Varchar (Some n).
Definition json_variant : SqlType := Jsonb.

Definition UserTable : Table := mkTable
  [column_ "id" UUID; column_ "email" str; column_ "is_active" Boolean; column_ "is_verified" Boolean;
   column_ "is_erased" Boolean; column_ "authz_version" Integer; column_ "created_at" Timestamptz;
   column_ "updated_at" Timestamptz; nullable_column "last_login_at" Timestamptz]
  [PrimaryKey ["id"]; Unique "uq_users_email" ["email"]; CheckThat "ck_users_authz_version_positive" "authz_version >= 1"] [].

Definition OutboxMessageTable : Table := mkTable
  [column_ "id" UUID; column_ "job_name" (str_max 128); column_ "payload" json_variant;
   mkColumn "trace_context" json_variant false (Constant "'{}'::jsonb"); column_ "available_at" Timestamptz;
   mkColumn "status" (str_max 16) false (Constant "pending"); mkColumn "attempts" Integer false (Constant "0");
   nullable_column "last_error" Text; nullable_column "locked_at" Timestamptz; nullable_column "locked_by" (str_max 128);
   column_ "created_at" Timestamptz; nullable_column "delivered_at" Timestamptz; nullable_column "failed_at" Timestamptz]
  [PrimaryKey ["id"]] [].
Definition ProcessedOutboxMessageTable : Table := mkTable
  [column_ "id" UUID; mkColumn "processed_at" Timestamptz false Now] [PrimaryKey ["id"]] [].

Definition CredentialTable : Table := mkTable
  [column_ "id" UUID; column_ "user_id" UUID; column_ "algorithm" str; column_ "hash" str;
   column_ "last_changed_at" Timestamptz; column_ "created_at" Timestamptz]
  [PrimaryKey ["id"]; Unique "uq_credentials_user_id_algorithm" ["user_id"; "algorithm"];
   ForeignKey ["user_id"] "users" ["id"] "CASCADE"] [].
Definition RefreshTokenTable : Table := mkTable
  [column_ "id" UUID; column_ "user_id" UUID; column_ "token_hash" str; column_ "family_id" UUID;
   column_ "expires_at" Timestamptz; nullable_column "revoked_at" Timestamptz; nullable_column "replaced_by_token_id" UUID;
   column_ "created_at" Timestamptz; nullable_column "created_ip" str; nullable_column "user_agent" str]
  [PrimaryKey ["id"]; Unique "uq_refresh_tokens_hash" ["token_hash"]; ForeignKey ["user_id"] "users" ["id"] "CASCADE";
   ForeignKey ["replaced_by_token_id"] "refresh_tokens" ["id"] "SET NULL"] [].
Definition AuthAuditEventTable : Table := mkTable
  [column_ "id" UUID; nullable_column "user_id" UUID; column_ "event_type" str; nullable_column "ip_address" str;
   nullable_column "user_agent" str; column_ "metadata" json_variant; column_ "created_at" Timestamptz]
  [PrimaryKey ["id"]; ForeignKey ["user_id"] "users" ["id"] "SET NULL"] [].
Definition AuthInternalTokenTable : Table := mkTable
  [column_ "id" UUID; nullable_column "user_id" UUID; column_ "purpose" str; column_ "token_hash" str;
   column_ "expires_at" Timestamptz; nullable_column "used_at" Timestamptz; column_ "created_at" Timestamptz;
   nullable_column "created_ip" str]
  [PrimaryKey ["id"]; Unique "uq_auth_internal_tokens_hash" ["token_hash"]; ForeignKey ["user_id"] "users" ["id"] "CASCADE"] [].

Definition RelationshipTable : Table := mkTable
  [column_ "id" UUID; column_ "resource_type" (str_max 50); column_ "resource_id" (str_max 64); column_ "relation" (str_max 50);
   column_ "subject_type" (str_max 50); column_ "subject_id" (str_max 64); column_ "created_at" Timestamptz]
  [PrimaryKey ["id"];
   Unique "uq_relationships_tuple" ["resource_type"; "resource_id"; "relation"; "subject_type"; "subject_id"]] [].

(** [index=True] names the index after the table and the column. *)
Definition indexed (table column : string) : string * Index :=
  ("ix_" +:+ table +:+ "_" +:+ column, mkIndex table [column] None false true).

Definition target_metadata : Database := mkDatabase
  (list_to_map
    [("users", UserTable); ("outbox_messages", OutboxMessageTable); ("processed_outbox_messages", ProcessedOutboxMessageTable);
     ("credentials", CredentialTable); ("refresh_tokens", RefreshTokenTable); ("auth_audit_events", AuthAuditEventTable);
     ("auth_internal_tokens", AuthInternalTokenTable); ("relationships", RelationshipTable)])
  (list_to_map
    [indexed "users" "email"; ("ix_users_created_at", mkIndex "users" ["created_at"; "id"] None false true);
     ("ix_outbox_pending", mkIndex "outbox_messages" ["available_at"; "id"] (Some "status = 'pending'") false true);
     ("ix_outbox_created", mkIndex "outbox_messages" ["created_at"] None false true);
     indexed "credentials" "user_id";
     indexed "refresh_tokens" "user_id"; indexed "refresh_tokens" "token_hash"; indexed "refresh_tokens" "family_id";
     indexed "refresh_tokens" "expires_at";
     indexed "auth_audit_events" "user_id"; indexed "auth_audit_events" "event_type"; indexed "auth_audit_events" "created_at";
     indexed "auth_internal_tokens" "user_id"; indexed "auth_internal_tokens" "purpose"; indexed "auth_internal_tokens" "token_hash";
     indexed "auth_internal_tokens" "expires_at";
     ("ix_relationships_resource", mkIndex "relationships" ["resource_type"; "resource_id"; "relation"] None false true);
     ("ix_relationships_subject", mkIndex "relationships" ["subject_type"; "subject_id"; "resource_type"; "relation"] None false true)]).
