(* ===== verification/MigrationsFacts.v ===== *)
(** Runs of Alembic over arbitrary databases: what statements do to the catalogue does
    not depend on the rows; a run does what the statements of the revisions behind do;
    what a crash between two statements leaves leads to the same end. *)

From Stdlib Require Import String.
From S2P Require Import Prelude PyStr Uuid Json Store Schema Migrations.
Open Scope string_scope.
Open Scope list_scope.
Open Scope Z_scope.

(** ** What the operations do to the catalogue *)

Lemma forallb_pointwise {A} (f g : A → bool) l : (∀ x, f x = g x) → forallb f l = forallb g l.
Proof. intros H. induction l as [|x l IH]; cbn; [done|]. by rewrite H IH. Qed.

(** A database without its rows. *)
Definition erase_rows (t : Table) : Table := mkTable (columns t) (constraints t) [].
Definition catalogue (db : Database) : Database := mkDatabase (erase_rows <$> tables db) (indexes db).

(** A column that can be added whatever rows there are. *)
Definition lenient (op : Op) : bool :=
  match op with AddColumn _ c => nullable c || bool_decide (server_default c ≠ NoDefault) | _ => true end.

Section catalogue.
Context (now : time) (gen_random_uuid : nat → uuid).

Lemma name_free_catalogue db name : name_free (catalogue db) name = name_free db name.
Proof.
  unfold name_free, catalogue; cbn. f_equal. apply bool_decide_ext. by rewrite lookup_fmap fmap_None.
Qed.

Lemma droppable_catalogue db name : droppable (catalogue db) name = droppable db name.
Proof. unfold droppable, catalogue; cbn. apply bool_decide_ext. by rewrite map_Forall_fmap. Qed.

Lemma run_get_table {A} name (k : Table → M Database A) db :
  (t ← get_table name; k t) db = match tables db !! name with Some t => k t db | None => (Raise (ExternalError "ProgrammingError: undefined table"), db) end.
Proof. unfold get_table. run. by destruct (tables db !! name). Qed.

Lemma run_guard {A} b what (k : M Database A) db :
  (guard b what ;; k) db = if b then k db else (Raise (ExternalError ("ProgrammingError: " +:+ what)), db).
Proof. by destruct b. Qed.

Lemma catalogue_put name t db :
  catalogue (mkDatabase (<[name := t]> (tables db)) (indexes db))
  = mkDatabase (<[name := erase_rows t]> (tables (catalogue db))) (indexes db).
Proof. unfold catalogue; cbn. by rewrite fmap_insert. Qed.

Lemma lookup_catalogue name db : tables (catalogue db) !! name = erase_rows <$> tables db !! name.
Proof. apply lookup_fmap. Qed.

(** The outcome of an operation, and what it does to the catalogue, do not depend on
    the rows. *)
Definition blind (m : M Database unit) (db : Database) : Prop :=
  m (catalogue db) = ((m db).1, catalogue (m db).2).

Lemma create_index_blind name table cols filter unique db : blind (create_index name table cols filter unique) db.
Proof.
  unfold blind, create_index. rewrite !run_get_table lookup_catalogue.
  destruct (tables db !! table) as [t|]; [cbn [fmap option_fmap option_map] | done].
  rewrite !run_guard. change (has_column (erase_rows t)) with (has_column t).
  case_match; [|done]. rewrite !run_bind !run_gets. cbn [id]. rewrite !run_guard name_free_catalogue. by case_match.
Qed.

Lemma put_blind name t t' db :
  erase_rows t = t' → put_table name t' (catalogue db) = ((put_table name t db).1, catalogue (put_table name t db).2).
Proof. intros <-. unfold put_table. by rewrite !run_modify catalogue_put. Qed.

Lemma execute_blind s db : blind (execute now gen_random_uuid s) db.
Proof.
  unfold blind; destruct s; cbn [execute]; rewrite !run_get_table !lookup_catalogue.
  - destruct (tables db !! "outbox_messages") as [t|]; [|done]. cbn [fmap option_fmap option_map]. by apply put_blind.
  - destruct (tables db !! "users") as [u|]; [|done]. cbn [fmap option_fmap option_map].
    rewrite !run_get_table !lookup_catalogue. destruct (tables db !! "credentials") as [t|]; [|done].
    cbn [fmap option_fmap option_map]. by apply put_blind.
  - destruct (tables db !! "relationships") as [t|]; [|done]. cbn [fmap option_fmap option_map]. by apply put_blind.
Qed.

Lemma run_op_blind op db : lenient op = true → blind (run_op now gen_random_uuid op) db.
Proof.
  unfold blind. destruct op; intros Hl; cbn [run_op]; try done.
  - rewrite !run_bind !run_gets. cbn [id]. rewrite !run_guard name_free_catalogue.
    case_match; [|done]. rewrite (forallb_pointwise _ (target_exists db name));
      [|intros [| | |l target tl d]; try done; cbn; f_equal; apply bool_decide_ext; by rewrite lookup_fmap fmap_is_Some].
    case_match; [|done]. by apply put_blind.
  - rewrite !run_get_table lookup_catalogue.
    destruct (tables db !! name) as [t|]; [|done]. cbn [fmap option_fmap option_map]. rewrite !run_bind !run_gets. cbn [id].
    rewrite !run_guard droppable_catalogue. destruct (droppable db name); [|done]. rewrite !run_modify. unfold catalogue; cbn. by rewrite fmap_delete.
  - apply create_index_blind.
  - rewrite !run_bind !run_gets. cbn [id]. rewrite !run_guard. change (indexes (catalogue db)) with (indexes db). by destruct (bool_decide _).
  - rewrite !run_bind !run_gets. cbn [id]. change (indexes (catalogue db)) with (indexes db). destruct (bool_decide _); [done|]. apply create_index_blind.
  - rewrite !run_get_table lookup_catalogue. destruct (tables db !! table) as [t|]; [|done]. cbn [fmap option_fmap option_map].
    rewrite !run_guard. change (has_column (erase_rows t)) with (has_column t). case_match; [|done].
    cbn [lenient] in Hl. rewrite Hl. by apply put_blind.
  - rewrite !run_get_table lookup_catalogue. destruct (tables db !! table) as [t|]; [|done]. cbn [fmap option_fmap option_map].
    rewrite !run_guard. change (has_column (erase_rows t)) with (has_column t). case_match; [|done].
    unfold put_table. rewrite !run_bind !run_modify. unfold catalogue; cbn. by rewrite fmap_insert.
  - rewrite !run_get_table lookup_catalogue. destruct (tables db !! table) as [t|]; [|done]. cbn [fmap option_fmap option_map].
    rewrite !run_guard. change (has_column (erase_rows t)) with (has_column t). case_match; [|done].
    unfold put_table. rewrite !run_bind !run_modify. unfold catalogue; cbn. by rewrite fmap_insert.
  - apply execute_blind.
Qed.

Lemma run_ops_blind ops db : forallb lenient ops = true → blind (run_ops now gen_random_uuid ops) db.
Proof.
  unfold blind, run_ops. revert db. induction ops as [|op ops IH]; intros db; cbn [forallb for_each]; [done|].
  intros [Ho Hs]%andb_prop. rewrite !run_bind (run_op_blind op db Ho).
  destruct (run_op _ _ op db) as [[[]|e] db']; cbn [fst snd]; [by apply IH|done].
Qed.
End catalogue.

(** ** A run of Alembic *)

Definition stamped (v : option string) (l : list Migration) : option string :=
  match last l with Some m => Some (revision m) | None => v end.

Lemma stamped_cons v m l : stamped v (m :: l) = stamped (Some (revision m)) l.
Proof. unfold stamped. rewrite last_cons. by destruct (last l). Qed.

Section run.
Context (now : time) (gen_random_uuid : nat → uuid).
#[local] Abbreviation performs l := (for_each l (perform now gen_random_uuid)).
#[local] Abbreviation run_ops' := (run_ops now gen_random_uuid).

Lemma run_ops_app l l' db :
  run_ops' (l ++ l') db = match run_ops' l db with (Ret _, db) => run_ops' l' db | (Raise e, db) => (Raise e, db) end.
Proof. apply for_each_app. Qed.

(** Statements change what the connection sees as they do outside of a run. *)
Lemma perform_run op c :
  match run_op now gen_random_uuid op (current c).1 with
  | (Ret _, db) => ∃ c', perform now gen_random_uuid (Run op) c = (Ret tt, c') ∧ current c' = (db, (current c).2)
  | (Raise e, _) => perform now gen_random_uuid (Run op) c = (Raise e, c)
  end.
Proof.
  destruct op; cbn [perform];
    try (by destruct (run_op _ _ _ _) as [[[]|e] db]; [eexists|]); cbn; eexists; split; try done; cbn; by destruct (current c).
Qed.

Lemma performs_ops ops c :
  match run_ops' ops (current c).1 with
  | (Ret _, db) => ∃ c', performs (map Run ops) c = (Ret tt, c') ∧ current c' = (db, (current c).2)
  | (Raise e, _) => ∃ c', performs (map Run ops) c = (Raise e, c')
  end.
Proof.
  revert c. unfold run_ops. induction ops as [|op ops IH]; intros c; cbn [map for_each].
  - exists c. by destruct c as [[]].
  - rewrite !run_bind. pose proof (perform_run op c) as H.
    destruct (run_op now gen_random_uuid op (current c).1) as [[[]|e] db].
    + destruct H as (c1 & -> & Hc). specialize (IH c1). by rewrite Hc in IH.
    + rewrite H. by eexists.
Qed.

Lemma performs_upgrades l c :
  match run_ops' (flat_map upgrade l) (current c).1 with
  | (Ret _, db) => ∃ c', performs (upgrade_actions l) c = (Ret tt, c') ∧ current c' = (db, stamped (current c).2 l)
  | (Raise e, _) => ∃ c', performs (upgrade_actions l) c = (Raise e, c')
  end.
Proof.
  revert c. induction l as [|m l IH]; intros c.
  - exists c. by destruct c as [[]].
  - cbn [flat_map upgrade_actions]. rewrite run_ops_app -app_assoc for_each_app. pose proof (performs_ops (upgrade m) c) as H.
    destruct (run_ops' (upgrade m) (current c).1) as [[[]|e] db].
    + destruct H as (c1 & -> & Hc). cbn [app for_each]. rewrite !run_bind. cbn [perform].
      specialize (IH (mkConnection ((current c1).1, Some (revision m)) (committed c1) (autocommit c1))).
      cbn [current fst snd] in IH. rewrite Hc in IH |- *. rewrite stamped_cons. exact IH.
    + destruct H as [c' ->]. by eexists.
Qed.

(** A run succeeds when the statements of the revisions behind do. *)
Lemma run_migrations_ops versions s db :
  run_ops' (flat_map upgrade (behind s.2 versions)) s.1 = (Ret tt, db) →
  run_migrations now gen_random_uuid versions s = (Ret tt, (db, stamped s.2 (behind s.2 versions))).
Proof.
  intros H. unfold run_migrations. pose proof (performs_upgrades (behind s.2 versions) (connect s)) as Hp.
  cbn [connect current] in Hp. rewrite H in Hp. destruct Hp as (c' & -> & ->). done.
Qed.
Lemma run_migrations_inv versions s F :
  run_migrations now gen_random_uuid versions s = (Ret tt, F) →
  run_ops' (flat_map upgrade (behind s.2 versions)) s.1 = (Ret tt, F.1) ∧ F.2 = stamped s.2 (behind s.2 versions).
Proof.
  intros H. unfold run_migrations in H. pose proof (performs_upgrades (behind s.2 versions) (connect s)) as Hp.
  cbn [connect current] in Hp. destruct (run_ops' _ _) as [[[]|e] db].
  - destruct Hp as (c' & He & Hc). rewrite He Hc in H. by simplify_eq/=.
  - destruct Hp as (c' & He). by rewrite He in H.
Qed.
End run.

(** ** Runs that die *)

(** A statement whose effect does not depend on when and where it runs. *)
Definition steady (op : Op) : bool :=
  match op with
  | AddColumn _ c => bool_decide (server_default c ≠ Now)
  | Execute BackfillCredentials => false
  | _ => true
  end.
Definition transactional (op : Op) : bool := match op with EnterAutocommit | ExitAutocommit => false | _ => true end.

Lemma run_op_steady now gen now' gen' op db : steady op = true → run_op now gen op db = run_op now' gen' op db.
Proof.
  destruct op as [| | | | | |t c| | |st| | |]; try done; intros H.
  - cbn [run_op]. assert (default_value now (server_default c) = default_value now' (server_default c)) as ->; [|done].
    cbn [steady] in H. apply bool_decide_eq_true in H. by destruct (server_default c).
  - by destruct st.
Qed.
Lemma run_ops_steady now gen now' gen' ops db : forallb steady ops = true → run_ops now gen ops db = run_ops now' gen' ops db.
Proof.
  unfold run_ops. revert db. induction ops as [|op ops IH]; intros db; cbn [forallb for_each]; [done|].
  intros [H Hs]%andb_prop. rewrite !run_bind (run_op_steady now gen now' gen' op db H).
  destruct (run_op _ _ op db) as [[[]|e] db']; [by apply IH|done].
Qed.

(** Statements that can be run again from wherever a run of them stopped. *)
Definition rerunnable (ops : list Op) : Prop := ∀ now gen db i db',
  run_ops now gen ops db = (Ret tt, db') →
  ∃ db_i, run_ops now gen (take i ops) db = (Ret tt, db_i) ∧ run_ops now gen ops db_i = (Ret tt, db').

(** The upgrades an interrupted run can take up again: those that commit nothing on
    the way, and blocks of statements that can be run again. *)
Fixpoint resumable (l : list Migration) : Prop :=
  match l with
  | [] => True
  | m :: l' =>
      (forallb transactional (upgrade m) = true ∨
       ∃ ops, upgrade m = EnterAutocommit :: ops ++ [ExitAutocommit] ∧ forallb transactional ops = true ∧ rerunnable ops
         ∧ forallb steady (ops ++ flat_map upgrade l') = true) ∧
      resumable l'
  end.

Lemma run_op_nop now gen op db : transactional op = false → run_op now gen op db = (Ret tt, db).
Proof. by destruct op. Qed.

Lemma behind_none l : behind None l = l.
Proof. by destruct l. Qed.
Lemma behind_cons v l m l' : NoDup (map revision l) → behind v l = m :: l' → behind (Some (revision m)) l = l'.
Proof.
  destruct v as [v|]; [|rewrite behind_none; intros _ ->; by rewrite /= String.eqb_refl].
  induction l as [|x l IH]; [done|]. cbn [behind map]. intros [Hx Hn]%NoDup_cons.
  assert (∀ l0, l = l0 ++ m :: l' → String.eqb (revision x) (revision m) = false) as Hne.
  { intros l0 ->. apply String.eqb_neq. intros Heq. apply Hx. rewrite map_app Heq. cbn. set_solver. }
  destruct (String.eqb (revision x) v).
  - intros ->. rewrite (Hne [] eq_refl). by rewrite /= String.eqb_refl.
  - intros Hb. specialize (IH Hn Hb). assert (∃ l0, l = l0 ++ m :: l') as [l0 Hl].
    { clear -Hb. induction l as [|y l IH]; [done|]. cbn [behind] in Hb. destruct (String.eqb _ _); [by exists [y]; rewrite -Hb|].
      destruct (IH Hb) as [l0 ->]. by exists (y :: l0). }
    by rewrite (Hne l0 Hl).
Qed.

Lemma run_block now gen ops l db :
  run_ops now gen ((EnterAutocommit :: ops ++ [ExitAutocommit]) ++ l) db = run_ops now gen (ops ++ l) db.
Proof.
  unfold run_ops. cbn [app for_each]. rewrite run_bind. cbn [run_op]. rewrite run_ret -app_assoc !for_each_app.
  by destruct (for_each ops _ db) as [[[]|e] db'].
Qed.

Section crash.
Context (now now' : time) (gen gen' : nat → uuid) (versions : list Migration) (s F : Database * option string).
Context (versions_nodup : NoDup (map revision versions)).
#[local] Abbreviation performs l := (for_each l (perform now gen)).

(** A committed state a second run takes to the state the first was going to. *)
Definition good (s0 : Database * option string) : Prop :=
  s0 = s ∨ run_migrations now' gen' versions s0 = (Ret tt, F).

(** Outside of autocommit nothing is committed. *)
Lemma performs_transactional ops k c : forallb transactional ops = true → autocommit c = false →
  let c' := state_of (performs (take k (map Run ops))) c in committed c' = committed c ∧ autocommit c' = false.
Proof.
  unfold state_of. revert k c. induction ops as [|op ops IH]; intros [|k] c; cbn [map take for_each]; [done..|].
  cbn [forallb]. intros [Ho Hs]%andb_prop Hc. rewrite run_bind.
  assert (∃ r c', perform now gen (Run op) c = (r, c') ∧ committed c' = committed c ∧ autocommit c' = false) as (r & c' & -> & Hd & Ha).
  { destruct op; try done; cbn [perform]; destruct (run_op _ _ _ _) as [[[]|e'] db]; rewrite ?Hc; by do 2 eexists. }
  destruct r as [[]|e]; [|done]. destruct (IH k c' Hs Ha) as [-> ->]. done.
Qed.

(** In an autocommit block everything is. *)
Lemma performs_autocommit ops k c db : forallb transactional ops = true → autocommit c = true → committed c = current c →
  run_ops now gen (take k ops) (current c).1 = (Ret tt, db) →
  performs (take k (map Run ops)) c = (Ret tt, mkConnection (db, (current c).2) (db, (current c).2) true).
Proof.
  unfold run_ops. revert k c. induction ops as [|op ops IH]; intros [|k] c; cbn [map take for_each].
  1-3: intros _ Ha Hc [= <-]; destruct c as [[] ? ?]; cbn in *; by subst.
  cbn [forallb]. intros [Ho Hs]%andb_prop Ha Hc. rewrite !run_bind.
  destruct (run_op now gen op (current c).1) as [[[]|e] db1] eqn:E; [|done]. intros H.
  assert (perform now gen (Run op) c = (Ret tt, mkConnection (db1, (current c).2) (db1, (current c).2) true)) as ->.
  { destruct op; try done; cbn [perform]; rewrite E ?Ha //. }
  by apply (IH k (mkConnection (db1, (current c).2) (db1, (current c).2) true)).
Qed.

Lemma crash_good l k c : resumable l → behind (current c).2 versions = l → autocommit c = false →
  run_ops now gen (flat_map upgrade l) (current c).1 = (Ret tt, F.1) → F.2 = stamped (current c).2 l →
  good (committed c) → good (committed (state_of (performs (take k (upgrade_actions l))) c)).
Proof.
  unfold state_of. revert k c. induction l as [|m l IH]; intros k c; [by rewrite take_nil|].
  cbn [resumable]. intros [Hm Hr] Hb Ha Hrun HF Hg. cbn [flat_map upgrade_actions] in *.
  rewrite run_ops_app in Hrun. destruct (run_ops now gen (upgrade m) (current c).1) as [[[]|e] db1] eqn:Em; [|done].
  rewrite -app_assoc. set (tail := [Stamp (revision m)] ++ _).
  (* What follows the statements of the revision. *)
  assert (Htail : ∀ j c1, current c1 = (db1, (current c).2) → autocommit c1 = false → good (committed c1) →
    good (committed (performs (take j tail) c1).2)).
  { intros [|j] c1 Hc1 Ha1 Hg1; [done|]. subst tail. cbn [app take for_each]. rewrite run_bind. cbn [perform].
    apply IH; cbn; try done; [|by rewrite Hc1|].
    - by apply behind_cons with (v := (current c).2).
    - rewrite HF. apply stamped_cons. }
  destruct Hm as [Hm|(ops & Hu & Ht & Hre & Hst)].
  - (* nothing is committed on the way *)
    destruct (decide (k ≤ length (map Run (upgrade m)))%nat) as [Hk|Hk].
    + rewrite take_app_le //. destruct (performs_transactional (upgrade m) k c Hm Ha) as [H1 _]. unfold state_of in H1. by rewrite H1.
    + rewrite take_app_ge; last lia. rewrite for_each_app. pose proof (performs_ops now gen (upgrade m) c) as Hp. rewrite Em in Hp.
      destruct Hp as (c1 & Hp & Hc1). destruct (performs_transactional (upgrade m) (length (map Run (upgrade m))) c Hm Ha) as [H1 H2].
      unfold state_of in H1, H2. rewrite firstn_all Hp in H1 H2. rewrite Hp. apply Htail; [done..|]. cbn in H1. by rewrite H1.
  - (* a block *)
    rewrite -(app_nil_r (upgrade m)) Hu run_block app_nil_r in Em. rename Em into Eo.
    assert (Hblock : ∀ db_i, run_ops now gen ops db_i = (Ret tt, db1) → good (db_i, (current c).2)).
    { intros db_i Hi. right. rewrite (surjective_pairing F) HF. 
      pose proof (run_migrations_ops now' gen' versions (db_i, (current c).2) F.1) as Hgo. cbn [fst snd] in Hgo. rewrite Hb in Hgo.
      apply Hgo. cbn [flat_map]. rewrite Hu.
      rewrite run_block (run_ops_steady now' gen' now gen) // run_ops_app Hi. exact Hrun. }
    rewrite Hu. cbn [map app]. rewrite map_app -app_assoc. cbn [map app]. destruct k as [|k]; [done|]. cbn [take for_each]. rewrite run_bind. cbn [perform].
    set (c1 := mkConnection _ _ true).
    destruct (decide (k ≤ length (map Run ops))%nat) as [Hk|Hk].
    + rewrite take_app_le //. destruct (Hre now gen _ k _ Eo) as (db_i & H1 & H2).
      rewrite (performs_autocommit ops k c1 db_i) //. by apply Hblock.
    + rewrite take_app_ge; last lia. rewrite for_each_app. 
      pose proof (performs_autocommit ops (length (map Run ops)) c1 db1 Ht eq_refl eq_refl) as Hp. rewrite firstn_all in Hp.
      rewrite length_map firstn_all in Hp. rewrite (Hp Eo).
      destruct (Hre now gen _ (length ops) _ Eo) as (db_i & H1 & H2). rewrite firstn_all Eo in H1. injection H1 as <-.
      destruct (k - _)%nat as [|j] eqn:Ej; [lia|]. cbn [take for_each]. rewrite run_bind. cbn [perform]. apply Htail; [done..|]. by apply Hblock.
Qed.
End crash.

(** *** The revisions can be resumed *)

Lemma rerun_create name table cols filter unique : rerunnable [CreateIndexIfNotExists name table cols filter unique].
Proof.
  intros now gen db [|i] db' H; [by exists db|]. exists db'. split; [by rewrite /= take_nil|].
  unfold run_ops in *. cbn [for_each run_op] in *. rewrite !run_bind !run_gets in H |- *. cbn [id] in *.
  case_bool_decide as Hd; [rewrite !run_ret in H; injection H as ->; by rewrite bool_decide_true|].
  assert (is_Some (indexes db' !! name)) as Hs.
  { unfold create_index in H. rewrite run_get_table in H. destruct (tables db !! table) as [t|]; [|done]. rewrite run_guard in H.
    destruct (forallb (has_column t) cols); [|done]. rewrite run_bind run_gets in H. cbn [id] in H. rewrite run_guard in H.
    destruct (name_free db name); [|done].
    rewrite run_modify run_ret in H. injection H as <-. cbn. rewrite lookup_insert_eq. by eexists. }
  by rewrite bool_decide_true.
Qed.

Lemma rerun_replace name table cols filter unique :
  rerunnable [DropIndexIfExists name; CreateIndexIfNotExists name table cols filter unique].
Proof.
  intros now gen db i db' H. destruct i as [|[|i]].
  - by exists db.
  - eexists. split; [done|]. unfold run_ops in *. cbn [for_each run_op] in *. unfold remove_index in *.
    rewrite !run_bind !run_modify in H |- *. cbn [tables indexes]. by rewrite delete_delete_eq.
  - exists db'. split; [by rewrite /= take_nil|]. unfold run_ops in *. cbn [for_each run_op] in *. unfold remove_index in *.
    rewrite !run_bind !run_modify !run_bind !run_gets in H |- *. cbn [id tables indexes] in *.
    assert (∀ l : gmap string Index, bool_decide (is_Some (delete name l !! name)) = false) as Hno
      by (intros l; apply bool_decide_eq_false; rewrite lookup_delete_eq; by intros []).
    rewrite !Hno in H |- *.
    unfold create_index in H. rewrite run_get_table in H. cbn [tables] in H. destruct (tables db !! table) as [t|] eqn:Et; [|done].
    rewrite run_guard in H. destruct (forallb (has_column t) cols) eqn:Ec; [|done]. rewrite run_bind run_gets in H. cbn [id] in H. rewrite run_guard in H.
    destruct (name_free _ name) eqn:En; [|done]. rewrite run_modify run_ret in H. injection H as <-. cbn [tables indexes].
    unfold create_index. rewrite run_get_table. cbn [tables]. rewrite Et run_guard Ec run_bind run_gets. cbn [id]. rewrite run_guard.
    unfold name_free in En |- *. cbn [tables indexes] in En |- *. rewrite delete_insert_eq delete_delete_eq En. done.
Qed.

Lemma versions_resumable : resumable versions.
Proof.
  repeat (split; [by left; reflexivity|]).
  split.
  { right. eexists. split; [by apply (eq_refl : _ = EnterAutocommit :: [_; _] ++ [_])|]. split; [done|]. split; [apply rerun_replace|by vm_compute]. }
  split.
  { right. eexists. split; [by apply (eq_refl : _ = EnterAutocommit :: [_] ++ [_])|]. split; [done|]. split; [apply rerun_create|by vm_compute]. }
  repeat (split; [by left; reflexivity|]). done.
Qed.

Lemma resumable_behind v l : resumable l → resumable (behind v l).
Proof.
  induction l as [|m l IH]; [by destruct v|]. intros [Hm Hl]. destruct v as [v|]; [|done]. cbn. case_match; [done|by apply IH].
Qed.

Lemma versions_nodup : NoDup (map revision versions).
Proof. apply (bool_decide_unpack _). by vm_compute. Qed.
