(* ===== verification/MigrationsChain.v ===== *)
(** The revisions one by one: the catalogue each builds and the models it agrees with,
    what its downgrade brings back, what becomes of the rows, what an interrupted
    concurrent statement leaves, and that an upgrade that died can be run again. *)

From Stdlib Require Import String.
From S2P Require Import Prelude PyStr Uuid Json Store Schema Migrations MigrationsFacts.
Open Scope string_scope.
Open Scope list_scope.
Open Scope Z_scope.

(** ** The catalogue at each revision *)

(** The database, without rows, that the first [n] revisions build. *)
Definition built (n : nat) : Database := state_of (run_ops 0 (λ _, 0%N) (flat_map upgrade (take n versions))) empty_database.
(** A database at the revision those reach, whatever its rows. *)
Definition stands (n : nat) (s : Database * option string) : Prop := catalogue s.1 = built n ∧ s.2 = stamped None (take n versions).

Definition head : string := "20260520_0017".

(** [--autogenerate] between a column of the database and one of the models, with the
    widths that only the database has and the defaults left aside. *)
Definition same_type (db model : SqlType) : bool :=
  match db, model with Varchar (Some _), Varchar None => true | _, _ => bool_decide (db = model) end.
Definition same_column (db model : Column) : bool :=
  String.eqb (column db) (column model) && same_type (type db) (type model) && Bool.eqb (nullable db) (nullable model).
(** The constraints only the database has. *)
Definition undeclared (name : string) : list Constraint :=
  if String.eqb name "auth_internal_tokens"
  then [CheckThat "ck_auth_internal_tokens_purpose" "purpose in ('password_reset', 'email_verify')"] else [].
Definition same_table (name : string) (db model : Table) : bool :=
  forallb (λ c, existsb (same_column c) (columns model)) (columns db) &&
  forallb (λ c, existsb (λ d, same_column d c) (columns db)) (columns model) &&
  bool_decide (constraints db ≡ₚ undeclared name ++ constraints model).

(** An equation between closed computations, decided by evaluation. *)
Ltac by_vm := match goal with |- _ = ?r => vm_cast_no_check (eq_refl r) end.

Lemma at_most_13 (P : nat → Prop) : Forall P (seq 0 14) → ∀ n, (n ≤ 13)%nat → P n.
Proof. intros H n Hn. rewrite Forall_forall in H. apply H, elem_of_seq. lia. Qed.

Section stands.
Context (now : time) (gen : nat → uuid).

(** What statements do to a database is what they do to its catalogue. *)
Lemma run_ops_on ops db cat : forallb lenient ops = true → run_ops now gen ops (catalogue db) = (Ret tt, cat) →
  ∃ db', run_ops now gen ops db = (Ret tt, db') ∧ catalogue db' = cat.
Proof.
  intros Hl Hr. pose proof (run_ops_blind now gen ops db Hl) as H. unfold blind in H. rewrite Hr in H.
  destruct (run_ops now gen ops db) as [[[]|e] db']; [|done]. injection H as ->. by exists db'.
Qed.

Lemma stamped_behind n s : (n ≤ 13)%nat → stands n s → behind s.2 versions = drop n versions.
Proof.
  intros Hn [_ ->]. revert n Hn. apply at_most_13. repeat constructor.
Qed.

Lemma upgrade_rest n : (n ≤ 13)%nat → run_ops now gen (flat_map upgrade (drop n versions)) (built n) = (Ret tt, built 13).
Proof. revert n. apply at_most_13. repeat (apply Forall_cons; split; [by_vm|]). by apply Forall_nil. Qed.

Lemma upgrade_from n s : (n ≤ 13)%nat → stands n s →
  ∃ db, run_migrations now gen versions s = (Ret tt, (db, Some head)) ∧ catalogue db = built 13.
Proof.
  intros Hn Hs. destruct (run_ops_on (flat_map upgrade (drop n versions)) s.1 (built 13)) as (db & Hr & Hc).
  - clear Hs; revert n Hn. apply at_most_13. by repeat constructor.
  - destruct Hs as [-> _]. by apply upgrade_rest.
  - exists db. split; [|done]. rewrite -(stamped_behind n s Hn Hs) in Hr. rewrite (run_migrations_ops now gen versions s db Hr).
    do 2 f_equal. rewrite (stamped_behind n s Hn Hs). destruct Hs as [_ ->]. revert n Hn. apply at_most_13. by repeat constructor.
Qed.
End stands.

Lemma built_13 :
  bool_decide (dom (tables (built 13)) = dom (tables target_metadata)) = true ∧
  bool_decide (indexes (built 13) = indexes target_metadata) = true ∧
  bool_decide (map_Forall (λ name t, from_option (same_table name t) true (tables target_metadata !! name) = true) (tables (built 13))) = true.
Proof. split; [by_vm|]. split; [by_vm|]. by_vm. Qed.

(** C16. [alembic upgrade head], from any revision and whatever rows the database holds, succeeds and ends with the tables, constraints and indexes the models declare; beyond them the database has the widths of its VARCHAR columns, server defaults and the check on the purpose of an internal token. *)
Theorem upgrade_builds_the_models now gen n s : (n ≤ 13)%nat → stands n s →
  ∃ db, run_migrations now gen versions s = (Ret tt, (db, Some head)) ∧
    dom (tables db) = dom (tables target_metadata) ∧ indexes db = indexes target_metadata ∧
    ∀ name t model, tables db !! name = Some t → tables target_metadata !! name = Some model → same_table name t model = true.
Proof.
  intros Hn Hs. destruct (upgrade_from now gen n s Hn Hs) as (db & Hr & Hc). exists db. split; [done|].
  destruct built_13 as (Hd%bool_decide_eq_true & Hi%bool_decide_eq_true & Ht%bool_decide_eq_true). rewrite -Hc in Hd Hi Ht.
  cbn in Hd, Hi. rewrite dom_fmap_L in Hd. split; [done|]. split; [done|]. intros name t model Hl Hm.
  specialize (Ht name (erase_rows t)). rewrite /= lookup_fmap Hl Hm in Ht. by apply Ht.
Qed.

(** ** Downgrades *)

(** What a downgrade does not bring back of the constraints its upgrade dropped. *)
Definition lost (revision : string) : list string :=
  if String.eqb revision "20260509_0006"
  then ["ck_permissions_name_resource_action"; "uq_user_roles_user_role"; "uq_role_permissions_role_permission"] else [].
Definition named (names : list string) (c : Constraint) : bool :=
  match c with Unique name _ | CheckThat name _ => existsb (String.eqb name) names | _ => false end.
Definition one_way (revision : string) : bool := String.eqb revision "20260513_0010".

(** Two databases with the same catalogue, but for constraints of the first. *)
Definition same_catalogue (but : list string) (a b : Database) : bool :=
  bool_decide (dom (tables a) = dom (tables b)) && bool_decide (indexes a = indexes b) &&
  bool_decide (map_Forall (λ name t, from_option (λ u, bool_decide (columns t = columns u) &&
    bool_decide (filter (λ c, named but c = false) (constraints t) ≡ₚ constraints u)) false (tables b !! name) = true) (tables a)).

Lemma same_catalogue_erased but a b : same_catalogue but (catalogue a) (catalogue b) = same_catalogue but a b.
Proof.
  unfold same_catalogue, catalogue; cbn. rewrite !dom_fmap_L. f_equal. apply bool_decide_ext. rewrite map_Forall_fmap.
  split; intros H name t Ht; specialize (H name t Ht); cbn in *; rewrite lookup_fmap in H |- *; by destruct (tables b !! name).
Qed.

Definition downgraded (n : nat) (m : Migration) : Database := state_of (run_ops 0 (λ _, 0%N) (downgrade m)) (built (S n)).

Lemma each_version (P : nat → Migration → Prop) : Forall (λ '(n, m), P n m) (imap pair versions) → ∀ n m, versions !! n = Some m → P n m.
Proof.
  intros H n m Hm. rewrite Forall_forall in H. apply (H (n, m)). apply elem_of_lookup_imap. by eauto.
Qed.

Lemma downgrades_checked n m : versions !! n = Some m → one_way (revision m) = false →
  same_catalogue (lost (revision m)) (built n) (downgraded n m) = true.
Proof.
  revert n m. apply (each_version (λ n m, one_way (revision m) = false → same_catalogue (lost (revision m)) (built n) (downgraded n m) = true)).
  repeat (apply Forall_cons; split; [hnf; first [done|intros _; by_vm]|]). by apply Forall_nil.
Qed.

Section downgrade.
Context (now : time) (gen : nat → uuid).

Lemma upgrade_one n m : versions !! n = Some m → run_ops now gen (upgrade m) (built n) = (Ret tt, built (S n)).
Proof. revert n m. apply each_version. repeat (apply Forall_cons; split; [hnf; by_vm|]). by apply Forall_nil. Qed.

Lemma downgrade_one n m : versions !! n = Some m → one_way (revision m) = false →
  run_ops now gen (downgrade m) (built (S n)) = (Ret tt, downgraded n m).
Proof.
  revert n m. apply (each_version (λ n m, one_way (revision m) = false →
    run_ops now gen (downgrade m) (built (S n)) = (Ret tt, downgraded n m))). repeat (apply Forall_cons; split; [hnf; first [done|intros _; by_vm]|]). by apply Forall_nil.
Qed.

Lemma versions_lenient n m : versions !! n = Some m → forallb lenient (upgrade m) && forallb lenient (downgrade m) = true.
Proof. revert n m. apply each_version. by repeat constructor. Qed.
End downgrade.

(** C28. The downgrade of a revision takes a database, whatever its rows, back to the tables, columns, constraints and indexes it had before the upgrade; but revision 0010 only goes one way, and 0006 leaves out three of the constraints of the tables it makes again. *)
Theorem downgrades_undo_upgrades now gen n m s : versions !! n = Some m → stands n s →
  ∃ db, run_ops now gen (upgrade m) s.1 = (Ret tt, db) ∧
    if one_way (revision m) then run_ops now gen (downgrade m) db = (Raise NotImplementedError, db)
    else ∃ db', run_ops now gen (downgrade m) db = (Ret tt, db') ∧ same_catalogue (lost (revision m)) s.1 db' = true.
Proof.
  intros Hm [Hs _]. pose proof (versions_lenient n m Hm) as [Hu Hd]%andb_prop.
  destruct (run_ops_on now gen (upgrade m) s.1 (built (S n)) Hu) as (db & Hr & Hc); [rewrite Hs; by apply upgrade_one|].
  exists db. split; [done|]. destruct (one_way (revision m)) eqn:Eo.
  - clear -Hm Eo. revert Eo. revert n m Hm. apply (each_version (λ _ m, one_way (revision m) = true →
      run_ops now gen (downgrade m) db = (Raise NotImplementedError, db))). by repeat constructor.
  - destruct (run_ops_on now gen (downgrade m) db (downgraded n m) Hd) as (db' & Hr' & Hc'); [rewrite Hc; by apply downgrade_one|].
    exists db'. split; [done|]. rewrite -same_catalogue_erased Hs Hc'. by apply downgrades_checked.
Qed.

(** ** What becomes of the rows *)

(** The rows of each table, and what an operation that succeeds makes of them. *)
Definition contents (db : Database) : gmap string (list Row) := rows <$> tables db.
Definition on_rows (now : time) (gen : nat → uuid) (op : Op) (r : gmap string (list Row)) : gmap string (list Row) :=
  match op with
  | CreateTable name _ _ => <[name := []]> r
  | DropTable name => delete name r
  | AddColumn t c => alter (map (<[column c := default_value now (server_default c)]>)) t r
  | DropColumn t old => alter (map (delete old)) t r
  | RenameColumn t old new => alter (map (rename_key old new)) t r
  | Execute (RenameStatus old new) => alter (map (set_status old new)) "outbox_messages" r
  | Execute BackfillCredentials => alter (λ l, l ++ credentials_of now gen (length l) (default [] (r !! "users"))) "credentials" r
  | Execute DeleteThingRelationships => alter (filter (λ r, is_thing r = false)) "relationships" r
  | _ => r
  end.

Section contents.
Context (now : time) (gen : nat → uuid).

Lemma contents_put name t t' db f : tables db !! name = Some t → rows t' = f (rows t) →
  rows <$> <[name := t']> (tables db) = alter f name (contents db).
Proof.
  intros Ht Hr. rewrite fmap_insert Hr. apply map_eq. intros i. unfold contents.
  destruct (decide (i = name)) as [->|Hi]; [by rewrite lookup_insert_eq lookup_alter_eq lookup_fmap Ht|].
  by rewrite lookup_insert_ne // lookup_alter_ne.
Qed.

Lemma create_index_contents name table cols filter unique db db' :
  create_index name table cols filter unique db = (Ret tt, db') → contents db' = contents db.
Proof.
  unfold create_index. rewrite run_get_table. destruct (tables db !! table); [|done]. rewrite run_guard. case_match; [|done].
  rewrite run_bind run_gets. cbn [id]. rewrite run_guard. case_match; [|done]. by intros [= <-].
Qed.

Lemma execute_contents st db db' : execute now gen st db = (Ret tt, db') → contents db' = on_rows now gen (Execute st) (contents db).
Proof.
  destruct st; cbn [execute on_rows]; rewrite !run_get_table.
  - destruct (tables db !! "outbox_messages") eqn:E; [|done]. intros [= <-]. by eapply contents_put.
  - destruct (tables db !! "users") eqn:Eu; [|done]. rewrite run_get_table. destruct (tables db !! "credentials") eqn:E; [|done].
    intros [= <-]. unfold contents at 2. rewrite lookup_fmap Eu. by eapply contents_put.
  - destruct (tables db !! "relationships") eqn:E; [|done]. intros [= <-]. by eapply contents_put.
Qed.

Lemma run_op_contents op db db' : run_op now gen op db = (Ret tt, db') → contents db' = on_rows now gen op (contents db).
Proof.
  destruct op; cbn [run_op on_rows]; rewrite ?run_get_table; try (by intros [= <-]); try done.
  - rewrite run_bind run_gets. cbn [id]. rewrite !run_guard. do 2 (case_match; [|done]). intros [= <-]. unfold contents; cbn. by rewrite fmap_insert.
  - destruct (tables db !! name); [|done]. rewrite run_bind run_gets. cbn [id]. rewrite run_guard. case_match; [|done].
    intros [= <-]. unfold contents; cbn. by rewrite fmap_delete.
  - apply create_index_contents.
  - rewrite run_bind run_gets. cbn [id]. rewrite run_guard. case_match; [|done]. by intros [= <-].
  - rewrite run_bind run_gets. cbn [id]. case_match; [by intros [= <-]|]. apply create_index_contents.
  - destruct (tables db !! table) eqn:E; [|done]. rewrite !run_guard. do 2 (case_match; [|done]). intros [= <-]. by eapply contents_put.
  - destruct (tables db !! table) eqn:E; [|done]. rewrite !run_guard. case_match; [|done]. intros [= <-]. by eapply contents_put.
  - destruct (tables db !! table) eqn:E; [|done]. rewrite !run_guard. case_match; [|done]. intros [= <-]. by eapply contents_put.
  - apply execute_contents.
Qed.

Lemma run_ops_contents ops db db' :
  run_ops now gen ops db = (Ret tt, db') → contents db' = foldl (λ r op, on_rows now gen op r) (contents db) ops.
Proof.
  unfold run_ops. revert db. induction ops as [|op ops IH]; intros db; cbn [for_each foldl]; [by intros [= <-]|].
  rewrite run_bind. destruct (run_op now gen op db) as [[[]|e] db1] eqn:E; [|done]. intros H. by rewrite (IH _ H) (run_op_contents op db db1 E).
Qed.
End contents.

(** A user with a password, and a credential that it became. *)
Definition has_password (user : Row) : bool := match user !! "password_hash" with Some (VStr h) => negb (String.eqb h "") | _ => false end.
Definition credential_for (user c : Row) : Prop := ∃ h, user !! "password_hash" = Some (VStr h) ∧
  c !! "user_id" = Some (default VNull (user !! "id")) ∧ c !! "algorithm" = Some (VStr "argon2") ∧ c !! "hash" = Some (VStr h).

Lemma credentials_of_for now gen n users :
  Forall2 credential_for (List.filter has_password users) (credentials_of now gen n users).
Proof.
  revert n. induction users as [|u users IH]; intros n; cbn [List.filter credentials_of]; [done|].
  unfold has_password at 1, credential_of. destruct (u !! "password_hash") as [[| |[|a h]| | | |]|] eqn:E; cbn [String.eqb negb]; try apply IH.
  constructor; [|apply IH]. exists (String a h). split; [exact E|]. unfold list_to_map. cbn [foldr fst snd].
  split; [|split].
  - by rewrite lookup_insert_ne // ?lookup_insert_eq.
  - by do 2 (rewrite lookup_insert_ne; [|done]).
  - by do 3 (rewrite lookup_insert_ne; [|done]).
Qed.

Lemma stands_rows n s name t : stands n s → tables (built n) !! name = Some t →
  ∃ l, contents s.1 !! name = Some l.
Proof.
  intros [Hc _] Ht. rewrite -Hc lookup_catalogue in Ht. unfold contents. rewrite lookup_fmap.
  destruct (tables s.1 !! name) as [u|]; [|done]. by exists (rows u).
Qed.

(** C17. Moving the passwords to their own table loses none: after revisions 0009 and 0010 every user whose hash was not null and not empty, and no other, has exactly one argon2 credential with that hash, and the users are as they were but for the column that is dropped. *)
Theorem password_hashes_survive now gen s users : stands 4 s → contents s.1 !! "users" = Some users →
  ∃ db credentials, run_ops now gen (Rev0009.upgrade ++ Rev0010.upgrade) s.1 = (Ret tt, db) ∧
    contents db !! "users" = Some (map (delete "password_hash") users) ∧ contents db !! "credentials" = Some credentials ∧
    Forall2 credential_for (List.filter has_password users) credentials.
Proof.
  intros [Hc _] Hu. destruct (run_ops_on now gen (Rev0009.upgrade ++ Rev0010.upgrade) s.1 (built 6)) as (db & Hr & _); [done|rewrite Hc; by_vm|].
  exists db. rewrite (run_ops_contents now gen _ _ _ Hr). cbn [app foldl on_rows Rev0009.upgrade Rev0010.upgrade].
  exists ([] ++ credentials_of now gen 0 users). split; [done|]. split; [|split].
  - rewrite lookup_alter_eq. rewrite lookup_alter_ne; [|done]. rewrite lookup_insert_ne; [|done]. by rewrite Hu.
  - rewrite lookup_alter_ne; [|done]. rewrite lookup_alter_eq lookup_insert_eq. rewrite lookup_insert_ne; [|done]. by rewrite Hu.
  - apply credentials_of_for.
Qed.

Definition renamed (old new : string) (v : option Value) : option Value :=
  match v with Some (VStr s) => Some (VStr (rename old new s)) | v => v end.

Lemma set_status_lookup old new r k :
  set_status old new r !! k = if bool_decide (k = "status") then renamed old new (r !! k) else r !! k.
Proof.
  unfold set_status, renamed, rename. case_bool_decide as Hk.
  - subst k. destruct (r !! "status") as [[| |s| | | |]|] eqn:E; rewrite ?E //. destruct (String.eqb s old); [by rewrite lookup_insert_eq|done].
  - destruct (r !! "status") as [[| |s| | | |]|] eqn:E; try done. destruct (String.eqb s old); [by rewrite lookup_insert_ne|done].
Qed.
Lemma rename_key_lookup old new r k : r !! new = None → old ≠ new →
  rename_key old new r !! k = if bool_decide (k = new) then r !! old else if bool_decide (k = old) then None else r !! k.
Proof.
  intros Hn Hne. unfold rename_key. destruct (r !! old) as [v|] eqn:E.
  - case_bool_decide as Hk; [subst; by rewrite lookup_insert_eq|]. rewrite lookup_insert_ne //.
    case_bool_decide; [subst; by rewrite lookup_delete_eq|by rewrite lookup_delete_ne].
  - case_bool_decide as Hk; [by subst|]. case_bool_decide; [by subst|done].
Qed.

(** A row that says [dispatched], at 0013 and back. *)
Definition old_row (r : Row) : Prop := r !! "status" ≠ Some (VStr "delivered") ∧ r !! "delivered_at" = None ∧ r !! "failed_at" = None.
Definition new_row (r r' : Row) : Prop :=
  r' !! "status" = renamed "dispatched" "delivered" (r !! "status") ∧ r' !! "delivered_at" = r !! "dispatched_at" ∧
  r' !! "dispatched_at" = None ∧ r' !! "failed_at" = Some VNull.
Definition row_up (r : Row) : Row := <["failed_at" := VNull]> (set_status "dispatched" "delivered" (rename_key "dispatched_at" "delivered_at" r)).
Definition row_down (r : Row) : Row := rename_key "delivered_at" "dispatched_at" (set_status "delivered" "dispatched" (delete "failed_at" r)).

Lemma row_up_new r : old_row r → new_row r (row_up r).
Proof.
  intros (Hs & Hd & Hf). unfold new_row, row_up. rewrite lookup_insert_eq !lookup_insert_ne // !set_status_lookup !rename_key_lookup //.
Qed.
Lemma renamed_back v : v ≠ Some (VStr "delivered") → renamed "delivered" "dispatched" (renamed "dispatched" "delivered" v) = v.
Proof.
  intros Hv. destruct v as [[| |s| | | |]|]; try done. cbn. unfold rename. destruct (String.eqb_spec s "dispatched") as [->|Hs]; [done|].
  destruct (String.eqb_spec s "delivered") as [->|]; [done|done].
Qed.
Lemma row_up_down r : old_row r → row_down (row_up r) = r.
Proof.
  intros (Hs & Hd & Hf). unfold row_down, row_up. rewrite delete_insert_eq. set (q := rename_key _ _ r).
  assert (Hq : ∀ k, set_status "delivered" "dispatched" (delete "failed_at" (set_status "dispatched" "delivered" q)) !! k
    = if bool_decide (k = "status") then r !! k else if bool_decide (k = "failed_at") then None else q !! k).
  { intros k. rewrite set_status_lookup. case_bool_decide as Hk; [subst|].
    - rewrite lookup_delete_ne // set_status_lookup bool_decide_true // /q rename_key_lookup // !bool_decide_false //. by apply renamed_back.
    - case_bool_decide as Hk'; [subst; by rewrite lookup_delete_eq|]. by rewrite lookup_delete_ne // set_status_lookup bool_decide_false. }
  apply map_eq. intros k. rewrite rename_key_lookup //; [|by rewrite Hq /= /q rename_key_lookup].
  rewrite !Hq. cbn. rewrite /q !rename_key_lookup //.
  repeat (case_bool_decide; [subst|]); congruence.
Qed.

(** Renaming the outbox's words is reversible: a database at revision 0012 whose messages do not yet say [delivered] has after 0013 the same messages with the column and the status renamed, and after the downgrade exactly the rows it had. *)
Theorem outbox_vocabulary_round_trip now gen s messages : stands 8 s → contents s.1 !! "outbox_messages" = Some messages →
  Forall old_row messages →
  ∃ db db' messages', run_ops now gen Rev0013.upgrade s.1 = (Ret tt, db) ∧ run_ops now gen Rev0013.downgrade db = (Ret tt, db') ∧
    contents db !! "outbox_messages" = Some messages' ∧ Forall2 new_row messages messages' ∧ contents db' = contents s.1.
Proof.
  intros [Hc Hv] Hm Ho. destruct (run_ops_on now gen Rev0013.upgrade s.1 (built 9)) as (db & Hr & Hdb); [done|rewrite Hc; by_vm|].
  destruct (run_ops_on now gen Rev0013.downgrade db (downgraded 8 Rev0013.migration)) as (db' & Hr' & _); [done|rewrite Hdb; by_vm|].
  assert (Hp : contents s.1 !! "processed_outbox_messages" = None).
  { unfold contents. rewrite lookup_fmap. assert (tables (catalogue s.1) !! "processed_outbox_messages" = None) as H by (rewrite Hc; by_vm).
    rewrite lookup_catalogue in H. by destruct (tables s.1 !! "processed_outbox_messages"). }
  exists db, db', (map row_up messages). rewrite (run_ops_contents now gen _ _ _ Hr') (run_ops_contents now gen _ _ _ Hr).
  do 2 (split; [done|]). cbn [app foldl on_rows Rev0013.upgrade Rev0013.downgrade nullable_column column server_default default_value].
  split; [|split].
  - rewrite lookup_insert_ne; [|done]. rewrite !lookup_alter_eq Hm. cbn [fmap option_fmap option_map]. rewrite !map_map. f_equal.
  - clear -Ho. induction Ho as [|r l Hr _ IH]; cbn [map]; constructor; [exact (row_up_new r Hr)|exact IH].
  - apply map_eq. intros k. destruct (decide (k = "outbox_messages")) as [->|Hk].
    + rewrite !lookup_alter_eq. rewrite lookup_delete_ne; [|done]. rewrite lookup_insert_ne; [|done]. rewrite !lookup_alter_eq Hm. cbn [fmap option_fmap option_map].
      f_equal. rewrite !map_map. change (map (λ r, row_down (row_up r)) messages = messages).
      clear -Ho. induction Ho as [|r l Hr _ IH]; cbn [map]; [done|]. rewrite IH. f_equal. exact (row_up_down r Hr).
    + do 3 (rewrite lookup_alter_ne; [|done]). destruct (decide (k = "processed_outbox_messages")) as [->|Hk'].
      * by rewrite lookup_delete_eq Hp.
      * rewrite lookup_delete_ne; [|done]. rewrite lookup_insert_ne; [|done]. by do 3 (rewrite lookup_alter_ne; [|done]).
Qed.

(** ** Runs that die in a statement *)

(** A connection to the catalogue only. *)
Definition on_catalogue (s : Database * option string) : Database * option string := (catalogue s.1, s.2).
Definition seen (c : Connection) : Connection := mkConnection (on_catalogue (current c)) (on_catalogue (committed c)) (autocommit c).

Section seen.
Context (now : time) (gen : nat → uuid).

Definition lenient_action (a : Action) : bool := match a with Run op => lenient op | Stamp _ => true end.

Lemma perform_blind a c : lenient_action a = true → perform now gen a (seen c) = ((perform now gen a c).1, seen (perform now gen a c).2).
Proof.
  intros Hl. destruct a as [op|r]; [|done]. pose proof (run_op_blind now gen op (current c).1 Hl) as H. unfold blind in H.
  destruct op; try done; cbn [perform]; cbn [seen on_catalogue current fst]; rewrite H;
    destruct (run_op now gen _ (current c).1) as [[[]|e'] db]; try done; cbn; by destruct (autocommit c).
Qed.
Lemma performs_blind l c : forallb lenient_action l = true →
  for_each l (perform now gen) (seen c) = ((for_each l (perform now gen) c).1, seen (for_each l (perform now gen) c).2).
Proof.
  revert c. induction l as [|a l IH]; intros c; cbn [forallb for_each]; [done|]. intros [Ha Hl]%andb_prop.
  rewrite !run_bind perform_blind //. destruct (perform now gen a c) as [[[]|e] c1]; cbn [fst snd]; [by apply IH|done].
Qed.

Lemma interrupted_catalogue a db : catalogue (interrupted a db) = interrupted a (catalogue db).
Proof. destruct a as [[]|]; try done. cbn. by destruct (indexes db !! name). Qed.

Lemma forallb_take {A} (f : A → bool) k l : forallb f l = true → forallb f (take k l) = true.
Proof. revert k. induction l as [|a l IH]; intros [|k]; cbn; try done. intros [-> H]%andb_prop. by apply IH. Qed.

Lemma lenient_actions l : forallb lenient (flat_map upgrade l) = true → forallb lenient_action (upgrade_actions l) = true.
Proof.
  intros H. unfold upgrade_actions. induction l as [|m l IH]; [done|]. cbn [flat_map] in *. rewrite forallb_app in H.
  apply andb_prop in H as [Hm Hl]. rewrite !forallb_app IH // /= !andb_true_r. clear -Hm. induction (upgrade m) as [|op ops IH]; [done|].
  cbn in *. apply andb_prop in Hm as [-> H]. by apply IH.
Qed.

Lemma crash_during_catalogue k s : forallb lenient (flat_map upgrade (behind s.2 versions)) = true →
  crash_during now gen k versions (on_catalogue s) = on_catalogue (crash_during now gen k versions s).
Proof.
  intros Hl. unfold crash_during. change (on_catalogue s).2 with s.2. set (l := upgrade_actions _). unfold state_of.
  change (connect (on_catalogue s)) with (seen (connect s)). rewrite performs_blind; [|by apply forallb_take, lenient_actions].
  set (c := (for_each (take k l) (perform now gen) (connect s)).2). cbn [snd]. destruct (l !! k); [|done].
  cbn [seen autocommit committed]. destruct (autocommit c); [|done]. unfold on_catalogue; cbn [fst snd]. by rewrite interrupted_catalogue.
Qed.
End seen.

(** The head, with the index left as an interrupted build of it leaves it. *)
Definition left_in (at_head : Database) (a : Action) : Database :=
  match a with
  | Run (CreateIndexIfNotExists name table cols filter unique) =>
      if String.eqb name "ix_users_created_at"
      then mkDatabase (tables at_head) (<[name := mkIndex table cols filter unique false]> (indexes at_head))
      else at_head
  | _ => at_head
  end.
Definition left_by : Action → Database := left_in (built 13).

(** The two databases are arguments so that an evaluation of many [k] shares them. *)
Definition heals_from (at_head db : Database) now gen now' gen' (n k : nat) : bool :=
  let s := (db, stamped None (take n versions)) in
  let s' := crash_during now gen k versions s in
  match upgrade_actions (drop n versions) !! k with
  | None => true
  | Some a =>
      match run_ops now' gen' (flat_map upgrade (behind s'.2 versions)) s'.1 with
      | (Ret _, db) => bool_decide (stamped s'.2 (behind s'.2 versions) = Some head) && same_catalogue [] (left_in at_head a) db
          && forallb lenient (flat_map upgrade (behind s'.2 versions))
      | (Raise _, _) => false
      end
  end.
Definition heals now gen now' gen' (n : nat) : nat → bool := heals_from (built 13) (built n) now gen now' gen' n.

Lemma all_heal now gen now' gen' :
  (let at_head := built 13 in
   forallb (λ n, let db := built n in
     forallb (heals_from at_head db now gen now' gen' n) (seq 0 (length (upgrade_actions (drop n versions))))) (seq 0 14)) = true.
Proof. by_vm. Qed.

Lemma heals_everywhere now gen now' gen' n k : (n ≤ 13)%nat → heals now gen now' gen' n k = true.
Proof.
  intros Hn. pose proof (all_heal now gen now' gen') as H. cbv zeta in H. rewrite forallb_forall in H. specialize (H n).
  destruct (decide (k < length (upgrade_actions (drop n versions)))%nat) as [Hk|Hk].
  - rewrite forallb_forall in H. apply H; apply in_seq; lia.
  - unfold heals, heals_from. rewrite lookup_ge_None_2 //. lia.
Qed.

Lemma left_by_rowless a : catalogue (left_by a) = left_by a.
Proof.
  assert (tables (left_by a) = tables (built 13)) as Ht by (destruct a as [[]|]; unfold left_by; cbn [left_in]; try reflexivity; by destruct (String.eqb _ _)).
  assert (erase_rows <$> tables (built 13) = tables (built 13)) as Hb by by_vm.
  unfold catalogue. rewrite Ht Hb -Ht. by destruct (left_by a).
Qed.

(** C27. An upgrade that dies in the middle of a statement, the concurrent ones included, can be run again from any revision and whatever the rows, and ends at the catalogue of the head; except that a build of [ix_users_created_at] which is interrupted leaves an index that is not valid, that [IF NOT EXISTS] takes for the one to be made, and that the second run therefore keeps. *)
Theorem interrupted_upgrades now gen now' gen' n k s a :
  (n ≤ 13)%nat → stands n s → upgrade_actions (behind s.2 versions) !! k = Some a →
  ∃ db, run_migrations now' gen' versions (crash_during now gen k versions s) = (Ret tt, (db, Some head)) ∧
    same_catalogue [] (left_by a) db = true.
Proof.
  intros Hn Hs Ha. pose proof (heals_everywhere now gen now' gen' n k Hn) as H. unfold heals, heals_from in H.
  assert (on_catalogue s = (built n, stamped None (take n versions))) as Hc by (destruct Hs as [H1 H2]; by rewrite /on_catalogue H1 H2).
  rewrite -Hc crash_during_catalogue in H; [|rewrite (stamped_behind n s Hn Hs); clear -Hn; revert n Hn; apply at_most_13; by repeat constructor].
  rewrite (stamped_behind n s Hn Hs) in Ha. rewrite Ha in H. set (s' := crash_during _ _ _ _ _) in *.
  cbn [on_catalogue fst snd] in H.
  destruct (run_ops now' gen' _ (catalogue s'.1)) as [[[]|e] cat] eqn:E; [|done].
  apply andb_prop in H as [[Hh Hcat]%andb_prop Hl].
  destruct (run_ops_on now' gen' _ s'.1 cat Hl E) as (db & Hr & <-). exists db.
  rewrite (run_migrations_ops now' gen' versions s' db Hr) (bool_decide_eq_true_1 _ Hh). split; [done|].
  by rewrite -same_catalogue_erased left_by_rowless.
Qed.

(** *** Running again *)

(** C18. An upgrade that dies after any of its statements can be run again: whatever rows the database holds and whichever revision it is at, either nothing was committed or the second run ends where the first was going to, the rows and the backfilled credentials included. *)
Theorem upgrade_resumes now gen now' gen' k s F :
  run_migrations now gen versions s = (Ret tt, F) →
  crash_after now gen k versions s = s ∨ run_migrations now' gen' versions (crash_after now gen k versions s) = (Ret tt, F).
Proof.
  intros [Hrun HF]%run_migrations_inv.
  apply (crash_good now now' gen gen' versions s F versions_nodup (behind s.2 versions) k (connect s)); try done.
  - apply resumable_behind, versions_resumable.
  - by left.
Qed.

(** ** Instances *)

Definition uuids (n : nat) : uuid := N.of_nat (100 + n).
Definition fill (name : string) (l : list Row) (db : Database) : Database :=
  mkDatabase (alter (λ t, mkTable (columns t) (constraints t) l) name (tables db)) (indexes db).
(** A database at revision 0008 with a user who has a password and one who has none. *)
Definition some_users : list Row :=
  [list_to_map [("id", VUuid 1); ("email", VStr "a@b"); ("password_hash", VStr "argon2-hash")];
   list_to_map [("id", VUuid 2); ("email", VStr "c@d"); ("password_hash", VStr "")]].
Definition at_0008 : Database * option string := (fill "users" some_users (built 4), Some "20260511_0008").
(** One at 0012 with two messages. *)
Definition some_messages : list Row :=
  [list_to_map [("id", VUuid 1); ("status", VStr "dispatched"); ("dispatched_at", VTime 3)];
   list_to_map [("id", VUuid 2); ("status", VStr "pending"); ("dispatched_at", VNull)]].
Definition at_0012 : Database * option string := (fill "outbox_messages" some_messages (built 8), Some "20260515_0012").

Lemma at_0008_stands : stands 4 at_0008.
Proof. split; by_vm. Qed.
Lemma at_0012_stands : stands 8 at_0012.
Proof. split; by_vm. Qed.

Lemma upgrade_builds_the_models_witness : (4 ≤ 13)%nat ∧ ∃ db, run_migrations 5 uuids versions at_0008 = (Ret tt, (db, Some head)) ∧
    dom (tables db) = dom (tables target_metadata) ∧ indexes db = indexes target_metadata ∧
    ∀ name t model, tables db !! name = Some t → tables target_metadata !! name = Some model → same_table name t model = true.
Proof. split; [lia|]. apply (upgrade_builds_the_models 5 uuids 4); [lia|exact at_0008_stands]. Defined.

(** The upgrade of the same database dies after twenty of its thirty-two statements, in the transaction of 0014. *)
Lemma upgrade_resumes_witness :
  ∃ F, run_migrations 5 uuids versions at_0008 = (Ret tt, F) ∧
    (crash_after 5 uuids 20 versions at_0008 = at_0008 ∨
     run_migrations 7 uuids versions (crash_after 5 uuids 20 versions at_0008) = (Ret tt, F)).
Proof.
  destruct (upgrade_from 5 uuids 4 at_0008) as (db & Hrun & _); [lia|exact at_0008_stands|].
  exists (db, Some head). split; [exact Hrun|]. exact (upgrade_resumes 5 uuids 7 uuids 20 _ _ Hrun).
Defined.

Lemma downgrades_undo_upgrades_witness : ∃ db, run_ops 5 uuids Rev0009.upgrade at_0008.1 = (Ret tt, db) ∧
  ∃ db', run_ops 5 uuids Rev0009.downgrade db = (Ret tt, db') ∧ same_catalogue [] at_0008.1 db' = true.
Proof. exact (downgrades_undo_upgrades 5 uuids 4 Rev0009.migration at_0008 eq_refl at_0008_stands). Defined.

Lemma password_hashes_survive_witness : ∃ db credentials, run_ops 5 uuids (Rev0009.upgrade ++ Rev0010.upgrade) at_0008.1 = (Ret tt, db) ∧
    contents db !! "users" = Some (map (delete "password_hash") some_users) ∧ contents db !! "credentials" = Some credentials ∧
    Forall2 credential_for (List.filter has_password some_users) credentials.
Proof. apply (password_hashes_survive 5 uuids at_0008 some_users at_0008_stands). by_vm. Defined.

Lemma outbox_vocabulary_round_trip_witness :
  ∃ db db' messages', run_ops 5 uuids Rev0013.upgrade at_0012.1 = (Ret tt, db) ∧ run_ops 5 uuids Rev0013.downgrade db = (Ret tt, db') ∧
    contents db !! "outbox_messages" = Some messages' ∧ Forall2 new_row some_messages messages' ∧ contents db' = contents at_0012.1.
Proof.
  apply (outbox_vocabulary_round_trip 5 uuids at_0012 some_messages at_0012_stands); [by_vm|].
  repeat constructor; discriminate.
Defined.

Lemma interrupted_upgrades_witness : ∃ k db, upgrade_actions (behind at_0012.2 versions) !! k
      = Some (Run (CreateIndexIfNotExists "ix_users_created_at" "users" ["created_at"; "id"] None false)) ∧
    run_migrations 6 uuids versions (crash_during 5 uuids k versions at_0012) = (Ret tt, (db, Some head)) ∧
    same_catalogue [] (left_by (Run (CreateIndexIfNotExists "ix_users_created_at" "users" ["created_at"; "id"] None false))) db = true.
Proof.
  exists 11%nat. pose proof (interrupted_upgrades 5 uuids 6 uuids 8 11 at_0012
    (Run (CreateIndexIfNotExists "ix_users_created_at" "users" ["created_at"; "id"] None false)) ltac:(lia) at_0012_stands ltac:(reflexivity)) as [db H].
  exists db. split; [reflexivity|exact H].
Defined.
