(* ===== verification/Wiring.v ===== *)
(** The composition roots: what the web process ([main.py], the lifespan), the worker
    ([worker.py:build_worker_scaffold]) and the administrator's command
    ([cli/create_super_admin.py:_build_containers]) register, wire and seal, in the order
    they do it, and the one-shot prune ([cli/outbox_prune.py]). *)

From stdpp Require Import pretty.
From Stdlib Require Import String.
From S2P Require Import Prelude PyStr Uuid Json Store Outbox Users Principals AuthRepo Auth Authz Gdpr Files Jobs Settings Http UsersHttp Email Startup Health Lifespan.
Open Scope string_scope.
Open Scope list_scope.
Open Scope Z_scope.

(** ** [file_storage/composition/container.py] *)

Inductive StorageAdapter := LocalAdapter (root : string) | S3Adapter (bucket region : string).

(** [boto3] says whether the optional package can be imported. *)
Definition build_file_storage_container {S} (boto3 : bool) (settings : StorageSettings.StorageSettings) : M S StorageAdapter :=
  match StorageSettings.backend settings with
  | Local =>
      match StorageSettings.local_path settings with
      | Some (String _ _ as path) => mret (LocalAdapter path)
      | _ => raise (RuntimeError "APP_STORAGE_LOCAL_PATH is required when APP_STORAGE_BACKEND=local")
      end
  | Settings.S3 =>
      match StorageSettings.s3_bucket settings with
      | Some (String _ _ as bucket) =>
          if boto3 then mret (S3Adapter bucket (StorageSettings.s3_region settings))
          else raise (RuntimeError "boto3 is not installed; the S3 file-storage adapter requires it. Install with: uv sync --extra s3")
      | _ => raise (RuntimeError "APP_STORAGE_S3_BUCKET is required when APP_STORAGE_BACKEND=s3")
      end
  end.

(** ** [authorization/composition/container.py] *)

Definition register_system_type : M AuthorizationRegistry unit :=
  register_resource_type "system" system_actions system_hierarchy.

(** ** [authentication/composition/worker.py] *)

(** [min(_DIVISORS_OF_60, key=lambda d: (abs(d - rounded), -d))]. *)
Definition snap_minutes (interval_minutes : Z) : Z :=
  match DIVISORS_OF_60 with
  | [] => 1 `max` interval_minutes
  | d :: l => min_by_distance (1 `max` interval_minutes) l d
  end.
Definition build_auth_maintenance_cron_specs `{Env} (fuel : nat) (retention_days interval_minutes : Z) : list CronSpec :=
  if interval_minutes <=? 0 then [] else
  [ mkCronSpec "auth-purge-tokens" (snap_minutes interval_minutes * 60) false
      (_ ← PurgeExpiredTokens.execute fuel retention_days; mret tt) ].

(** [sorted(names)]; the order of UTF-8 bytes is that of code points. *)
Definition str_le (a b : string) : Prop := String.leb a b = true.
#[global] Instance str_le_dec : RelDecision str_le.
Proof. intros a b. unfold str_le. apply _. Defined.
Definition py_sorted (names : gset string) : list string :=
  merge_sort str_le (elements names).

(** ** Containers *)

Section wiring.
Context `{Env} `{TemplateFiles} `{Jinja}.
(** The state of the principal cache, the blobs behind a storage adapter, and the
    clean-up of an account's files over one. *)
Context {C B : Type} `{PrincipalCachePort C} (assets_cleanup : StorageAdapter → uuid → M B (Result unit AssetsCleanupError)).
(** The hash a missing account is checked against ([AuthContainer]'s), where the
    templates of the authentication feature are, whether boto3 is installed,
    and the default identity of a worker. *)
Context (dummy_hash templates_dir : string) (boto3 : bool) (default_worker_id : string).

(** The collaborators other features give the users container. *)
Record UsersContainer := mkUsersContainer {
  revoke_refresh_tokens : option (uuid → M (World * C) unit);
  erase_user : option (uuid → string → IO (Result unit UserError));
  export_storage : option StorageAdapter;
  password_verifier : option (uuid → string → IO bool);
  job_queue : bool;
}.

(** Job handlers run on the database, the log of mails and the blobs. *)
Abbreviation Handlers := (JobHandlerRegistry (World * (list LogLine * B))).

(** The objects of a process. *)
Record Composition := mkComposition {
  email : EmailTemplateRegistry;
  jobs : Handlers;
  authz : AuthorizationRegistry;
  storage : option StorageAdapter;
  users : UsersContainer;
}.
Definition nothing_yet : Composition :=
  mkComposition Email.new_registry Jobs.new_registry Authz.empty_registry None (mkUsersContainer None None None None false).

Abbreviation Compose := (M (Composition * (World * C))).

Definition on_email {A} (m : M EmailTemplateRegistry A) : Compose A := λ '(c, w),
  let '(r, x) := m (email c) in (r, (mkComposition x (jobs c) (authz c) (storage c) (users c), w)).
Definition on_jobs {A} (m : M Handlers A) : Compose A := λ '(c, w),
  let '(r, x) := m (jobs c) in (r, (mkComposition (email c) x (authz c) (storage c) (users c), w)).
Definition on_authz {A} (m : M AuthorizationRegistry A) : Compose A := λ '(c, w),
  let '(r, x) := m (authz c) in (r, (mkComposition (email c) (jobs c) x (storage c) (users c), w)).
Definition on_users (f : UsersContainer → UsersContainer) : Compose unit :=
  modify (λ '(c, w), (mkComposition (email c) (jobs c) (authz c) (storage c) (f (users c)), w)).
Definition attach_storage (s : StorageAdapter) : Compose unit :=
  modify (λ '(c, w), (mkComposition (email c) (jobs c) (authz c) (Some s) (users c), w)).

(** ** The steps the roots share *)

(** The feature's templates, and the end of registration. *)
Definition compose_email : Compose unit :=
  on_email (register_authentication_email_templates templates_dir) ;; on_email Email.seal.

(** [OutboxSettings.from_app_settings]. *)
Definition compose_outbox (settings : AppSettings) : Compose OutboxSettings :=
  match Outbox.from_app_settings default_worker_id (Some (outbox_kwargs settings)) no_kwargs with
  | Err e => raise e
  | Ok s => mret s
  end.

Definition compose_storage (settings : AppSettings) : Compose StorageAdapter :=
  storage ← build_file_storage_container boto3 (StorageSettings.from_app_settings settings);
  attach_storage storage ;;
  mret storage.

(** The port of the console adapter over the registry of the process. *)
Definition mail_port (settings : EmailSettings.EmailSettings) (environment : string) (registry : EmailTemplateRegistry)
    (to template_name context : json) : M (list LogLine * B) (Result unit string) :=
  on_fst (ConsoleEmailAdapter.port (build_email_container settings environment registry) to template_name context).

Definition register_send_email_handler (settings : EmailSettings.EmailSettings) (environment : string) : Compose unit :=
  registry ← gets (email ∘ fst);
  on_jobs (register_handler SEND_EMAIL_JOB (send_email_handler (Some dedupe) (mail_port settings environment registry)) None).
Definition register_delete_user_assets_handler (storage : StorageAdapter) : Compose unit :=
  on_jobs (register_handler DELETE_USER_ASSETS_JOB
    (delete_user_assets_handler (Some dedupe) (λ user_id, on_snd (assets_cleanup storage user_id))) None).

(** [UsersContainer.wire_erase_user]: the use cases over the authentication side. *)
Definition wire_erase_user (storage : StorageAdapter) : Compose unit :=
  on_users (λ u, mkUsersContainer (revoke_refresh_tokens u) (Some EraseUser.execute) (Some storage) (password_verifier u) (job_queue u)).
Definition wire_refresh_token_revoker (revoke : uuid → M (World * C) unit) : Compose unit :=
  on_users (λ u, mkUsersContainer (Some revoke) (erase_user u) (export_storage u) (password_verifier u) (job_queue u)).
Definition wire_password_verifier (verifier : uuid → string → IO bool) : Compose unit :=
  on_users (λ u, mkUsersContainer (revoke_refresh_tokens u) (erase_user u) (export_storage u) (Some verifier) (job_queue u)).
Definition wire_job_queue : Compose unit :=
  on_users (λ u, mkUsersContainer (revoke_refresh_tokens u) (erase_user u) (export_storage u) (password_verifier u) true).

Definition register_erase_user_handler : Compose unit :=
  wired ← gets (erase_user ∘ users ∘ fst);
  match wired with
  | None => raise (RuntimeError "EraseUser was not wired into the users container")
  | Some erase => on_jobs (register_handler ERASE_USER_JOB (erase_user_handler (Some dedupe) erase) None)
  end.

(** [str] of an environment. *)
Definition environment_str (e : Environment) : string :=
  match e with Development => "development" | Test => "test" | Production => "production" end.

(** ** [main.py], the lifespan up to the attachment of the containers *)

Context (bootstrap : bool → string → string → M (World * C) (Result uuid BootstrapError)).

Definition web (settings : AppSettings) : Compose AuthContainer.AuthBackends :=
  compose_email ;;
  compose_outbox settings ;;
  storage ← compose_storage settings;
  register_send_email_handler (EmailSettings.from_app_settings settings) (environment_str (AppSettings.environment settings)) ;;
  register_delete_user_assets_handler storage ;;
  backends ← AuthContainer.build_auth_container settings;
  wire_refresh_token_revoker revoke_all_refresh_tokens ;;
  wire_erase_user storage ;;
  wire_password_verifier (verify_user_password dummy_hash) ;;
  wire_job_queue ;;
  register_erase_user_handler ;;
  on_jobs Jobs.seal ;;
  on_authz register_system_type ;;
  on_authz Authz.seal ;;
  on_snd (run_authz_bootstrap bootstrap settings) ;;
  mret backends.

(** ** [worker.py] *)

Record WorkerScaffold := mkScaffold {
  registered_jobs : list string;
  cron_specs : list CronSpec;
  shutdown_timeout_seconds : time;
}.

(** [relay_enqueue] is the queue as the relay calls it; [fuel] bounds the loops of the
    maintenance jobs. *)
Definition worker (relay_enqueue : string → payload → IO unit) (fuel : nat) (settings : AppSettings) : Compose WorkerScaffold :=
  compose_email ;;
  outbox ← compose_outbox settings;
  storage ← compose_storage settings;
  register_send_email_handler (EmailSettings.from_app_settings settings) (environment_str (AppSettings.environment settings)) ;;
  register_delete_user_assets_handler storage ;;
  wire_erase_user storage ;;
  register_erase_user_handler ;;
  on_jobs Jobs.seal ;;
  registry ← gets (jobs ∘ fst);
  mret (mkScaffold (py_sorted (Jobs.registered_jobs registry))
    (build_relay_cron_specs fuel outbox relay_enqueue ++
     build_auth_maintenance_cron_specs fuel (AppSettings.auth_token_retention_days settings)
       (AppSettings.auth_token_purge_interval_minutes settings))
    (AppSettings.shutdown_timeout_seconds settings)).

(** ** [cli/create_super_admin.py:_build_containers] *)

(** The mails of the command are not logged in full: neither the flag nor the environment
    are given, so the defaults [False] and [development] hold. *)
Definition cli_email (settings : AppSettings) : EmailSettings.EmailSettings :=
  let s := EmailSettings.from_app_settings settings in
  EmailSettings.mkSettings (EmailSettings.backend s) (EmailSettings.from_address s) false.

Definition cli (settings : AppSettings) : Compose AuthContainer.AuthBackends :=
  compose_email ;;
  compose_outbox settings ;;
  storage ← compose_storage settings;
  register_send_email_handler (cli_email settings) "development" ;;
  register_delete_user_assets_handler storage ;;
  on_jobs Jobs.seal ;;
  backends ← AuthContainer.build_auth_container settings;
  on_authz register_system_type ;;
  on_authz Authz.seal ;;
  mret backends.
End wiring.

(** ** [cli/outbox_prune.py:run_once] *)

Section prune.
Context `{Env} (close_error : Resource → option exn).

(** The exit code and what is printed; [None]: a loop of the prune did not end within
    [fuel] batches. *)
Definition run_once (fuel : nat) (outbox_settings : OutboxSettings) : M (World * Process) (option (Z * string)) :=
  on_snd (open Engine) ;;
  result ← try_finally
    (on_fst (PruneOutbox.execute fuel (retention_delivered_days outbox_settings) (retention_failed_days outbox_settings)
       (dedup_retention outbox_settings) (prune_batch_size outbox_settings)))
    (on_snd (close close_error Engine));
  mret (match result with
        | Some summary => Some (0, "outbox prune summary: delivered_deleted=" +:+ pretty (PruneOutbox.delivered_deleted summary)
            +:+ " failed_deleted=" +:+ pretty (PruneOutbox.failed_deleted summary)
            +:+ " processed_marks_deleted=" +:+ pretty (PruneOutbox.processed_marks_deleted summary))
        | None => None
        end).
End prune.
