(* ===== verification/WiringFacts.v ===== *)
(** What the three processes are composed of, when composition refuses, and what the
    one-shot prune does. *)

From stdpp Require Import pretty.
From Stdlib Require Import String.
From S2P Require Import Prelude PyStr Uuid Json Store Outbox Users Principals AuthRepo Auth DemoAuth Authz Gdpr Files Jobs Settings SettingsFacts Http UsersHttp Email EmailFacts Startup StartupFacts Health Lifespan LifespanFacts Wiring.
Open Scope string_scope.
Open Scope list_scope.
Open Scope Z_scope.

Section wiring.
Context `{Env} `{TemplateFiles} `{Jinja} {C B : Type} `{PrincipalCachePort C}.
Context (assets_cleanup : StorageAdapter → uuid → M B (Result unit AssetsCleanupError)).
Context (dummy_hash templates_dir : string) (boto3 : bool) (default_worker_id : string).
Context (bootstrap : bool → string → string → M (World * C) (Result uuid BootstrapError)).
Implicit Types (settings : AppSettings) (w : World * C).

#[local] Abbreviation Comp := (@Composition C B).

(** ** What composition needs *)

(** The files of the two templates are there. *)
Definition templates_there : bool :=
  path_exists (mkPath templates_dir "password_reset.txt") && path_exists (mkPath templates_dir "verify_email.txt").
(** The storage adapter the settings select, whatever [storage_enabled] says. *)
Definition storage_of settings : option StorageAdapter :=
  match AppSettings.storage_backend settings, AppSettings.storage_local_path settings, AppSettings.storage_s3_bucket settings with
  | Local, Some (String _ _ as path), _ => Some (LocalAdapter path)
  | Settings.S3, _, Some (String _ _ as bucket) =>
      if boto3 then Some (S3Adapter bucket (StorageSettings.s3_region (StorageSettings.from_app_settings settings))) else None
  | _, _, _ => None
  end.

Lemma run_storage {S} settings (s : S) :
  match storage_of settings with
  | Some a => build_file_storage_container boto3 (StorageSettings.from_app_settings settings) s = (Ret a, s)
  | None => ∃ e, build_file_storage_container boto3 (StorageSettings.from_app_settings settings) s = (Raise (RuntimeError e), s)
  end.
Proof.
  unfold storage_of, build_file_storage_container. cbn.
  destruct (AppSettings.storage_backend settings), (AppSettings.storage_local_path settings) as [[]|],
    (AppSettings.storage_s3_bucket settings) as [[]|], boto3; cbn; try done; by eexists.
Qed.

(** ** The registries when composition ends *)

Definition mails : EmailTemplateRegistry := auth_registry templates_dir.
Definition send_handler (email : EmailSettings.EmailSettings) (environment : string) : JobHandler (World * (list LogLine * B)) :=
  send_email_handler (Some dedupe) (mail_port email environment mails).
Definition assets_handler (a : StorageAdapter) : JobHandler (World * (list LogLine * B)) :=
  delete_user_assets_handler (Some dedupe) (λ user_id, on_snd (assets_cleanup a user_id)).
Definition erase_handler : JobHandler (World * (list LogLine * B)) := erase_user_handler (Some dedupe) EraseUser.execute.

(** The handlers of the web process and of the worker, and those of the command. *)
Definition handlers settings (a : StorageAdapter) : JobHandlerRegistry (World * (list LogLine * B)) :=
  Jobs.mkRegistry (<[ERASE_USER_JOB := Jobs.mkEntry erase_handler None]>
    (<[DELETE_USER_ASSETS_JOB := Jobs.mkEntry (assets_handler a) None]>
    {[SEND_EMAIL_JOB := Jobs.mkEntry (send_handler (EmailSettings.from_app_settings settings) (environment_str (AppSettings.environment settings))) None]})) true.
Definition cli_handlers settings (a : StorageAdapter) : JobHandlerRegistry (World * (list LogLine * B)) :=
  Jobs.mkRegistry (<[DELETE_USER_ASSETS_JOB := Jobs.mkEntry (assets_handler a) None]>
    {[SEND_EMAIL_JOB := Jobs.mkEntry (send_handler (cli_email settings) "development") None]}) true.

Definition web_composition settings (a : StorageAdapter) : Comp :=
  mkComposition mails (handlers settings a) (state_of Authz.seal (state_of register_system_type Authz.empty_registry)) (Some a)
    (mkUsersContainer (Some revoke_all_refresh_tokens) (Some EraseUser.execute) (Some a) (Some (verify_user_password dummy_hash)) true).
Definition worker_composition settings (a : StorageAdapter) : Comp :=
  mkComposition mails (handlers settings a) Authz.empty_registry (Some a) (mkUsersContainer None (Some EraseUser.execute) (Some a) None false).
Definition cli_composition settings (a : StorageAdapter) : Comp :=
  mkComposition mails (cli_handlers settings a) (state_of Authz.seal (state_of register_system_type Authz.empty_registry)) (Some a)
    (mkUsersContainer None None None None false).

(** ** Steps *)

Lemma missing_template name template_subject p r :
  _sealed r = false → _entries r !! name = None → path_exists p = false →
  ∃ e, register_template name template_subject p r = (Raise (FileNotFoundError e), r).
Proof.
  intros Hs Hn Hp. unfold register_template, Email._guard_unsealed. rewrite run_bind Hs run_bind run_gets. cbn [id].
  rewrite Hn bool_decide_eq_false_2; [|by intros []]. rewrite Hp. by eexists.
Qed.

Lemma run_templates r : _sealed r = false → _entries r = ∅ → _search_paths r = [] →
  let there := path_exists (mkPath templates_dir "password_reset.txt") && path_exists (mkPath templates_dir "verify_email.txt") in
  (there = true → register_authentication_email_templates templates_dir r = (Ret tt, mkRegistry (_entries mails) false [templates_dir])) ∧
  (there = false → ∃ e r', register_authentication_email_templates templates_dir r = (Raise (FileNotFoundError e), r')).
Proof.
  intros Hs He Hp. unfold register_authentication_email_templates. cbv zeta. rewrite run_bind.
  destruct (path_exists (mkPath templates_dir "password_reset.txt")) eqn:Ep; cbn [andb].
  - rewrite (run_register_template PASSWORD_RESET_TEMPLATE) //; [|by rewrite He]. set (r1 := mkRegistry _ _ _).
    assert (Hv : _entries r1 !! VERIFY_EMAIL_TEMPLATE = None) by (cbn; rewrite He; by rewrite lookup_insert_ne // lookup_empty).
    split; intros Hx.
    + rewrite (run_register_template VERIFY_EMAIL_TEMPLATE) //. unfold r1, mails, auth_registry. cbn. rewrite He Hp. cbn.
      rewrite bool_decide_eq_true_2; [done|set_solver].
    + destruct (missing_template VERIFY_EMAIL_TEMPLATE "Verify your {{ app_name }} email" (mkPath templates_dir "verify_email.txt") r1 eq_refl Hv Hx) as [e ->].
      by do 2 eexists.
  - split; [done|]. intros _.
    destruct (missing_template PASSWORD_RESET_TEMPLATE "Reset your {{ app_name }} password" (mkPath templates_dir "password_reset.txt") r Hs) as [e ->];
      [by rewrite He|done|]. by do 2 eexists.
Qed.

Lemma run_compose_email w :
  if templates_there
  then compose_email templates_dir (nothing_yet, w)
    = (Ret tt, (mkComposition mails Jobs.new_registry Authz.empty_registry None (mkUsersContainer None None None None false) : Comp, w))
  else ∃ e c, compose_email templates_dir (nothing_yet : Comp, w) = (Raise (FileNotFoundError e), (c, w)).
Proof.
  unfold templates_there. destruct (run_templates Email.new_registry eq_refl eq_refl eq_refl) as [He Hn].
  destruct (path_exists (mkPath templates_dir "password_reset.txt") && path_exists (mkPath templates_dir "verify_email.txt")).
  - unfold compose_email. rewrite run_bind. unfold on_email. cbn [nothing_yet email]. by rewrite He.
  - destruct Hn as (e & r & Hn); [done|]. exists e. eexists. unfold compose_email. rewrite run_bind. unfold on_email.
    cbn [nothing_yet email]. by rewrite Hn.
Qed.

Lemma run_compose_outbox settings (s : Comp * (World * C)) :
  ∃ o, compose_outbox default_worker_id settings s = (Ret o, s) ∧
    Outbox.from_app_settings default_worker_id (Some (outbox_kwargs settings)) no_kwargs = Ok o.
Proof. unfold compose_outbox. eexists. split; [reflexivity|done]. Qed.

Lemma run_compose_storage settings c w :
  match storage_of settings with
  | Some a => compose_storage boto3 settings (c : Comp, w) = (Ret a, (mkComposition (email c) (jobs c) (authz c) (Some a) (users c), w))
  | None => ∃ e, compose_storage boto3 settings (c, w) = (Raise (RuntimeError e), (c, w))
  end.
Proof.
  unfold compose_storage. rewrite run_bind. pose proof (run_storage settings (c, w)) as Hs. destruct (storage_of settings).
  - rewrite Hs. by rewrite run_bind.
  - destruct Hs as [e ->]. by exists e.
Qed.

Lemma run_register_handler name (h : JobHandler (World * (list LogLine * B))) keep (c : Comp) w :
  sealed_ (jobs c) = false → handlers_ (jobs c) !! name = None →
  on_jobs (register_handler name h keep) (c, w)
  = (Ret tt, (mkComposition (email c) (Jobs.mkRegistry (<[name := Jobs.mkEntry h keep]> (handlers_ (jobs c))) false) (authz c) (storage c) (users c), w)).
Proof.
  intros Hs Hn. unfold on_jobs, register_handler, Jobs.guard_unsealed. rewrite run_bind Hs run_bind run_gets. cbn [id].
  rewrite Hn bool_decide_eq_false_2; [by rewrite run_modify Hs|by intros []].
Qed.

(** ** The outcomes *)

(** A root that stops before the mails or the storage are there. *)
Lemma stops_early {A} settings w (k : Outbox.OutboxSettings → StorageAdapter → M (Comp * (World * C)) A) :
  (if templates_there then storage_of settings else None) = None →
  ∃ e c, (compose_email templates_dir ;; outbox ← compose_outbox default_worker_id settings; a ← compose_storage boto3 settings; k outbox a)
           (nothing_yet, w) = (Raise e, (c, w)).
Proof.
  intros Hn. rewrite run_bind. pose proof (run_compose_email w) as He. destruct templates_there.
  - rewrite He. destruct (run_compose_outbox settings (mkComposition mails Jobs.new_registry Authz.empty_registry None (mkUsersContainer None None None None false), w)) as (o & Ho & _).
    rewrite run_bind Ho run_bind.
    pose proof (run_compose_storage settings (mkComposition mails Jobs.new_registry Authz.empty_registry None (mkUsersContainer None None None None false)) w) as Hs.
    rewrite Hn in Hs. destruct Hs as [e ->]. by do 2 eexists.
  - destruct He as (e & c & ->). by do 2 eexists.
Qed.

(** The steps up to the storage, when it is there. *)
Lemma goes_on_with {A} settings w a o (k : Outbox.OutboxSettings → StorageAdapter → M (Comp * (World * C)) A) :
  (if templates_there then storage_of settings else None) = Some a →
  Outbox.from_app_settings default_worker_id (Some (outbox_kwargs settings)) no_kwargs = Ok o →
  (compose_email templates_dir ;; outbox ← compose_outbox default_worker_id settings; a ← compose_storage boto3 settings; k outbox a) (nothing_yet, w)
  = k o a (mkComposition mails Jobs.new_registry Authz.empty_registry (Some a) (mkUsersContainer None None None None false), w).
Proof.
  intros Ha Ho. pose proof (run_compose_email w) as He. destruct templates_there; [|done]. rewrite run_bind He.
  unfold compose_outbox. rewrite Ho run_bind run_ret run_bind.
  pose proof (run_compose_storage settings (mkComposition mails Jobs.new_registry Authz.empty_registry None (mkUsersContainer None None None None false)) w) as Hs.
  rewrite Ha in Hs. by rewrite Hs.
Qed.

#[local] Abbreviation web' := (web assets_cleanup dummy_hash templates_dir boto3 default_worker_id bootstrap).
#[local] Abbreviation worker' := (worker assets_cleanup templates_dir boto3 default_worker_id).
#[local] Abbreviation cli' := (cli assets_cleanup templates_dir boto3 default_worker_id).
#[local] Abbreviation fresh w := (nothing_yet : Comp, w).

(** The scaffold of a worker. *)
Definition scaffold_of relay fuel settings (o : OutboxSettings) : WorkerScaffold :=
  mkScaffold [DELETE_USER_ASSETS_JOB; ERASE_USER_JOB; SEND_EMAIL_JOB]
    (build_relay_cron_specs fuel o relay ++
     build_auth_maintenance_cron_specs fuel (AppSettings.auth_token_retention_days settings) (AppSettings.auth_token_purge_interval_minutes settings))
    (AppSettings.shutdown_timeout_seconds settings).

Lemma run_worker_with relay fuel settings w a o : (if templates_there then storage_of settings else None) = Some a →
  Outbox.from_app_settings default_worker_id (Some (outbox_kwargs settings)) no_kwargs = Ok o →
  worker' relay fuel settings (fresh w) = (Ret (scaffold_of relay fuel settings o), (worker_composition settings a, w)).
Proof.
  intros Ha Ho. unfold worker. by rewrite (goes_on_with settings w a o).
Qed.

Lemma run_cli_with settings w a o : (if templates_there then storage_of settings else None) = Some a →
  Outbox.from_app_settings default_worker_id (Some (outbox_kwargs settings)) no_kwargs = Ok o →
  if decide (buildable settings)
  then cli' settings (fresh w) = (Ret (AuthContainer.backends_on settings (backend_of settings)), (cli_composition settings a, w))
  else ∃ e c, cli' settings (fresh w) = (Raise e, (c, w)).
Proof.
  intros Ha Ho. assert (cli' settings (fresh w) = (b ← AuthContainer.build_auth_container settings; on_authz register_system_type ;; on_authz Authz.seal ;; mret b)
    (mkComposition mails (cli_handlers settings a) Authz.empty_registry (Some a) (mkUsersContainer None None None None false), w)) as ->
    by (unfold cli; by rewrite (goes_on_with settings w a o)).
  rewrite run_bind. match goal with |- context [AuthContainer.build_auth_container settings ?s] => pose proof (build_decides s settings) as Hb end.
  destruct (AuthContainer.build_auth_container settings _) as [[b|e] s'].
  - destruct Hb as (-> & Hok & ->). by destruct (decide (buildable settings)).
  - destruct Hb as (-> & Hn). destruct (decide (buildable settings)); [done|]. by do 2 eexists.
Qed.

Lemma run_web_with settings w a o : (if templates_there then storage_of settings else None) = Some a →
  Outbox.from_app_settings default_worker_id (Some (outbox_kwargs settings)) no_kwargs = Ok o →
  if decide (buildable settings)
  then web' settings (fresh w) = match run_authz_bootstrap bootstrap settings w with
    | (Ret _, w') => (Ret (AuthContainer.backends_on settings (backend_of settings)), (web_composition settings a, w'))
    | (Raise e, w') => (Raise e, (web_composition settings a, w'))
    end
  else ∃ e c, web' settings (fresh w) = (Raise e, (c, w)).
Proof.
  intros Ha Ho. assert (web' settings (fresh w) = (b ← AuthContainer.build_auth_container settings;
      wire_refresh_token_revoker revoke_all_refresh_tokens ;; wire_erase_user a ;; wire_password_verifier (verify_user_password dummy_hash) ;;
      wire_job_queue ;; register_erase_user_handler ;; on_jobs Jobs.seal ;; on_authz register_system_type ;; on_authz Authz.seal ;;
      on_snd (run_authz_bootstrap bootstrap settings) ;; mret b)
    (mkComposition mails (Jobs.mkRegistry (<[DELETE_USER_ASSETS_JOB := Jobs.mkEntry (assets_handler a) None]>
       {[SEND_EMAIL_JOB := Jobs.mkEntry (send_handler (EmailSettings.from_app_settings settings) (environment_str (AppSettings.environment settings))) None]}) false)
       Authz.empty_registry (Some a) (mkUsersContainer None None None None false), w)) as ->
    by (unfold web; by rewrite (goes_on_with settings w a o)).
  rewrite run_bind. match goal with |- context [AuthContainer.build_auth_container settings ?s] => pose proof (build_decides s settings) as Hb end.
  destruct (AuthContainer.build_auth_container settings _) as [[b|e] s'].
  - destruct Hb as (-> & Hok & ->). destruct (decide (buildable settings)); [|done].
    match goal with |- ?l = _ => transitivity ((on_snd (run_authz_bootstrap bootstrap settings) ;; mret (AuthContainer.backends_on settings (backend_of settings)))
      (web_composition settings a, w)); [reflexivity|] end.
    rewrite run_bind. unfold on_snd. cbn [fst snd]. by destruct (run_authz_bootstrap bootstrap settings w) as [[[]|e] w'].
  - destruct Hb as (-> & Hn). destruct (decide (buildable settings)); [done|]. by do 2 eexists.
Qed.

(** C20. Where a template is not deployed, or the storage backend that is selected is not usable (whether storage is enabled or not), the web process, the worker and the administrator's command all refuse, before they touch a row or the cache. Otherwise the worker is always composed: it builds no authentication container. Where the settings do not build that container, the web process and the command still refuse, again before they touch anything. Where they do, the command is composed; so is the web process, which then seeds: the outcome of the bootstrap is its own, so that it may still raise, with everything composed and sealed. The web process and the worker end with the same sealed handlers, those of the three jobs the program enqueues, over the same mails and the same storage; no registry accepts anything more. *)
Theorem composition_decides relay fuel settings w :
  match (if templates_there then storage_of settings else None) with
  | None =>
      (∃ e c, web' settings (fresh w) = (Raise e, (c, w))) ∧ (∃ e c, worker' relay fuel settings (fresh w) = (Raise e, (c, w))) ∧
      (∃ e c, cli' settings (fresh w) = (Raise e, (c, w)))
  | Some a =>
      (∃ scaffold c, worker' relay fuel settings (fresh w) = (Ret scaffold, (c, w)) ∧
         registered_jobs scaffold = ["delete_user_assets"; "erase_user"; "send_email"] ∧
         jobs c = jobs (web_composition settings a) ∧ email c = email (web_composition settings a) ∧ storage c = Some a) ∧
      (if decide (buildable settings) then
         cli' settings (fresh w) = (Ret (AuthContainer.backends_on settings (backend_of settings)), (cli_composition settings a, w)) ∧
         web' settings (fresh w) = match run_authz_bootstrap bootstrap settings w with
           | (Ret _, w') => (Ret (AuthContainer.backends_on settings (backend_of settings)), (web_composition settings a, w'))
           | (Raise e, w') => (Raise e, (web_composition settings a, w'))
           end
       else (∃ e c, web' settings (fresh w) = (Raise e, (c, w))) ∧ (∃ e c, cli' settings (fresh w) = (Raise e, (c, w)))) ∧
      (∀ name, Jobs.has (jobs (web_composition settings a)) name = bool_decide (name ∈ ["delete_user_assets"; "erase_user"; "send_email"])) ∧
      (∀ name h keep, ∃ e, register_handler name h keep (jobs (web_composition settings a)) = (Raise (RuntimeError e), jobs (web_composition settings a))) ∧
      (∀ name subject p, ∃ e, register_template name subject p (email (web_composition settings a)) = (Raise (RuntimeError e), email (web_composition settings a))) ∧
      (∀ t acts hier, ∃ e, register_resource_type t acts hier (authz (web_composition settings a)) = (Raise (RuntimeError e), authz (web_composition settings a)))
  end.
Proof.
  destruct (if templates_there then storage_of settings else None) as [a|] eqn:Ha;
    [|by split_and!; apply (stops_early settings w)].
  destruct (run_compose_outbox settings (fresh w)) as (o & _ & Ho).
  split; [|split].
  - exists (scaffold_of relay fuel settings o), (worker_composition settings a). by rewrite (run_worker_with relay fuel settings w a o).
  - pose proof (run_cli_with settings w a o Ha Ho) as Hc. pose proof (run_web_with settings w a o Ha Ho) as Hw.
    by destruct (decide (buildable settings)).
  - split_and!; [|by eexists..]. intros name. unfold Jobs.has. apply bool_decide_ext. cbn [web_composition jobs handlers handlers_].
    rewrite -elem_of_dom !dom_insert_L ?dom_singleton_L ?dom_empty_L. set_solver.
Qed.

(** Nothing in the validation of the settings looks at the storage while it is not
    enabled, which the roots do not ask. *)
Theorem disabled_storage_is_needed relay fuel settings w errors :
  AppSettings.storage_enabled settings = false → storage_of settings = None →
  StorageSettings.validate (StorageSettings.from_app_settings settings) errors = (Ret tt, errors) ∧
  StorageSettings.validate_production (StorageSettings.from_app_settings settings) errors = (Ret tt, errors) ∧
  (∃ e c, web' settings (fresh w) = (Raise e, (c, w))) ∧ (∃ e c, worker' relay fuel settings (fresh w) = (Raise e, (c, w))).
Proof.
  intros He Hs. unfold StorageSettings.validate, StorageSettings.validate_production. cbn. rewrite He. cbn.
  assert ((if templates_there then storage_of settings else None) = None) by (by destruct templates_there).
  by split_and!; try apply (stops_early settings w).
Qed.
End wiring.

(** ** The defaults *)

(** The default settings compose all three processes over the local files, and
    seed nothing. *)
Definition demo_cleanup (a : StorageAdapter) (u : uuid) : M unit (Result unit AssetsCleanupError) := mret (Ok tt).
Definition demo_bootstrap (promote : bool) (email password : string) :
  M (World * InProcessPrincipalCache.InProcessPrincipalCache (gmap string Principal)) (Result uuid BootstrapError) := mret (Ok 1%N).

Lemma composition_decides_witness :
  ∃ backends a c scaffold c', storage_of true demo_defaults = Some a ∧
    web demo_cleanup "hash" "/app/templates" true "host:1" demo_bootstrap demo_defaults (nothing_yet, (init_world, demo_cache))
    = (Ret backends, (c, (init_world, demo_cache))) ∧
    worker demo_cleanup "/app/templates" true "host:1" (λ _ _, mret tt) 10 demo_defaults (nothing_yet, (init_world, demo_cache))
    = (Ret scaffold, (c', (init_world, demo_cache))) ∧ jobs c' = jobs c.
Proof.
  pose proof (composition_decides demo_cleanup "hash" "/app/templates" true "host:1" demo_bootstrap
    (λ _ _, mret tt) 10 demo_defaults (init_world, demo_cache)) as Hc.
  destruct (if templates_there "/app/templates" then storage_of true demo_defaults else None) as [a|] eqn:Ha; [|vm_compute in Ha; discriminate Ha].
  destruct Hc as ((scaffold & c' & Hw & _ & Hj & _) & Hb & _).
  destruct (decide (buildable demo_defaults)) as [_|Hn]; [|destruct Hn; split; [reflexivity|split; [by left|discriminate]]].
  destruct Hb as [_ Hweb]. eexists _, a, _, scaffold, c'. split; [exact Ha|]. split; [exact Hweb|]. split; [exact Hw|exact Hj].
Defined.

(** ** The prune *)

Section prune.
Context `{Env} (close_error : Resource → option exn).
Implicit Types (w : World) (p : Process).

Definition prune_text (s : PruneOutbox.PruneSummary) : string :=
  "outbox prune summary: delivered_deleted=" +:+ pretty (PruneOutbox.delivered_deleted s)
  +:+ " failed_deleted=" +:+ pretty (PruneOutbox.failed_deleted s) +:+ " processed_marks_deleted=" +:+ pretty (PruneOutbox.processed_marks_deleted s).

Lemma opened_then_closed p : filter (.≠ Engine) (opened p ++ [Engine]) = filter (.≠ Engine) (opened p).
Proof. rewrite filter_app filter_cons_False ?filter_nil ?app_nil_r //. by intros []. Qed.

(** The one-shot prune does to the database exactly what a run of the scheduled one does, also where the schedule is switched off; it closes the engine it opened however the prune ends, and exits with 0 and the numbers of deleted rows, or with the prune's exception; an engine that cannot be closed is the exception instead. *)
Theorem prune_command_is_the_schedule fuel settings w p :
  let '(res, w1) := PruneOutbox.execute fuel (retention_delivered_days settings) (retention_failed_days settings)
    (dedup_retention settings) (prune_batch_size settings) w in
  let '(r, (w', p')) := run_once close_error fuel settings (w, p) in
  (∀ enqueue, if enabled settings then ∃ spec, spec ∈ build_relay_cron_specs fuel settings enqueue ∧ cron_name spec = "outbox-prune" ∧
       w' = state_of (callable spec) w
     else build_relay_cron_specs fuel settings enqueue = []) ∧
  w' = w1 ∧
  match close_error Engine with
  | Some e => r = Raise e
  | None => opened p' = filter (.≠ Engine) (opened p) ∧
      r = match res with Raise e => Raise e | Ret None => Ret None | Ret (Some summary) => Ret (Some (0, prune_text summary)) end
  end.
Proof.
  destruct (PruneOutbox.execute fuel _ _ _ _ w) as [res w1] eqn:E.
  assert (Hspec : ∀ enqueue, if enabled settings then ∃ spec, spec ∈ build_relay_cron_specs fuel settings enqueue ∧ cron_name spec = "outbox-prune" ∧
       w1 = state_of (callable spec) w
     else build_relay_cron_specs fuel settings enqueue = []).
  { intros enqueue. unfold build_relay_cron_specs. destruct (enabled settings) eqn:He; [|done]. cbn [negb]. eexists. split; [right; by left|]. split; [done|].
    cbn [callable]. unfold state_of. rewrite run_bind E. by destruct res. }
  unfold run_once. rewrite run_bind. unfold on_snd at 1. cbn [snd]. unfold open. rewrite run_modify run_bind.
  unfold try_finally, on_fst, on_snd. cbn [fst snd]. rewrite E. unfold close.
  destruct (close_error Engine) as [e|].
  - done.
  - rewrite run_modify. cbn [set_opened opened]. destruct res as [[s|]|e]; rewrite ?run_ret; (split; [done|split; [done|split; [apply opened_then_closed|done]]]).
Qed.
End prune.
