(* ===== verification/Middleware.v ===== *)
(** The middleware around the routes ([app_platform/api/middleware],
    [app_platform/api/app_factory.py]).  An ASGI application is a function from a
    scope to a program that sends messages and acts on the process; Starlette's
    [MutableHeaders] is a parameter. *)

From Stdlib Require Import Ascii String.
From stdpp Require Import pretty.
From S2P Require Import Prelude PyStr Uuid Json Store.
Open Scope string_scope.
Open Scope list_scope.
Open Scope Z_scope.

(** ** ASGI *)

(** Header names arrive in lower case. *)
Abbreviation Headers := (list (string * string)) (only parsing).

Record Scope := mkScope {
  sc_type : string;
  sc_method : string;
  sc_scheme : string;
  sc_server : option (string * option Z);
  sc_path : string;
  sc_query_string : string;
  sc_headers : Headers;
  sc_request_id : option string;   (* [scope["state"]["request_id"]] *)
}.

Inductive Message :=
  | ResponseStart (status : Z) (headers : Headers)
  | ResponseBody (body : string) (more_body : bool).

Record AccessRecord := mkAccess {
  ac_request_id : option string;
  ac_method : string;
  ac_path : string;
  ac_status_code : Z;
  ac_duration : time;
}.

(** What the middleware reads and writes of the process, beside what the
    application does to its own state. *)
Record Process (S : Type) := mkProcess {
  request_id_context : option string;
  access_log : list AccessRecord;
  uuids_drawn : nat;
  clock_reads : nat;
  application_state : S;
}.
Arguments mkProcess {S}. Arguments request_id_context {S}. Arguments access_log {S}.
Arguments uuids_drawn {S}. Arguments clock_reads {S}. Arguments application_state {S}.

Section asgi.
Context {S : Type}.

Inductive Asgi (A : Type) : Type :=
  | Pure (a : A)
  | Throw (e : exn)
  | SendMessage (m : Message) (k : Asgi A)
  | Act {B : Type} (act : Process S → B * Process S) (k : B → Asgi A).
Arguments Pure {A}. Arguments Throw {A}. Arguments SendMessage {A}. Arguments Act {A B}.

(** The messages the server gets, in order; an exception keeps those before it. *)
Fixpoint run_asgi {A} (p : Asgi A) (s : Process S) : outcome A * Process S * list Message :=
  match p with
  | Pure a => (Ret a, s, [])
  | Throw e => (Raise e, s, [])
  | SendMessage m k => let '(r, s', ms) := run_asgi k s in (r, s', m :: ms)
  | Act act k => let '(b, s') := act s in run_asgi (k b) s'
  end.

(** The program given a [send] that first passes each message through [f]. *)
Fixpoint wrap_send {A} (f : Message → Message) (p : Asgi A) : Asgi A :=
  match p with
  | Pure a => Pure a
  | Throw e => Throw e
  | SendMessage m k => SendMessage (f m) (wrap_send f k)
  | Act act k => Act act (λ b, wrap_send f (k b))
  end.

(** [try: p finally: act], where the wrapped [send] kept the last status. *)
Fixpoint with_status {A} (status : Z) (p : Asgi A) (act : Z → Process S → Process S) : Asgi A :=
  match p with
  | Pure a => Act (λ s, (tt, act status s)) (λ _, Pure a)
  | Throw e => Act (λ s, (tt, act status s)) (λ _, Throw e)
  | SendMessage m k =>
      SendMessage m (with_status (match m with ResponseStart status _ => status | _ => status end) k act)
  | Act act' k => Act act' (λ b, with_status status (k b) act)
  end.
Definition finally {A} (p : Asgi A) (act : Process S → Process S) : Asgi A := with_status 0 p (λ _, act).

Definition App : Type := Scope → Asgi unit.
End asgi.
Arguments Asgi S A : clear implicits.
Arguments App S : clear implicits.
Arguments Pure {S A}. Arguments Throw {S A}. Arguments SendMessage {S A}. Arguments Act {S A B}.

Definition get_header (scope : Scope) (name : string) : option string :=
  snd <$> head (filter (λ kv, kv.1 = name) (sc_headers scope)).

(** [starlette.datastructures.MutableHeaders] over the raw list. *)
Class MutableHeaders := {
  set_header : string → string → Headers → Headers;
  has_header : string → Headers → bool;
  del_header : string → Headers → Headers;
}.

(** ** [SecurityHeadersMiddleware] *)

Module SecurityHeadersMiddleware.
Definition STRICT_CSP : string := "default-src 'none'; frame-ancestors 'none'".
Definition DOCS_CSP : string :=
  "default-src 'self'; script-src 'self' 'unsafe-inline' https://cdn.jsdelivr.net; style-src 'self' 'unsafe-inline' https://cdn.jsdelivr.net; img-src 'self' data: https://fastapi.tiangolo.com; font-src 'self' https://cdn.jsdelivr.net; frame-ancestors 'none'".
Definition DOCS_PATHS : list string := ["/docs"; "/docs/oauth2-redirect"; "/redoc"; "/openapi.json"].

Section security.
Context {S : Type} `{MutableHeaders} (hsts docs_enabled : bool).

Definition csp (path : string) : string :=
  if docs_enabled && bool_decide (path ∈ DOCS_PATHS) then DOCS_CSP else STRICT_CSP.

Definition send_wrapper (csp : string) (message : Message) : Message :=
  match message with
  | ResponseStart status headers =>
      let headers := set_header "Content-Security-Policy" csp headers in
      let headers := set_header "Referrer-Policy" "no-referrer" headers in
      let headers := set_header "X-Content-Type-Options" "nosniff" headers in
      let headers := set_header "Permissions-Policy" "()" headers in
      let headers := if hsts then set_header "Strict-Transport-Security" "max-age=31536000; includeSubDomains; preload" headers
                     else headers in
      let headers := if has_header "server" headers then del_header "server" headers else headers in
      let headers := if has_header "x-powered-by" headers then del_header "x-powered-by" headers else headers in
      ResponseStart status headers
  | ResponseBody _ _ => message
  end.

Definition call (app : App S) : App S := λ scope,
  if negb (String.eqb (sc_type scope) "http") then app scope
  else wrap_send (send_wrapper (csp (sc_path scope))) (app scope).
End security.
End SecurityHeadersMiddleware.

(** ** [ContentSizeLimitMiddleware] *)

Module ContentSizeLimitMiddleware.
Section limit.
Context {S : Type} (max_bytes : Z).
Implicit Types scope : Scope.

(** [_build_url]. *)
Definition build_url scope : string :=
  let '(host, port) := default ("", None) (sc_server scope) in
  let netloc :=
    match get_header scope "host" with
    | Some host_header => latin1_decode host_header
    | None =>
        match port with
        | None | Some 0 => host
        | Some port => host +:+ ":" +:+ pretty port
        end
    end in
  let query := match sc_query_string scope with "" => "" | raw_query => "?" +:+ latin1_decode raw_query end in
  sc_scheme scope +:+ "://" +:+ netloc +:+ sc_path scope +:+ query.

(** [_send_problem]. *)
Definition problem scope (status_code : Z) (title detail : string) : string :=
  dumps compact (JObj (
    [("type", JStr "about:blank"); ("title", JStr title); ("status", JInt status_code); ("detail", JStr detail);
     ("instance", JStr (build_url scope))] ++
    match sc_request_id scope with Some request_id => [("request_id", JStr request_id)] | None => [] end)).
Definition send_problem scope (status_code : Z) (title detail : string) : Asgi S unit :=
  let body := problem scope status_code title detail in
  SendMessage (ResponseStart status_code
      [("content-type", "application/problem+json"); ("content-length", pretty (Z.of_nat (String.length body)))])
    (SendMessage (ResponseBody body false) (Pure tt)).

Definition call (app : App S) : App S := λ scope,
  if negb (String.eqb (sc_type scope) "http") then app scope else
  match get_header scope "content-length" with
  | Some content_length =>
      match py_int content_length with
      | None => send_problem scope 400 "Bad Request" "Invalid Content-Length header"
      | Some size =>
          if max_bytes <? size then send_problem scope 413 "Content Too Large" "Request body too large"
          else app scope
      end
  | None =>
      let transfer_encoding := default "" (get_header scope "transfer-encoding") in
      if contains "chunked" (lower transfer_encoding)
      then send_problem scope 411 "Length Required"
             "Requests using Transfer-Encoding: chunked must include a Content-Length header."
      else app scope
  end.
End limit.
End ContentSizeLimitMiddleware.

(** ** [RequestContextMiddleware] *)

Module RequestContextMiddleware.
Definition id_char (c : ascii) : bool := is_alnum c || Ascii.eqb c "-" || Ascii.eqb c "_".

(** [^[a-zA-Z0-9\-_]{1,64}$]: a dollar also matches before a final newline. *)
Fixpoint matches_id (room : nat) (s : string) : bool :=
  match s, room with
  | "", _ => true
  | String c "", _ => Ascii.eqb c (ascii_of_nat 10) || (id_char c && match room with O => false | _ => true end)
  | String c s, Datatypes.S room => id_char c && matches_id room s
  | _, O => false
  end.
Definition request_id_ok (s : string) : bool :=
  match s with String c s => id_char c && matches_id 63 s | "" => false end.

Section context.
Context {S : Type} `{Env} `{MutableHeaders}.

Definition stamp (request_id : string) (scope : Scope) : Scope :=
  mkScope (sc_type scope) (sc_method scope) (sc_scheme scope) (sc_server scope) (sc_path scope) (sc_query_string scope)
    (sc_headers scope) (Some request_id).

Definition set_context (context : option string) (p : Process S) : Process S :=
  mkProcess context (access_log p) (uuids_drawn p) (clock_reads p) (application_state p).
Definition draw_uuid (p : Process S) : string * Process S :=
  (uuid_str (uuid4_at (uuids_drawn p)),
   mkProcess (request_id_context p) (access_log p) (Datatypes.S (uuids_drawn p)) (clock_reads p) (application_state p)).

Definition send_wrapper (request_id : string) (message : Message) : Message :=
  match message with
  | ResponseStart status headers => ResponseStart status (set_header "X-Request-ID" request_id headers)
  | ResponseBody _ _ => message
  end.

(** The id of the request, drawn when the client's is missing or malformed. *)
Definition resolve (scope : Scope) (p : Process S) : string * Process S :=
  match get_header scope "x-request-id" with
  | Some raw_id => if request_id_ok raw_id then (raw_id, p) else draw_uuid p
  | None => draw_uuid p
  end.

Definition call (app : App S) : App S := λ scope,
  if negb (String.eqb (sc_type scope) "http") then app scope else
  Act (resolve scope) (λ request_id,
  Act (λ p, (request_id_context p, set_context (Some request_id) p)) (λ token,
  finally (wrap_send (send_wrapper request_id) (app (stamp request_id scope))) (set_context token))).
End context.
End RequestContextMiddleware.

(** ** [AccessLogMiddleware] *)

Module AccessLogMiddleware.
Section access.
Context {S : Type} `{Env}.

Definition read_clock (p : Process S) : time * Process S :=
  (now_at (clock_reads p),
   mkProcess (request_id_context p) (access_log p) (uuids_drawn p) (Datatypes.S (clock_reads p)) (application_state p)).

(** The record, with the duration not yet rounded to hundredths of a millisecond. *)
Definition log_access (scope : Scope) (started : time) (status : Z) (p : Process S) : Process S :=
  let '(now, p) := read_clock p in
  let record := mkAccess (sc_request_id scope) (sc_method scope) (sc_path scope) status (now - started) in
  mkProcess (request_id_context p) (access_log p ++ [record]) (uuids_drawn p) (clock_reads p) (application_state p).

Definition call (app : App S) : App S := λ scope,
  if negb (String.eqb (sc_type scope) "http") then app scope else
  Act read_clock (λ started, with_status 0 (app scope) (log_access scope started)).
End access.
End AccessLogMiddleware.

(** ** [build_fastapi_app] *)

(** The application's own layers in the order they wrap the router; the layers
    outside (CORS, trusted hosts, proxy headers) and [GZipMiddleware] are
    Starlette's. *)
Definition build_stack {S : Type} `{Env} `{MutableHeaders} (production enable_docs : bool) (max_request_bytes : Z)
    (gzip : App S → App S) (router : App S) : App S :=
  SecurityHeadersMiddleware.call production enable_docs
    (gzip
      (ContentSizeLimitMiddleware.call max_request_bytes
        (RequestContextMiddleware.call
          (AccessLogMiddleware.call router)))).
