(* ===== verification/MiddlewareFacts.v ===== *)
(** Every response carries the security headers, bodies are bounded, and a
    request is known under one identifier, whatever the routes do. *)

From Stdlib Require Import Ascii String.
From stdpp Require Import pretty.
From S2P Require Import Prelude PyStr Uuid Json JsonFacts Store Demo Middleware.
Open Scope string_scope.
Open Scope list_scope.
Open Scope Z_scope.

(** ** Programs *)

Section asgi.
Context {S : Type}.
Implicit Types (p : Process S) (ms : list Message).

(** The status of the last response that was started. *)
Definition status_after (status : Z) ms : Z :=
  foldl (λ status m, match m with ResponseStart status _ => status | _ => status end) status ms.

Lemma run_wrap_send {A} f (q : Asgi S A) p :
  run_asgi (wrap_send f q) p = let '(r, p', ms) := run_asgi q p in (r, p', f <$> ms).
Proof.
  revert p. induction q as [a|e|m k IH|B act k IH]; intros p; cbn; [done..| |].
  - rewrite IH. by destruct (run_asgi k p) as [[??]?].
  - destruct (act p) as [b p']. apply IH.
Qed.

Lemma run_with_status {A} status (q : Asgi S A) act p :
  run_asgi (with_status status q act) p =
    let '(r, p', ms) := run_asgi q p in (r, act (status_after status ms) p', ms).
Proof.
  revert status p. induction q as [a|e|m k IH|B act' k IH]; intros status p; cbn; [done..| |].
  - rewrite IH. destruct (run_asgi k p) as [[??]?]. by destruct m.
  - destruct (act' p) as [b p']. apply IH.
Qed.

Lemma run_finally {A} (q : Asgi S A) act p :
  run_asgi (finally q act) p = let '(r, p', ms) := run_asgi q p in (r, act p', ms).
Proof. apply run_with_status. Qed.

Lemma status_after_map f status ms :
  (∀ m, match m with ResponseStart s _ => ∃ hs, f m = ResponseStart s hs | ResponseBody _ _ => f m = m end) →
  status_after status (f <$> ms) = status_after status ms.
Proof.
  intros Hf. revert status. induction ms as [|m ms IH]; intros status; [done|]. cbn. specialize (Hf m).
  destruct m; [destruct Hf as [? ->]|rewrite Hf]; apply IH.
Qed.
End asgi.

(** ** Headers *)

Definition values (name : string) (headers : list (string * string)) : list string :=
  snd <$> filter (λ kv, kv.1 = name) headers.

(** What the documentation of [MutableHeaders] says: an assignment leaves one
    value, a deletion none, and other names are not touched. *)
Class MutableHeadersLaws `{MutableHeaders} : Prop := {
  values_set name value headers n :
    values n (set_header name value headers) = if decide (n = lower name) then [value] else values n headers;
  values_del name headers n :
    values n (del_header name headers) = if decide (n = lower name) then [] else values n headers;
  has_header_spec name headers : has_header name headers = bool_decide (values (lower name) headers ≠ []);
}.

Section headers.
Context `{MutableHeadersLaws}.

(** [if name in headers: del headers[name]]. *)
Lemma values_strip name headers n :
  values n (if has_header name headers then del_header name headers else headers) =
    if decide (n = lower name) then [] else values n headers.
Proof.
  rewrite has_header_spec. destruct (bool_decide_reflect (values (lower name) headers ≠ [])) as [_|Hn]; [apply values_del|].
  destruct (decide (n = lower name)) as [->|]; [|done]. destruct (values (lower name) headers); [done|]. by destruct Hn.
Qed.

(** ** Security headers *)

(** The baseline of a response under the policy [csp]. *)
Definition baseline (hsts : bool) (csp : string) (m : Message) : Prop :=
  match m with
  | ResponseStart _ headers =>
      values "content-security-policy" headers = [csp] ∧ values "referrer-policy" headers = ["no-referrer"] ∧
      values "x-content-type-options" headers = ["nosniff"] ∧ values "permissions-policy" headers = ["()"] ∧
      (hsts = true → values "strict-transport-security" headers = ["max-age=31536000; includeSubDomains; preload"]) ∧
      values "server" headers = [] ∧ values "x-powered-by" headers = []
  | ResponseBody _ _ => True
  end.

Lemma wrapper_baseline hsts csp m : baseline hsts csp (SecurityHeadersMiddleware.send_wrapper hsts csp m).
Proof.
  destruct m as [status headers|]; [|done]. cbn [SecurityHeadersMiddleware.send_wrapper baseline].
  split_and!; [..|intros ->| |]; rewrite ?values_strip; try (destruct hsts); rewrite ?values_set; reflexivity.
Qed.
End headers.

Section stack.
Context {S : Type} `{Env} `{MutableHeadersLaws}.
Implicit Types (p : Process S) (scope : Scope) (router app : App S).

(** Every response the application's layers start, whichever layer or route
    starts it, carries the baseline headers once each and names no server: the
    strict policy except on the documentation pages of a process that serves
    them, and strict transport in production. *)
Theorem responses_hardened production docs max_bytes gzip router scope p :
  sc_type scope = "http" →
  let csp := if docs && bool_decide (sc_path scope ∈ SecurityHeadersMiddleware.DOCS_PATHS)
             then SecurityHeadersMiddleware.DOCS_CSP else SecurityHeadersMiddleware.STRICT_CSP in
  Forall (baseline production csp) (run_asgi (build_stack production docs max_bytes gzip router scope) p).2.
Proof.
  intros Ht csp. unfold build_stack, SecurityHeadersMiddleware.call. rewrite Ht. cbn -[run_asgi wrap_send]. rewrite run_wrap_send.
  destruct (run_asgi _ p) as [[r p'] ms]. cbn. apply Forall_fmap, Forall_true. intros m. apply wrapper_baseline.
Qed.

(** ** Bodies *)

(** [Content-Length] as [int] reads it. *)
Definition declared_length scope : option Z := content_length ← get_header scope "content-length"; py_int content_length.

(** A request the limit lets through. *)
Definition admitted (max_bytes : Z) scope : Prop :=
  match get_header scope "content-length" with
  | Some _ => ∃ size, declared_length scope = Some size ∧ size <= max_bytes
  | None => contains "chunked" (lower (default "" (get_header scope "transfer-encoding"))) = false
  end.

Lemma limit_untraced max_bytes app scope p :
  sc_type scope = "http" → ¬ admitted max_bytes scope →
  ∃ status headers body,
    run_asgi (ContentSizeLimitMiddleware.call max_bytes app scope) p =
      (Ret tt, p, [ResponseStart status headers; ResponseBody body false]) ∧
    values "x-request-id" headers = [].
Proof.
  intros Ht. unfold ContentSizeLimitMiddleware.call, admitted, declared_length. rewrite Ht. cbn -[run_asgi contains lower].
  destruct (get_header scope "content-length") as [cl|]; cbn -[run_asgi contains lower].
  - destruct (py_int cl) as [size|]; [|by eexists _, _, _]. intros Hn.
    destruct (Z.ltb_spec max_bytes size); [by eexists _, _, _|]. destruct Hn. by exists size.
  - by destruct (contains _ _); [eexists _, _, _|].
Qed.

Lemma limit_cases max_bytes app scope p :
  sc_type scope = "http" →
  let out := run_asgi (ContentSizeLimitMiddleware.call max_bytes app scope) p in
  (admitted max_bytes scope ∧ out = run_asgi (app scope) p) ∨
  (¬ admitted max_bytes scope ∧ ∃ status title detail headers,
     out = (Ret tt, p, [ResponseStart status headers;
                        ResponseBody (ContentSizeLimitMiddleware.problem scope status title detail) false]) ∧
     status = match get_header scope "content-length" with
              | None => 411
              | Some _ => match declared_length scope with None => 400 | Some _ => 413 end
              end).
Proof.
  intros Ht. cbv zeta. unfold ContentSizeLimitMiddleware.call, admitted, declared_length. rewrite Ht. cbn -[run_asgi contains lower].
  destruct (get_header scope "content-length") as [cl|]; cbn -[run_asgi contains lower].
  - destruct (py_int cl) as [size|]; cbn -[run_asgi].
    + destruct (Z.ltb_spec max_bytes size); [right|left].
      * split; [intros (n & [= <-] & ?); lia|]. by eexists _, _, _, _.
      * split; [by exists size|done].
    + right. split; [by intros (n & ? & _)|]. by eexists _, _, _, _.
  - destruct (contains _ _); [right|by left]. split; [done|]. by eexists _, _, _, _.
Qed.

(** C39. The inner layers see a request exactly when its declared length is within
    the limit, or it declares none and is not chunked; they then answer alone.
    Any other request is answered 411, 400 or 413 by this layer in one start and
    one body, and nothing of the process is touched.  In particular a request
    that declares [size] bytes in decimal passes exactly when [size] is within
    the limit. *)
Theorem bodies_are_bounded max_bytes app scope p :
  sc_type scope = "http" →
  let out := run_asgi (ContentSizeLimitMiddleware.call max_bytes app scope) p in
  (admitted max_bytes scope → out = run_asgi (app scope) p) ∧
  (¬ admitted max_bytes scope → ∃ status title detail headers,
     out = (Ret tt, p, [ResponseStart status headers;
                        ResponseBody (ContentSizeLimitMiddleware.problem scope status title detail) false]) ∧
     status = match get_header scope "content-length" with
              | None => 411
              | Some _ => match declared_length scope with None => 400 | Some _ => 413 end
              end) ∧
  (∀ size : N, (size < 10 ^ N.of_nat 4300)%N → get_header scope "content-length" = Some (pretty size) →
     (admitted max_bytes scope ↔ Z.of_N size <= max_bytes)).
Proof.
  intros Ht. cbv zeta. pose proof (limit_cases max_bytes app scope p Ht) as Hl. cbv zeta in Hl. split_and!.
  - intros Ha. destruct Hl as [[_ ->]|[Hn _]]; [done|by destruct Hn].
  - intros Hn. destruct Hl as [[Ha _]|[_ Hr]]; [by destruct Hn|done].
  - intros size Hs Hh. unfold admitted, declared_length. rewrite Hh. cbn. rewrite py_int_pretty //. split; [|by eexists].
    by intros (? & [= <-] & ?).
Qed.

(** ** Identifiers *)

(** What the middleware lets pass as an identifier: one to 64 of these characters;
    the pattern would also take a final newline, which no header holds. *)
Definition plain_id (s : string) : Prop :=
  str_forall RequestContextMiddleware.id_char s = true ∧ (1 <= String.length s <= 64)%nat.

Definition no_newline (s : string) : bool := str_forall (λ c, negb (Ascii.eqb c (ascii_of_nat 10))) s.

Lemma matches_id_plain room s :
  RequestContextMiddleware.matches_id room s = true → no_newline s = true →
  str_forall RequestContextMiddleware.id_char s = true ∧ (String.length s <= room)%nat.
Proof.
  revert room. induction s as [|c s IH]; intros room; [split; [done|cbn; lia]|]. unfold no_newline. cbn [str_forall].
  intros Hm [Hc Hs]%andb_true_iff. destruct s as [|c' s].
  - assert (Hi : RequestContextMiddleware.id_char c && negb (room =? 0)%nat = true).
    { destruct room; cbn in Hm; by destruct (Ascii.eqb c _). }
    apply andb_true_iff in Hi as [Hi Hr]. cbn [str_forall]. rewrite Hi. split; [done|]. destruct room; [done|]. cbn. lia.
  - destruct room as [|room]; [done|]. apply andb_true_iff in Hm as [Hi Hm]. destruct (IH room Hm Hs) as [Hf Hl].
    rewrite Hi Hf. split; [done|]. cbn in Hl |- *. lia.
Qed.

Lemma request_id_plain s : RequestContextMiddleware.request_id_ok s = true → no_newline s = true → plain_id s.
Proof.
  destruct s as [|c s]; [done|]. cbn [RequestContextMiddleware.request_id_ok]. unfold no_newline. cbn [str_forall].
  intros [Hi Hm]%andb_true_iff [_ Hs]%andb_true_iff. destruct (matches_id_plain _ _ Hm Hs) as [Hf Hl].
  unfold plain_id. cbn [str_forall String.length]. rewrite Hi Hf. split; [done|lia].
Qed.

(** The identifier of a response, and of every response a wrapped program starts. *)
Definition tagged (request_id : string) (m : Message) : Prop :=
  match m with ResponseStart _ headers => values "x-request-id" headers = [request_id] | ResponseBody _ _ => True end.

Lemma wrapper_tags request_id m : tagged request_id (RequestContextMiddleware.send_wrapper request_id m).
Proof. destruct m; [|done]. cbn. by rewrite values_set. Qed.

Lemma run_request_context app scope p :
  sc_type scope = "http" →
  run_asgi (RequestContextMiddleware.call app scope) p =
    let '(request_id, p1) := RequestContextMiddleware.resolve scope p in
    let '(r, p2, ms) := run_asgi (app (RequestContextMiddleware.stamp request_id scope))
                          (RequestContextMiddleware.set_context (Some request_id) p1) in
    (r, RequestContextMiddleware.set_context (request_id_context p1) p2,
     RequestContextMiddleware.send_wrapper request_id <$> ms).
Proof.
  intros Ht. unfold RequestContextMiddleware.call. rewrite Ht. cbn -[RequestContextMiddleware.resolve finally wrap_send].
  destruct (RequestContextMiddleware.resolve scope p) as [rid p1]. rewrite run_finally run_wrap_send.
  by destruct (run_asgi (app _) _) as [[r p2] ms].
Qed.

Lemma run_access_log app scope p :
  sc_type scope = "http" →
  run_asgi (AccessLogMiddleware.call app scope) p =
    let '(started, p1) := AccessLogMiddleware.read_clock p in
    let '(r, p2, ms) := run_asgi (app scope) p1 in
    (r, AccessLogMiddleware.log_access scope started (status_after 0 ms) p2, ms).
Proof. intros Ht. unfold AccessLogMiddleware.call. rewrite Ht. cbn. by rewrite run_with_status. Qed.

(** The identifier is drawn before anything else and comes from the client or from
    the generator. *)
Lemma request_id_cases scope p :
  let '(request_id, p') := RequestContextMiddleware.resolve scope p in
  request_id_context p' = request_id_context p ∧ access_log p' = access_log p ∧
  ((get_header scope "x-request-id" = Some request_id ∧ RequestContextMiddleware.request_id_ok request_id = true) ∨
   request_id = uuid_str (uuid4_at (uuids_drawn p))).
Proof.
  unfold RequestContextMiddleware.resolve, RequestContextMiddleware.draw_uuid.
  destruct (get_header scope "x-request-id") as [raw|]; [|by split_and!; [..|right]].
  destruct (RequestContextMiddleware.request_id_ok raw) eqn:E; split_and!; try done; [by left|by right].
Qed.

(** Whatever the routes do, and also when they raise: a request is known under
    one identifier, which is the client's when that is one to 64 letters, digits,
    dashes and underscores and a fresh UUID otherwise; every response carries
    exactly it, one access record with it and the last status is written after
    the routes' own, and the context variable is what it was before. *)
Theorem requests_are_traced router scope p :
  sc_type scope = "http" → (∀ raw, get_header scope "x-request-id" = Some raw → no_newline raw = true) →
  let '(_, p', ms) := run_asgi (RequestContextMiddleware.call (AccessLogMiddleware.call router) scope) p in
  ∃ request_id,
    ((get_header scope "x-request-id" = Some request_id ∧ plain_id request_id) ∨
     request_id = uuid_str (uuid4_at (uuids_drawn p))) ∧
    Forall (tagged request_id) ms ∧
    request_id_context p' = request_id_context p ∧
    ∃ log duration, access_log p' = log ++ [mkAccess (Some request_id) (sc_method scope) (sc_path scope) (status_after 0 ms) duration].
Proof.
  intros Ht Hnl. rewrite run_request_context //. pose proof (request_id_cases scope p) as Hr.
  destruct (RequestContextMiddleware.resolve scope p) as [rid p1]. destruct Hr as (Hctx & _ & Hid).
  rewrite run_access_log //. destruct (AccessLogMiddleware.read_clock _) as [started p2].
  destruct (run_asgi (router _) p2) as [[r p3] ms]. exists rid. split_and!.
  - destruct Hid as [[Hh Hok]|Hid]; [left|by right]. split; [done|]. apply request_id_plain; [done|by apply Hnl].
  - apply Forall_fmap, Forall_true. intros m. apply wrapper_tags.
  - done.
  - rewrite status_after_map; [by eexists _, _|]. intros [s hs|]; [by eexists|done].
Qed.

(** The identifier is resolved inside the size limit: a request that is refused
    there gets no [X-Request-ID], and leaves no access record. *)
Lemma rejection_is_untraced production docs max_bytes router scope p :
  sc_type scope = "http" → ¬ admitted max_bytes scope →
  ∃ status headers body,
    run_asgi (build_stack production docs max_bytes (λ app, app) router scope) p =
      (Ret tt, p, [ResponseStart status headers; ResponseBody body false]) ∧
    values "x-request-id" headers = [].
Proof.
  intros Ht Hn. unfold build_stack, SecurityHeadersMiddleware.call. rewrite Ht. cbn -[run_asgi wrap_send].
  destruct (limit_untraced max_bytes (RequestContextMiddleware.call (AccessLogMiddleware.call router)) scope p Ht Hn)
    as (status & headers & body & E & Hv).
  rewrite run_wrap_send E. eexists _, _, _. split; [reflexivity|].
  rewrite !values_strip. destruct production; rewrite !values_set; exact Hv.
Qed.
End stack.

(** ** Concrete requests *)

#[global] Instance demo_headers : MutableHeaders := {|
  set_header name value headers := filter (λ kv, kv.1 ≠ lower name) headers ++ [(lower name, value)];
  has_header name headers := bool_decide (values (lower name) headers ≠ []);
  del_header name headers := filter (λ kv, kv.1 ≠ lower name) headers;
|}.

Lemma values_app n l l' : values n (l ++ l') = values n l ++ values n l'.
Proof. unfold values. by rewrite filter_app fmap_app. Qed.
Lemma values_drop n m l : values n (filter (λ kv, kv.1 ≠ m) l) = if decide (n = m) then [] else values n l.
Proof.
  induction l as [|[k v] l IH]; [by destruct (decide _)|]. rewrite filter_cons. cbn [fst].
  unfold values in *. rewrite (filter_cons _ (k, v) l). cbn [fst]. destruct (decide (k ≠ m)) as [Hk|Hk].
  - rewrite filter_cons. cbn [fst]. destruct (decide (k = n)) as [->|]; [|done]. rewrite !fmap_cons IH.
    by destruct (decide (n = m)).
  - apply dec_stable in Hk as ->. rewrite IH. destruct (decide (n = m)) as [->|Hn]; [done|].
    destruct (decide (m = n)) as [->|]; done.
Qed.

#[global] Instance demo_headers_laws : MutableHeadersLaws.
Proof.
  split; [|intros name headers n; apply values_drop|done]. intros name value headers n. cbn [set_header demo_headers].
  rewrite values_app values_drop. unfold values. rewrite filter_cons. cbn [fst].
  destruct (decide (n = lower name)) as [->|Hn]; [by destruct (decide (_ = _))|].
  destruct (decide (lower name = n)) as [E|_]; [by destruct Hn|]. by rewrite app_nil_r.
Qed.

(** A route that names its server, and one that raises after it has started. *)
Definition demo_router : App unit := λ scope,
  SendMessage (ResponseStart 200 [("server", "uvicorn"); ("content-type", "application/json")])
    (if String.eqb (sc_path scope) "/boom" then Throw (RuntimeError "boom")
     else SendMessage (ResponseBody "{}" false) (Pure tt)).
Definition demo_request (path : string) (headers : list (string * string)) : Scope :=
  mkScope "http" "POST" "https" (Some ("app.example.com", Some 443)) path "" headers None.
Definition demo_process : Process unit := mkProcess None [] 0 0 tt.
Definition demo_stack : App unit := build_stack true false 1000 (λ app, app) demo_router.

Lemma responses_hardened_witness :
  Forall (baseline true SecurityHeadersMiddleware.STRICT_CSP) (run_asgi (demo_stack (demo_request "/me" [("content-length", "5000")])) demo_process).2 ∧
  Forall (baseline true SecurityHeadersMiddleware.STRICT_CSP) (run_asgi (demo_stack (demo_request "/boom" [])) demo_process).2 ∧
  length (run_asgi (demo_stack (demo_request "/boom" [])) demo_process).2 = 1%nat.
Proof.
  split_and!; [..|vm_compute; reflexivity].
  - exact (responses_hardened true false 1000 (λ app, app) demo_router (demo_request "/me" [("content-length", "5000")]) demo_process eq_refl).
  - exact (responses_hardened true false 1000 (λ app, app) demo_router (demo_request "/boom" []) demo_process eq_refl).
Defined.

Lemma bodies_are_bounded_witness :
  admitted 1000 (demo_request "/me" [("content-length", "1000")]) ∧
  ¬ admitted 1000 (demo_request "/me" [("content-length", "1001")]) ∧
  ¬ admitted 1000 (demo_request "/me" [("transfer-encoding", "gzip, Chunked")]).
Proof.
  pose proof (λ headers, bodies_are_bounded 1000 demo_router (demo_request "/me" headers) demo_process eq_refl) as Hb.
  split_and!.
  - apply (proj2 (proj2 (Hb [("content-length", "1000")])) 1000%N); [vm_compute; reflexivity|reflexivity|discriminate].
  - intros Ha. apply (proj2 (proj2 (Hb [("content-length", "1001")])) 1001%N) in Ha; [by destruct Ha|vm_compute; reflexivity|reflexivity].
  - intros Ha. vm_compute in Ha. discriminate Ha.
Defined.

(** The access record of a request whose route raises. *)
Lemma requests_are_traced_witness :
  let scope := demo_request "/boom" [("x-request-id", "client-42")] in
  let '(r, p', ms) := run_asgi (RequestContextMiddleware.call (AccessLogMiddleware.call demo_router) scope) demo_process in
  r = Raise (RuntimeError "boom") ∧ request_id_context p' = None ∧ ac_request_id <$> access_log p' = [Some "client-42"] ∧
  Forall (tagged "client-42") ms.
Proof.
  pose proof (requests_are_traced demo_router (demo_request "/boom" [("x-request-id", "client-42")]) demo_process eq_refl) as Ht.
  cbv zeta. destruct (run_asgi _ demo_process) as [[r p'] ms] eqn:E.
  destruct Ht as (rid & _ & Hms & Hctx & log & d & Hlog); [intros raw Hraw; vm_compute in Hraw; injection Hraw as <-; vm_compute; reflexivity|].
  vm_compute in E. injection E as <- <- <-. split_and!; [reflexivity..|].
  cbn in Hlog. destruct log as [|? [|]]; [|discriminate Hlog..]. injection Hlog as <- _. exact Hms.
Defined.
