(* ===== verification/Logging.v ===== *)
(** Structured logging ([app_platform/observability/logging.py]) on the standard
    library's [logging]: records, the filters of the one handler, the JSON formatter,
    the tree of loggers and its configuration.

    The standard library's side follows CPython: [makeRecord], [getMessage],
    [callHandlers], [StreamHandler.emit].  Printf-style formatting and the rendering of
    an exception or of a local time are arguments. *)

From Stdlib Require Import Ascii String.
From stdpp Require Import pretty.
From S2P Require Import Prelude PyStr Uuid Store Json Redaction Calendar.
Open Scope string_scope.
Open Scope list_scope.
Open Scope Z_scope.

(** ** Records *)

(** A record's [__dict__]: [created] and the text of [exc_info] apart, JSON-shaped
    attributes. *)
Record LogRecord := mkRecord {
  created : time;
  exc_info : option string;
  attrs : dict;
}.
Definition with_attrs (d : dict) (r : LogRecord) : LogRecord := mkRecord (created r) (exc_info r) d.

(** [str(value)], [msg % args], and [time.strftime] with the local zone. *)
Class PyText := {
  str_of : json → string;
  percent_format : string → json → outcome string;
  local_time : time → string;
}.

Definition text `{PyText} (value : json) : string := match value with JStr s => s | v => str_of v end.
Definition str_json (s : option string) : json := match s with Some s => JStr s | None => JNull end.

(** The attributes [LogRecord] gives itself. *)
Definition RECORD_ATTRS : list string :=
  ["name"; "msg"; "args"; "levelname"; "levelno"; "pathname"; "filename"; "module"; "exc_info"; "exc_text";
   "stack_info"; "lineno"; "funcName"; "created"; "msecs"; "relativeCreated"; "thread"; "threadName";
   "processName"; "process"; "taskName"].

(** The attributes that say where the call was made. *)
Definition FRAME_ATTRS : list string :=
  ["pathname"; "filename"; "module"; "exc_text"; "stack_info"; "lineno"; "funcName"; "msecs"; "relativeCreated";
   "thread"; "threadName"; "processName"; "process"; "taskName"].

Record LogCall := mkCall {
  call_name : string;
  call_level : Z;
  call_msg : string;
  call_args : json;
  call_extra : dict;
  call_exc : option string;
}.

Definition level_name (level : Z) : string :=
  match level with
  | 50 => "CRITICAL" | 40 => "ERROR" | 30 => "WARNING" | 20 => "INFO" | 10 => "DEBUG" | 0 => "NOTSET"
  | _ => "Level " +:+ pretty level
  end.

(** [Logger.makeRecord]: an extra may not overwrite what the record has. *)
Definition make_record (now : time) (frame : string → json) (c : LogCall) : outcome LogRecord :=
  if existsb (λ key, str_in key ("message" :: "asctime" :: RECORD_ATTRS)) (dict_keys (call_extra c))
  then Raise (KeyError "Attempt to overwrite a key in LogRecord")
  else
    let base := [("name", JStr (call_name c)); ("msg", JStr (call_msg c)); ("args", call_args c);
                 ("levelname", JStr (level_name (call_level c))); ("levelno", JInt (call_level c))]
                ++ map (λ key, (key, frame key)) FRAME_ATTRS in
    Ret (mkRecord now (call_exc c) (fold_left (λ d '(key, value), dict_set d key value) (call_extra c) base)).

(** [LogRecord.getMessage]. *)
Definition truthy (value : json) : bool :=
  match value with
  | JNull | JBool false | JInt 0 | JStr "" | JList [] | JObj [] => false
  | _ => true
  end.
Definition attr (record : LogRecord) (key : string) : json := default JNull (dict_get (attrs record) key).
Definition getMessage `{PyText} (record : LogRecord) : outcome string :=
  let msg := text (attr record "msg") in
  if truthy (attr record "args") then percent_format msg (attr record "args") else Ret msg.

(** ** What the context variables and OpenTelemetry say *)

(** [get_current_span().get_span_context()]: its trace id and whether it is valid;
    it may raise, or the package be missing. *)
Record LogContext := mkContext {
  REQUEST_ID_CONTEXT : option string;
  TRACE_ID_CONTEXT : option string;
  span_context : outcome (N * bool);
}.

Definition get_otel_trace_id (context : LogContext) : option string :=
  match span_context context with
  | Ret (trace_id, is_valid) => if is_valid then Some (hex 32 trace_id) else None
  | Raise _ => None
  end.

(** [a or b] of optional strings. *)
Definition str_or (a b : option string) : option string := match a with Some (String _ _) => a | _ => b end.

Module RequestIdFilter.
Definition filter (context : LogContext) (record : dict) : bool * dict :=
  let record := dict_set record "request_id" (str_json (REQUEST_ID_CONTEXT context)) in
  (true, dict_set record "trace_id" (str_json (str_or (get_otel_trace_id context) (TRACE_ID_CONTEXT context)))).
End RequestIdFilter.

(** ** Formatters *)

Record Service := mkService { service_name : string; service_version : string; environment : string }.

Module JsonFormatter.
(** [_STANDARD_LOGRECORD_ATTRS] is the same set as the filter's. *)
Definition STANDARD_LOGRECORD_ATTRS : list string :=
  ["args"; "asctime"; "created"; "exc_info"; "exc_text"; "filename"; "funcName"; "levelname"; "levelno"; "lineno";
   "message"; "module"; "msecs"; "msg"; "name"; "pathname"; "process"; "processName"; "relativeCreated"; "stack_info";
   "thread"; "threadName"; "taskName"; "request_id"; "trace_id"].

Section format.
Context `{PyText}.

Definition service_json (s : Service) : json :=
  JObj [("name", JStr (service_name s)); ("version", JStr (service_version s)); ("environment", JStr (environment s))].

Definition stable_keys (s : Service) (record : LogRecord) (message : string) : dict :=
  [("timestamp", JStr (isoformat (at_offset (created record) 0)));
   ("level", attr record "levelname");
   ("logger", attr record "name");
   ("message", JStr message);
   ("request_id", attr record "request_id");
   ("trace_id", attr record "trace_id");
   ("service", service_json s)].

Definition forwarded (key : string) : bool := negb (str_in key STANDARD_LOGRECORD_ATTRS || String.prefix "_" key).

(** The object before it is dumped. *)
Definition payload (s : Service) (record : LogRecord) : outcome dict :=
  match getMessage record with
  | Raise e => Raise e
  | Ret message =>
      let payload := stable_keys s record message in
      let payload := match exc_info record with Some exc => dict_set payload "exception" (JStr exc) | None => payload end in
      Ret (fold_left (λ payload '(key, value), if forwarded key then dict_set payload key value else payload)
             (attrs record) payload)
  end.

Definition format (s : Service) (record : LogRecord) : outcome string :=
  match payload s record with
  | Ret payload => Ret (dumps default_options (JObj payload))
  | Raise e => Raise e
  end.
End format.
End JsonFormatter.

(** [logging.Formatter] with the format string of local development. *)
Module TextFormatter.
Section format.
Context `{PyText}.
Definition ends_line (s : string) : bool := match String.get (String.length s - 1) s with Some c => Ascii.eqb c (ascii_of_nat 10) | None => false end.
Definition newline : string := String (ascii_of_nat 10) "".
Definition on_new_line (s rest : string) : string := s +:+ (if ends_line s then "" else newline) +:+ rest.
(** [None] is what [%] writes for it. *)
Definition shown (value : json) : string := match value with JNull => "None" | v => text v end.
Definition format (record : LogRecord) : outcome string :=
  match getMessage record with
  | Raise e => Raise e
  | Ret message =>
      match dict_get (attrs record) "request_id" with
      | None => Raise (ValueError "Formatting field not found in record: 'request_id'")
      | Some request_id =>
          let line := local_time (created record) +:+ " " +:+ shown (attr record "levelname") +:+ " [" +:+ shown request_id
                      +:+ "] " +:+ shown (attr record "name") +:+ ": " +:+ message in
          Ret (match exc_info record with Some exc => on_new_line line exc | None => line end)
      end
  end.
End format.
End TextFormatter.

(** ** The handler *)

Inductive Formatter := Json (service : Service) | Text.
(** The [StreamHandler] on stdout that [configure_logging] installs, or another. *)
Inductive Handler := Stdout (formatter : Formatter) | Other (id : nat).
#[global] Instance Service_eq_dec : EqDecision Service.
Proof. solve_decision. Defined.
#[global] Instance Formatter_eq_dec : EqDecision Formatter.
Proof. solve_decision. Defined.
#[global] Instance Handler_eq_dec : EqDecision Handler.
Proof. solve_decision. Defined.

(** What was written to stdout, and how many records the handler reported on stderr
    instead. *)
Record Console := mkConsole { stdout : list string; failed : nat }.
Definition write (line : string) (c : Console) : Console := mkConsole (stdout c ++ [line]) (failed c).
Definition handle_error (c : Console) : Console := mkConsole (stdout c) (S (failed c)).

Section emit.
Context `{PyText}.

(** The filters, in the order they were added. *)
Definition run_filters (context : LogContext) (record : LogRecord) : LogRecord :=
  let '(_, d) := PiiLogFilter.filter (attrs record) in
  let '(_, d) := RequestIdFilter.filter context d in
  with_attrs d record.

Definition format_with (f : Formatter) (record : LogRecord) : outcome string :=
  match f with Json s => JsonFormatter.format s record | Text => TextFormatter.format record end.

(** [StreamHandler.handle]: the line and its terminator; [RecursionError] passes, any
    other exception is [handleError]'s. *)
Definition emit (context : LogContext) (f : Formatter) (record : LogRecord) : M Console unit :=
  except_exception
    (line ← lift (format_with f (run_filters context record));
     modify (write (line +:+ TextFormatter.newline)))
    (λ e, match e with RecursionError => raise RecursionError | _ => modify handle_error end).
End emit.

(** ** Loggers *)

Record Logger := mkLogger { level : Z; handlers : list Handler; propagate : bool }.
(** [getLogger(name)] creates what is missing. *)
Definition new_logger : Logger := mkLogger 0 [] true.

Record Loggers := mkLoggers { root : Logger; named : gmap string Logger }.

(** The dotted prefixes of a name, the longest first, itself not among them. *)
Fixpoint prefixes (before : string) (name : string) : list string :=
  match name with
  | "" => []
  | String c name =>
      prefixes (before +:+ String c "") name ++ (if Ascii.eqb c "." then [before] else [])
  end.

(** The logger and its ancestors that exist, up to the root. *)
Definition chain (t : Loggers) (name : string) : list Logger :=
  omap (λ n, named t !! n) (name :: prefixes "" name) ++ [root t].

Fixpoint effective_level (loggers : list Logger) : Z :=
  match loggers with
  | [] => 0
  | l :: loggers => if level l =? 0 then effective_level loggers else level l
  end.

(** [callHandlers]; handlers are left at level [NOTSET]. *)
Fixpoint handlers_for (loggers : list Logger) : list Handler :=
  match loggers with
  | [] => []
  | l :: loggers => handlers l ++ (if propagate l then handlers_for loggers else [])
  end.

(** The handlers a record of a level logged under a name reaches. *)
Definition reached (t : Loggers) (name : string) (levelno : Z) : list Handler :=
  if effective_level (chain t name) <=? levelno then handlers_for (chain t name) else [].

(** ** [configure_logging] *)

(** [getattr(logging, level.upper(), logging.INFO)]: the module's names in capitals. *)
Definition upper_char (c : ascii) : ascii := if is_lower c then ascii_of_nat (code c - 32) else c.
Definition numeric_level (name : string) : json :=
  let name := str_map upper_char name in
  if str_in name ["CRITICAL"; "FATAL"] then JInt 50
  else if str_in name ["ERROR"] then JInt 40
  else if str_in name ["WARNING"; "WARN"] then JInt 30
  else if str_in name ["INFO"] then JInt 20
  else if str_in name ["DEBUG"] then JInt 10
  else if str_in name ["NOTSET"] then JInt 0
  else if str_in name ["BASIC_FORMAT"] then JStr "%(levelname)s:%(name)s:%(message)s"
  else if str_in name ["_STYLES"] then JObj []
  else JInt 20.

(** [Logger.setLevel] *)
Definition check_level (l : json) : outcome Z :=
  match l with
  | JInt z => Ret z
  | JStr _ => Raise (ValueError "Unknown level")
  | _ => Raise TypeError
  end.

Definition set_handlers (hs : list Handler) (l : Logger) : Logger := mkLogger (level l) hs (propagate l).
Definition set_level (z : Z) (l : Logger) : Logger := mkLogger z (handlers l) (propagate l).
Definition on_root (f : Logger → Logger) (t : Loggers) : Loggers := mkLoggers (f (root t)) (named t).
Definition on_named (name : string) (f : Logger → Logger) (t : Loggers) : Loggers :=
  mkLoggers (root t) (<[name := f (default new_logger (named t !! name))]> (named t)).

Definition UVICORN_LOGGERS : list string := ["uvicorn"; "uvicorn.error"; "uvicorn.access"].

Definition configure_logging (level_setting : string) (json_format : bool) (s : Service) : M Loggers unit :=
  let handler := Stdout (if json_format then Json s else Text) in
  existing ← gets (handlers ∘ root);
  for_each existing (λ h, modify (on_root (λ l, set_handlers (filter (.≠ h) (handlers l)) l))) ;;
  modify (on_root (λ l, set_handlers (handlers l ++ [handler]) l)) ;;
  z ← lift (check_level (numeric_level level_setting));
  modify (on_root (set_level z)) ;;
  for_each UVICORN_LOGGERS (λ name, modify (on_named name (λ l, mkLogger (level l) [] true))) ;;
  modify (on_named "uvicorn.access" (set_level 30)).
