(* ===== verification/LoggingFacts.v ===== *)
(** What reaches stdout: every line is one object that reads back, holds the
    identifiers of its request and no secret; each record is written once. *)

From Stdlib Require Import Ascii String.
From stdpp Require Import pretty.
From S2P Require Import Prelude PyStr Uuid Store Json JsonFacts Redaction RedactionFacts Calendar CursorFacts Logging.
Open Scope string_scope.
Open Scope list_scope.
Open Scope Z_scope.

(** ** Dicts *)

Lemma dict_get_set d k k' v : dict_get (dict_set d k v) k' = if String.eqb k k' then Some v else dict_get d k'.
Proof.
  induction d as [|[k0 v0] d IH]; cbn; [done|].
  destruct (String.eqb_spec k0 k) as [->|Hne]; cbn; [by destruct (String.eqb k k')|].
  rewrite IH. destruct (String.eqb_spec k0 k') as [->|]; [|done]. by rewrite (eqb_neq_string k).
Qed.

Lemma dict_set_forall (P : string * json → Prop) d k v : P (k, v) → Forall P d → Forall P (dict_set d k v).
Proof. intros Hkv. induction 1 as [|[k0 v0] d H0 Hd IH]; cbn; [by constructor|]. destruct (String.eqb_spec k0 k) as [->|]; by constructor. Qed.

Lemma dict_keys_set d k v : dict_keys (dict_set d k v) = if str_in k (dict_keys d) then dict_keys d else dict_keys d ++ [k].
Proof.
  assert (∀ k0 (v0 : json) d, dict_keys ((k0, v0) :: d) = k0 :: dict_keys d) as Hc by done.
  induction d as [|[k0 v0] d IH]; [done|]. cbn [dict_set]. unfold str_in in *. rewrite Hc. cbn [existsb]. rewrite (String.eqb_sym k k0).
  destruct (String.eqb_spec k0 k) as [->|]; [done|]. rewrite Hc IH. cbn [orb]. by destruct (existsb _ _).
Qed.

Lemma dict_set_nodup d k v : NoDup (dict_keys d) → NoDup (dict_keys (dict_set d k v)).
Proof.
  intros Hd. rewrite dict_keys_set. destruct (str_in k (dict_keys d)) eqn:E; [done|]. apply NoDup_app. split; [done|].
  split; [|by apply NoDup_singleton]. intros x Hx ->%list_elem_of_singleton. apply str_in_spec in Hx. congruence.
Qed.

Lemma dict_get_elem d k v : dict_get d k = Some v → (k, v) ∈ d.
Proof. induction d as [|[k0 v0] d IH]; cbn; [done|]. destruct (String.eqb_spec k0 k) as [->|]; [intros [= ->]; left|right; auto]. Qed.

Lemma dict_get_nodup d k v : NoDup (dict_keys d) → (k, v) ∈ d → dict_get d k = Some v.
Proof.
  induction d as [|[k0 v0] d IH]; cbn; [by intros _ ?%elem_of_nil|]. rewrite NoDup_cons elem_of_cons. intros [Hk Hd] [[= <- <-]|Hin].
  - by rewrite String.eqb_refl.
  - rewrite eqb_neq_string; [auto|]. intros ->. apply Hk, list_elem_of_fmap. by exists (k, v).
Qed.

Lemma get_map_entries f d k : dict_get (map_entries f d) k = f k <$> dict_get d k.
Proof. induction d as [|[k0 v0] d IH]; cbn; [done|]. destruct (String.eqb_spec k0 k) as [->|]; [done|apply IH]. Qed.

(** A loop that assigns the entries of one dict that pass a test to another. *)
Section assign.
Context (keep : string → bool).
Definition assign (acc : dict) (kv : string * json) : dict := let '(key, value) := kv in if keep key then dict_set acc key value else acc.

Lemma dict_get_assign d acc k :
  NoDup (dict_keys d) → dict_get (fold_left assign d acc) k = if keep k then match dict_get d k with Some v => Some v | None => dict_get acc k end else dict_get acc k.
Proof.
  revert acc. induction d as [|[k0 v0] d IH]; intros acc; cbn; [by destruct (keep k)|]. intros [Hk Hd]%NoDup_cons. rewrite IH //.
  destruct (String.eqb_spec k0 k) as [->|Hne].
  - assert (dict_get d k = None) as ->.
    { destruct (dict_get d k) eqn:E; [|done]. destruct Hk. apply list_elem_of_fmap. by exists (k, j); split; [|apply dict_get_elem]. }
    destruct (keep k); [|done]. by rewrite dict_get_set String.eqb_refl.
  - destruct (keep k), (keep k0); try done; rewrite dict_get_set eqb_neq_string //.
Qed.

Lemma assign_forall (P : string * json → Prop) d acc :
  Forall (λ kv, keep kv.1 = true → P kv) d → Forall P acc → Forall P (fold_left assign d acc).
Proof.
  intros Hd. revert acc. induction Hd as [|[k v] d Hkv Hd IH]; intros acc Hacc; cbn; [done|]. apply IH.
  cbn in Hkv. destruct (keep k); [apply dict_set_forall; auto|done].
Qed.

Lemma assign_nodup d acc : NoDup (dict_keys acc) → NoDup (dict_keys (fold_left assign d acc)).
Proof.
  revert acc. induction d as [|[k v] d IH]; intros acc Hacc; cbn; [done|]. apply IH. destruct (keep k); [by apply dict_set_nodup|done].
Qed.
End assign.

(** ** What redaction leaves of a text *)

Lemma utf8_app a b : utf8 (a ++ b) = utf8 a +:+ utf8 b.
Proof. induction a as [|cp a IH]; [done|]. cbn [app utf8 foldr]. fold (utf8 (a ++ b)). by rewrite IH app_string_assoc. Qed.
Lemma is_text_app a b : is_text a → is_text b → is_text (a +:+ b).
Proof. intros (x & Hx & ->) (y & Hy & ->). exists (x ++ y). split; [by apply Forall_app|]. by rewrite utf8_app. Qed.
Lemma is_text_char cp : scalar cp = true → is_text (utf8_char cp).
Proof. intros Hs. exists [cp]. split; [repeat constructor; by apply Is_true_true|]. cbn. by rewrite app_string_nil_r. Qed.

Lemma byte_not_at n : (n < 256)%N → n ≠ 64%N → Ascii.eqb (ascii_of_N n) "@" = false.
Proof. intros Hn Hne. apply Ascii.eqb_neq. intros E. apply Hne. rewrite -(code_of_N n) // E. done. Qed.
Lemma char_at_free cp : scalar cp = true → cp ≠ 64%N → at_free (utf8_char cp).
Proof.
  intros Hs Hne. pose proof (scalar_bound _ Hs). unfold utf8_char.
  repeat case_match; repeat match goal with H : (_ <? _)%N = _ |- _ => first [apply N.ltb_lt in H | apply N.ltb_ge in H] end;
    repeat (apply at_free_cons; split; [apply byte_not_at; div_lia|]); done.
Qed.

Lemma partition_skip a s :
  at_free a → partition_char "@" (a +:+ s) = let '(l, found, r) := partition_char "@" s in (a +:+ l, found, r).
Proof.
  induction a as [|c a IH].
  { intros _. rewrite app_nil_string. destruct (partition_char "@" s) as [[l f] r]. by rewrite app_nil_string. }
  intros [Hc Ha]%at_free_cons.
  rewrite app_cons. cbn [partition_char]. rewrite Hc IH //. by destruct (partition_char "@" s) as [[l f] r].
Qed.

Lemma partition_utf8 cps : Forall scalar cps →
  ∃ l found r, partition_char "@" (utf8 cps) = (utf8 l, found, utf8 r) ∧ Forall scalar l ∧ Forall scalar r.
Proof.
  induction 1 as [|cp cps Hcp Hcps (l & found & r & E & Hl & Hr)]; [by exists [], false, []|].
  destruct (decide (cp = 64%N)) as [->|Hne]; [by exists [], true, cps|].
  exists (cp :: l), found, r. split_and!; [|by constructor|done]. cbn [utf8 foldr]. fold (utf8 cps).
  rewrite partition_skip; [|apply char_at_free; [by apply Is_true_true|done]]. by rewrite E.
Qed.

Lemma first_char_text cp s : scalar cp = true → first_char (utf8_char cp +:+ s) = utf8_char cp.
Proof.
  intros Hs. pose proof (scalar_bound _ Hs). unfold utf8_char.
  destruct (N.ltb_spec cp 128) as [Ha|Ha]; [|destruct (N.ltb_spec cp 2048) as [Hb|Hb];
    [|destruct (N.ltb_spec cp 65536) as [Hc|Hc]]]; rewrite !app_cons app_nil_string; unfold first_char, char_length;
    (rewrite code_of_N; [|div_lia]); decide_N; cbn; by destruct s.
Qed.

Lemma redact_email_text s : is_text s → is_text (redact_email s).
Proof.
  intros (cps & Hcps & ->). unfold redact_email. destruct (negb _); [by apply is_text_ascii|].
  destruct (partition_utf8 cps Hcps) as (l & found & r & -> & Hl & Hr).
  destruct Hl as [|cp l Hcp Hl]; [by apply is_text_ascii|]. cbn [utf8 foldr]. fold (utf8 l). apply Is_true_true in Hcp.
  assert (is_text (first_char (utf8_char cp +:+ utf8 l) +:+ "***@" +:+ utf8 r)) as Ht.
  { rewrite first_char_text //. apply is_text_app; [by apply is_text_char|]. apply is_text_app; [by apply is_text_ascii|]. by exists r. }
  destruct (utf8_char cp +:+ utf8 l); [by apply is_text_ascii|]. by destruct (utf8 r); [apply is_text_ascii|].
Qed.

Lemma printable_text depth s : is_text s → printable depth (JStr s).
Proof. by destruct depth. Qed.
Lemma printable_placeholder depth : printable depth REDACTED_PLACEHOLDER.
Proof. apply printable_text. by apply is_text_ascii. Qed.

Lemma printable_redact_email depth s : printable depth (JStr s) → printable depth (JStr (redact_email s)).
Proof. destruct depth; apply redact_email_text. Qed.

Lemma printable_redact_value depth k v : printable depth v → printable depth (redact_value_for_key k v).
Proof.
  intros Hv. unfold redact_value_for_key. destruct (str_in _ REDACT_STRICT_KEYS); [apply printable_placeholder|].
  destruct v; try done. destruct (str_in _ _); [by apply printable_redact_email|done].
Qed.

Lemma printable_redact_header depth k v : printable depth v → printable depth (redact_header k v).
Proof.
  intros Hv. unfold redact_header. destruct (_ || _); [apply printable_placeholder|].
  destruct v; try done. destruct (str_in _ _); [by apply printable_redact_email|done].
Qed.

Lemma printable_policy depth k v : printable depth v → printable depth (policy k v).
Proof.
  intros Hv. unfold policy, PiiLogFilter.redact_entry. destruct v as [| | | | | |h]; try by apply printable_redact_value.
  destruct (str_in _ _); [|by apply printable_redact_value]. destruct depth as [|depth]; [done|]. unfold redact_headers_mapping.
  destruct Hv as [Hn Hd]. rewrite (fold_fill redact_header) //. split; [by rewrite keys_map_entries|].
  apply Forall_map. eapply Forall_impl; [done|]. cbn. intros [k0 v0] [? ?]. split; [done|]. by apply printable_redact_header.
Qed.

(** ** Records after the filters *)

(** What the filters leave of the attributes. *)
Definition redacted (d : dict) : dict := map_entries attr_policy (map_entries args_policy d).

Lemma run_filters_attrs context r :
  NoDup (dict_keys (attrs r)) →
  run_filters context r =
    with_attrs (dict_set (dict_set (redacted (attrs r)) "request_id" (str_json (REQUEST_ID_CONTEXT context)))
                  "trace_id" (str_json (str_or (get_otel_trace_id context) (TRACE_ID_CONTEXT context)))) r.
Proof. intros Hr. unfold run_filters. by rewrite filter_maps. Qed.

Lemma get_redacted d k : dict_get (redacted d) k = (λ v, attr_policy k (args_policy k v)) <$> dict_get d k.
Proof. unfold redacted. rewrite !get_map_entries. by destruct (dict_get d k). Qed.

(** The standard attributes but the arguments are left alone. *)
Lemma get_filtered context r k :
  NoDup (dict_keys (attrs r)) → k ≠ "request_id" → k ≠ "trace_id" →
  dict_get (attrs (run_filters context r)) k = (λ v, attr_policy k (args_policy k v)) <$> dict_get (attrs r) k.
Proof.
  intros Hr H1 H2. rewrite run_filters_attrs //. cbn. rewrite !dict_get_set !eqb_neq_string //; [apply get_redacted|by apply not_eq_sym..].
Qed.

Lemma forwarded_policy k v : JsonFormatter.forwarded k = true → attr_policy k (args_policy k v) = policy k v ∧ k ≠ "request_id" ∧ k ≠ "trace_id".
Proof.
  intros Hk. split_and!; [|by intros ->..]. unfold attr_policy. unfold JsonFormatter.forwarded in Hk.
  apply negb_true_iff in Hk. change (PiiLogFilter.skipped k = false) in Hk. rewrite Hk.
  assert (k ≠ "args") as Hne by (by intros ->). unfold args_policy. destruct v; try done. by rewrite eqb_neq_string.
Qed.

(** Records that differ in their secrets only come out of the filters the same. *)
Lemma run_filters_low context r r' :
  NoDup (dict_keys (attrs r)) → created r = created r' → exc_info r = exc_info r' →
  Forall2 (low_pair low_attr) (attrs r) (attrs r') → run_filters context r = run_filters context r'.
Proof.
  intros Hr Hc He Hl. rewrite !run_filters_attrs -?(low_keys _ _ _ Hl) //. unfold with_attrs, redacted. rewrite Hc He !map_entries_compose.
  by rewrite (low_maps _ _ _ _ attr_low Hl).
Qed.

Lemma filtered_attr context r k :
  NoDup (dict_keys (attrs r)) → k ∈ ["levelname"; "name"; "msg"; "levelno"] → attr (run_filters context r) k = attr r k.
Proof.
  intros Hr Hk. unfold attr. rewrite !elem_of_cons elem_of_nil in Hk. rewrite get_filtered //;
    destruct Hk as [->|[->|[->|[->|[]]]]]; try done; by destruct (dict_get (attrs r) _) as [[]|].
Qed.

(** ** The emitted line *)

Section lines.
Context `{PyText}.

(** The payload before the extras are assigned. *)
Definition platform_keys (s : Service) (r : LogRecord) (message : string) : dict :=
  match exc_info r with
  | Some exc => dict_set (JsonFormatter.stable_keys s r message) "exception" (JStr exc)
  | None => JsonFormatter.stable_keys s r message
  end.

Lemma payload_spec s r message :
  getMessage r = Ret message →
  JsonFormatter.payload s r = Ret (fold_left (assign JsonFormatter.forwarded) (attrs r) (platform_keys s r message)).
Proof. intros Hm. unfold JsonFormatter.payload, platform_keys. rewrite Hm. by destruct (exc_info r). Qed.

Definition text_ok (s : option string) : Prop := from_option is_text True s.
Definition service_ok (s : Service) : Prop := is_text (service_name s) ∧ is_text (service_version s) ∧ is_text (environment s).
Definition context_ok (c : LogContext) : Prop := text_ok (REQUEST_ID_CONTEXT c) ∧ text_ok (TRACE_ID_CONTEXT c).

(** What the formatter writes of a record can be written as JSON: the level and the
    name, the extras under their ASCII names, the text of an exception.  Nothing is
    asked of the other attributes, such as the arguments, the times and the frame. *)
Definition loggable (depth : nat) (r : LogRecord) : Prop :=
  NoDup (dict_keys (attrs r))
  ∧ Forall (λ kv, JsonFormatter.forwarded kv.1 = true → str_forall is_ascii kv.1 = true ∧ printable (S depth) kv.2) (attrs r)
  ∧ printable (S depth) (attr r "levelname") ∧ printable (S depth) (attr r "name")
  ∧ text_ok (exc_info r).

Lemma printable_str_json depth s : text_ok s → printable depth (str_json s).
Proof. by destruct s, depth. Qed.

Abbreviation entry_ok depth := (λ kv : string * json, is_text kv.1 ∧ printable depth kv.2).

Lemma filtered_ok depth context r :
  loggable depth r → Forall (λ kv, JsonFormatter.forwarded kv.1 = true → entry_ok (S depth) kv) (attrs (run_filters context r)).
Proof.
  intros (Hn & Hr & _). rewrite run_filters_attrs //. cbn [attrs with_attrs].
  repeat apply dict_set_forall; [done..|]. unfold redacted. rewrite map_entries_compose. apply Forall_map.
  eapply Forall_impl; [done|]. intros [k v] Hkv Hf. cbn [fst snd] in *. destruct (Hkv Hf) as [Hk Hv].
  split; [by apply is_text_ascii|]. destruct (forwarded_policy k v Hf) as [-> _]. by apply printable_policy.
Qed.

(** The attributes the platform's keys are taken from. *)
Lemma platform_attrs_ok depth context r :
  loggable depth r → context_ok context →
  Forall (λ k, printable (S depth) (attr (run_filters context r) k)) ["levelname"; "name"; "request_id"; "trace_id"].
Proof.
  intros (Hn & _ & Hl & Hname & _) [Hreq Htr].
  repeat apply Forall_cons_2; [by rewrite filtered_attr; [|done|set_solver]..| | |apply Forall_nil_2].
  - assert (attr (run_filters context r) "request_id" = str_json (REQUEST_ID_CONTEXT context)) as ->
      by (unfold attr; by rewrite run_filters_attrs //= !dict_get_set). by apply printable_str_json.
  - assert (attr (run_filters context r) "trace_id" = str_json (str_or (get_otel_trace_id context) (TRACE_ID_CONTEXT context))) as ->
      by (unfold attr; by rewrite run_filters_attrs //= dict_get_set). apply printable_str_json.
    unfold str_or, get_otel_trace_id. destruct (span_context context) as [[id [|]]|e]; try done.
    cbn -[hex]. destruct (hex 32 id) eqn:E; [done|]. rewrite -E. apply is_text_ascii, visible_ascii, hex_visible.
Qed.

Lemma platform_ok depth s r message :
  service_ok s → is_text message → text_ok (exc_info r) →
  Forall (λ k, printable (S depth) (attr r k)) ["levelname"; "name"; "request_id"; "trace_id"] →
  Forall (entry_ok (S depth)) (platform_keys s r message) ∧ NoDup (dict_keys (platform_keys s r message)).
Proof.
  intros (Hsn & Hsv & Hse) Hm He Hr.
  repeat match goal with H : Forall _ (_ :: _) |- _ => apply Forall_cons in H as [? H] end.
  assert (Forall (entry_ok (S depth)) (JsonFormatter.stable_keys s r message)) as Hs.
  { repeat apply Forall_cons_2; try apply Forall_nil_2; (split; [by apply is_text_ascii|]); try done.
    - apply is_text_ascii, isoformat_ascii.
    - split; [by apply (bool_decide_unpack (NoDup ["name"; "version"; "environment"]))|].
      repeat apply Forall_cons_2; try apply Forall_nil_2; (split; [by apply is_text_ascii|]); by destruct depth. }
  assert (NoDup (dict_keys (JsonFormatter.stable_keys s r message))) as Hn.
  { by apply (bool_decide_unpack (NoDup ["timestamp"; "level"; "logger"; "message"; "request_id"; "trace_id"; "service"])). }
  unfold platform_keys. destruct (exc_info r) as [exc|]; [|done]. split; [|by apply dict_set_nodup].
  apply dict_set_forall; [|done]. split; [by apply is_text_ascii|done].
Qed.

(** A key of the platform, unless the caller passed an extra of that name. *)
Lemma get_payload s r message k :
  NoDup (dict_keys (attrs r)) →
  dict_get (fold_left (assign JsonFormatter.forwarded) (attrs r) (platform_keys s r message)) k =
    if JsonFormatter.forwarded k
    then match dict_get (attrs r) k with Some v => Some v | None => dict_get (platform_keys s r message) k end
    else dict_get (platform_keys s r message) k.
Proof. apply dict_get_assign. Qed.

Lemma filtered_nodup context r : NoDup (dict_keys (attrs r)) → NoDup (dict_keys (attrs (run_filters context r))).
Proof. intros Hr. rewrite run_filters_attrs //. cbn. do 2 apply dict_set_nodup. by rewrite !keys_map_entries. Qed.

Lemma emit_json context s r message c :
  getMessage (run_filters context r) = Ret message →
  emit context (Json s) r c =
    (Ret tt, write (dumps default_options (JObj (fold_left (assign JsonFormatter.forwarded) (attrs (run_filters context r))
                                            (platform_keys s (run_filters context r) message))) +:+ TextFormatter.newline) c).
Proof.
  intros Hm. unfold emit, format_with, JsonFormatter.format. by rewrite (payload_spec s _ message Hm).
Qed.
End lines.

(** The filters change the identifiers and nothing else of what the platform writes. *)
Lemma platform_filtered `{PyText} context s r message k :
  NoDup (dict_keys (attrs r)) → k ≠ "request_id" → k ≠ "trace_id" →
  dict_get (platform_keys s (run_filters context r) message) k = dict_get (platform_keys s r message) k.
Proof.
  intros Hr H1 H2. unfold platform_keys, JsonFormatter.stable_keys.
  rewrite (filtered_attr context r "levelname" Hr) ?(filtered_attr context r "name" Hr); [|set_solver..].
  rewrite run_filters_attrs //. cbn [exc_info created with_attrs].
  destruct (exc_info r); rewrite ?dict_get_set; cbn [dict_get]; rewrite (eqb_neq_string "request_id") ?(eqb_neq_string "trace_id") //; by apply not_eq_sym.
Qed.

(** C36. What a log call writes.  Through the handler that [configure_logging] installs
    outside development, a record whose message can be formatted, with extras that JSON
    can write (under ASCII names; floats, integers of at most 4300 digits and text of
    any alphabet, but no lone surrogates), is written to stdout as one line of visible
    ASCII characters, whatever text the record carries: no message, argument or extra
    can forge a second line.  The line reads back as one
    object.  Its request and trace ids are those of the running request, and its
    message the record's, even if the caller passed extras of these names; the other
    keys of the platform (timestamp, level, logger, service, exception) are there unless
    an extra has the name; every extra is there with its secrets redacted.  A record
    that differs only in its secrets writes the same line. *)
Theorem log_lines_are_objects `{PyText} depth context s r message c :
  loggable depth r → context_ok context → service_ok s →
  getMessage (run_filters context r) = Ret message → is_text message →
  ∃ line payload,
    emit context (Json s) r c = (Ret tt, write (line +:+ TextFormatter.newline) c)
    ∧ str_forall visible line = true
    ∧ loads (S (S depth)) line = Ret (JObj payload)
    ∧ dict_get payload "request_id" = Some (str_json (REQUEST_ID_CONTEXT context))
    ∧ dict_get payload "trace_id" = Some (str_json (str_or (get_otel_trace_id context) (TRACE_ID_CONTEXT context)))
    ∧ dict_get payload "message" = Some (JStr message)
    ∧ (∀ k v, (k, v) ∈ platform_keys s r message → k ≠ "request_id" → k ≠ "trace_id" → dict_get (attrs r) k = None →
        dict_get payload k = Some v)
    ∧ (∀ k v, (k, v) ∈ attrs r → JsonFormatter.forwarded k = true → dict_get payload k = Some (policy k v))
    ∧ (∀ r', created r = created r' → exc_info r = exc_info r' → Forall2 (low_pair low_attr) (attrs r) (attrs r') →
        emit context (Json s) r' c = emit context (Json s) r c).
Proof.
  intros Hr Hc Hs Hm Ht. pose proof Hr as (Hn & _ & _ & _ & He). pose proof (filtered_ok _ context _ Hr) as Hf.
  pose proof (filtered_nodup context r Hn) as Hfn.
  assert (text_ok (exc_info (run_filters context r))) as Hfe by (by rewrite run_filters_attrs).
  destruct (platform_ok _ s _ message Hs Ht Hfe (platform_attrs_ok _ context _ Hr Hc)) as [Hp Hpn].
  set (f := run_filters context r) in *.
  set (payload := fold_left (assign JsonFormatter.forwarded) (attrs f) (platform_keys s f message)).
  assert (printable (S (S depth)) (JObj payload)) as Hpr.
  { split; [by apply assign_nodup|by apply assign_forall]. }
  assert (∀ k, dict_get payload k = if JsonFormatter.forwarded k
    then match dict_get (attrs f) k with Some v => Some v | None => dict_get (platform_keys s f message) k end
    else dict_get (platform_keys s f message) k) as Hget by (intros k; by apply get_payload).
  assert (∀ k, k ∈ ["request_id"; "trace_id"] → dict_get (platform_keys s f message) k = Some (attr f k)) as Hids.
  { intros k Hk. rewrite !elem_of_cons elem_of_nil in Hk. unfold platform_keys. by destruct (exc_info f), Hk as [->|[->|[]]]. }
  eexists _, payload. split_and!.
  - by apply emit_json.
  - by apply (dumps_visible (S (S depth))).
  - by rewrite (loads_dumps _ (S (S depth))) ?(ordered_id _ (S (S depth))) //; apply default_ok.
  - rewrite Hget /= Hids; [|set_solver]. unfold f, attr. by rewrite run_filters_attrs //= dict_get_set /= dict_get_set.
  - rewrite Hget /= Hids; [|set_solver]. unfold f, attr. by rewrite run_filters_attrs //= dict_get_set.
  - rewrite Hget /=. unfold platform_keys. by destruct (exc_info f).
  - intros k v Hk H1 H2 Ha. rewrite Hget get_filtered // Ha. cbn [fmap option_fmap option_map].
    assert (dict_get (platform_keys s f message) k = Some v) as ->; [|by destruct (JsonFormatter.forwarded k)].
    rewrite platform_filtered //. apply dict_get_nodup; [|done]. revert Hpn. unfold f, platform_keys. rewrite run_filters_attrs //=.
    by destruct (exc_info r).
  - intros k v Hk Hfw. destruct (forwarded_policy k v Hfw) as (Hpol & H1 & H2).
    by rewrite Hget Hfw get_filtered // (dict_get_nodup _ k v) //= Hpol.
  - intros r' H1 H2 H3. unfold emit. by rewrite (run_filters_low context r r').
Qed.

(** ** The configuration *)

(** The existing loggers on the way from a name to the root keep no handlers of their
    own and pass their records on. *)
Definition plain_path (t : Loggers) (name : string) : Prop :=
  Forall (λ n, ∀ l, named t !! n = Some l → handlers l = [] ∧ propagate l = true) (name :: prefixes "" name).

Lemma handlers_of_path t name :
  plain_path t name → handlers_for (chain t name) = handlers (root t).
Proof.
  unfold plain_path, chain. induction 1 as [|n ns Hn Hns IH]; cbn [omap list_omap].
  { cbn. destruct (propagate (root t)); by rewrite app_nil_r. }
  destruct (named t !! n) as [l|] eqn:E; [|done]. destruct (Hn l eq_refl) as [Hh Hp]. cbn. by rewrite Hh Hp.
Qed.

Lemma remove_handlers hs t :
  for_each hs (λ h, modify (on_root (λ l, set_handlers (filter (.≠ h) (handlers l)) l))) t
  = (Ret tt, on_root (λ l, set_handlers (filter (.∉ hs) (handlers l)) l) t).
Proof.
  revert t. induction hs as [|h hs IH]; intros [r n].
  - assert (∀ l : list Handler, filter (.∉ []) l = l) as Hall; [|unfold on_root; cbn [root named]; rewrite Hall; by destruct r].
    induction l as [|x l IHl]; [done|]. rewrite filter_cons_True ?IHl //. apply not_elem_of_nil.
  - cbn [for_each]. rewrite run_bind run_modify IH. unfold on_root, set_handlers. cbn [root named handlers level propagate]. do 3 f_equal.
    rewrite list_filter_filter. apply list_filter_iff.
    intros x. rewrite not_elem_of_cons. tauto.
Qed.

(** What a successful configuration makes of the loggers. *)
Definition configured (z : Z) (h : Handler) (t : Loggers) : Loggers :=
  on_named "uvicorn.access" (set_level 30)
    (foldr (λ name, on_named name (λ l, mkLogger (level l) [] true)) (mkLoggers (mkLogger z [h] (propagate (root t))) (named t))
      (reverse UVICORN_LOGGERS)).

Definition stdout_handler (json_format : bool) (s : Service) : Handler := Stdout (if json_format then Json s else Text).

Lemma configure_run setting json_format s t :
  configure_logging setting json_format s t =
    match check_level (numeric_level setting) with
    | Ret z => (Ret tt, configured z (stdout_handler json_format s) t)
    | Raise e => (Raise e, on_root (set_handlers [stdout_handler json_format s]) t)
    end.
Proof.
  unfold configure_logging. rewrite run_bind run_gets run_bind remove_handlers run_bind run_modify run_bind.
  assert (∀ l : list Handler, filter (.∉ l) l = []) as Hnone.
  { intros l. assert (∀ l', l' ⊆ l → filter (.∉ l) l' = []) as Hs; [|by apply Hs]. intros l'. induction l' as [|x l' IH]; [done|].
    intros Hl. rewrite filter_cons_False; [apply IH; set_solver|]. intros Hx. apply Hx, Hl. left. }
  unfold lift, on_root, set_handlers. cbn [root named handlers level propagate compose].
  unfold compose. rewrite Hnone. by destruct (check_level _).
Qed.

Lemma named_configured z h t n :
  named (configured z h t) !! n =
    if str_in n UVICORN_LOGGERS
    then Some (mkLogger (if String.eqb n "uvicorn.access" then 30 else level (default new_logger (named t !! n))) [] true)
    else named t !! n.
Proof.
  unfold configured, UVICORN_LOGGERS, on_named, str_in. cbn [reverse rev_append foldr existsb named].
  destruct (String.eqb_spec n "uvicorn.access") as [->|H1]; [by simplify_map_eq|].
  destruct (String.eqb_spec n "uvicorn.error") as [->|H2]; [by simplify_map_eq|].
  destruct (String.eqb_spec n "uvicorn") as [->|H3]; [by simplify_map_eq|]. by simplify_map_eq.
Qed.

Lemma configured_twice z h t : configured z h (configured z h t) = configured z h t.
Proof.
  assert (∀ t1 t2, root t1 = root t2 → named t1 = named t2 → t1 = t2) as Hext by (by intros [] [] ??; simplify_eq/=).
  apply Hext; [done|]. apply map_eq. intros n. rewrite !named_configured. destruct (str_in n UVICORN_LOGGERS); [|done].
  by destruct (String.eqb n "uvicorn.access").
Qed.

(** Logging is configured once.  Whatever loggers and handlers there were,
    [configure_logging] with a level it knows (a name it does not know counts as INFO)
    leaves exactly one handler, on the root, at that level; the three loggers of uvicorn
    lose theirs and pass their records up.  Configuring again changes nothing.  So a
    record logged under any name whose loggers have no handlers of their own, and by
    uvicorn, is written once if it reaches the level in force, and not at all otherwise;
    uvicorn's access log is left only its warnings. *)
Theorem logging_is_configured_once setting json_format s t z :
  check_level (numeric_level setting) = Ret z →
  let h := stdout_handler json_format s in
  let t' := configured z h t in
  configure_logging setting json_format s t = (Ret tt, t')
  ∧ configure_logging setting json_format s t' = (Ret tt, t')
  ∧ handlers (root t') = [h] ∧ level (root t') = z
  ∧ (∀ name, name ∈ UVICORN_LOGGERS → plain_path t' name)
  ∧ (∀ name, plain_path t name → plain_path t' name)
  ∧ (∀ name levelno, plain_path t' name →
      reached t' name levelno = if effective_level (chain t' name) <=? levelno then [h] else [])
  ∧ (∀ name levelno, Forall (λ n, named t' !! n = None) (name :: prefixes "" name) →
      reached t' name levelno = if z <=? levelno then [h] else [])
  ∧ (∀ levelno, reached t' "uvicorn.access" levelno = if 30 <=? levelno then [h] else []).
Proof.
  intros Hz h t'.
  assert (∀ t0, configure_logging setting json_format s t0 = (Ret tt, configured z h t0)) as Hrun by (intros t0; by rewrite configure_run Hz).
  assert (∀ name, plain_path t name → plain_path t' name) as Hpath.
  { intros name Hp. eapply Forall_impl; [exact Hp|]. cbn. intros n Hn l. unfold t'. rewrite (named_configured z h t). destruct (str_in n _); [by intros [= <-]|]. exact (Hn l). }
  assert (∀ name, name ∈ UVICORN_LOGGERS → plain_path t' name) as Huv.
  { intros name Hname. unfold UVICORN_LOGGERS in Hname. rewrite !elem_of_cons elem_of_nil in Hname.
    destruct Hname as [->|[->|[->|[]]]]; repeat apply Forall_cons_2; try apply Forall_nil_2; intros l; unfold t'; rewrite (named_configured z h t); by intros [= <-]. }
  assert (∀ name levelno, plain_path t' name → reached t' name levelno = if effective_level (chain t' name) <=? levelno then [h] else []) as Hreach.
  { intros name levelno Hp. unfold reached. by rewrite handlers_of_path. }
  assert (∀ name, Forall (λ n, named t' !! n = None) (name :: prefixes "" name) → chain t' name = [root t']) as Hfree.
  { intros name Hn. unfold chain. induction Hn as [|n ns Hn Hns IH]; [done|]. cbn. by rewrite Hn. }
  split_and!; [apply Hrun| |done|done|done|done|done| |].
  - rewrite Hrun. f_equal. apply configured_twice.
  - intros name levelno Hn. rewrite Hreach.
    + rewrite Hfree //=. by destruct (z =? 0) eqn:E; [apply Z.eqb_eq in E as ->|].
    + eapply Forall_impl; [done|]. cbn. intros n Hnone l. by rewrite Hnone.
  - intros levelno. rewrite Hreach; [|apply Huv; set_solver]. unfold chain. cbn [omap list_omap]. unfold t'. by rewrite (named_configured z h t).
Qed.

(** ** A concrete record *)

(** [str] through [json.dumps]; [%] puts the first argument for the first [%s]. *)
Fixpoint put_first (s value : string) : string :=
  match s with
  | String "%" (String "s" s) => value +:+ s
  | String c s => String c (put_first s value)
  | "" => ""
  end.
#[global] Instance demo_text : PyText := {|
  str_of := dumps default_options;
  percent_format msg args := match args with JList [JStr a] => Ret (put_first msg a) | _ => Raise TypeError end;
  local_time _ := "2024-01-01T00:00:00+0000";
|}.

Definition demo_service : Service := mkService "starter" "1.0" "production".
Definition demo_context : LogContext := mkContext (Some "req-1") None (Ret (255%N, true)).
(** A record as [logging] makes it, with float times, of a call whose argument would
    end the line and whose extras hold an address of another alphabet and a float. *)
Definition demo_frame (key : string) : json :=
  match key with
  | "msecs" => JFloat "417.0" | "relativeCreated" => JFloat "1042.3857" | "lineno" => JInt 214
  | "thread" => JInt 140213 | "process" => JInt 7 | "taskName" => JStr "Task-12"
  | "exc_text" | "stack_info" => JNull
  | _ => JStr "auth"
  end.
Definition u_umlaut : string := utf8_char 252.
Definition demo_call (email : string) : LogCall :=
  mkCall "api.auth" 30 "login %s" (JList [JStr (String (ascii_of_nat 10) "{}")])
    [("email", JStr email); ("request_id", JStr "forged"); ("duration_ms", JFloat "12.75")] None.
Definition demo_record (email : string) : LogRecord :=
  match make_record 0 demo_frame (demo_call email) with Ret r => r | Raise _ => mkRecord 0 None [] end.
Definition demo_message : string := "login " +:+ String (ascii_of_nat 10) "{}".
Definition demo_email : string := u_umlaut +:+ "nal@" +:+ u_umlaut +:+ "ber.example".

Lemma demo_email_text : is_text demo_email.
Proof. exists [252; 110; 97; 108; 64; 252; 98; 101; 114; 46; 101; 120; 97; 109; 112; 108; 101]%N. by split; [repeat constructor|]. Qed.

Lemma demo_loggable : loggable 1 (demo_record demo_email).
Proof.
  split_and!; [by apply (bool_decide_unpack _); vm_compute| |by apply is_text_ascii|by apply is_text_ascii|done].
  repeat apply Forall_cons_2; try apply Forall_nil_2; cbn [fst snd]; try (by intros [=]); intros _; (split; [done|]).
  - apply demo_email_text.
  - right. exists "", "12", ".75", "". split_and!; [done|set_solver|right; by exists "1"%char, "2"|].
    left. split; [by exists "7"%char, "5"|by left].
Qed.

Lemma log_lines_are_objects_witness :
  ∃ line payload,
    emit demo_context (Json demo_service) (demo_record demo_email) (mkConsole [] 0)
      = (Ret tt, mkConsole [line +:+ TextFormatter.newline] 0)
    ∧ loads 3 line = Ret (JObj payload)
    ∧ dict_get payload "request_id" = Some (JStr "req-1")
    ∧ dict_get payload "duration_ms" = Some (JFloat "12.75")
    ∧ dict_get payload "email" = Some (JStr (u_umlaut +:+ "***@" +:+ u_umlaut +:+ "ber.example")).
Proof.
  destruct (log_lines_are_objects 1 demo_context demo_service (demo_record demo_email) demo_message (mkConsole [] 0))
    as (line & payload & H1 & _ & H3 & H4 & _ & _ & _ & H8 & _).
  - exact demo_loggable.
  - by split; [apply is_text_ascii|].
  - by split_and!; apply is_text_ascii.
  - by vm_compute.
  - by apply is_text_ascii.
  - exists line, payload. split_and!; [exact H1|exact H3|exact H4| |].
    + by apply (H8 "duration_ms" (JFloat "12.75")); [set_solver|].
    + by apply (H8 "email" (JStr demo_email)); [set_solver|].
Defined.

Lemma logging_is_configured_once_witness :
  let t := mkLoggers (mkLogger 30 [Other 1; Other 2] true) {[ "uvicorn.access" := mkLogger 20 [Other 3] false ]} in
  let h := Stdout (Json demo_service) in
  let t' := state_of (configure_logging "debug" true demo_service) t in
  reached t "uvicorn.access" 20 = [Other 3] ∧ reached t' "uvicorn.access" 20 = [] ∧ reached t' "api.auth" 10 = [h].
Proof.
  intros t h t'. unfold t', state_of.
  destruct (logging_is_configured_once "debug" true demo_service t 10) as (Hrun & _ & _ & _ & _ & _ & _ & Hfree & Haccess); [done|].
  rewrite Hrun. split; [by vm_compute|]. split; [by rewrite Haccess|]. by rewrite Hfree; [|repeat constructor; vm_compute].
Defined.

(** The documentation of [JsonFormatter] calls its top-level keys stable, but an extra
    that has the name of one of five of them replaces it: only the message and the two
    identifiers are the platform's for good. *)
Theorem extras_replace_stable_keys `{PyText} s r message k v :
  NoDup (dict_keys (attrs r)) → getMessage r = Ret message →
  k ∈ ["timestamp"; "level"; "logger"; "service"; "exception"] → dict_get (attrs r) k = Some v →
  ∃ payload, JsonFormatter.payload s r = Ret payload ∧ dict_get payload k = Some v.
Proof.
  intros Hr Hm Hk Hv. eexists. split; [by apply payload_spec|]. rewrite get_payload // Hv.
  rewrite !elem_of_cons elem_of_nil in Hk. by destruct Hk as [->|[->|[->|[->|[->|[]]]]]].
Qed.

Lemma extras_replace_stable_keys_witness :
  ∃ payload,
    JsonFormatter.payload demo_service (mkRecord 0 None [("msg", JStr "ok"); ("levelname", JStr "ERROR"); ("level", JStr "fine")]) = Ret payload
    ∧ dict_get payload "level" = Some (JStr "fine").
Proof. apply (extras_replace_stable_keys _ _ "ok"); [by apply (bool_decide_unpack _); vm_compute|done|set_solver|done]. Defined.
