(* ===== verification/ErrorReporting.v ===== *)
(** What happens to an exception no route handles: the handler of
    [app_platform/api/error_handlers.py], the reporters of
    [app_platform/observability/error_reporter.py] and their selection in
    [app_platform/api/app_factory.py].  The Sentry SDK is a parameter. *)

From Stdlib Require Import Ascii String.
From S2P Require Import Prelude PyStr Json Http Logging.
Open Scope string_scope.
Open Scope list_scope.
Open Scope Z_scope.

Inductive ErrorReporter := LoggingErrorReporter | SentryErrorReporter.

(** [type(exc).__name__], [str(exc)] (which an exception may override, and raise in)
    and the traceback the formatter writes. *)
Class ExceptionText := {
  type_name : exn → string;
  exc_str : exn → outcome string;
  traceback : exn → string;
}.

(** [import sentry_sdk] fails when the extra is missing; its calls may raise. *)
Class SentrySdk (T : Type) := {
  sdk_installed : bool;
  sdk_init (dsn : string) (sentry_environment sentry_release : option string) (traces_sample_rate : string) : M T unit;
  set_context (namespace : string) (context : dict) : M T unit;
  capture_exception (e : exn) : M T unit;
}.

(** The console and the SDK's state. *)
Record World (T : Type) := mkWorld { console : Console; sdk : T }.
Arguments mkWorld {T}. Arguments console {T}. Arguments sdk {T}.

Section reporting.
Context {T : Type} `{PyText} `{ExceptionText} `{SentrySdk T}.

Definition on_console {A} (m : M Console A) : M (World T) A := λ w,
  let '(r, c) := m (console w) in (r, mkWorld c (sdk w)).
Definition on_sdk {A} (m : M T A) : M (World T) A := λ w,
  let '(r, t) := m (sdk w) in (r, mkWorld (console w) t).

(** A call of a logger, at a time, from a place, with the context variables of the
    task; the root logger has the one handler of [configure_logging]. *)
Section logging.
Context (formatter : Formatter) (context : LogContext) (now : time) (frame : string → json).

Definition log (c : LogCall) : M (World T) unit :=
  on_console (record ← lift (make_record now frame c); emit context formatter record).

Definition no_args : json := JList [].

(** ** [capture] *)

(** [{"error_type": ..., "error_message": ..., **context}] *)
Definition merge (d context : dict) : dict := fold_left (λ d '(key, value), dict_set d key value) context d.

Definition logging_capture (e : exn) (reported : dict) : M (World T) unit :=
  except_exception
    (error_message ← lift (exc_str e);
     log (mkCall "api.error.reporter" 30 "Unhandled exception captured by LoggingErrorReporter" no_args
            (merge [("error_type", JStr (type_name e)); ("error_message", JStr error_message)] reported) None))
    (λ e', log (mkCall "api.error.reporter" 40 "event=error_reporter.logging.capture_failed" no_args [] (Some (traceback e')))).

Definition sentry_capture (e : exn) (reported : dict) : M (World T) unit :=
  except_exception
    (when (negb (Nat.eqb (length reported) 0)) (on_sdk (set_context "request" reported)) ;;
     on_sdk (capture_exception e))
    (λ e', log (mkCall "api.error.reporter" 40 "event=error_reporter.sentry.capture_failed" no_args
                  [("error_type", JStr (type_name e))] (Some (traceback e')))).

Definition capture (reporter : ErrorReporter) : exn → dict → M (World T) unit :=
  match reporter with LoggingErrorReporter => logging_capture | SentryErrorReporter => sentry_capture end.

(** ** [unhandled_exception_handler] *)

(** [principal_id] is what a guard left on [request.state]. *)
Definition unhandled_exception_handler (reporter : option ErrorReporter) (request : Request) (method : string)
    (principal_id : option string) (e : exn) : M (World T) Problem :=
  log (mkCall "api.error" 40 "Unhandled exception" no_args
         [("method", JStr method); ("path", JStr (req_path request)); ("status_code", JInt 500); ("error_type", JStr (type_name e))]
         (Some (traceback e))) ;;
  match reporter with
  | None => mret tt
  | Some reporter =>
      except_exception
        (capture reporter e [("request_id", str_json (request_id request)); ("path", JStr (req_path request));
                             ("method", JStr method); ("principal_id", str_json principal_id)])
        (λ e', log (mkCall "api.error" 40 "event=error_reporter.unexpected_raise" no_args [] (Some (traceback e'))))
  end ;;
  mret (problem_json_response 500 request (Some "Internal Server Error") ProblemType.ABOUT_BLANK None None).

(** ** [_select_error_reporter] *)

Record SentrySettings := mkSentry {
  app_sentry_dsn : option string;
  app_sentry_environment : option string;
  app_sentry_release : option string;
  otel_traces_sampler_ratio : string;
}.

Definition event (level : Z) (msg : string) (args : list json) : M (World T) unit :=
  log (mkCall "api.error.reporter" level msg (JList args) [] None).

Definition select_error_reporter (settings : SentrySettings) : M (World T) ErrorReporter :=
  match app_sentry_dsn settings with
  | None => event 20 "event=error_reporter.selected reporter=logging reason=app_sentry_dsn_unset" [] ;; mret LoggingErrorReporter
  | Some dsn =>
      if negb sdk_installed then
        event 30 ("event=error_reporter.fallback reporter=logging reason=sentry_sdk_not_installed remediation="
                  +:+ String quote ("pip install '.[sentry]'" +:+ String quote "")) [] ;;
        mret LoggingErrorReporter
      else
        on_sdk (sdk_init dsn (app_sentry_environment settings) (app_sentry_release settings) (otel_traces_sampler_ratio settings)) ;;
        event 20 "event=error_reporter.selected reporter=sentry environment=%s release=%s traces_sample_rate=%s"
          [str_json (app_sentry_environment settings); str_json (app_sentry_release settings); JFloat (otel_traces_sampler_ratio settings)] ;;
        mret SentryErrorReporter
  end.
End logging.
End reporting.
