(* ===== verification/ErrorReportingFacts.v ===== *)
(** An exception no route handles is answered with one fixed problem, whatever the
    reporter does, and its records do not carry the request's identifier. *)

From Stdlib Require Import Ascii String.
From S2P Require Import Prelude PyStr Uuid Store Json JsonFacts Redaction RedactionFacts Http Middleware MiddlewareFacts Logging LoggingFacts ErrorReporting.
Open Scope string_scope.
Open Scope list_scope.
Open Scope Z_scope.

(** ** One record, one line *)

Section log.
Context {T : Type} `{PyText} `{ExceptionText} `{SentrySdk T}.
Context (formatter : Formatter) (context : LogContext) (now : time) (frame : string → json).

(** Extras that overwrite nothing. *)
Definition extras_ok (extra : dict) : bool := negb (existsb (λ key, str_in key ("message" :: "asctime" :: RECORD_ATTRS)) (dict_keys extra)).

Definition record_of (c : LogCall) : LogRecord :=
  mkRecord now (call_exc c) (fold_left (λ d '(key, value), dict_set d key value) (call_extra c)
    ([("name", JStr (call_name c)); ("msg", JStr (call_msg c)); ("args", call_args c);
      ("levelname", JStr (level_name (call_level c))); ("levelno", JInt (call_level c))]
     ++ map (λ key, (key, frame key)) FRAME_ATTRS)).

Lemma make_record_ok c : extras_ok (call_extra c) = true → make_record now frame c = Ret (record_of c).
Proof. unfold extras_ok, make_record. intros ->%negb_true_iff. done. Qed.

Lemma record_nodup c : NoDup (dict_keys (attrs (record_of c))).
Proof. apply (assign_nodup (λ _, true)). by apply (bool_decide_unpack _); vm_compute. Qed.

(** An extra leaves the record's own attributes alone. *)
Lemma record_attr c k : extras_ok (call_extra c) = true → k ∈ RECORD_ATTRS → 
  dict_get (attrs (record_of c)) k = dict_get (attrs (record_of (mkCall (call_name c) (call_level c) (call_msg c) (call_args c) [] (call_exc c)))) k.
Proof.
  intros Hc Hk. unfold record_of. cbn [attrs call_extra call_name call_msg call_args call_level fold_left]. unfold extras_ok in Hc. apply negb_true_iff in Hc.
  set (base := _ ++ _). revert Hc. generalize base. induction (call_extra c) as [|[k0 v0] d IH]; intros b; [done|]. cbn [fold_left dict_keys map existsb fst].
  intros [Hk0 Hd]%orb_false_iff. rewrite IH //. rewrite dict_get_set eqb_neq_string //. intros ->.
  assert (str_in k ("message" :: "asctime" :: RECORD_ATTRS) = true) as E; [|congruence]. apply str_in_spec. by do 2 right.
Qed.

Lemma message_of c :
  extras_ok (call_extra c) = true → call_args c = JList [] → getMessage (run_filters context (record_of c)) = Ret (call_msg c).
Proof.
  intros Hc Ha. unfold getMessage, attr. rewrite !get_filtered //; [|apply record_nodup..]. rewrite !(record_attr c) //; [|set_solver..].
  cbn. by rewrite Ha.
Qed.

Lemma log_writes c (w : World T) :
  extras_ok (call_extra c) = true → call_args c = JList [] →
  ∃ line, log formatter context now frame c w = (Ret tt, mkWorld (write line (console w)) (sdk w)).
Proof.
  intros Hc Ha. unfold log, on_console. rewrite run_bind make_record_ok // /=. destruct formatter as [s|].
  - eexists. by rewrite (emit_json _ _ _ (call_msg c)) ?message_of.
  - unfold emit, format_with, TextFormatter.format. rewrite /= message_of // /lift /=.
    rewrite run_filters_attrs; [|apply record_nodup]. cbn [attrs with_attrs]. rewrite dict_get_set /= dict_get_set /=. by eexists.
Qed.
End log.

(** ** The handler *)

Section handler.
Context {T : Type} `{PyText} `{ExceptionText} `{SentrySdk T}.
Context (formatter : Formatter) (context : LogContext) (now : time) (frame : string → json).

Definition writes (lines : list string) (w : World T) : World T :=
  mkWorld (mkConsole (stdout (console w) ++ lines) (failed (console w))) (sdk w).

(** What the handler hands to the reporter. *)
Definition reported (request : Request) (method : string) (principal_id : option string) : dict :=
  [("request_id", str_json (request_id request)); ("path", JStr (req_path request));
   ("method", JStr method); ("principal_id", str_json principal_id)].

Definition sentry_run (context : dict) (e : exn) : M T unit := set_context "request" context ;; capture_exception e.

Context (str_raises : ∀ e e', exc_str e = Raise e' → is_exception e' = true)
        (set_context_raises : ∀ ns d t e t', set_context ns d t = (Raise e, t') → is_exception e = true)
        (capture_raises : ∀ e t e' t', capture_exception e t = (Raise e', t') → is_exception e' = true).

Lemma log_line c w :
  extras_ok (call_extra c) = true → call_args c = JList [] → ∃ line, log formatter context now frame c w = (Ret tt, writes [line] w).
Proof. intros Hc Ha. destruct (log_writes formatter context now frame c w Hc Ha) as [line ->]. by exists line. Qed.

(** Runs the next call of a logger. *)
Ltac log_step :=
  match goal with |- context [log _ _ _ _ ?c ?w] => let Hl := fresh in destruct (log_line c w) as [line Hl]; [done..|]; rewrite Hl end.

(** What a run of [except_exception] makes of a body that raises exceptions only. *)
Lemma run_except {A} (body : M (World T) A) handler w :
  (∀ e w', body w = (Raise e, w') → is_exception e = true) →
  except_exception body handler w = match body w with (Raise e, w') => handler e w' | r => r end.
Proof. intros Hb. unfold except_exception, try_except. destruct (body w) as [[a|e] w'] eqn:E; [done|]. by rewrite (Hb e w'). Qed.

Lemma logging_capture_runs request method principal_id e w :
  ∃ line, logging_capture formatter context now frame e (reported request method principal_id) w = (Ret tt, writes [line] w).
Proof.
  unfold logging_capture, except_exception, try_except, lift. rewrite run_bind. destruct (exc_str e) as [message|e'] eqn:E; cbv beta iota.
  - log_step. by exists line.
  - rewrite (str_raises _ _ E). log_step. by exists line.
Qed.

Lemma sentry_capture_runs request method principal_id e w :
  let '(r, t) := sentry_run (reported request method principal_id) e (sdk w) in
  ∃ lines, sentry_capture formatter context now frame e (reported request method principal_id) w = (Ret tt, writes lines (mkWorld (console w) t))
    ∧ length lines = match r with Ret _ => 0%nat | Raise _ => 1%nat end.
Proof.
  unfold sentry_run, sentry_capture, except_exception, try_except. cbn [length reported Nat.eqb negb when]. rewrite !run_bind. unfold on_sdk at 1.
  assert (∀ e' t, is_exception e' = true → ∃ lines,
    (if is_exception e' then log formatter context now frame (mkCall "api.error.reporter" 40 "event=error_reporter.sentry.capture_failed" no_args
       [("error_type", JStr (type_name e))] (Some (traceback e'))) else raise e') (mkWorld (console w) t)
    = (Ret tt, writes lines (mkWorld (console w) t)) ∧ length lines = 1%nat) as Hfail.
  { intros e' t ->. log_step. by exists [line]. }
  destruct (set_context _ _ (sdk w)) as [[[]|e1] t1] eqn:E1; cbn; [|by apply Hfail, (set_context_raises _ _ _ _ _ E1)].
  unfold on_sdk. cbn. destruct (capture_exception e t1) as [[[]|e2] t2] eqn:E2; [|by apply Hfail, (capture_raises _ _ _ _ E2)].
  exists []. split; [|done]. unfold writes. cbn. rewrite app_nil_r. by destruct (console w).
Qed.

(** C22. An exception no route handles is always answered, with the same problem
    whatever it was: 500, a fixed detail, nothing of the exception.  The handler itself
    does not fail, even when the exception cannot be printed or Sentry's SDK raises: the
    failure of a reporter is a record too.  One line says what happened; the logging
    reporter adds one; Sentry gets the context and the exception, and adds a line only
    when that fails.  Where the exception has no handler of its own this is the answer of
    the table of handlers. *)
Theorem unhandled_exceptions_are_answered reporter request method principal_id e w :
  let details := reported request method principal_id in
  ∃ lines,
    unhandled_exception_handler formatter context now frame reporter request method principal_id e w =
      (Ret (problem_json_response 500 request (Some "Internal Server Error") ProblemType.ABOUT_BLANK None None),
       writes lines (mkWorld (console w)
         match reporter with Some SentryErrorReporter => state_of (sentry_run details e) (sdk w) | _ => sdk w end))
    ∧ length lines =
        match reporter with
        | None => 1%nat
        | Some LoggingErrorReporter => 2%nat
        | Some SentryErrorReporter => match result_of (sentry_run details e) (sdk w) with Ret _ => 1%nat | Raise _ => 2%nat end
        end
    ∧ ((∀ err, e ≠ HTTPException err) → (∀ what, e ≠ DependencyContainerNotReadyError what) →
        (exception_handler request e).1 = problem_json_response 500 request (Some "Internal Server Error") ProblemType.ABOUT_BLANK None None).
Proof.
  intros details. unfold unhandled_exception_handler. rewrite run_bind. log_step.
  assert ((∀ err, e ≠ HTTPException err) → (∀ what, e ≠ DependencyContainerNotReadyError what) → (exception_handler request e).1
    = problem_json_response 500 request (Some "Internal Server Error") ProblemType.ABOUT_BLANK None None) as Htable.
  { intros He Hc. destruct e; try done; [by destruct (Hc what)|by destruct (He error)]. }
  rewrite run_bind. destruct reporter as [[]|].
  - destruct (logging_capture_runs request method principal_id e (writes [line] w)) as [line' Hc].
    exists [line; line']. rewrite run_except; unfold capture; rewrite Hc; [|done]. split_and!; try done. rewrite run_ret. unfold writes. cbn. by rewrite -assoc.
  - pose proof (sentry_capture_runs request method principal_id e (writes [line] w)) as Hc. unfold result_of, state_of.
    change (sdk (writes [line] w)) with (sdk w) in Hc. fold details in Hc. destruct (sentry_run details e (sdk w)) as [r t]. destruct Hc as (lines & Hc & Hlen).
    exists (line :: lines). fold details. rewrite run_except; unfold capture; rewrite Hc; [|done]. split_and!; [|cbn; rewrite Hlen; by destruct r|done].
    rewrite run_ret. unfold writes. cbn. by rewrite -assoc.
  - exists [line]. done.
Qed.
End handler.

(** The selection never fails but by [sentry_sdk.init]: without a DSN or without the
    SDK the logging reporter is chosen and the SDK left alone. *)
Theorem reporter_is_selected {T} `{PyText} `{SentrySdk T} formatter context now frame settings (w : World T) :
  let '(r, w') := select_error_reporter formatter context now frame settings w in
  match app_sentry_dsn settings with
  | None => r = Ret LoggingErrorReporter ∧ sdk w' = sdk w ∧ failed (console w') = failed (console w)
  | Some dsn =>
      if negb sdk_installed then r = Ret LoggingErrorReporter ∧ sdk w' = sdk w ∧ failed (console w') = failed (console w)
      else ∀ e w0, on_sdk (sdk_init dsn (app_sentry_environment settings) (app_sentry_release settings) (otel_traces_sampler_ratio settings)) w
                   = (Raise e, w0) → r = Raise e ∧ w' = w0
  end.
Proof.
  unfold select_error_reporter. destruct (app_sentry_dsn settings) as [dsn|].
  - destruct (negb sdk_installed).
    + unfold event. rewrite run_bind.
      match goal with |- context [log ?f ?c ?n ?fr ?call w] => destruct (log_writes f c n fr call w) as [line ->]; done end.
    + rewrite run_bind. destruct (on_sdk _ w) as [[[]|e] w0] eqn:E; [|by intros e' w1 [= -> ->]].
      match goal with |- match ?run with _ => _ end => by destruct run end.
  - unfold event. rewrite run_bind.
      match goal with |- context [log ?f ?c ?n ?fr ?call w] => destruct (log_writes f c n fr call w) as [line ->]; done end.
Qed.

(** ** The identifier of the request *)

(** Every line written in a context carries that context's identifier, whatever the
    record says. *)
Lemma payload_request_id `{PyText} service context r payload :
  NoDup (dict_keys (attrs r)) → JsonFormatter.payload service (run_filters context r) = Ret payload →
  dict_get payload "request_id" = Some (str_json (REQUEST_ID_CONTEXT context)).
Proof.
  intros Hr. destruct (getMessage (run_filters context r)) as [message|e] eqn:Hm; [|unfold JsonFormatter.payload; by rewrite Hm].
  rewrite (payload_spec _ _ _ Hm). intros [= <-]. rewrite get_payload; [|by apply filtered_nodup].
  change (JsonFormatter.forwarded "request_id") with false. cbv iota.
  unfold platform_keys. assert (attr (run_filters context r) "request_id" = str_json (REQUEST_ID_CONTEXT context)) as <-; [|unfold JsonFormatter.stable_keys; by destruct (exc_info _)].
  unfold attr. by rewrite run_filters_attrs //= dict_get_set /= dict_get_set.
Qed.

(** The identifier is taken from the context variable, which [RequestContextMiddleware]
    resets when the application raises; the handler of unhandled exceptions runs outside
    of it.  So the lines of the handler carry no identifier, although it is still on
    [request.state] and is handed to the reporter; the documentation says that unhandled
    exceptions are logged with the request id. *)
Theorem unhandled_exceptions_lose_their_id {S} `{Env} `{MutableHeaders} `{PyText} (app : App S) scope p e p' ms :
  sc_type scope = "http" → request_id_context p = None →
  run_asgi (RequestContextMiddleware.call app scope) p = (Raise e, p', ms) →
  ∀ service trace span r payload,
    NoDup (dict_keys (attrs r)) →
    JsonFormatter.payload service (run_filters (mkContext (request_id_context p') trace span) r) = Ret payload →
    dict_get payload "request_id" = Some JNull.
Proof.
  intros Ht Hp Hrun service trace span r payload Hr Hpay. rewrite (payload_request_id _ _ _ _ Hr Hpay). cbn.
  rewrite run_request_context // in Hrun. pose proof (request_id_cases scope p) as Hid.
  destruct (RequestContextMiddleware.resolve scope p) as [rid p1]. destruct Hid as [Hid _].
  destruct (run_asgi (app _) _) as [[r0 p2] ms0]. injection Hrun as _ <- _. cbn. by rewrite Hid Hp.
Qed.

(** ** A concrete failure *)

(** A Sentry whose transport is down: the context is kept, the capture raises. *)
#[local] Instance demo_sentry : SentrySdk (list string) := {|
  sdk_installed := true;
  sdk_init _ _ _ _ := mret tt;
  set_context ns _ := modify (λ t, t ++ [ns]);
  capture_exception _ := raise (OSError "transport");
|}.
#[local] Instance demo_exceptions : ExceptionText := {|
  type_name e := match e with KeyError _ => "KeyError" | _ => "Exception" end;
  exc_str e := Ret "failed";
  traceback _ := "Traceback (most recent call last): ...";
|}.
Definition demo_request : Request := mkRequest "/me" "http://testserver/me" None ∅ ∅ None (Some "req-1").

Lemma unhandled_exceptions_are_answered_witness :
  ∃ lines, unhandled_exception_handler (Json demo_service) demo_context 0 (λ _, JNull) (Some SentryErrorReporter) demo_request "GET" None (KeyError "x")
      (mkWorld (mkConsole [] 0) [])
    = (Ret (problem_json_response 500 demo_request (Some "Internal Server Error") "about:blank" None None), writes lines (mkWorld (mkConsole [] 0) ["request"]))
    ∧ length lines = 2%nat.
Proof.
  destruct (λ H1 H2 H3, unhandled_exceptions_are_answered (T := list string) (Json demo_service) demo_context 0 (λ _, JNull) H1 H2 H3
    (Some SentryErrorReporter) demo_request "GET" None (KeyError "x") (mkWorld (mkConsole [] 0) [])) as (lines & Hrun & Hlen & _).
  - by intros e e' [=].
  - by intros ns d t e t' [=].
  - intros e t e' t'. cbn. by intros [= <- _].
  - by exists lines.
Defined.

Lemma unhandled_exceptions_lose_their_id_witness :
  let router : App unit := λ _, Throw (KeyError "x") in
  let scope := mkScope "http" "GET" "http" None "/me" "" [("x-request-id", "req-1")] None in
  let p := mkProcess None [] 0 0 tt in
  ∃ p' payload, run_asgi (RequestContextMiddleware.call router scope) p = (Raise (KeyError "x"), p', [])
    ∧ JsonFormatter.payload demo_service (run_filters (mkContext (request_id_context p') None (Raise RecursionError))
        (mkRecord 0 None [("msg", JStr "Unhandled exception"); ("request_id", JStr "req-1")])) = Ret payload
    ∧ dict_get payload "request_id" = Some JNull.
Proof.
  intros router scope p.
  pose (p' := (run_asgi (RequestContextMiddleware.call router scope) p).1.2).
  pose (r := mkRecord 0 None [("msg", JStr "Unhandled exception"); ("request_id", JStr "req-1")]).
  destruct (JsonFormatter.payload demo_service (run_filters (mkContext (request_id_context p') None (Raise RecursionError)) r)) as [payload|e] eqn:Hpay;
    [|by vm_compute in Hpay].
  exists p', payload. split; [by vm_compute|]. split; [exact Hpay|].
  refine (unhandled_exceptions_lose_their_id router scope p (KeyError "x") p' [] eq_refl eq_refl _ _ _ _ r payload _ Hpay).
  - by vm_compute.
  - by apply (bool_decide_unpack _); vm_compute.
Defined.
