(* ===== verification/Telemetry.v ===== *)
(** Spans and metrics ([app_platform/observability/tracing.py], [metrics.py]).  The
    OpenTelemetry SDK is a parameter; the engine's pool and connections are what a
    scrape finds of them. *)

From Stdlib Require Import Ascii String QArith_base.
From S2P Require Import Prelude PyStr Store Json Principals Auth Logging ErrorReporting.
Open Scope string_scope.
Open Scope list_scope.
Open Scope Z_scope.

(** ** [@traced] *)

(** What a span is told, beside its start and its end. *)
Class Tracer (T : Type) := {
  start_span (name : string) : M T unit;
  set_attribute (key : string) (value : json) : M T unit;
  record_exception (e : exn) : M T unit;
  set_error (description : string) : M T unit;
  end_span (escaping : option exn) : M T unit;
}.

Inductive AttrsArg (A : Type) :=
  | NoAttrs
  | Static (attrs : dict)
  | Callable (attrs : A → outcome dict).
Arguments NoAttrs {A}. Arguments Static {A} attrs. Arguments Callable {A} attrs.

Section traced.
Context {T : Type} `{PyText} `{ExceptionText} `{Tracer T}.
Context (formatter : Formatter) (context : LogContext) (now : time) (frame : string → json).

(** A callable that raises is logged and gives no attributes. *)
Definition resolve_attrs {A} (attrs : AttrsArg A) (args : A) : M (World T) dict :=
  match attrs with
  | NoAttrs => mret []
  | Callable f =>
      except_exception (lift (f args))
        (λ e, log formatter context now frame
                (mkCall "app_platform.observability.tracing" 40 "event=otel.traced.attrs.callable_failed" no_args [] (Some (traceback e))) ;;
              mret [])
  | Static attrs => mret attrs
  end.

Definition primitive (value : json) : bool :=
  match value with JStr _ | JBool _ | JInt _ | JFloat _ => true | _ => false end.

Definition apply_span_attrs (attrs : dict) : M T unit :=
  for_each attrs (λ '(key, value),
    match value with
    | JNull => mret tt
    | _ => set_attribute key (if primitive value then value else JStr (str_of value))
    end).

(** [with tracer.start_as_current_span(name) as span: body]: the span ends however the
    body ends, and does not swallow its exception. *)
Definition with_span {S A} (name : string) (body : M (S * World T) A) : M (S * World T) A := λ st,
  match on_snd (on_sdk (start_span name)) st with
  | (Raise e, st) => (Raise e, st)
  | (Ret tt, st) =>
      let '(r, st) := body st in
      match on_snd (on_sdk (end_span match r with Ret _ => None | Raise e => Some e end)) st with
      | (Raise e, st) => (Raise e, st)
      | (Ret tt, st) => (r, st)
      end
  end.

(** The synchronous and the asynchronous wrapper are the same but for [await]. *)
Definition traced {S A B} (name : string) (attrs : AttrsArg A) (func : A → M S B) (args : A) : M (S * World T) B :=
  with_span name (
    resolved ← on_snd (resolve_attrs attrs args);
    on_snd (on_sdk (apply_span_attrs resolved)) ;;
    try_except (on_fst (func args))
      (λ e, on_snd (on_sdk (record_exception e)) ;;
            description ← lift (exc_str e);
            on_snd (on_sdk (set_error description)) ;;
            raise e)).
End traced.

(** The tracers' attributes for addresses. *)
Definition email_hash `{Env} (email : string) : string := String.substring 0 16 (sha256_hex (lower (strip email))).

(** The keyword arguments of the two use cases. *)
Record Credentials := mkCredentials {
  arg_email : string;
  arg_password : string;
  arg_ip_address : option string;
  arg_user_agent : option string;
}.
Definition user_attrs `{Env} : AttrsArg Credentials := Callable (λ c, Ret [("user.email_hash", JStr (email_hash (arg_email c)))]).

Section spans.
Context `{Env} {T : Type} `{PyText} `{ExceptionText} `{Tracer T}.
Context (formatter : Formatter) (context : LogContext) (now : time) (frame : string → json).
Definition login_user `{Jwt} (cfg : AuthSettings) : Credentials → M (_ * World T) _ :=
  traced formatter context now frame "auth.login_user" user_attrs
    (λ c, LoginUser.execute cfg (arg_email c) (arg_password c) (arg_ip_address c) (arg_user_agent c)).
Definition register_user : Credentials → M (_ * World T) _ :=
  traced formatter context now frame "auth.register_user" user_attrs
    (λ c, RegisterUser.execute (arg_email c) (arg_password c) (arg_ip_address c) (arg_user_agent c)).
End spans.

(** ** Metrics *)

(** An engine as a scrape finds it: whether a connection can be had and the statements
    run, the rows, and the accessors its pool has. *)
Record EngineState := mkEngine {
  query_outcome : outcome unit;
  rows : Db;
  pool_accessor : string → option (outcome Z);
}.

(** What a callback was closed over; engines are named by numbers. *)
Inductive Callback :=
  | PendingCount (engine : nat)
  | PoolRead (engine : nat) (method_name : string).

Record Metrics := mkMetrics {
  outbox_pending_callbacks : list Callback;
  db_pool_checked_in_callbacks : list Callback;
  db_pool_checked_out_callbacks : list Callback;
  db_pool_overflow_callbacks : list Callback;
  db_pool_size_callbacks : list Callback;
}.
Definition no_callbacks : Metrics := mkMetrics [] [] [] [] [].

Definition register_outbox_pending_callback (engine : nat) (m : Metrics) : Metrics :=
  mkMetrics (outbox_pending_callbacks m ++ [PendingCount engine]) (db_pool_checked_in_callbacks m) (db_pool_checked_out_callbacks m)
    (db_pool_overflow_callbacks m) (db_pool_size_callbacks m).

Definition register_db_pool_gauges (engine : nat) (m : Metrics) : Metrics :=
  mkMetrics (outbox_pending_callbacks m)
    (db_pool_checked_in_callbacks m ++ [PoolRead engine "checkedin"])
    (db_pool_checked_out_callbacks m ++ [PoolRead engine "checkedout"])
    (db_pool_overflow_callbacks m ++ [PoolRead engine "overflow"])
    (db_pool_size_callbacks m ++ [PoolRead engine "size"]).

(** [SELECT COUNT( * ) FROM outbox_messages WHERE status = 'pending'] *)
Definition pending_rows (db : Db) : Z :=
  Z.of_nat (size (filter (λ kv, ob_status kv.2 = Pending) (outbox_messages db))).

(** A warning that was logged, by its event. *)
Section scrape.
Context (engines : nat → EngineState).
Abbreviation Scrape := (M (list string)).

Definition swallow (what : string) (r : outcome Z) : Scrape (list Z) :=
  match r with
  | Ret value => mret [value]
  | Raise e => if is_exception e then modify (λ l, l ++ [what]) ;; mret [] else raise e
  end.

Definition run_callback (cb : Callback) : Scrape (list Z) :=
  match cb with
  | PendingCount engine =>
      swallow "event=metrics.outbox_pending.query_failed"
        match query_outcome (engines engine) with Ret _ => Ret (pending_rows (rows (engines engine))) | Raise e => Raise e end
  | PoolRead engine method_name =>
      match pool_accessor (engines engine) method_name with
      | None => mret []
      | Some value => swallow ("event=metrics.db_pool.read_failed method=" +:+ method_name) value
      end
  end.

(** The [_..._dispatch] generators. *)
Fixpoint dispatch (callbacks : list Callback) : Scrape (list Z) :=
  match callbacks with
  | [] => mret []
  | cb :: callbacks => observed ← run_callback cb; rest ← dispatch callbacks; mret (observed ++ rest)
  end.

Definition GAUGES : list (string * (Metrics → list Callback)) :=
  [("app_outbox_pending_gauge", outbox_pending_callbacks); ("app_db_pool_checked_in", db_pool_checked_in_callbacks);
   ("app_db_pool_checked_out", db_pool_checked_out_callbacks); ("app_db_pool_overflow", db_pool_overflow_callbacks);
   ("app_db_pool_size", db_pool_size_callbacks)].

Fixpoint scrape (gauges : list (string * (Metrics → list Callback))) (m : Metrics) : Scrape (list (string * list Z)) :=
  match gauges with
  | [] => mret []
  | (name, callbacks) :: gauges =>
      observed ← dispatch (callbacks m); rest ← scrape gauges m; mret ((name, observed) :: rest)
  end.
End scrape.

(** *** The provider *)

(** The module's singleton: the number of the provider in use, how many were built,
    and the mounts of the application. *)
Record Meters := mkMeters { METER_PROVIDER : option nat; built : nat; mounts : list string }.

Definition ensure_provider : M Meters nat := λ m,
  match METER_PROVIDER m with
  | Some n => (Ret n, m)
  | None => (Ret (built m), mkMeters (Some (built m)) (S (built m)) (mounts m))
  end.
Definition reset_meter_provider : M Meters unit := modify (λ m, mkMeters None (built m) (mounts m)).
(** A meter belongs to a provider and carries the feature's name. *)
Definition get_app_meter (feature : string) : M Meters (nat * string) := provider ← ensure_provider; mret (provider, feature).
Definition configure_metrics (is_fastapi enabled : bool) : M Meters unit :=
  if negb is_fastapi then mret tt else
  ensure_provider ;;
  when enabled (modify (λ m, mkMeters (METER_PROVIDER m) (built m) (mounts m ++ ["/metrics"]))).

(** ** The set-up of tracing *)

Inductive Instrument := SQLAlchemy | HTTPX | Redis.
#[global] Instance Instrument_eq_dec : EqDecision Instrument.
Proof. solve_decision. Defined.

Record TracingSettings := mkTracing {
  otel_exporter_endpoint : option string;
  tracing_environment : string;
  otel_traces_sampler_ratio : Q;
  otel_instrument_sqlalchemy : bool;
  otel_instrument_httpx : bool;
  otel_instrument_redis : bool;
  auth_redis_url : option string;
}.

(** The two globals of the module, what was instrumented, and the events logged. *)
Record Tracing := mkTracingState {
  TRACING_CONFIGURED : bool;
  PROVIDER : bool;
  instrumented : list Instrument;
  events : list string;
}.

Definition some_text (s : option string) : bool := match s with Some (String _ _) => true | _ => false end.

Definition configure_tracing (settings : TracingSettings) (t : Tracing) : Tracing :=
  if negb (some_text (otel_exporter_endpoint settings)) then
    mkTracingState (TRACING_CONFIGURED t) (PROVIDER t) (instrumented t) (events t ++ ["event=otel.tracing.disabled"])
  else if TRACING_CONFIGURED t then t
  else
    let high := String.eqb (tracing_environment settings) "production" && Qeq_bool (otel_traces_sampler_ratio settings) 1 in
    mkTracingState true true
      (instrumented t
       ++ (if otel_instrument_sqlalchemy settings then [SQLAlchemy] else [])
       ++ (if otel_instrument_httpx settings then [HTTPX] else [])
       ++ (if otel_instrument_redis settings && some_text (auth_redis_url settings) then [Redis] else []))
      (events t ++ (if high then ["event=otel.tracing.sampler.high_ratio"] else []) ++ ["event=otel.tracing.enabled"]).

(** [app.state.otel_instrumented], and how often the application was instrumented. *)
Definition instrument_fastapi_app (settings : TracingSettings) (app : bool * nat) : bool * nat :=
  if negb (some_text (otel_exporter_endpoint settings)) then app
  else if app.1 then app else (true, S app.2).
