(* ===== verification/TelemetryFacts.v ===== *)
(** Tracing changes nothing of what a call does; a scrape reports what can be read and
    does not fail. *)

From Stdlib Require Import Ascii String QArith_base.
From S2P Require Import Prelude PyStr Store Demo Json Principals Auth DemoAuth RefreshFamilies Logging LoggingFacts ErrorReporting ErrorReportingFacts Telemetry.
Open Scope string_scope.
Open Scope list_scope.
Open Scope Z_scope.

(** ** Spans *)

(** OpenTelemetry's API does not raise. *)
Class TracerLaws (T : Type) `{Tracer T} : Prop := {
  start_total name (t : T) : ∃ t', start_span name t = (Ret tt, t');
  attribute_total key value (t : T) : ∃ t', set_attribute key value t = (Ret tt, t');
  record_total e (t : T) : ∃ t', record_exception e t = (Ret tt, t');
  error_total description (t : T) : ∃ t', set_error description t = (Ret tt, t');
  end_total escaping (t : T) : ∃ t', end_span escaping t = (Ret tt, t');
}.

Section spans.
Context {T : Type} `{PyText} `{ExceptionText} `{Tracer T} `{!TracerLaws T}.
Context (formatter : Formatter) (context : LogContext) (now : time) (frame : string → json).
Context (prints : ∀ e, ∃ description, exc_str e = Ret description).

(** What the SDK is told about a call that ended with [r]. *)
Definition span_calls {A} (name : string) (attrs : dict) (r : outcome A) : M T unit :=
  start_span name ;;
  apply_span_attrs attrs ;;
  match r with
  | Ret _ => mret tt
  | Raise e => record_exception e ;; set_error (match exc_str e with Ret description => description | Raise _ => "" end)
  end ;;
  end_span match r with Ret _ => None | Raise e => Some e end.

Lemma apply_total attrs (t : T) : ∃ t', apply_span_attrs attrs t = (Ret tt, t').
Proof.
  revert t. induction attrs as [|[key value] attrs IH]; intros t; [by eexists|]. unfold apply_span_attrs. cbn [for_each]. rewrite run_bind.
  assert (∃ t', match value with JNull => mret tt | _ => set_attribute key (if primitive value then value else JStr (str_of value)) end t = (Ret tt, t')) as [t' Ht'].
  { destruct value; try apply attribute_total. by eexists. }
  destruct value; rewrite Ht'; apply IH.
Qed.

(** The attributes of a call, and the line written when they cannot be had. *)
Lemma resolve_runs {A} (attrs : AttrsArg A) args (w : World T) :
  (∀ f e, attrs = Callable f → f args = Raise e → is_exception e = true) →
  ∃ lines, resolve_attrs formatter context now frame attrs args w =
      (Ret match attrs with NoAttrs => [] | Static d => d | Callable f => match f args with Ret d => d | Raise _ => [] end end, writes lines w)
    ∧ length lines = match attrs with Callable f => match f args with Ret _ => 0%nat | Raise _ => 1%nat end | _ => 0%nat end.
Proof.
  intros Hf. assert (writes [] w = w) as Hw by (destruct w as [[] ?]; unfold writes; cbn; by rewrite app_nil_r).
  destruct attrs as [|d|f]; [by exists []; rewrite Hw..|]. cbn. unfold except_exception, try_except, lift.
  destruct (f args) as [d|e] eqn:E; [by exists []; rewrite Hw|]. rewrite (Hf f e eq_refl E) run_bind.
  match goal with |- context [log _ _ _ _ ?c w] => destruct (log_line formatter context now frame c w) as [line ->]; [done..|] end. by exists [line].
Qed.

Lemma run_on_sdk {S A} (m : M T A) (st : S * World T) :
  on_snd (on_sdk m) st = let '(r, t) := m (sdk st.2) in (r, (st.1, mkWorld (console st.2) t)).
Proof. unfold on_snd, on_sdk. by destruct (m _). Qed.

(** A traced call runs the call: the same result or exception, the same effect; beside
    that, the span and at most one line. *)
Lemma traced_runs {S A B} name (attrs : AttrsArg A) (func : A → M S B) args s (w : World T) :
  (∀ f e, attrs = Callable f → f args = Raise e → is_exception e = true) →
  let '(r, s') := func args s in
  let resolved := match attrs with NoAttrs => [] | Static d => d | Callable f => match f args with Ret d => d | Raise _ => [] end end in
  ∃ lines, traced formatter context now frame name attrs func args (s, w)
      = (r, (s', mkWorld (console (writes lines w)) (state_of (span_calls name resolved r) (sdk w))))
    ∧ length lines = match attrs with Callable f => match f args with Ret _ => 0%nat | Raise _ => 1%nat end | _ => 0%nat end.
Proof.
  intros Hf. destruct (func args s) as [r s'] eqn:Hr. intros resolved. unfold traced, with_span. rewrite run_on_sdk. cbn [fst snd].
  unfold state_of, span_calls. rewrite !run_bind. destruct (start_total name (sdk w)) as [t1 ->]. rewrite run_bind.
  unfold on_snd at 1. cbn [fst snd].
  destruct (resolve_runs attrs args (mkWorld (console w) t1) Hf) as (lines & -> & Hlen). fold resolved. exists lines. split; [|done].
  cbn [fst snd]. rewrite !run_bind run_on_sdk. cbn [fst snd sdk writes]. destruct (apply_total resolved t1) as [t2 ->].
  unfold try_except, on_fst. cbn [fst snd]. rewrite Hr. destruct r as [b|e].
  - rewrite run_on_sdk run_bind run_ret. cbn [fst snd sdk]. by destruct (end_total None t2) as [t3 ->].
  - rewrite !run_bind !run_on_sdk. cbn [fst snd sdk]. destruct (record_total e t2) as [t3 ->]. rewrite !run_bind.
    destruct (prints e) as [description ->]. unfold lift. rewrite run_bind run_on_sdk. cbn [fst snd sdk].
    destruct (error_total description t3) as [t4 ->]. rewrite run_raise run_on_sdk. cbn [fst snd sdk]. by destruct (end_total (Some e) t4) as [t5 ->].
Qed.
End spans.

(** What the span of a login or a registration is told when the use case returns, and
    when it raises [e]. *)
Definition returned_span {T} `{Tracer T} (name hash : string) : M T unit :=
  start_span name ;; set_attribute "user.email_hash" (JStr hash) ;; end_span None.
Definition raised_span {T} `{Tracer T} (name hash : string) (e : exn) (description : string) : M T unit :=
  start_span name ;; set_attribute "user.email_hash" (JStr hash) ;;
  record_exception e ;; set_error description ;; end_span (Some e).
Definition told {T A} `{ExceptionText} `{Tracer T} (name hash : string) (r : outcome A) (t t' : T) : Prop :=
  match r with
  | Ret _ => t' = state_of (returned_span name hash) t
  | Raise e => ∃ description, exc_str e = Ret description ∧ t' = state_of (raised_span name hash e description) t
  end.

Lemma told_user_span {T A} `{PyText} `{ExceptionText} `{Tracer T} `{!TracerLaws T} name hash (r : outcome A) (t : T) :
  (∀ e, ∃ description, exc_str e = Ret description) →
  told name hash r t (state_of (span_calls name [("user.email_hash", JStr hash)] r) t).
Proof.
  intros Hp. unfold span_calls, apply_span_attrs. cbn [for_each primitive].
  destruct r as [b|e]; cbn [told]; [|destruct (Hp e) as [description Hd]; exists description; split; [done|rewrite Hd]].
  all: unfold state_of, returned_span, raised_span; rewrite !run_bind; destruct (start_total name t) as [t1 ->].
  all: rewrite !run_bind; destruct (attribute_total "user.email_hash" (JStr hash) t1) as [t2 ->]; rewrite run_ret.
  { done. }
  rewrite !run_bind. by destruct (record_total e t2) as [t3 ->].
Qed.

Lemma traced_user {T S B} `{Env} `{PyText} `{ExceptionText} `{!Tracer T} `{!TracerLaws T} formatter context now frame
    name (func : Credentials → M S B) c s (w : World T) :
  (∀ e, ∃ description, exc_str e = Ret description) →
  ∃ t, traced formatter context now frame name user_attrs func c (s, w) = ((func c s).1, ((func c s).2, mkWorld (console w) t))
    ∧ told name (email_hash (arg_email c)) (func c s).1 (sdk w) t.
Proof.
  intros Hp. pose proof (traced_runs formatter context now frame Hp name user_attrs func c s w) as Hrun.
  destruct (func c s) as [r s']. destruct Hrun as (lines & -> & Hlen); [by intros f e [= <-]|]. cbn in Hlen. destruct lines; [|done].
  eexists. cbn [fst snd]. split; [|by apply told_user_span]. do 3 f_equal.
  unfold writes. cbn. rewrite app_nil_r. by destruct (console w).
Qed.

(** C31. Tracing is transparent.  When OpenTelemetry's API does not raise and exceptions
    can be printed, a decorated call returns or raises what the call does, with the same
    effect, whether its attributes can be computed or not (then one line is logged); the
    span is started, told the attributes and an exception with its text, and ended.  A
    login and a registration are the use cases themselves.  When the use case returns,
    with whatever result, its span is told the first sixteen digits of the hash of the
    normalized address and nothing else, so that attempts whose addresses share them
    leave the same span whatever the password and the result; when it raises, the span
    is told the exception and its text besides. *)
Theorem traced_calls_are_transparent {T} `{Env} `{Jwt} `{PyText} `{ExceptionText} `{!Tracer T} `{!TracerLaws T} formatter context now frame cfg :
  (∀ e, ∃ description, exc_str e = Ret description) →
  let hash c := String.substring 0 16 (sha256_hex (normalize_email (arg_email c))) in
  let login c := LoginUser.execute cfg (arg_email c) (arg_password c) (arg_ip_address c) (arg_user_agent c) in
  let registration c := RegisterUser.execute (arg_email c) (arg_password c) (arg_ip_address c) (arg_user_agent c) in
  (∀ S A B name (attrs : AttrsArg A) (func : A → M S B) args s (w : World T),
    (∀ f e, attrs = Callable f → f args = Raise e → is_exception e = true) →
    let resolved := match attrs with NoAttrs => [] | Static d => d | Callable f => match f args with Ret d => d | Raise _ => [] end end in
    ∃ lines, traced formatter context now frame name attrs func args (s, w)
        = ((func args s).1, ((func args s).2,
            mkWorld (console (writes lines w)) (state_of (span_calls name resolved (func args s).1) (sdk w))))
      ∧ (length lines <= 1)%nat)
  ∧ (∀ c s (w : World T),
      (∃ t, login_user formatter context now frame cfg c (s, w) = ((login c s).1, ((login c s).2, mkWorld (console w) t))
        ∧ told "auth.login_user" (hash c) (login c s).1 (sdk w) t)
      ∧ (∃ t, register_user formatter context now frame c (s, w) = ((registration c s).1, ((registration c s).2, mkWorld (console w) t))
        ∧ told "auth.register_user" (hash c) (registration c s).1 (sdk w) t))
  ∧ (∀ c c' s s' (w : World T) r r',
      hash c = hash c' → (login c s).1 = Ret r → (login c' s').1 = Ret r' →
      (login_user formatter context now frame cfg c (s, w)).2.2 = (login_user formatter context now frame cfg c' (s', w)).2.2).
Proof.
  intros Hp hash login registration.
  assert (Hlogin : ∀ c s w, ∃ t, login_user formatter context now frame cfg c (s, w) = ((login c s).1, ((login c s).2, mkWorld (console w) t))
    ∧ told "auth.login_user" (hash c) (login c s).1 (sdk w) t) by (intros c s w; by apply traced_user).
  split_and!.
  - intros S A B name attrs func args s w Hf resolved.
    pose proof (traced_runs formatter context now frame Hp name attrs func args s w Hf) as Hrun.
    destruct (func args s) as [r s']. destruct Hrun as (lines & Hrun & Hlen). exists lines. split; [exact Hrun|]. rewrite Hlen.
    destruct attrs; [lia..|]. destruct (attrs args); lia.
  - intros c s w. split; [apply Hlogin|by apply traced_user].
  - intros c c' s s' w r r' Hh Hr Hr'. destruct (Hlogin c s w) as (t & -> & Ht), (Hlogin c' s' w) as (t' & -> & Ht').
    rewrite Hr Hh in Ht. rewrite Hr' in Ht'. cbn in Ht, Ht' |- *. by rewrite Ht Ht'.
Qed.

(** ** Scrapes *)

Section scrapes.
Context (engines : nat → EngineState).

(** What a callback observes, and what it warns of. *)
Definition reading (cb : Callback) : list Z * list string :=
  match cb with
  | PendingCount engine =>
      match query_outcome (engines engine) with
      | Ret _ => ([pending_rows (rows (engines engine))], [])
      | Raise _ => ([], ["event=metrics.outbox_pending.query_failed"])
      end
  | PoolRead engine method_name =>
      match pool_accessor (engines engine) method_name with
      | Some (Ret value) => ([value], [])
      | Some (Raise _) => ([], ["event=metrics.db_pool.read_failed method=" +:+ method_name])
      | None => ([], [])
      end
  end.

Context (queries_raise : ∀ n e, query_outcome (engines n) = Raise e → is_exception e = true)
        (pools_raise : ∀ n m e, pool_accessor (engines n) m = Some (Raise e) → is_exception e = true).

Lemma callback_runs cb warned : run_callback engines cb warned = (Ret (reading cb).1, warned ++ (reading cb).2).
Proof.
  destruct cb as [n|n m]; cbn [run_callback reading].
  - destruct (query_outcome (engines n)) as [|e] eqn:E; unfold swallow; [by rewrite run_ret app_nil_r|].
    by rewrite (queries_raise _ _ E).
  - destruct (pool_accessor (engines n) m) as [[z|e]|] eqn:E; unfold swallow; try by rewrite run_ret app_nil_r.
    by rewrite (pools_raise _ _ _ E).
Qed.

Lemma dispatch_runs callbacks warned :
  dispatch engines callbacks warned = (Ret (concat (map (fst ∘ reading) callbacks)), warned ++ concat (map (snd ∘ reading) callbacks)).
Proof.
  revert warned. induction callbacks as [|cb callbacks IH]; intros warned; cbn [dispatch map concat]; [by rewrite run_ret app_nil_r|].
  by rewrite run_bind callback_runs run_bind IH run_ret /= -assoc.
Qed.

Lemma scrape_runs gauges m warned :
  ∃ warnings, scrape engines gauges m warned
    = (Ret (map (λ g : string * (Metrics → list Callback), (g.1, concat (map (fst ∘ reading) (g.2 m)))) gauges), warned ++ warnings).
Proof.
  revert warned. induction gauges as [|[name callbacks] gauges IH]; intros warned; cbn [scrape map]; [exists []; by rewrite run_ret app_nil_r|].
  rewrite run_bind dispatch_runs run_bind. destruct (IH (warned ++ concat (map (snd ∘ reading) (callbacks m)))) as [warnings ->].
  rewrite run_ret. eexists. by rewrite -assoc.
Qed.
End scrapes.

(** A scrape of [/metrics] does not fail.  With the callbacks of one engine
    registered at the start, the gauge of the outbox shows the number of pending rows
    when the database answers, each gauge of the pool shows its counter when the pool
    has one and it can be read; what cannot be read is missing from the scrape, and the
    other gauges are there all the same. *)
Theorem scrapes_do_not_fail engines engine warned :
  (∀ n e, query_outcome (engines n) = Raise e → is_exception e = true) →
  (∀ n m e, pool_accessor (engines n) m = Some (Raise e) → is_exception e = true) →
  let m := register_outbox_pending_callback engine (register_db_pool_gauges engine no_callbacks) in
  let pool name := match pool_accessor (engines engine) name with Some (Ret value) => [value] | _ => [] end in
  ∃ warnings, scrape engines GAUGES m warned =
    (Ret [("app_outbox_pending_gauge", match query_outcome (engines engine) with Ret _ => [pending_rows (rows (engines engine))] | Raise _ => [] end);
          ("app_db_pool_checked_in", pool "checkedin"); ("app_db_pool_checked_out", pool "checkedout");
          ("app_db_pool_overflow", pool "overflow"); ("app_db_pool_size", pool "size")], warned ++ warnings).
Proof.
  intros Hq Hp m pool. destruct (scrape_runs engines Hq Hp GAUGES m warned) as [warnings ->]. exists warnings. do 2 f_equal.
  unfold GAUGES, m, no_callbacks, pool. cbn -[pending_rows]. rewrite !app_nil_r.
  repeat f_equal; by repeat case_match.
Qed.

(** The comment above the callbacks calls registering again a no-op; the docstring of
    the helper says that a second callback is appended, and that is what happens: each
    application built in a process adds one more observation of the same engine. *)
Theorem registering_again_observes_twice engines engine m warned :
  query_outcome (engines engine) = Ret tt →
  let twice := register_outbox_pending_callback engine (register_outbox_pending_callback engine m) in
  outbox_pending_callbacks m = [] →
  (dispatch engines (outbox_pending_callbacks twice) warned).1
    = Ret [pending_rows (rows (engines engine)); pending_rows (rows (engines engine))].
Proof. intros Hq twice Hm. unfold twice. cbn. rewrite Hm. cbn. by rewrite Hq. Qed.

(** *** The provider and the set-up *)

(** Between two resets all meters belong to one provider, whichever asks first. *)
Theorem meters_share_a_provider feature feature' m :
  let '(first, m1) := get_app_meter feature m in
  let '(second, m2) := get_app_meter feature' m1 in
  first = Ret (default (built m) (METER_PROVIDER m), feature) ∧ second = Ret (default (built m) (METER_PROVIDER m), feature') ∧ m2 = m1
  ∧ (∀ is_fastapi enabled, METER_PROVIDER (state_of (configure_metrics is_fastapi enabled) m1) = METER_PROVIDER m1).
Proof. destruct m as [[n|] b l]; cbn; split_and!; try done; by intros [] []. Qed.

(** Without an endpoint nothing is set up; with one, setting up again changes nothing,
    Redis is instrumented only where there is one, and an application only once. *)
Theorem tracing_is_set_up_once settings t app :
  let t' := configure_tracing settings t in
  if some_text (otel_exporter_endpoint settings)
  then configure_tracing settings t' = t' ∧ TRACING_CONFIGURED t' = true
       ∧ (TRACING_CONFIGURED t = false → Redis ∉ instrumented t → Redis ∈ instrumented t' → some_text (auth_redis_url settings) = true)
       ∧ instrument_fastapi_app settings (instrument_fastapi_app settings app) = instrument_fastapi_app settings app
  else instrumented t' = instrumented t ∧ PROVIDER t' = PROVIDER t ∧ instrument_fastapi_app settings app = app.
Proof.
  intros t'. unfold t', configure_tracing, instrument_fastapi_app. destruct (some_text (otel_exporter_endpoint settings)) eqn:E; cbn [negb]; [|done].
  destruct (TRACING_CONFIGURED t) eqn:Ht; cbn; rewrite ?Ht; split_and!; try done; try by destruct app as [[] n].
  intros _ Hno. rewrite !elem_of_app. destruct (some_text (auth_redis_url settings)); [done|]. rewrite andb_false_r.
  destruct (otel_instrument_sqlalchemy settings), (otel_instrument_httpx settings); set_solver.
Qed.

(** ** A concrete recorder and a concrete engine *)

Inductive SpanEvent :=
  | Started (name : string)
  | Attribute (key : string) (value : json)
  | Recorded (e : exn)
  | Errored (description : string)
  | Ended.
#[local] Instance demo_tracer : Tracer (list SpanEvent) := {|
  start_span name := modify (λ l, l ++ [Started name]);
  set_attribute key value := modify (λ l, l ++ [Attribute key value]);
  record_exception e := modify (λ l, l ++ [Recorded e]);
  set_error description := modify (λ l, l ++ [Errored description]);
  end_span _ := modify (λ l, l ++ [Ended]);
|}.
#[local] Instance demo_tracer_laws : TracerLaws (list SpanEvent).
Proof. split; intros; by eexists. Qed.
#[local] Instance demo_exceptions : ExceptionText := {|
  type_name _ := "Exception";
  exc_str _ := Ret "failed";
  traceback _ := "Traceback";
|}.

(** A call that fails: the caller sees its exception and its effect, the span knows. *)
Lemma traced_calls_are_transparent_witness :
  (∃ lines t, traced (T := list SpanEvent) Text demo_context 0 (λ _, JNull) "demo" (Static [("n", JInt 1); ("none", JNull)])
      (λ n : nat, modify (Nat.add n) ;; raise (A := unit) (KeyError "x")) 2%nat (3%nat, mkWorld (mkConsole [] 0) [])
    = (Raise (KeyError "x"), (5%nat, mkWorld (mkConsole lines 0) t))
    ∧ (length lines <= 1)%nat) ∧
  (* A wrong and the right password leave the same span. *)
  (∀ w : World (list SpanEvent),
    (login_user Text demo_context 0 (λ _, JNull) demo_settings (mkCredentials "Ada@Example.com" "wrong" None None) (demo_registered, w)).2.2 =
    (login_user Text demo_context 0 (λ _, JNull) demo_settings (mkCredentials "ada@example.com" "Correct-horse-1" None None) (demo_registered, w)).2.2).
Proof.
  destruct (traced_calls_are_transparent (T := list SpanEvent) Text demo_context 0 (λ _, JNull) demo_settings) as (Htraced & _ & Hsame); [intros e; by eexists|].
  split; last first.
  { intros w. eapply Hsame; vm_compute; reflexivity. }
  destruct (Htraced _ _ _ "demo" (Static [("n", JInt 1); ("none", JNull)]) (λ n : nat, modify (Nat.add n) ;; raise (A := unit) (KeyError "x")) 2%nat 3%nat
    (mkWorld (mkConsole [] 0) [])) as (lines & Hrun & Hlen); [done|]. eexists lines, _. split; [exact Hrun|exact Hlen].
Defined.

(** What the recorder has seen of it. *)
Example demo_span :
  sdk (state_of (traced (T := list SpanEvent) Text demo_context 0 (λ _, JNull) "demo" (Static [("n", JInt 1); ("none", JNull)])
    (λ n : nat, modify (Nat.add n) ;; raise (A := unit) (KeyError "x")) 2%nat) (3%nat, mkWorld (mkConsole [] 0) [])).2
  = [Started "demo"; Attribute "n" (JInt 1); Recorded (KeyError "x"); Errored "failed"; Ended].
Proof. reflexivity. Qed.

(** A database that is down, and SQLite's pool, which only has a size. *)
Definition demo_engine : EngineState :=
  mkEngine (Raise (OSError "connection refused")) empty_db (λ name, if String.eqb name "size" then Some (Ret 5) else None).
Lemma scrapes_do_not_fail_witness :
  ∃ warnings, scrape (λ _, demo_engine) GAUGES (register_outbox_pending_callback 0 (register_db_pool_gauges 0 no_callbacks)) []
    = (Ret [("app_outbox_pending_gauge", []); ("app_db_pool_checked_in", []); ("app_db_pool_checked_out", []); ("app_db_pool_overflow", []); ("app_db_pool_size", [5])], warnings).
Proof.
  apply (scrapes_do_not_fail (λ _, demo_engine) 0 []).
  - by intros n e [= <-].
  - intros n m e. cbn. by destruct (String.eqb m "size").
Defined.

Lemma registering_again_observes_twice_witness :
  let engine := mkEngine (Ret tt) empty_db (λ _, None) in
  (dispatch (λ _, engine) (outbox_pending_callbacks (register_outbox_pending_callback 0 (register_outbox_pending_callback 0 no_callbacks))) []).1 = Ret [0; 0].
Proof. apply (registering_again_observes_twice (λ _, mkEngine (Ret tt) empty_db (λ _, None)) 0 no_callbacks []); reflexivity. Defined.
