(* ===== verification/S3.v ===== *)
(** The S3 adapter ([features/file_storage/adapters/outbound/s3/adapter.py]).  The
    boto3 client is a parameter; a call answers or raises one of botocore's two
    families of exceptions. *)

From Stdlib Require Import String.
From stdpp Require Import pretty.
From S2P Require Import Prelude PyStr Uuid Store Files.
Open Scope string_scope.
Open Scope list_scope.
Open Scope Z_scope.

(** ** boto3 *)

(** A [ClientError] with the fields of its response, or a [BotoCoreError]; [text]
    is [str(exc)]. *)
Inductive S3Failure :=
  | ClientError (code message : option string) (http_status : option Z) (text : string)
  | BotoCoreError (text : string).

(** The calls in use, on a bucket and a key.  A listing yields pages of entries,
    whose [Key] may be missing; it fails as a whole when a page does. *)
Class S3Client (C : Type) := {
  put_object : string → string → string → string → C → Result unit S3Failure * C;
  get_object : string → string → C → Result string S3Failure * C;
  delete_object : string → string → C → Result unit S3Failure * C;
  paginate : string → string → C → Result (list (list (option string))) S3Failure * C;
  head_object : string → string → C → Result unit S3Failure * C;
  generate_presigned_url : string → string → Z → C → Result string S3Failure * C;
}.

(** ** [S3FileStorageAdapter] *)

Definition S3_PRESIGNED_URL_MAX_SECONDS : Z := 604800.
Definition NOT_FOUND_CODES : list string := ["NoSuchKey"; "404"; "NotFound"].

Definition is_not_found (exc : S3Failure) : bool :=
  match exc with
  | ClientError code _ http_status _ =>
      match code with Some c => bool_decide (c ∈ NOT_FOUND_CODES) | None => false end || bool_decide (http_status = Some 404)
  | BotoCoreError _ => false
  end.
Definition format_client_error (exc : S3Failure) : string :=
  match exc with
  | ClientError code message _ text => default "Unknown" code +:+ ": " +:+ default text message
  | BotoCoreError text => text
  end.

Module S3FileStorageAdapter.
Record S3FileStorageAdapter (C : Type) := mkAdapter { bucket : string; client : C }.
Arguments mkAdapter {C}. Arguments bucket {C}. Arguments client {C}.

Section adapter.
Context {C : Type} `{S3Client C}.
Abbreviation Adapter := (S3FileStorageAdapter C).

(** One call on the adapter's bucket. *)
Definition request {A} (call : string → C → Result A S3Failure * C) : M Adapter (Result A S3Failure) := λ a,
  let '(r, c) := call (bucket a) (client a) in (Ret r, mkAdapter (bucket a) c).

(** The two [except] clauses. *)
Definition backend_error {A} (exc : S3Failure) : Result A FileStorageError :=
  Err (StorageBackendError (format_client_error exc)).
Definition not_found_or_backend {A} (key : string) (exc : S3Failure) : Result A FileStorageError :=
  if is_not_found exc then Err (ObjectNotFoundError key) else backend_error exc.

Definition put (key content content_type : string) : M Adapter (Result unit FileStorageError) :=
  response ← request (λ bucket, put_object bucket key content content_type);
  mret match response with Err exc => backend_error exc | Ok _ => Ok tt end.

Definition get (key : string) : M Adapter (Result string FileStorageError) :=
  response ← request (λ bucket, get_object bucket key);
  mret match response with Err exc => not_found_or_backend key exc | Ok body => Ok body end.

Definition delete (key : string) : M Adapter (Result unit FileStorageError) :=
  response ← request (λ bucket, delete_object bucket key);
  mret match response with Err exc => backend_error exc | Ok _ => Ok tt end.

Definition list_keys (prefix : string) : M Adapter (Result (list string) FileStorageError) :=
  response ← request (λ bucket, paginate bucket prefix);
  mret match response with Err exc => backend_error exc | Ok pages => Ok (omap id (concat pages)) end.

Definition signed_url (key : string) (expires_in : Z) : M Adapter (Result string FileStorageError) :=
  if S3_PRESIGNED_URL_MAX_SECONDS <? expires_in
  then mret (Err (StorageBackendError ("expires_in exceeds S3 maximum of " +:+ pretty S3_PRESIGNED_URL_MAX_SECONDS +:+ " seconds")))
  else
  head ← request (λ bucket, head_object bucket key);
  match head with
  | Err exc => mret (not_found_or_backend key exc)
  | Ok _ =>
      url ← request (λ bucket, generate_presigned_url bucket key expires_in);
      mret match url with Err exc => backend_error exc | Ok url => Ok url end
  end.

#[global] Instance s3_storage : FileStoragePort Adapter := {|
  storage_put := put;
  storage_get := get;
  storage_delete := delete;
  storage_list := list_keys;
  storage_signed_url := signed_url;
|}.
End adapter.
End S3FileStorageAdapter.
