(* ===== verification/S3Facts.v ===== *)
(** The S3 adapter implements the storage contract, and backends that implement it
    answer alike. *)

From Stdlib Require Import String.
From S2P Require Import Prelude PyStr Uuid Store Demo Files FilesFacts S3.
Open Scope string_scope.
Open Scope list_scope.
Open Scope Z_scope.

(** ** S3 *)

(** What S3 documents of one bucket: requests are atomic and listings consistent, a
    write that failed may have happened all the same, a deletion of a missing key
    succeeds, and only a missing object is reported as not found. *)
Class S3ClientLaws (C : Type) `{S3Client C} := {
  objects : string → C → gmap string string;
  put_object_law b k v ct c : let '(r, c') := put_object b k v ct c in
    objects b c' = <[k := v]> (objects b c) ∨ (is_ok r = false ∧ objects b c' = objects b c);
  get_object_law b k c : let '(r, c') := get_object b k c in objects b c' = objects b c ∧
    match r with Ok v => objects b c !! k = Some v | Err exc => is_not_found exc = true → objects b c !! k = None end;
  delete_object_law b k c : let '(r, c') := delete_object b k c in
    objects b c' = delete k (objects b c) ∨ (is_ok r = false ∧ objects b c' = objects b c);
  paginate_law b prefix c : let '(r, c') := paginate b prefix c in objects b c' = objects b c ∧
    ∀ pages, r = Ok pages → ∀ k, Some k ∈ concat pages ↔ k ∈ dom (objects b c) ∧ String.prefix prefix k = true;
  head_object_law b k c : let '(r, c') := head_object b k c in objects b c' = objects b c ∧
    match r with Ok _ => is_Some (objects b c !! k) | Err exc => is_not_found exc = true → objects b c !! k = None end;
  generate_presigned_url_law b k n c : objects b (generate_presigned_url b k n c).2 = objects b c;
}.

Section s3.
Context {C : Type} `{S3ClientLaws C}.
Import S3FileStorageAdapter.
Abbreviation Adapter := (S3FileStorageAdapter C).
Implicit Types a : Adapter.

Definition stored a : gmap string string := objects (bucket a) (client a).

#[global, program] Instance s3_laws : FileStorageLaws Adapter := {|
  storage_ok _ := True;
  storage_keys a := dom (stored a);
  storage_at a k := stored a !! k;
|}.
Next Obligation.
  intros key content ct a _. cbn. unfold put, request. rewrite run_bind. cbn.
  pose proof (put_object_law (bucket a) key content ct (client a)) as Hp. destruct (put_object _ _ _ _ _) as [r c'].
  eexists _, _. split; [done|]. split_and!; [done|..].
  - intros k Hk. unfold stored. cbn. destruct Hp as [->|[_ ->]]; [|done]. rewrite lookup_insert_ne // dom_insert. set_solver.
  - destruct r; [|done]. intros _. unfold stored. cbn. destruct Hp as [->|[[=] _]]. rewrite lookup_insert_eq dom_insert. set_solver.
Qed.
Next Obligation.
  intros key a _. cbn. unfold get, request. rewrite run_bind. cbn.
  pose proof (get_object_law (bucket a) key (client a)) as Hg. destruct (get_object _ _ _) as [r c']. destruct Hg as [Ho Hr].
  eexists _, _. split; [done|]. unfold stored. cbn. rewrite Ho. split_and!; [done..|]. destruct r as [v|exc]; [done|].
  unfold not_found_or_backend, backend_error. destruct (is_not_found exc); [|done]. split; [done|by apply Hr].
Qed.
Next Obligation.
  intros key a _. cbn. unfold S3FileStorageAdapter.delete, request. rewrite run_bind. cbn.
  pose proof (delete_object_law (bucket a) key (client a)) as Hd. destruct (delete_object _ _ _) as [r c'].
  eexists _, _. split; [done|]. unfold stored. cbn. split_and!; [done|..].
  - destruct Hd as [->|[_ ->]]; [rewrite dom_delete; set_solver|done].
  - intros k Hk. destruct Hd as [->|[_ ->]]; [|done]. rewrite lookup_delete_ne // dom_delete. set_solver.
  - destruct r; [|done]. intros _. destruct Hd as [->|[[=] _]]. rewrite lookup_delete_eq dom_delete. set_solver.
Qed.
Next Obligation.
  intros prefix a _. cbn. unfold list_keys, request. rewrite run_bind. cbn.
  pose proof (paginate_law (bucket a) prefix (client a)) as Hp. destruct (paginate _ _ _) as [r c']. destruct Hp as [Ho Hk].
  eexists _, _. split; [done|]. unfold stored. cbn. rewrite Ho. split_and!; [done..|]. destruct r as [pages|exc]; [|done].
  intros k. rewrite -Hk // list_elem_of_omap. unfold id. split; [intros (? & ? & ->); done|by eexists].
Qed.
Next Obligation.
  intros key n a _. cbn. unfold signed_url. destruct (S3_PRESIGNED_URL_MAX_SECONDS <? n); [by eexists _, a|].
  unfold request. rewrite run_bind. cbn. pose proof (head_object_law (bucket a) key (client a)) as Hh.
  destruct (head_object _ _ _) as [r c']. destruct Hh as [Ho Hr]. destruct r as [v|exc].
  - rewrite run_bind. cbn. pose proof (generate_presigned_url_law (bucket a) key n c') as Hp.
    destruct (generate_presigned_url _ _ _ _) as [r c2]. cbn in Hp. eexists _, _. split; [done|]. unfold stored. cbn.
    rewrite Hp Ho. split_and!; [done..|]. by destruct r.
  - eexists _, _. split; [done|]. unfold stored. cbn. rewrite Ho. split_and!; [done..|].
    unfold not_found_or_backend, backend_error. destruct (is_not_found exc); [|done]. split; [done|by apply Hr].
Qed.
End s3.

(** ** Any two backends *)

(** The operations of a client, and what it sees: a listing as a set. *)
Inductive StorageOp := Put (key content content_type : string) | Get (key : string) | Delete (key : string) | List_ (prefix : string).
Inductive Answer := Done | Content (c : string) | Missing | Keys (ks : gset string).

Section backend.
Context {F : Type} `{FileStorageLaws F}.

(** [None] when the backend fails. *)
Definition answer_of {A} (f : A → Answer) (r : Result A FileStorageError) : option Answer :=
  match r with Ok a => Some (f a) | Err _ => None end.
Definition perform (op : StorageOp) : M F (option Answer) :=
  match op with
  | Put key content ct => r ← storage_put key content ct; mret (answer_of (λ _, Done) r)
  | Get key =>
      r ← storage_get key;
      mret (match r with Err (ObjectNotFoundError _) => Some Missing | _ => answer_of Content r end)
  | Delete key => r ← storage_delete key; mret (answer_of (λ _, Done) r)
  | List_ prefix => r ← storage_list prefix; mret (answer_of (λ ks, Keys (list_to_set ks)) r)
  end.
Fixpoint perform_all (ops : list StorageOp) : M F (list (option Answer)) :=
  match ops with
  | [] => mret []
  | op :: ops => a ← perform op; rest ← perform_all ops; mret (a :: rest)
  end.

(** What one operation that does not fail answers and leaves behind. *)
Definition after (op : StorageOp) (keys : gset string) (content : string → option string)
    : Answer * gset string * (string → option string) :=
  match op with
  | Put key c _ => (Done, {[ key ]} ∪ keys, λ k, if decide (k = key) then Some c else content k)
  | Get key => (match content key with Some c => Content c | None => Missing end, keys, content)
  | Delete key => (Done, keys ∖ {[ key ]}, λ k, if decide (k = key) then None else content k)
  | List_ prefix => (Keys (filter (λ k, String.prefix prefix k = true) keys), keys, content)
  end.

Lemma perform_spec op f : storage_ok f → ∃ a f', perform op f = (Ret a, f') ∧ storage_ok f' ∧
  (is_Some a → let '(a', keys, content) := after op (storage_keys f) (storage_at f) in
     a = Some a' ∧ storage_keys f' = keys ∧ ∀ k, storage_at f' k = content k).
Proof.
  intros Hok. destruct op as [key c ct|key|key|prefix]; cbn.
  - destruct (put_law key c ct f Hok) as (r & f' & E & Hok' & Ho & Hr). rewrite run_bind E. eexists _, f'.
    split_and!; [done..|]. destruct r as [u|]; [|by intros []]. intros _. destruct (Hr eq_refl) as [Hin Hat]. split_and!; [done|..].
    + apply set_eq. intros k. destruct (decide (k = key)) as [->|Hne]; [set_solver|]. destruct (Ho k Hne) as [_ ->]. set_solver.
    + intros k. destruct (decide (k = key)) as [->|Hne]; [done|by apply Ho].
  - destruct (get_law key f Hok) as (r & f' & E & Hok' & Hk & Ha & Hr). rewrite run_bind E. eexists _, f'.
    split_and!; [done..|]. destruct r as [v|[k'|]]; [rewrite Hr; done| |by intros []]. destruct Hr as [_ ->]. done.
  - destruct (delete_law key f Hok) as (r & f' & E & Hok' & Hsub & Ho & Hr). rewrite run_bind E. eexists _, f'.
    split_and!; [done..|]. destruct r as [u|]; [|by intros []]. intros _. destruct (Hr eq_refl) as [Hin Hat]. split_and!; [done|..].
    + apply set_eq. intros k. destruct (decide (k = key)) as [->|Hne]; [set_solver|]. destruct (Ho k Hne) as [_ ->]. set_solver.
    + intros k. destruct (decide (k = key)) as [->|Hne]; [done|by apply Ho].
  - destruct (list_law prefix f Hok) as (r & f' & E & Hok' & Hk & Ha & Hr). rewrite run_bind E. eexists _, f'.
    split_and!; [done..|]. destruct r as [ks|]; [|by intros []]. intros _. split_and!; [|done..]. cbn [answer_of]. do 2 f_equal.
    apply set_eq. intros k. rewrite elem_of_list_to_set Hr elem_of_filter. tauto.
Qed.

Lemma perform_all_total ops f : storage_ok f → ∃ a f', perform_all ops f = (Ret a, f').
Proof.
  revert f. induction ops as [|op ops IH]; intros f Hok; [by eexists _, _|].
  destruct (perform_spec op f Hok) as (a & f1 & E & Hok1 & _). destruct (IH f1 Hok1) as (as_ & f2 & E2).
  eexists _, f2. cbn. by rewrite run_bind E run_bind E2.
Qed.
End backend.

Lemma after_ext op keys c1 c2 : (∀ k, c1 k = c2 k) →
  (after op keys c1).1 = (after op keys c2).1 ∧ ∀ k, (after op keys c1).2 k = (after op keys c2).2 k.
Proof.
  intros Hc. destruct op; cbn; rewrite ?Hc; split; try done; intros j; rewrite ?Hc; done.
Qed.

Section two.
Context {F1 F2 : Type} `{L1 : FileStorageLaws F1} `{L2 : FileStorageLaws F2}.

(** Two backends that implement the contract and hold the same blobs answer any
    session alike, as long as neither reports a failure: what has been put is
    read back and listed until it is deleted, what is missing is reported missing,
    and listings agree as sets. *)
Theorem backends_agree ops (f1 : F1) (f2 : F2) :
  storage_ok f1 → storage_ok f2 → storage_keys f1 = storage_keys f2 → (∀ k, storage_at f1 k = storage_at f2 k) →
  ∃ a1 f1' a2 f2', perform_all ops f1 = (Ret a1, f1') ∧ perform_all ops f2 = (Ret a2, f2') ∧
  (Forall is_Some a1 → Forall is_Some a2 →
     a1 = a2 ∧ storage_keys f1' = storage_keys f2' ∧ ∀ k, storage_at f1' k = storage_at f2' k).
Proof.
  revert f1 f2. induction ops as [|op ops IH]; intros f1 f2 H1 H2 Hk Ha; [by eexists _, _, _, _|].
  destruct (perform_spec op f1 H1) as (a1 & g1 & E1 & G1 & S1). destruct (perform_spec op f2 H2) as (a2 & g2 & E2 & G2 & S2).
  cbn [perform_all]. rewrite !run_bind E1 E2.
  destruct (decide (is_Some a1 ∧ is_Some a2)) as [[Hs1 Hs2]|Hfail].
  - specialize (S1 Hs1). specialize (S2 Hs2). rewrite -Hk in S2.
    destruct (after_ext op (storage_keys f1) (storage_at f1) (storage_at f2) Ha) as [Hq Hc].
    destruct (after op _ (storage_at f1)) as [[b1 ks1] c1], (after op _ (storage_at f2)) as [[b2 ks2] c2].
    cbn in Hq, Hc. injection Hq as <- <-. destruct S1 as (-> & K1 & C1), S2 as (-> & K2 & C2).
    destruct (IH g1 g2 G1 G2) as (r1 & h1 & r2 & h2 & R1 & R2 & Hr); [congruence|intros k; by rewrite C1 C2|].
    exists (Some b1 :: r1), h1, (Some b1 :: r2), h2. rewrite !run_bind R1 R2. split_and!; [done..|].
    intros Hf1 Hf2. inversion_clear Hf1. inversion_clear Hf2. destruct Hr as (-> & ? & ?); done.
  - destruct (perform_all_total ops g1 G1) as (r1 & h1 & R1), (perform_all_total ops g2 G2) as (r2 & h2 & R2).
    exists (a1 :: r1), h1, (a2 :: r2), h2. rewrite !run_bind R1 R2. split_and!; [done..|].
    intros Hf1 Hf2. inversion_clear Hf1. inversion_clear Hf2. by destruct Hfail.
Qed.
End two.

(** ** Evaluated *)

(** A service that never fails; a listing has one entry per page. *)
Abbreviation demo_service := (gmap string (gmap string string)).
Definition demo_objects (b : string) (c : demo_service) : gmap string string := default ∅ (c !! b).
#[global] Instance demo_client : S3Client demo_service := {|
  put_object b k v _ c := (Ok tt, <[b := <[k := v]> (demo_objects b c)]> c);
  get_object b k c := (match demo_objects b c !! k with
                       | Some v => Ok v
                       | None => Err (ClientError (Some "NoSuchKey") (Some "The specified key does not exist.") (Some 404) "NoSuchKey")
                       end, c);
  delete_object b k c := (Ok tt, <[b := delete k (demo_objects b c)]> c);
  paginate b prefix c :=
    (Ok ((λ k, [Some k]) <$> elements (filter (λ k, String.prefix prefix k = true) (dom (demo_objects b c)))), c);
  head_object b k c := (match demo_objects b c !! k with Some _ => Ok tt | None => Err (ClientError (Some "404") None (Some 404) "") end, c);
  generate_presigned_url b k expires_in c := (Ok ("https://" +:+ b +:+ ".s3.amazonaws.com/" +:+ k), c);
|}.
#[global] Instance demo_client_laws : S3ClientLaws demo_service.
Proof.
  refine {| objects := demo_objects |}.
  - intros b k v ct c. cbn. left. unfold demo_objects. by rewrite lookup_insert_eq.
  - intros b k c. cbn. split; [done|]. by destruct (demo_objects b c !! k).
  - intros b k c. cbn. left. unfold demo_objects. by rewrite lookup_insert_eq.
  - intros b prefix c. cbn. split; [done|]. intros pages [= <-] k.
    assert (Hc : ∀ l : list string, Some k ∈ concat ((λ k, [Some k]) <$> l) ↔ k ∈ l).
    { induction l as [|j l IH]; [cbn; by rewrite !elem_of_nil|]. cbn. rewrite !elem_of_cons IH. naive_solver. }
    rewrite Hc elem_of_elements elem_of_filter. tauto.
  - intros b k c. cbn. split; [done|]. by destruct (demo_objects b c !! k).
  - done.
Defined.

Definition demo_session : list StorageOp :=
  [Put "notes/1" "hello" "text/plain"; Put "notes/2" "bye" "text/plain"; Get "notes/1"; List_ "notes/"; Delete "notes/1";
   Get "notes/1"; List_ "notes/"].
Definition demo_answers : list (option Answer) :=
  [Some Done; Some Done; Some (Content "hello"); Some (Keys {["notes/1"; "notes/2"]}); Some Done; Some Missing; Some (Keys {["notes/2"]})].

(** A disk and a bucket, both empty at first. *)
Lemma backends_agree_witness :
  ∃ f1' f2', perform_all demo_session (mkLocalFs true ∅ ∅ 0) = (Ret demo_answers, f1') ∧
    perform_all demo_session (S3FileStorageAdapter.mkAdapter "blobs" (∅ : demo_service)) = (Ret demo_answers, f2') ∧
    storage_keys f1' = storage_keys f2'.
Proof.
  destruct (backends_agree demo_session (mkLocalFs true ∅ ∅ 0) (S3FileStorageAdapter.mkAdapter "blobs" (∅ : demo_service)))
    as (a1 & f1 & a2 & f2 & E1 & E2 & Hag).
  - split; [intros p k ct Hp; vm_compute in Hp; discriminate Hp|intros E; discriminate E].
  - exact I.
  - vm_compute. reflexivity.
  - intros k. reflexivity.
  - pose proof (f_equal fst E1) as A1. vm_compute in A1. injection A1 as <-.
    pose proof (f_equal fst E2) as A2. vm_compute in A2. injection A2 as <-.
    exists f1, f2. split_and!; [etransitivity; [exact E1|vm_compute; reflexivity]|etransitivity; [exact E2|vm_compute; reflexivity]|].
    apply Hag; repeat constructor; done.
Defined.
